(* ===== verification/_CoqProject ===== *)
-Q . S2P
Prelude.v
Md5.v
Scheduler.v
Buffer.v
AvpSend.v
State.v
Logic.v
Ppp.v
AddrPool.v
Auth.v
Config.v
Calls.v
Pppd.v
Messages.v
Closing.v
Avp.v
Finish.v
Packet.v
Heap.v
Invariant.v
Termination.v
Status.v
Startup.v
Control.v
Client.v
Main.v
System.v
