(* ===== verification/Prelude.v ===== *)
(** * xl2tpd: a verification development

    xl2tpd is a daemon for the Layer Two Tunneling Protocol (RFC 2661).  It
    keeps control connections (tunnels) with peers over UDP, sets up calls in
    them, starts a pppd for every call and carries the PPP frames between pppd
    and the peer.  [xl2tpd-control] is the program that sends it commands.
    This library models the daemon and the control program as they are compiled
    for Linux, and proves what makes them correct.

    ** The program and its model

    The C program is one process with global state: linked lists of tunnels
    and of their calls, lists of LNS and LAC entries from the configuration, a
    queue of timed events, a table of reserved addresses.  The model keeps that
    state in one record, [State.world].  Pointers are keys of finite maps, so
    that two pointers to one object are two copies of a key, and a pointer to an
    object that was freed is a key without an entry: its use is undefined
    behaviour.  The code is translated into a monad over [world]
    ([State.M]) with three results: a value with the new state, undefined
    behaviour ([UB]), and lack of fuel ([NoFuel]).  Integers are [Z] with their
    conversions written out; memory is a list of bytes in which every access is
    checked.

    What the system and the C library answer comes from streams in the state
    ([State.env]: the clock, [rand], entropy, [malloc], [write], the system
    calls, [ptsname], what a fresh stack array holds) or is a parameter of the
    definitions ([gethostbyname] for the options, [strerror], how an address
    is printed, whether a file can be opened).  What the daemon does to the
    outside is recorded in [w_out] (packets, terminals, processes, answers to
    commands) and [w_sys] (system calls with their answers).

    Files, in the order in which they depend on each other:
    - [Prelude]: integers, bytes, lists, tactics and hints.
    - [Md5]: src/md5.c and the digest of RFC 1321.
    - [Scheduler]: src/scheduler.c, the queue of timed events.
    - [Buffer]: the packet buffers of src/misc.c, src/control.c, src/call.c.
    - [AvpSend]: src/avpsend.c, the writers of attributes.
    - [State]: the structures of the header files, the environment, the monad.
    - [Logic]: rules for total and partial correctness, invariants, fuel; the
      linked lists.
    - [Ppp]: the framing of PPP on a terminal ([add_fcs], [write_packet],
      [read_packet]).
    - [AddrPool], [Auth]: src/aaa.c; the address pool, and challenges, secrets
      and hidden attributes.
    - [Config]: src/file.c and [init_args].
    - [Calls]: tunnels and calls (src/call.c, [new_tunnel], [destroy_tunnel],
      [control_xmit], [udp_xmit]); [Messages] and [Closing] have lemmas on them.
    - [Pppd]: src/pty.c, [start_pppd], [connect_pppol2tp].
    - [Avp]: src/avp.c, the readers of attributes.
    - [Finish]: [control_finish] of src/control.c, the state machine of the
      control connection, one definition for each message, and dialing.
    - [Packet]: headers, [handle_packet] and the rest of src/control.c and
      src/network.c: the sweep, the data from pppd, child processes, the end.
    - [Heap]: the shape of the lists of tunnels and calls; [Invariant]:
      [world_ok], which every operation keeps; [Termination]: the loops of the
      control side end in states that satisfy it.
    - [Status], [Startup]: [show_status]; [init_network], [daemonize],
      [consider_pidfile], [open_controlfd].
    - [Control]: the control pipe of src/xl2tpd.c.
    - [Client]: src/xl2tpd-control.c.
    - [Main]: [init], one round of [network_thread], [main].
    - [System]: the properties of whole runs, from the command line through any
      number of rounds of the main loop.

    ** What is proved

    - The whole program ([System]): after any run, whatever the configuration,
      the packets, the commands and the signals were, the timers are in order,
      the sequence numbers are 16-bit numbers and the lists of tunnels and calls
      are well formed; the clock of the system must give normalised times
      ([clock_ok]).  If neither the configuration ([no_range_configured]) nor a
      command ([no_range_input]) gives an LNS a range of local addresses, two
      calls also have different addresses from the pool; [local_address_shared]
      shows how a range of local addresses breaks this.  [Invariant.world_ok]
      has a flag for the part that needs the restriction.  From any state of a run
      the handling of packets, timers, signals and hang-ups and the sweep end,
      and [process_schedule] leaves no entry that is due ([timers_run]).
    - The control connection ([Packet], [Finish]): messages are taken in order
      and once; a tunnel comes up only for a peer that answered the challenge; a
      LAC sends the request its configuration asks for; an unanswered packet is
      sent again by the timer queue as often as configured and then closes the
      tunnel ([Packet.unanswered_packet], over [Mprocess_schedule]).
    - Encodings: attributes and headers are read back as they were written
      ([Avp], [Packet]), payload with the expected number is delivered as it was
      sent, hidden attributes are recovered ([Auth]), frames are read back from a
      terminal when the reads succeed ([Ppp]; [escape_lost]: a read that would
      block after an escape byte), MD5 is the function of its specification
      ([Md5]).
    - Configuration ([Config]): the text of a file means its statements; what is
      accepted is valid.  The message of the control program does to the daemon
      what its arguments say ([Client]).
    - Addresses ([AddrPool]): the table is a set, [get_addr] finds a free address
      if there is one.
    - Processes and descriptors ([Pppd], [Startup]): pppd is started on the
      terminal or the session that was just opened and, when the daemon's own
      descriptors are above 2, inherits none of them ([background_stdin]: in the
      background the control pipe is descriptor 0); which descriptors the error
      paths lose.
    - Where the code does not do what it means to, theorems say what it does
      (for example [read_packet_overruns], [removed_lac_redials],
      [background_stdin]).

    ** Fuel

    Recursion that is not structural takes a number of steps, and running out is
    a result of its own.  Walks along a list take one more than the size of the
    map its nodes live in, and [Calls.tunnel_fuel_enough] and
    [call_fuel_enough] show that a list without a cycle is never longer.
    [call_close] and [control_xmit] call each other at most three deep
    ([Closing.call_close_depth]; the model allows eight), [control_finish] calls
    itself at most once ([Finish.control_finish_depth]).  The attribute loop takes
    the length of the message ([Avp.handle_avps_terminates]), the loops over a
    configuration or secrets file the length of the file
    ([Config.parse_lines_fuel]), the option loop of a command the length of its
    buffer ([Client.client_adds_lac]; [Control.blank_option_hangs] shows an input
    on which no number is enough).  [process_schedule] takes one step for each
    entry that is due ([System.timers_run]).  The sweep of
    [build_fdset] has a walk for every closing it can do: two for each call and
    each tunnel.  [System.handling_terminates] puts these together: in the states
    of a run the fuel is enough.  What a round of the main loop may take is part
    of its input.

    ** Not modelled

    The text of log messages, packet dumps ([do_packet_dump], [bufferDump]) and of
    [show_status]; the random seed; the contents of the terminal settings; a
    failing [malloc] in the parser of the configuration file and for the
    options of pppd; the code for other systems than Linux; src/contrib (a
    packet filter compiler and a desktop helper, which are not part of the
    daemon). *)

From Stdlib Require Export ZArith Lia.
From coqutil Require Export Datatypes.RecordSettersUsingExistingGetters.
From stdpp Require Export base numbers option list.

(** Record updates [{ r with f := v; ... }] reduce with [cbn]. *)
#[global] Arguments RecordSettersUsingExistingGetters.const {E} newValue _ /.

#[global] Open Scope Z_scope.

(** ** Machine integers

    A w-bit C integer is a [Z]; wrap-around is written out with these. *)

Definition u8 (z : Z) : Z := z mod 2 ^ 8.
Definition u16 (z : Z) : Z := z mod 2 ^ 16.
Definition u32 (z : Z) : Z := z mod 2 ^ 32.
Definition u64 (z : Z) : Z := z mod 2 ^ 64.

Definition is_u8 (z : Z) : Prop := 0 <= z < 2 ^ 8.
Definition is_u16 (z : Z) : Prop := 0 <= z < 2 ^ 16.
Definition is_u32 (z : Z) : Prop := 0 <= z < 2 ^ 32.

(** Conversion to a signed 32-bit [int] (two's complement). *)
Definition s32 (z : Z) : Z := (z + 2 ^ 31) mod 2 ^ 32 - 2 ^ 31.

#[export] Instance is_u8_dec z : Decision (is_u8 z).
Proof. unfold is_u8. apply _. Defined.
#[export] Instance is_u16_dec z : Decision (is_u16 z).
Proof. unfold is_u16. apply _. Defined.
#[export] Instance is_u32_dec z : Decision (is_u32 z).
Proof. unfold is_u32. apply _. Defined.

(** C truth values: a condition is false exactly when it is zero. *)
Definition truthy (z : Z) : bool := negb (z =? 0).

(** [zify]-based arithmetic with division and modulo expanded. *)
Ltac zdiv := Z.to_euclidean_division_equations; lia.
Ltac unfold_uint :=
  unfold u8, u16, u32, u64, s32, is_u8, is_u16, is_u32 in *;
  change (2 ^ 8) with 256 in *; change (2 ^ 16) with 65536 in *;
  change (2 ^ 32) with 4294967296 in *; change (2 ^ 31) with 2147483648 in *;
  change (2 ^ 64) with 18446744073709551616 in *.
Ltac uint := unfold_uint; zdiv.

Create HintDb l2tp.
Create Rewrite HintDb blen.

Lemma u8_range z : is_u8 (u8 z).
Proof. uint. Qed.
Lemma u16_range z : is_u16 (u16 z).
Proof. uint. Qed.
Lemma u32_range z : is_u32 (u32 z).
Proof. uint. Qed.
Lemma u8_id z : is_u8 z → u8 z = z.
Proof. uint. Qed.
Lemma u16_id z : is_u16 z → u16 z = z.
Proof. uint. Qed.
Lemma u32_id z : is_u32 z → u32 z = z.
Proof. uint. Qed.
#[export] Hint Resolve u8_range u16_range u32_range : l2tp.

(** Bitwise operations stay inside the width of their arguments. *)
Lemma Z_bounded_by_bits (n z : Z) :
  0 <= n → (0 <= z < 2 ^ n ↔ 0 <= z ∧ ∀ i, n <= i → Z.testbit z i = false).
Proof.
  intros Hn. split.
  - intros [H0 H1]. split; [done|]. intros i Hi.
    destruct (Z.eq_dec z 0) as [->|Hz]; [apply Z.bits_0|].
    apply Z.bits_above_log2; [done|].
    assert (Z.log2 z < n) by (apply Z.log2_lt_pow2; lia). lia.
  - intros [H0 Hb]. split; [done|].
    destruct (Z.eq_dec z 0) as [->|Hz]; [apply Z.pow_pos_nonneg; lia|].
    apply Z.log2_lt_pow2; [lia|].
    destruct (Z.lt_ge_cases (Z.log2 z) n) as [?|Hge]; [done|].
    specialize (Hb _ Hge). rewrite Z.bit_log2 in Hb by lia. done.
Qed.

Lemma lxor_bound n a b :
  0 <= n → 0 <= a < 2 ^ n → 0 <= b < 2 ^ n → 0 <= Z.lxor a b < 2 ^ n.
Proof.
  intros Hn Ha Hb.
  apply Z_bounded_by_bits in Ha as [Ha0 Ha]; [|done].
  apply Z_bounded_by_bits in Hb as [Hb0 Hb]; [|done].
  apply Z_bounded_by_bits; [done|]. split; [by apply Z.lxor_nonneg|].
  intros i Hi. by rewrite Z.lxor_spec, Ha, Hb.
Qed.

Lemma land_bound n a b :
  0 <= n → 0 <= a < 2 ^ n → 0 <= Z.land a b < 2 ^ n.
Proof.
  intros Hn Ha. apply Z_bounded_by_bits in Ha as [Ha0 Ha]; [|done].
  apply Z_bounded_by_bits; [done|]. split; [apply Z.land_nonneg; by left|].
  intros i Hi. by rewrite Z.land_spec, Ha.
Qed.

Lemma lor_bound n a b :
  0 <= n → 0 <= a < 2 ^ n → 0 <= b < 2 ^ n → 0 <= Z.lor a b < 2 ^ n.
Proof.
  intros Hn Ha Hb.
  apply Z_bounded_by_bits in Ha as [Ha0 Ha]; [|done].
  apply Z_bounded_by_bits in Hb as [Hb0 Hb]; [|done].
  apply Z_bounded_by_bits; [done|]. split; [by apply Z.lor_nonneg|].
  intros i Hi. by rewrite Z.lor_spec, Ha, Hb.
Qed.

(** ** Byte strings and flat memory

    A region of memory is the list of its bytes.  Loads and stores take an
    offset from its beginning and return [None] when they leave the region:
    an access the C program has no right to make. *)

Abbreviation bytes := (list Z) (only parsing).

Definition is_bytes (l : list Z) : Prop := Forall is_u8 l.

(** [blen]: the length of a byte string as a [Z]. *)
Definition blen (l : list Z) : Z := Z.of_nat (length l).

Definition ldn (m : list Z) (o n : Z) : option (list Z) :=
  if (0 <=? o) && (0 <=? n) && (o + n <=? blen m)
  then Some (take (Z.to_nat n) (drop (Z.to_nat o) m)) else None.

Definition stn (m : list Z) (o : Z) (bs : list Z) : option (list Z) :=
  if (0 <=? o) && (o + blen bs <=? blen m)
  then Some (take (Z.to_nat o) m ++ bs ++ drop (Z.to_nat o + length bs) m)
  else None.

Definition ld8 (m : list Z) (o : Z) : option Z :=
  match ldn m o 1 with Some [b] => Some b | _ => None end.
Definition st8 (m : list Z) (o v : Z) : option (list Z) := stn m o [u8 v].

(** The host is little-endian; [htons] and [ntohs] swap the two bytes. *)
Definition ld16 (m : list Z) (o : Z) : option Z :=
  match ldn m o 2 with Some [b0; b1] => Some (b0 + 256 * b1) | _ => None end.
Definition st16 (m : list Z) (o v : Z) : option (list Z) :=
  stn m o [u8 v; u8 (v / 256)].

Definition bswap16 (v : Z) : Z := u8 v * 256 + u8 (v / 256).
Definition htons (v : Z) : Z := bswap16 v.
Definition ntohs (v : Z) : Z := bswap16 v.

Definition bswap32 (v : Z) : Z :=
  u8 v * 2 ^ 24 + u8 (v / 2 ^ 8) * 2 ^ 16 + u8 (v / 2 ^ 16) * 2 ^ 8 + u8 (v / 2 ^ 24).
Definition htonl (v : Z) : Z := bswap32 v.
Definition ntohl (v : Z) : Z := bswap32 v.

(** The two bytes of a 16-bit value in network order. *)
Definition be16 (v : Z) : list Z := [u8 (v / 256); u8 v].

(** Splitting a value off its low byte. *)
Lemma u8_low a b : is_u8 b → u8 (a * 256 + b) = b.
Proof. unfold_uint. intros. rewrite Z.add_comm, Z_mod_plus_full. by apply Z.mod_small. Qed.
Lemma div_low a b : is_u8 b → (a * 256 + b) / 256 = a.
Proof. unfold_uint. intros. rewrite Z.add_comm, Z.div_add, Z.div_small by lia. lia. Qed.

Lemma bswap16_involutive v : is_u16 v → bswap16 (bswap16 v) = v.
Proof.
  intros Hv. unfold bswap16 at 1. unfold bswap16.
  rewrite u8_low, div_low by auto with l2tp.
  unfold_uint. rewrite (Z.mod_small (v / 256)) by zdiv.
  rewrite (Z.mod_small (v mod 256)) by zdiv. zdiv.
Qed.
Lemma htons_ntohs v : is_u16 v → ntohs (htons v) = v.
Proof. apply bswap16_involutive. Qed.

Lemma bswap32_bytes b0 b1 b2 b3 :
  is_u8 b0 → is_u8 b1 → is_u8 b2 → is_u8 b3 →
  bswap32 (((b3 * 256 + b2) * 256 + b1) * 256 + b0)
  = ((b0 * 256 + b1) * 256 + b2) * 256 + b3.
Proof.
  intros H0 H1 H2 H3. unfold bswap32.
  change (2 ^ 24) with (256 * (256 * 256)). change (2 ^ 16) with (256 * 256).
  change (2 ^ 8) with 256.
  rewrite <-!Z.div_div by lia.
  rewrite !div_low, !u8_low by done. rewrite (u8_id b3) by done. lia.
Qed.

Lemma u32_as_bytes v :
  is_u32 v → ∃ b0 b1 b2 b3, is_u8 b0 ∧ is_u8 b1 ∧ is_u8 b2 ∧ is_u8 b3 ∧
    v = ((b3 * 256 + b2) * 256 + b1) * 256 + b0.
Proof.
  intros Hv. exists (v mod 256), (v / 256 mod 256), (v / 256 / 256 mod 256), (v / 256 / 256 / 256).
  unfold_uint. repeat split; zdiv.
Qed.

Lemma bswap32_involutive v : is_u32 v → bswap32 (bswap32 v) = v.
Proof.
  intros (b0 & b1 & b2 & b3 & H0 & H1 & H2 & H3 & ->)%u32_as_bytes.
  by rewrite !bswap32_bytes.
Qed.
Lemma htonl_ntohl v : is_u32 v → ntohl (htonl v) = v.
Proof. apply bswap32_involutive. Qed.
Lemma bswap16_range v : is_u16 (bswap16 v).
Proof.
  unfold bswap16. pose proof (u8_range v). pose proof (u8_range (v / 256)).
  unfold is_u16, is_u8 in *. lia.
Qed.
Lemma bswap32_range v : is_u32 (bswap32 v).
Proof.
  unfold bswap32. pose proof (u8_range v). pose proof (u8_range (v / 2 ^ 8)).
  pose proof (u8_range (v / 2 ^ 16)). pose proof (u8_range (v / 2 ^ 24)).
  unfold is_u32, is_u8 in *. lia.
Qed.
#[export] Hint Resolve bswap16_range bswap32_range : l2tp.

(** A value stored after [htons] is in network order in memory. *)
Lemma st16_htons m o v : st16 m o (htons v) = stn m o (be16 v).
Proof.
  unfold st16, htons, bswap16, be16.
  rewrite u8_low, div_low by auto with l2tp. by rewrite (u8_id (u8 v)) by apply u8_range.
Qed.

Lemma blen_nil : blen [] = 0.
Proof. done. Qed.
Lemma blen_cons x l : blen (x :: l) = 1 + blen l.
Proof. unfold blen. cbn [length]. lia. Qed.
Lemma blen_app l k : blen (l ++ k) = blen l + blen k.
Proof. unfold blen. rewrite length_app. lia. Qed.
Lemma blen_nonneg l : 0 <= blen l.
Proof. unfold blen. lia. Qed.
Lemma blen_be16 v : blen (be16 v) = 2.
Proof. done. Qed.
Lemma blen_replicate n x : blen (replicate n x) = Z.of_nat n.
Proof. unfold blen. by rewrite length_replicate. Qed.
#[export] Hint Rewrite blen_nil blen_cons blen_app blen_be16 blen_replicate : blen.
#[export] Hint Resolve blen_nonneg : l2tp.
Ltac blen := autorewrite with blen in *; try lia.

(** *** Loads and stores *)

Lemma ldn_Some m o n l :
  ldn m o n = Some l ↔
  0 <= o ∧ 0 <= n ∧ o + n <= blen m ∧ l = take (Z.to_nat n) (drop (Z.to_nat o) m).
Proof. unfold ldn. case_match; [|split; [done|lia]].
  split; [intros [= <-]|intros (?&?&?&->)]; repeat split; lia. Qed.

Lemma stn_Some m o bs m' :
  stn m o bs = Some m' ↔
  0 <= o ∧ o + blen bs <= blen m ∧
  m' = take (Z.to_nat o) m ++ bs ++ drop (Z.to_nat o + length bs) m.
Proof. unfold stn. case_match; [|split; [done|lia]].
  split; [intros [= <-]|intros (?&?&->)]; repeat split; lia. Qed.

Lemma ldn_length m o n l : ldn m o n = Some l → blen l = n.
Proof.
  intros (Ho & Hn & Hb & ->)%ldn_Some. unfold blen in *.
  rewrite length_take, length_drop. lia.
Qed.

Lemma stn_length m o bs m' : stn m o bs = Some m' → blen m' = blen m.
Proof.
  intros (Ho & Hb & ->)%stn_Some. unfold blen in *.
  rewrite !length_app, length_take, length_drop. lia.
Qed.

Lemma ldn_ok m o n :
  0 <= o → 0 <= n → o + n <= blen m → is_Some (ldn m o n).
Proof. intros. eexists. apply ldn_Some. eauto. Qed.

Lemma stn_ok m o bs :
  0 <= o → o + blen bs <= blen m → is_Some (stn m o bs).
Proof. intros. eexists. apply stn_Some. eauto. Qed.

(** Loads and stores relative to a decomposition of the region. *)
Lemma ldn_app_mid pre l post :
  ldn (pre ++ l ++ post) (blen pre) (blen l) = Some l.
Proof.
  apply ldn_Some. unfold blen. rewrite !length_app, !Nat2Z.id. repeat split; try lia.
  by rewrite drop_app_length, take_app_length.
Qed.

Lemma stn_app_mid pre l post bs :
  length l = length bs →
  stn (pre ++ l ++ post) (blen pre) bs = Some (pre ++ bs ++ post).
Proof.
  intros Hl. apply stn_Some. unfold blen. rewrite !length_app. repeat split; try lia.
  rewrite Nat2Z.id, take_app_length, <-drop_drop, drop_app_length, <-Hl, drop_app_length.
  done.
Qed.

(** Every in-range access sees such a decomposition. *)
Lemma mem_split m o n :
  0 <= o → 0 <= n → o + n <= blen m →
  ∃ pre l post, m = pre ++ l ++ post ∧ blen pre = o ∧ blen l = n.
Proof.
  intros Ho Hn Hb.
  exists (take (Z.to_nat o) m), (take (Z.to_nat n) (drop (Z.to_nat o) m)),
    (drop (Z.to_nat n) (drop (Z.to_nat o) m)).
  rewrite !take_drop. split; [done|]. unfold blen in *.
  rewrite !length_take, length_drop. lia.
Qed.

Lemma ldn_stn_eq m o bs m' : stn m o bs = Some m' → ldn m' o (blen bs) = Some bs.
Proof.
  intros (Ho & Hb & ->)%stn_Some.
  replace o with (blen (take (Z.to_nat o) m)) at 3.
  - apply ldn_app_mid.
  - unfold blen in *. rewrite length_take. lia.
Qed.

Lemma ldn_stn_before m o bs m' p n :
  stn m o bs = Some m' → p + n <= o → ldn m' p n = ldn m p n.
Proof.
  intros Hs Hp. pose proof (stn_length _ _ _ _ Hs) as Hl.
  apply stn_Some in Hs as (Ho & Hb & ->). unfold ldn. rewrite Hl.
  case_match; [|done]. f_equal. unfold blen in *.
  rewrite !drop_app_le, take_app_le by (rewrite ?length_drop, length_take; lia).
  rewrite <-(take_drop (Z.to_nat o) m) at 2.
  by rewrite drop_app_le, take_app_le by (rewrite ?length_drop, length_take; lia).
Qed.

Lemma ldn_stn_after m o bs m' p n :
  stn m o bs = Some m' → o + blen bs <= p → ldn m' p n = ldn m p n.
Proof.
  intros Hs Hp. pose proof (stn_length _ _ _ _ Hs) as Hl.
  apply stn_Some in Hs as (Ho & Hb & ->). unfold ldn. rewrite Hl.
  case_match; [|done]. f_equal. unfold blen in *.
  rewrite app_assoc.
  rewrite drop_app_ge by (rewrite length_app, length_take; lia).
  rewrite drop_drop, length_app, length_take. do 2 f_equal. lia.
Qed.

Lemma ldn_add m o n k l1 l2 :
  ldn m o n = Some l1 → ldn m (o + n) k = Some l2 → ldn m o (n + k) = Some (l1 ++ l2).
Proof.
  intros (Ho & Hn & Hb & ->)%ldn_Some (_ & Hk & Hb2 & ->)%ldn_Some.
  apply ldn_Some. repeat split; try lia.
  rewrite !Z2Nat.inj_add by lia. by rewrite <-take_take_drop, drop_drop.
Qed.

(** *** Bytes *)

Lemma is_bytes_app l k : is_bytes (l ++ k) ↔ is_bytes l ∧ is_bytes k.
Proof. apply Forall_app. Qed.
Lemma is_bytes_take n l : is_bytes l → is_bytes (take n l).
Proof. apply Forall_take. Qed.
Lemma is_bytes_drop n l : is_bytes l → is_bytes (drop n l).
Proof. apply Forall_drop. Qed.
Lemma is_bytes_be16 v : is_bytes (be16 v).
Proof. unfold be16. repeat constructor; apply u8_range. Qed.
Lemma is_bytes_zeros n : is_bytes (replicate n 0).
Proof. apply Forall_replicate. unfold is_u8. lia. Qed.
#[export] Hint Resolve is_bytes_take is_bytes_drop is_bytes_be16 is_bytes_zeros : l2tp.

Lemma stn_is_bytes m o bs m' :
  is_bytes m → is_bytes bs → stn m o bs = Some m' → is_bytes m'.
Proof.
  intros Hm Hbs (_ & _ & ->)%stn_Some.
  rewrite !is_bytes_app. auto with l2tp.
Qed.

(** ** Lists *)

Lemma filter_all {A} (P : A → Prop) `{∀ x, Decision (P x)} (l : list A) :
  (∀ x, x ∈ l → P x) → filter P l = l.
Proof.
  induction l as [|x l IH]; [done|]. intros HP.
  rewrite filter_cons_True by (apply HP; left). f_equal. apply IH. intros y Hy.
  apply HP. by right.
Qed.

(** ** Bytes and words at a position given by what precedes it *)

(** Reassociating appends, for rewriting. *)
Ltac napp := repeat (progress (cbn [app]; rewrite <-?app_assoc)); reflexivity.

Lemma ld8_mid pre ch post : ld8 (pre ++ ch :: post) (blen pre) = Some ch.
Proof. unfold ld8. change (ch :: post) with ([ch] ++ post). change 1 with (blen [ch]). by rewrite ldn_app_mid. Qed.

Lemma st8_mid pre ch post v : st8 (pre ++ ch :: post) (blen pre) v = Some (pre ++ u8 v :: post).
Proof. unfold st8. change (ch :: post) with ([ch] ++ post). by rewrite stn_app_mid. Qed.

(** Words in host order. *)

Definition le16 (v : Z) : list Z := [u8 v; u8 (v / 256)].

Lemma ld16_mid pre v post : is_u16 v → ld16 (pre ++ le16 v ++ post) (blen pre) = Some v.
Proof.
  intros Hv. unfold ld16. change 2 with (blen (le16 v)). rewrite ldn_app_mid. unfold le16. f_equal.
  unfold_uint. rewrite (Z.mod_small (v / 256)) by zdiv. zdiv.
Qed.
Lemma ld16_be pre n post : is_u16 n → ld16 (pre ++ be16 n ++ post) (blen pre) = Some (htons n).
Proof.
  intros Hv. unfold ld16. change 2 with (blen (be16 n)). rewrite ldn_app_mid. unfold be16, htons, bswap16.
  f_equal. lia.
Qed.
Lemma st16_mid pre l post v : length l = 2%nat → st16 (pre ++ l ++ post) (blen pre) v = Some (pre ++ le16 v ++ post).
Proof. intros. unfold st16. by apply stn_app_mid. Qed.
Lemma le16_ntohs a : [u8 (ntohs a); u8 (ntohs a / 256)] = be16 a.
Proof.
  unfold ntohs, bswap16, be16. rewrite u8_low, div_low by auto with l2tp.
  by rewrite (u8_id (u8 a)) by apply u8_range.
Qed.

(** Memory facts at a position given as the length of what precedes it. *)
Lemma ld16_at m pre v post p :
  m = pre ++ le16 v ++ post → p = blen pre → is_u16 v → ld16 m p = Some v.
Proof. intros -> ->. apply ld16_mid. Qed.
Lemma st16_at m pre l post p v :
  m = pre ++ l ++ post → p = blen pre → length l = 2%nat → st16 m p v = Some (pre ++ le16 v ++ post).
Proof. intros -> ->. apply st16_mid. Qed.
Lemma blen_le16 v : blen (le16 v) = 2.
Proof. done. Qed.
#[export] Hint Rewrite blen_le16 : blen.
