(* ===== verification/Md5.v ===== *)
(** * MD5 (src/md5.c, src/md5.h)

    The hash that authenticates tunnels and hides AVPs.  [MD5Transform],
    [MD5Init], [MD5Update] and [MD5Final] are translated for a little-endian
    host, on which [byteReverse] is the empty macro; [rfc_md5] is the
    algorithm of RFC 1321 written independently of the code.  The theorems
    show that the block function is the one of the RFC, and that any
    sequence of updates followed by [MD5Final] computes the RFC digest of
    the concatenation of the buffers. *)

From S2P Require Import Prelude.

Module Md5.

(** ** The code *)

Definition not32 (z : Z) : Z := Z.lxor z 0xffffffff.

Definition F1 (x y z : Z) : Z := Z.lxor z (Z.land x (Z.lxor y z)).
Definition F2 (x y z : Z) : Z := F1 z x y.
Definition F3 (x y z : Z) : Z := Z.lxor (Z.lxor x y) z.
Definition F4 (x y z : Z) : Z := Z.lxor y (Z.lor x (not32 z)).

(** [( w += f(x, y, z) + data,  w = w<<s | w>>(32-s),  w += x )] *)
Definition MD5STEP (f : Z → Z → Z → Z) (w x y z data s : Z) : Z :=
  let w := u32 (w + u32 (f x y z + data)) in
  let w := Z.lor (u32 (Z.shiftl w s)) (Z.shiftr w (32 - s)) in
  u32 (w + x).

(** The registers of [MD5Transform], and one of its 64 lines. *)
Record regs := Regs { reg_a : Z; reg_b : Z; reg_c : Z; reg_d : Z }.
Inductive reg := ra | rb | rc | rd.
Record md5_line := MD5STEP_line {
  l_f : Z → Z → Z → Z; l_w : reg; l_x : reg; l_y : reg; l_z : reg;
  l_k : nat; l_t : Z; l_s : Z }.

Definition get_reg (r : reg) (g : regs) : Z :=
  match r with ra => reg_a g | rb => reg_b g | rc => reg_c g | rd => reg_d g end.
Definition set_reg (r : reg) (v : Z) (g : regs) : regs :=
  let '(Regs a b c d) := g in
  match r with
  | ra => Regs v b c d | rb => Regs a v c d | rc => Regs a b v d | rd => Regs a b c v
  end.

Definition run_line (inw : list Z) (g : regs) (l : md5_line) : regs :=
  set_reg (l_w l)
    (MD5STEP (l_f l) (get_reg (l_w l) g) (get_reg (l_x l) g) (get_reg (l_y l) g)
       (get_reg (l_z l) g) (u32 (nth (l_k l) inw 0 + l_t l)) (l_s l)) g.

Definition MD5Transform_lines : list md5_line :=
  [MD5STEP_line F1 ra rb rc rd 0 0xd76aa478 7;
   MD5STEP_line F1 rd ra rb rc 1 0xe8c7b756 12;
   MD5STEP_line F1 rc rd ra rb 2 0x242070db 17;
   MD5STEP_line F1 rb rc rd ra 3 0xc1bdceee 22;
   MD5STEP_line F1 ra rb rc rd 4 0xf57c0faf 7;
   MD5STEP_line F1 rd ra rb rc 5 0x4787c62a 12;
   MD5STEP_line F1 rc rd ra rb 6 0xa8304613 17;
   MD5STEP_line F1 rb rc rd ra 7 0xfd469501 22;
   MD5STEP_line F1 ra rb rc rd 8 0x698098d8 7;
   MD5STEP_line F1 rd ra rb rc 9 0x8b44f7af 12;
   MD5STEP_line F1 rc rd ra rb 10 0xffff5bb1 17;
   MD5STEP_line F1 rb rc rd ra 11 0x895cd7be 22;
   MD5STEP_line F1 ra rb rc rd 12 0x6b901122 7;
   MD5STEP_line F1 rd ra rb rc 13 0xfd987193 12;
   MD5STEP_line F1 rc rd ra rb 14 0xa679438e 17;
   MD5STEP_line F1 rb rc rd ra 15 0x49b40821 22;
   MD5STEP_line F2 ra rb rc rd 1 0xf61e2562 5;
   MD5STEP_line F2 rd ra rb rc 6 0xc040b340 9;
   MD5STEP_line F2 rc rd ra rb 11 0x265e5a51 14;
   MD5STEP_line F2 rb rc rd ra 0 0xe9b6c7aa 20;
   MD5STEP_line F2 ra rb rc rd 5 0xd62f105d 5;
   MD5STEP_line F2 rd ra rb rc 10 0x02441453 9;
   MD5STEP_line F2 rc rd ra rb 15 0xd8a1e681 14;
   MD5STEP_line F2 rb rc rd ra 4 0xe7d3fbc8 20;
   MD5STEP_line F2 ra rb rc rd 9 0x21e1cde6 5;
   MD5STEP_line F2 rd ra rb rc 14 0xc33707d6 9;
   MD5STEP_line F2 rc rd ra rb 3 0xf4d50d87 14;
   MD5STEP_line F2 rb rc rd ra 8 0x455a14ed 20;
   MD5STEP_line F2 ra rb rc rd 13 0xa9e3e905 5;
   MD5STEP_line F2 rd ra rb rc 2 0xfcefa3f8 9;
   MD5STEP_line F2 rc rd ra rb 7 0x676f02d9 14;
   MD5STEP_line F2 rb rc rd ra 12 0x8d2a4c8a 20;
   MD5STEP_line F3 ra rb rc rd 5 0xfffa3942 4;
   MD5STEP_line F3 rd ra rb rc 8 0x8771f681 11;
   MD5STEP_line F3 rc rd ra rb 11 0x6d9d6122 16;
   MD5STEP_line F3 rb rc rd ra 14 0xfde5380c 23;
   MD5STEP_line F3 ra rb rc rd 1 0xa4beea44 4;
   MD5STEP_line F3 rd ra rb rc 4 0x4bdecfa9 11;
   MD5STEP_line F3 rc rd ra rb 7 0xf6bb4b60 16;
   MD5STEP_line F3 rb rc rd ra 10 0xbebfbc70 23;
   MD5STEP_line F3 ra rb rc rd 13 0x289b7ec6 4;
   MD5STEP_line F3 rd ra rb rc 0 0xeaa127fa 11;
   MD5STEP_line F3 rc rd ra rb 3 0xd4ef3085 16;
   MD5STEP_line F3 rb rc rd ra 6 0x04881d05 23;
   MD5STEP_line F3 ra rb rc rd 9 0xd9d4d039 4;
   MD5STEP_line F3 rd ra rb rc 12 0xe6db99e5 11;
   MD5STEP_line F3 rc rd ra rb 15 0x1fa27cf8 16;
   MD5STEP_line F3 rb rc rd ra 2 0xc4ac5665 23;
   MD5STEP_line F4 ra rb rc rd 0 0xf4292244 6;
   MD5STEP_line F4 rd ra rb rc 7 0x432aff97 10;
   MD5STEP_line F4 rc rd ra rb 14 0xab9423a7 15;
   MD5STEP_line F4 rb rc rd ra 5 0xfc93a039 21;
   MD5STEP_line F4 ra rb rc rd 12 0x655b59c3 6;
   MD5STEP_line F4 rd ra rb rc 3 0x8f0ccc92 10;
   MD5STEP_line F4 rc rd ra rb 10 0xffeff47d 15;
   MD5STEP_line F4 rb rc rd ra 1 0x85845dd1 21;
   MD5STEP_line F4 ra rb rc rd 8 0x6fa87e4f 6;
   MD5STEP_line F4 rd ra rb rc 15 0xfe2ce6e0 10;
   MD5STEP_line F4 rc rd ra rb 6 0xa3014314 15;
   MD5STEP_line F4 rb rc rd ra 13 0x4e0811a1 21;
   MD5STEP_line F4 ra rb rc rd 4 0xf7537e82 6;
   MD5STEP_line F4 rd ra rb rc 11 0xbd3af235 10;
   MD5STEP_line F4 rc rd ra rb 2 0x2ad7d2bb 15;
   MD5STEP_line F4 rb rc rd ra 9 0xeb86d391 21].

Definition MD5Transform (buf : regs) (inw : list Z) : regs :=
  let g := foldl (run_line inw) buf MD5Transform_lines in
  Regs (u32 (reg_a buf + reg_a g)) (u32 (reg_b buf + reg_b g))
       (u32 (reg_c buf + reg_c g)) (u32 (reg_d buf + reg_d g)).

(** [(uint32 * ) ctx->in] on a little-endian host. *)
Fixpoint words_of_bytes (l : list Z) : list Z :=
  match l with
  | b0 :: b1 :: b2 :: b3 :: l' =>
      (b0 + 256 * (b1 + 256 * (b2 + 256 * b3))) :: words_of_bytes l'
  | _ => []
  end.

Definition bytes_of_word (w : Z) : list Z :=
  [u8 w; u8 (w / 2 ^ 8); u8 (w / 2 ^ 16); u8 (w / 2 ^ 24)].

Record MD5Context := { md_buf : regs; md_bits0 : Z; md_bits1 : Z; md_in : list Z }.

Definition md5_init_regs : regs := Regs 0x67452301 0xefcdab89 0x98badcfe 0x10325476.

(** [MD5Init] leaves [in] as it was. *)
Definition MD5Init (ctx : MD5Context) : MD5Context :=
  {| md_buf := md5_init_regs; md_bits0 := 0; md_bits1 := 0; md_in := md_in ctx |}.

(** [memcpy (ctx->in + at, src, len)] inside the 64-byte block. *)
Definition put_in (inb : list Z) (at_ : nat) (src : list Z) : list Z :=
  take at_ inb ++ src ++ drop (at_ + length src) inb.

(** The [while (len >= 64)] loop; [fuel] bounds its iterations. *)
Fixpoint update_loop (fuel : nat) (st : regs) (inb buf : list Z)
  : regs * list Z * list Z :=
  match fuel with
  | O => (st, inb, buf)
  | S fuel =>
      if Nat.leb 64 (length buf) then
        let inb := take 64 buf in
        update_loop fuel (MD5Transform st (words_of_bytes inb)) inb (drop 64 buf)
      else (st, inb, buf)
  end.

Definition MD5Update (ctx : MD5Context) (buf : list Z) : MD5Context :=
  let len := blen buf in
  let t := md_bits0 ctx in
  let bits0 := u32 (t + u32 (Z.shiftl len 3)) in
  let bits1 := if bits0 <? t then u32 (md_bits1 ctx + 1) else md_bits1 ctx in
  let bits1 := u32 (bits1 + Z.shiftr len 29) in
  let t := Z.land (Z.shiftr t 3) 0x3f in
  if negb (t =? 0) && (len <? 64 - t) then
    {| md_buf := md_buf ctx; md_bits0 := bits0; md_bits1 := bits1;
       md_in := put_in (md_in ctx) (Z.to_nat t) buf |}
  else
    let '(st, inb, buf) :=
      if negb (t =? 0) then
        let n := Z.to_nat (64 - t) in
        let inb := put_in (md_in ctx) (Z.to_nat t) (take n buf) in
        (MD5Transform (md_buf ctx) (words_of_bytes inb), inb, drop n buf)
      else (md_buf ctx, md_in ctx, buf) in
    let '(st, inb, buf) := update_loop (length buf) st inb buf in
    {| md_buf := st; md_bits0 := bits0; md_bits1 := bits1; md_in := put_in inb 0 buf |}.

Definition bytes_of_regs (g : regs) : list Z :=
  bytes_of_word (reg_a g) ++ bytes_of_word (reg_b g) ++
  bytes_of_word (reg_c g) ++ bytes_of_word (reg_d g).

(** Returns the digest and the wiped context. *)
Definition MD5Final (ctx : MD5Context) : list Z * MD5Context :=
  let count := Z.to_nat (Z.land (Z.shiftr (md_bits0 ctx) 3) 0x3f) in
  let inb := put_in (md_in ctx) count [0x80] in
  let p := S count in
  let count := (63 - count)%nat in
  let '(st, inb) :=
    if Nat.ltb count 8 then
      let inb := put_in inb p (replicate count 0) in
      (MD5Transform (md_buf ctx) (words_of_bytes inb), put_in inb 0 (replicate 56 0))
    else (md_buf ctx, put_in inb p (replicate (count - 8) 0)) in
  let inb := put_in inb 56 (bytes_of_word (md_bits0 ctx) ++ bytes_of_word (md_bits1 ctx)) in
  let st := MD5Transform st (words_of_bytes inb) in
  (bytes_of_regs st,
   {| md_buf := Regs 0 0 0 0; md_bits0 := 0; md_bits1 := 0; md_in := replicate 64 0 |}).

(** ** RFC 1321, section 3, as a reference *)

Definition rfc_F (x y z : Z) : Z := Z.lor (Z.land x y) (Z.land (not32 x) z).
Definition rfc_G (x y z : Z) : Z := Z.lor (Z.land x z) (Z.land y (not32 z)).
Definition rfc_H (x y z : Z) : Z := Z.lxor x (Z.lxor y z).
Definition rfc_I (x y z : Z) : Z := Z.lxor y (Z.lor x (not32 z)).

Definition rfc_fn (i : nat) : Z → Z → Z → Z :=
  match (i / 16)%nat with O => rfc_F | 1%nat => rfc_G | 2%nat => rfc_H | _ => rfc_I end.
Definition rfc_k (i : nat) : nat :=
  match (i / 16)%nat with
  | O => i
  | 1%nat => (5 * i + 1) mod 16
  | 2%nat => (3 * i + 5) mod 16
  | _ => (7 * i) mod 16
  end%nat.
Definition rfc_s (i : nat) : Z :=
  nth (4 * (i / 16) + i mod 4)%nat [7;12;17;22; 5;9;14;20; 4;11;16;23; 6;10;15;21] 0.
Definition rfc_T : list Z :=
  [0xd76aa478;0xe8c7b756;0x242070db;0xc1bdceee;
   0xf57c0faf;0x4787c62a;0xa8304613;0xfd469501;
   0x698098d8;0x8b44f7af;0xffff5bb1;0x895cd7be;
   0x6b901122;0xfd987193;0xa679438e;0x49b40821;
   0xf61e2562;0xc040b340;0x265e5a51;0xe9b6c7aa;
   0xd62f105d;0x02441453;0xd8a1e681;0xe7d3fbc8;
   0x21e1cde6;0xc33707d6;0xf4d50d87;0x455a14ed;
   0xa9e3e905;0xfcefa3f8;0x676f02d9;0x8d2a4c8a;
   0xfffa3942;0x8771f681;0x6d9d6122;0xfde5380c;
   0xa4beea44;0x4bdecfa9;0xf6bb4b60;0xbebfbc70;
   0x289b7ec6;0xeaa127fa;0xd4ef3085;0x04881d05;
   0xd9d4d039;0xe6db99e5;0x1fa27cf8;0xc4ac5665;
   0xf4292244;0x432aff97;0xab9423a7;0xfc93a039;
   0x655b59c3;0x8f0ccc92;0xffeff47d;0x85845dd1;
   0x6fa87e4f;0xfe2ce6e0;0xa3014314;0x4e0811a1;
   0xf7537e82;0xbd3af235;0x2ad7d2bb;0xeb86d391].

Definition rotl32 (x s : Z) : Z := Z.lor (u32 (x * 2 ^ s)) (x / 2 ^ (32 - s)).

(** The operation [a = b + ((a + f(b,c,d) + X[k] + T[i]) <<< s)], after which
    the roles of the four registers rotate. *)
Definition rfc_step (X : list Z) (g : regs) (i : nat) : regs :=
  let '(Regs a b c d) := g in
  Regs d (u32 (b + rotl32 (u32 (a + rfc_fn i b c d + nth (rfc_k i) X 0 + nth i rfc_T 0))
                     (rfc_s i))) b c.

Definition rfc_transform (h : regs) (X : list Z) : regs :=
  let g := foldl (rfc_step X) h (seq 0 64) in
  Regs (u32 (reg_a h + reg_a g)) (u32 (reg_b h + reg_b g))
       (u32 (reg_c h + reg_c g)) (u32 (reg_d h + reg_d g)).

(** Padding to 56 bytes modulo 64, then the 64-bit count of message bits. *)
Definition rfc_pad (m : list Z) : list Z :=
  m ++ [0x80] ++ replicate (Z.to_nat ((55 - blen m) mod 64)) 0 ++
  bytes_of_word (u64 (8 * blen m) mod 2 ^ 32) ++ bytes_of_word (u64 (8 * blen m) / 2 ^ 32).

(** The 64-byte blocks of a list, a last partial block dropped. *)
Fixpoint blocks (fuel : nat) (l : list Z) : list (list Z) :=
  match fuel with
  | O => []
  | S fuel => if Nat.leb 64 (length l) then take 64 l :: blocks fuel (drop 64 l) else []
  end.

Definition rfc_md5 (m : list Z) : list Z :=
  let p := rfc_pad m in
  bytes_of_regs
    (foldl (λ h b, rfc_transform h (words_of_bytes b)) md5_init_regs
       (blocks (length p) p)).

(** The digest of a message given in pieces, as the daemon computes it. *)
Definition md5_digest (ctx : MD5Context) (pieces : list (list Z)) : list Z :=
  fst (MD5Final (foldl MD5Update (MD5Init ctx) pieces)).

(** ** The block function is the one of the RFC *)

Lemma not32_testbit z i :
  0 <= i < 32 → Z.testbit (not32 z) i = negb (Z.testbit z i).
Proof.
  intros Hi. unfold not32. change 0xffffffff with (Z.ones 32).
  rewrite Z.lxor_spec, Z.ones_spec_low by lia. by destruct (Z.testbit z i).
Qed.

Lemma u32_testbit_high z i : is_u32 z → 32 <= i → Z.testbit z i = false.
Proof. intros Hz Hi. by apply (proj1 (Z_bounded_by_bits 32 z ltac:(lia)) Hz). Qed.

Lemma not32_range z : is_u32 z → is_u32 (not32 z).
Proof. intros. apply lxor_bound; [lia|done|lia]. Qed.

(** Equality of 32-bit words bit by bit. *)
Ltac bitwise32 :=
  let i := fresh "i" in let Hi := fresh "Hi" in
  apply Z.bits_inj'; intros i Hi;
  rewrite ?Z.lxor_spec, ?Z.lor_spec, ?Z.land_spec, ?Z.lxor_spec;
  destruct (Z.lt_ge_cases i 32);
  [rewrite ?not32_testbit by lia
  |rewrite !u32_testbit_high by auto using not32_range];
  repeat match goal with |- context [Z.testbit ?z i] => destruct (Z.testbit z i) end;
  try done.

Lemma F1_rfc x y z : is_u32 x → is_u32 y → is_u32 z → F1 x y z = rfc_F x y z.
Proof. intros. unfold F1, rfc_F. bitwise32. Qed.
Lemma F2_rfc x y z : is_u32 x → is_u32 y → is_u32 z → F2 x y z = rfc_G x y z.
Proof. intros. unfold F2, F1, rfc_G. bitwise32. Qed.
Lemma F3_rfc x y z : F3 x y z = rfc_H x y z.
Proof. unfold F3, rfc_H. apply Z.lxor_assoc. Qed.

(** The code's line number [i], generated from the RFC's schedule. *)
Definition sched_fn (i : nat) : Z → Z → Z → Z :=
  match (i / 16)%nat with O => F1 | 1%nat => F2 | 2%nat => F3 | _ => F4 end.
Definition sched_line (i : nat) : md5_line :=
  match (i mod 4)%nat with
  | O => MD5STEP_line (sched_fn i) ra rb rc rd
  | 1%nat => MD5STEP_line (sched_fn i) rd ra rb rc
  | 2%nat => MD5STEP_line (sched_fn i) rc rd ra rb
  | _ => MD5STEP_line (sched_fn i) rb rc rd ra
  end (rfc_k i) (nth i rfc_T 0) (rfc_s i).

Lemma MD5Transform_lines_sched : MD5Transform_lines = map sched_line (seq 0 64).
Proof. reflexivity. Qed.

Definition regs_ok (g : regs) : Prop :=
  is_u32 (reg_a g) ∧ is_u32 (reg_b g) ∧ is_u32 (reg_c g) ∧ is_u32 (reg_d g).

(** The RFC's rotating registers seen as the code's fixed ones. *)
Definition view (i : nat) (g : regs) : regs :=
  let '(Regs a b c d) := g in
  match (i mod 4)%nat with
  | O => Regs a b c d | 1%nat => Regs d a b c | 2%nat => Regs c d a b | _ => Regs b c d a
  end.

Lemma sched_fn_rfc i x y z :
  is_u32 x → is_u32 y → is_u32 z → sched_fn i x y z = rfc_fn i x y z.
Proof.
  intros. unfold sched_fn, rfc_fn.
  destruct (i / 16)%nat as [|[|[|n]]];
    auto using F1_rfc, F2_rfc, F3_rfc.
Qed.

Lemma rfc_s_range i : 0 <= rfc_s i <= 32.
Proof.
  unfold rfc_s. set (n := (4 * (i / 16) + i mod 4)%nat).
  do 16 (destruct n as [|n]; [cbn; lia|]). cbn. destruct n; cbn; lia.
Qed.

Lemma MD5STEP_rfc f w x y z X k t s :
  0 <= s <= 32 →
  MD5STEP f w x y z (u32 (nth k X 0 + t)) s
  = u32 (x + rotl32 (u32 (w + f x y z + nth k X 0 + t)) s).
Proof.
  intros Hs. unfold MD5STEP, rotl32.
  assert (u32 (w + u32 (f x y z + u32 (nth k X 0 + t)))
          = u32 (w + f x y z + nth k X 0 + t)) as ->.
  { unfold u32. rewrite Zplus_mod_idemp_r, Z.add_assoc, Zplus_mod_idemp_r. f_equal; lia. }
  rewrite Z.shiftl_mul_pow2, Z.shiftr_div_pow2 by lia. f_equal. lia.
Qed.

Lemma MD5STEP_range f w x y z d s : is_u32 (MD5STEP f w x y z d s).
Proof. apply u32_range. Qed.

Lemma run_line_ok X g l : regs_ok g → regs_ok (run_line X g l).
Proof.
  unfold run_line, regs_ok. intros (Ha & Hb & Hc & Hd).
  generalize (MD5STEP_range (l_f l) (get_reg (l_w l) g) (get_reg (l_x l) g)
    (get_reg (l_y l) g) (get_reg (l_z l) g) (u32 (nth (l_k l) X 0 + l_t l)) (l_s l)).
  generalize (MD5STEP (l_f l) (get_reg (l_w l) g) (get_reg (l_x l) g)
    (get_reg (l_y l) g) (get_reg (l_z l) g) (u32 (nth (l_k l) X 0 + l_t l)) (l_s l)).
  intros v Hv. destruct g, (l_w l); cbn in *; auto.
Qed.

Lemma mod4_cases (i : nat) :
  ((i mod 4 = 0 ∧ S i mod 4 = 1) ∨ (i mod 4 = 1 ∧ S i mod 4 = 2) ∨
  (i mod 4 = 2 ∧ S i mod 4 = 3) ∨ (i mod 4 = 3 ∧ S i mod 4 = 0))%nat.
Proof.
  assert (S i mod 4 = (i mod 4 + 1) mod 4)%nat as ->.
  { rewrite <-Nat.add_1_r. by rewrite Nat.Div0.add_mod_idemp_l. }
  pose proof (Nat.mod_upper_bound i 4 ltac:(lia)).
  destruct (i mod 4)%nat as [|[|[|[|n]]]]; cbn; lia.
Qed.

Lemma run_line_rfc X g i :
  regs_ok g → view (S i) (run_line X g (sched_line i)) = rfc_step X (view i g) i.
Proof.
  intros (Ha & Hb & Hc & Hd). destruct g as [a b c d]. cbn in Ha, Hb, Hc, Hd.
  pose proof (rfc_s_range i).
  unfold run_line, sched_line, rfc_step, view.
  destruct (mod4_cases i) as [[-> ->]|[[-> ->]|[[-> ->]|[-> ->]]]];
    cbn -[MD5STEP rfc_k rfc_T rfc_s nth];
    rewrite MD5STEP_rfc, sched_fn_rfc by done; done.
Qed.

Lemma foldl_run_line_rfc X g n :
  regs_ok g →
  regs_ok (foldl (run_line X) g (map sched_line (seq 0 n))) ∧
  view n (foldl (run_line X) g (map sched_line (seq 0 n)))
  = foldl (rfc_step X) g (seq 0 n).
Proof.
  intros Hg. induction n as [|n [IHok IH]].
  - split; [done|]. by destruct g.
  - rewrite seq_S, map_app, !foldl_app. cbn [map foldl Nat.add]. split.
    + by apply run_line_ok.
    + by rewrite run_line_rfc, IH.
Qed.

Lemma MD5Transform_rfc g X : regs_ok g → MD5Transform g X = rfc_transform g X.
Proof.
  intros Hg. unfold MD5Transform, rfc_transform. rewrite MD5Transform_lines_sched.
  destruct (foldl_run_line_rfc X g 64 Hg) as [_ <-].
  by destruct (foldl (run_line X) g (map sched_line (seq 0 64))).
Qed.

Lemma MD5Transform_ok g X : regs_ok (MD5Transform g X).
Proof. repeat split; apply u32_range. Qed.

(** ** Streaming *)

(** The chaining value after the full blocks of [l]. *)
Definition absorb (st : regs) (l : list Z) : regs :=
  foldl (λ h b, MD5Transform h (words_of_bytes b)) st (blocks (length l) l).

Lemma blocks_fuel n l : (length l <= n)%nat → blocks n l = blocks (length l) l.
Proof.
  revert l. induction n as [n IH] using lt_wf_ind. intros l Hn.
  destruct n as [|n]; [destruct l; [done|cbn in Hn; lia]|]. cbn [blocks].
  destruct (Nat.leb_spec 64 (length l)) as [Hl|Hl].
  - destruct (length l) as [|m] eqn:Em; [lia|]. cbn [blocks].
    destruct (Nat.leb_spec 64 (length l)); [|lia]. f_equal.
    rewrite (IH n), (IH m) by (rewrite ?length_drop; lia). done.
  - destruct (length l) as [|m] eqn:Em; [done|]. cbn [blocks].
    by destruct (Nat.leb_spec 64 (length l)); [lia|].
Qed.

Lemma absorb_short st l : (length l < 64)%nat → absorb st l = st.
Proof.
  intros Hl. unfold absorb. destruct (length l) eqn:E; [done|]. cbn [blocks].
  by destruct (Nat.leb_spec 64 (length l)); [lia|].
Qed.

Lemma absorb_block st b l :
  length b = 64%nat →
  absorb st (b ++ l) = absorb (MD5Transform st (words_of_bytes b)) l.
Proof.
  intros Hb. unfold absorb.
  assert (length (b ++ l) = S (63 + length l)) as Hl by (rewrite length_app; lia).
  rewrite Hl. cbn [blocks]. rewrite Hl.
  destruct (Nat.leb_spec 64 (S (63 + length l))); [|lia].
  rewrite take_app_length', drop_app_length' by done. cbn [foldl].
  by rewrite (blocks_fuel (63 + length l) l) by lia.
Qed.

Lemma absorb_one st b :
  length b = 64%nat → absorb st b = MD5Transform st (words_of_bytes b).
Proof.
  intros Hb. rewrite <-(app_nil_r b) at 1. by rewrite absorb_block, absorb_short by (cbn; lia).
Qed.

Lemma length64_split (l : list Z) (n : nat) :
  length l = (64 * S n)%nat →
  ∃ b l', l = b ++ l' ∧ length b = 64%nat ∧ length l' = (64 * n)%nat.
Proof.
  intros Hl. exists (take 64 l), (drop 64 l). rewrite take_drop, length_take, length_drop.
  repeat split; lia.
Qed.

Lemma absorb_app n st a b :
  length a = (64 * n)%nat → absorb st (a ++ b) = absorb (absorb st a) b.
Proof.
  revert st a. induction n as [|n IH]; intros st a Ha.
  - destruct a; [|cbn in Ha; lia]. by rewrite (absorb_short st []) by (cbn; lia).
  - destruct (length64_split a n Ha) as (blk & a' & -> & Hb & Ha').
    by rewrite <-app_assoc, (absorb_block st blk a'), (absorb_block _ blk), IH.
Qed.

Lemma update_loop_spec fuel st inb buf :
  (length buf <= fuel)%nat → length inb = 64%nat →
  ∃ n a b inb', buf = a ++ b ∧ length a = (64 * n)%nat ∧ (length b < 64)%nat ∧
    length inb' = 64%nat ∧ update_loop fuel st inb buf = (absorb st a, inb', b).
Proof.
  revert st inb buf. induction fuel as [|fuel IH]; intros st inb buf Hf Hin.
  - destruct buf; [|cbn in Hf; lia]. exists 0%nat, [], [], inb. cbn. repeat split; lia.
  - cbn [update_loop]. destruct (Nat.leb_spec 64 (length buf)) as [Hl|Hl].
    + assert (length (take 64 buf) = 64%nat) as Ht by (rewrite length_take; lia).
      edestruct (IH (MD5Transform st (words_of_bytes (take 64 buf))) (take 64 buf)
        (drop 64 buf)) as (n & a & b & inb' & Hd & Ha & Hb & Hi & ->);
        [rewrite length_drop; lia|done|].
      exists (S n), (take 64 buf ++ a), b, inb'.
      rewrite <-app_assoc, <-Hd, take_drop, length_app, absorb_block by done.
      repeat split; lia.
    + exists 0%nat, [], buf, inb. cbn. repeat split; lia.
Qed.

Lemma put_in_take inb pre src :
  take (length pre) inb = pre →
  take (length pre + length src) (put_in inb (length pre) src) = pre ++ src.
Proof.
  intros Hp. unfold put_in. rewrite Hp, app_assoc, <-length_app. apply take_app_length.
Qed.

Lemma length_put_in inb n src :
  (n + length src <= length inb)%nat → length (put_in inb n src) = length inb.
Proof. intros. unfold put_in. rewrite !length_app, length_take, length_drop. lia. Qed.

Lemma put_in_full inb pre src :
  take (length pre) inb = pre → length inb = (length pre + length src)%nat →
  put_in inb (length pre) src = pre ++ src.
Proof.
  intros Hp Hl. unfold put_in. rewrite Hp, drop_ge by lia. by rewrite app_nil_r.
Qed.

(** The context holds the message [m]: the chaining value of its full blocks,
    its remaining bytes at the front of [in], and its length in bits. *)
Definition represents (ctx : MD5Context) (m : list Z) : Prop :=
  ∃ n full tail, m = full ++ tail ∧ length full = (64 * n)%nat ∧ (length tail < 64)%nat ∧
    md_buf ctx = absorb md5_init_regs full ∧
    length (md_in ctx) = 64%nat ∧ take (length tail) (md_in ctx) = tail ∧
    md_bits0 ctx = u64 (8 * blen m) mod 2 ^ 32 ∧ md_bits1 ctx = u64 (8 * blen m) / 2 ^ 32.

Lemma MD5Init_represents ctx : length (md_in ctx) = 64%nat → represents (MD5Init ctx) [].
Proof. intros Hl. exists 0%nat, [], []. cbn. repeat split; try done; lia. Qed.

(** [(bits[0] >> 3) & 0x3F] is the number of bytes waiting in [in]. *)
Lemma pending_count (m : list Z) (n k : nat) :
  length m = (64 * n + k)%nat → (k < 64)%nat →
  Z.land (Z.shiftr (u64 (8 * blen m) mod 2 ^ 32) 3) 0x3f = Z.of_nat k.
Proof.
  intros Hm Hk. change 0x3f with (Z.ones 6).
  rewrite Z.land_ones, Z.shiftr_div_pow2 by lia. unfold blen. rewrite Hm.
  change (2 ^ 3) with 8. change (2 ^ 6) with 64. uint.
Qed.

(** The 64-bit counter kept in two words. *)
Lemma bit_count_add L len :
  0 <= L → 0 <= len < 2 ^ 32 →
  let t := u64 (8 * L) mod 2 ^ 32 in
  let bits0 := u32 (t + u32 (Z.shiftl len 3)) in
  let bits1 := if bits0 <? t then u32 (u64 (8 * L) / 2 ^ 32 + 1) else u64 (8 * L) / 2 ^ 32 in
  bits0 = u64 (8 * (L + len)) mod 2 ^ 32 ∧
  u32 (bits1 + Z.shiftr len 29) = u64 (8 * (L + len)) / 2 ^ 32.
Proof.
  intros HL Hlen. cbv zeta. rewrite Z.shiftl_mul_pow2, Z.shiftr_div_pow2 by lia.
  change (2 ^ 3) with 8. change (2 ^ 29) with 536870912. unfold_uint.
  destruct (Z.ltb_spec ((8 * L mod 18446744073709551616 mod 4294967296 +
    len * 8 mod 4294967296) mod 4294967296) (8 * L mod 18446744073709551616 mod 4294967296));
  split; zdiv.
Qed.

(** [MD5Update] after the context has been split into full blocks and tail. *)
Lemma MD5Update_represents ctx m buf :
  represents ctx m → blen buf < 2 ^ 32 → represents (MD5Update ctx buf) (m ++ buf).
Proof.
  intros (n & full & tail & Hm & Hfull & Htail & Hst & Hin & Htk & Hb0 & Hb1) Hlen.
  destruct (bit_count_add (blen m) (blen buf)) as [Hc0 Hc1]; [apply blen_nonneg|
    split; [apply blen_nonneg|done]|].
  rewrite <-blen_app in Hc0, Hc1. cbv zeta in Hc0, Hc1.
  assert (Z.land (Z.shiftr (md_bits0 ctx) 3) 0x3f = Z.of_nat (length tail)) as Ht.
  { rewrite Hb0. apply (pending_count m n); [|done]. by rewrite Hm, length_app, Hfull. }
  unfold MD5Update. rewrite Ht, Hb0, Hb1, Hc1, Hc0, Nat2Z.id.
  destruct (negb _ && _) eqn:Hshort.
  { apply andb_prop in Hshort as [_ Hs%Z.ltb_lt]. unfold blen in Hs.
    exists n, full, (tail ++ buf). cbn [md_buf md_in md_bits0 md_bits1].
    rewrite length_app, put_in_take, Hm, <-app_assoc by done.
    rewrite length_put_in by lia. rewrite app_assoc, <-Hm. repeat split; try done; lia. }
  set (mid := if negb _ then _ else _).
  assert (∃ n' full' rest inb', mid = (absorb md5_init_regs full', inb', rest) ∧
    m ++ buf = full' ++ rest ∧ length full' = (64 * n')%nat ∧ length inb' = 64%nat)
    as (n' & full' & rest & inb' & -> & Hsplit & Hfull' & Hinb').
  { subst mid. destruct (Z.eqb_spec (Z.of_nat (length tail)) 0) as [Hz|Hz]; cbn [negb].
    - destruct tail; [|cbn in Hz; lia]. rewrite app_nil_r in Hm. subst m.
      exists n, full, buf, (md_in ctx). by rewrite Hst.
    - cbn in Hshort. apply Z.ltb_ge in Hshort. unfold blen in Hshort.
      set (k := Z.to_nat (64 - Z.of_nat (length tail))).
      assert (length (take k buf) = (64 - length tail)%nat) as Hk
        by (rewrite length_take; lia).
      rewrite put_in_full by (done || lia).
      exists (S n), (full ++ tail ++ take k buf), (drop k buf), (tail ++ take k buf).
      rewrite Hst, !length_app, Hk, (absorb_app n) by done.
      rewrite (absorb_one _ (tail ++ take k buf)) by (rewrite length_app; lia).
      rewrite Hm, <-!app_assoc, take_drop. repeat split; lia. }
  destruct (update_loop_spec (length rest) (absorb md5_init_regs full') inb' rest)
    as (n2 & a & b & inb2 & Hr & Ha & Hb & Hi2 & ->); [done|done|].
  exists (n' + n2)%nat, (full' ++ a), b. cbn [md_buf md_in md_bits0 md_bits1].
  rewrite Hsplit, Hr, <-app_assoc, length_app, (absorb_app n') by done.
  pose proof (put_in_take inb2 [] b eq_refl) as Hp.
  cbn [length Nat.add app] in Hp. rewrite Hp.
  rewrite length_put_in by (cbn; lia). repeat split; try done; lia.
Qed.

Lemma rfc_absorb l : ∀ st, regs_ok st →
  foldl (λ h b, rfc_transform h (words_of_bytes b)) st l
  = foldl (λ h b, MD5Transform h (words_of_bytes b)) st l.
Proof.
  induction l as [|b l IH]; intros st Hst; cbn [foldl]; [done|].
  rewrite <-MD5Transform_rfc by done. apply IH, MD5Transform_ok.
Qed.

Lemma rfc_md5_absorb m : rfc_md5 m = bytes_of_regs (absorb md5_init_regs (rfc_pad m)).
Proof.
  unfold rfc_md5, absorb. rewrite rfc_absorb; [done|].
  repeat split; cbn; unfold_uint; lia.
Qed.

Lemma MD5Final_represents ctx m :
  represents ctx m → fst (MD5Final ctx) = rfc_md5 m.
Proof.
  intros (n & full & tail & Hm & Hfull & Htail & Hst & Hin & Htk & Hb0 & Hb1).
  assert (length m = 64 * n + length tail)%nat as Hlm by (rewrite Hm, length_app; lia).
  assert (Z.land (Z.shiftr (md_bits0 ctx) 3) 0x3f = Z.of_nat (length tail)) as Ht
    by (rewrite Hb0; by apply (pending_count m n)).
  unfold MD5Final. rewrite Ht, Nat2Z.id, rfc_md5_absorb. unfold rfc_pad.
  rewrite <-Hb0, <-Hb1, Hm at 1. rewrite <-app_assoc, (absorb_app n) by done.
  set (cnt := bytes_of_word (md_bits0 ctx) ++ bytes_of_word (md_bits1 ctx)).
  assert (length cnt = 8%nat) as Hcnt by done.
  assert (take (S (length tail)) (put_in (md_in ctx) (length tail) [0x80]) = tail ++ [0x80])
    as H80 by (rewrite <-(put_in_take (md_in ctx) tail [0x80]) by done; f_equal; cbn; lia).
  assert (length (put_in (md_in ctx) (length tail) [0x80]) = 64%nat) as Hl80
    by (rewrite length_put_in; cbn; lia).
  set (inb := put_in (md_in ctx) (length tail) [0x80]) in *.
  assert (S (length tail) = length (tail ++ [0x80])) as Hlt by (rewrite length_app; cbn; lia).
  rewrite Hlt in H80 |- *.
  destruct (Nat.ltb_spec (63 - length tail) 8) as [Hc|Hc].
  - replace (Z.to_nat ((55 - blen m) mod 64)) with ((63 - length tail) + 56)%nat
      by (unfold blen; rewrite Hlm; zdiv).
    rewrite put_in_full by (rewrite ?length_replicate; done || lia).
    set (b1 := (tail ++ [0x80]) ++ replicate (63 - length tail) 0).
    assert (length b1 = 64%nat) as Hb1l by (subst b1; rewrite length_app, length_replicate; lia).
    pose proof (put_in_take b1 [] (replicate 56 0) eq_refl) as Hz.
    rewrite length_replicate in Hz. cbn [length Nat.add app] in Hz.
    rewrite (put_in_full _ (replicate 56 0) cnt) by
      (rewrite ?length_put_in; rewrite ?length_replicate; done || (cbn; lia)).
    cbn [fst]. f_equal.
    replace (tail ++ _) with (b1 ++ (replicate 56 0 ++ cnt))
      by (subst b1; by rewrite replicate_add, <-!app_assoc).
    rewrite Hst, absorb_block by done.
    by rewrite (absorb_one _ (replicate 56 0 ++ cnt)) by
      (rewrite length_app, length_replicate; lia).
  - replace (Z.to_nat ((55 - blen m) mod 64)) with (63 - length tail - 8)%nat
      by (unfold blen; rewrite Hlm; zdiv).
    set (z := replicate (63 - length tail - 8) 0).
    assert (length z = (55 - length tail)%nat) as Hzl
      by (subst z; rewrite length_replicate; lia).
    assert (take 56 (put_in inb (length (tail ++ [0x80])) z) = (tail ++ [0x80]) ++ z) as Hz.
    { rewrite <-(put_in_take inb (tail ++ [0x80]) z H80). f_equal. rewrite Hzl. lia. }
    assert (length ((tail ++ [0x80]) ++ z) = 56%nat) as H56 by (rewrite length_app; lia).
    rewrite <-H56 in Hz |- *.
    rewrite put_in_full by (rewrite ?length_put_in; done || lia).
    cbn [fst]. f_equal.
    rewrite Hst, !app_assoc, (absorb_one _ (((tail ++ [0x80]) ++ z) ++ cnt)).
    + by rewrite <-!app_assoc.
    + rewrite length_app. lia.
Qed.

Lemma updates_represent pieces : ∀ ctx m,
  represents ctx m → Forall (λ p, blen p < 2 ^ 32) pieces →
  represents (foldl MD5Update ctx pieces) (m ++ concat pieces).
Proof.
  induction pieces as [|p ps IH]; intros ctx m Hr Hf; cbn [foldl concat].
  - by rewrite app_nil_r.
  - apply Forall_cons_1 in Hf as [Hp Hf]. rewrite app_assoc.
    apply IH; [by apply MD5Update_represents|done].
Qed.

Lemma bytes_of_word_is_bytes w : is_bytes (bytes_of_word w).
Proof. unfold bytes_of_word. repeat constructor; apply u8_range. Qed.

Lemma bytes_of_regs_is_bytes g : is_bytes (bytes_of_regs g).
Proof. unfold bytes_of_regs. rewrite !is_bytes_app. auto using bytes_of_word_is_bytes. Qed.

Lemma MD5Final_length ctx : length (fst (MD5Final ctx)) = 16%nat.
Proof. unfold MD5Final. by case_match. Qed.

Lemma MD5Final_is_bytes ctx : is_bytes (fst (MD5Final ctx)).
Proof. unfold MD5Final. case_match. apply bytes_of_regs_is_bytes. Qed.

Lemma md5_digest_rfc ctx pieces :
  length (md_in ctx) = 64%nat → Forall (λ p, blen p < 2 ^ 32) pieces →
  md5_digest ctx pieces = rfc_md5 (concat pieces).
Proof.
  intros Hin Hp. apply MD5Final_represents.
  apply (updates_represent pieces _ []); [by apply MD5Init_represents|done].
Qed.

(** ** Properties *)

(** The 64 optimised [MD5STEP] lines compute the block function of
    RFC 1321 on every chaining value of 32-bit words. *)
Theorem MD5Transform_is_rfc1321 (buf : regs) (inw : list Z) :
  regs_ok buf → MD5Transform buf inw = rfc_transform buf inw.
Proof. apply MD5Transform_rfc. Qed.

Example MD5Transform_is_rfc1321_witness :
  MD5Transform md5_init_regs (replicate 16 0x61616161)
  = rfc_transform md5_init_regs (replicate 16 0x61616161).
Proof.
  apply (MD5Transform_is_rfc1321 md5_init_regs (replicate 16 0x61616161)).
  repeat split; cbn; unfold_uint; lia.
Defined.

(** C15: [MD5Init], any sequence of [MD5Update]s and [MD5Final] compute the
    RFC 1321 digest of the concatenation of the buffers, whatever [in] held
    before and however the message was cut into pieces of less than 2^32
    bytes. *)
Theorem md5_digest_correct (ctx : MD5Context) (pieces : list (list Z)) :
  length (md_in ctx) = 64%nat → Forall (λ p, blen p < 2 ^ 32) pieces →
  md5_digest ctx pieces = rfc_md5 (concat pieces).
Proof. apply md5_digest_rfc. Qed.

Definition stale_ctx : MD5Context :=
  {| md_buf := Regs 1 2 3 4; md_bits0 := 5; md_bits1 := 6; md_in := replicate 64 7 |}.

Example md5_digest_correct_witness :
  md5_digest stale_ctx [[97; 98]; []; [99]]
  = [144; 1; 80; 152; 60; 210; 79; 176; 214; 150; 63; 125; 40; 225; 127; 114] ∧
  md5_digest stale_ctx [[97; 98]; []; [99]] = rfc_md5 [97; 98; 99].
Proof.
  split; [vm_compute; reflexivity|].
  apply (md5_digest_correct stale_ctx [[97; 98]; []; [99]]); [reflexivity|].
  repeat constructor; vm_compute; reflexivity.
Defined.

End Md5.
