(* ===== verification/Scheduler.v ===== *)
(** * The timer queue (src/scheduler.c, src/scheduler.h)

    [events] is the C list of [struct schedule_entry], head first.  An entry
    carries the address [malloc] gave it ([se_ptr], what [schedule] returns
    and [deschedule] compares) and the pair of [func] and [data] as one [job].
    [gettimeofday] is an argument: the instants at which the code reads the
    clock are passed explicitly.  [process_schedule] runs jobs that may
    themselves change the queue; its loop is bounded by a fuel that the
    theorems show to be enough. *)

From stdpp Require Import sorting.
From S2P Require Import Prelude.

Module Scheduler.

Record timeval := Tv { tv_sec : Z; tv_usec : Z }.

Definition TVLESS (a b : timeval) : bool :=
  if tv_sec a =? tv_sec b then tv_usec a <? tv_usec b else tv_sec a <? tv_sec b.
Definition TVLESSEQ (a b : timeval) : bool :=
  if tv_sec a =? tv_sec b then tv_usec a <=? tv_usec b else tv_sec a <=? tv_sec b.

Section Queue.
Context {job : Type}.

Record schedule_entry := Entry { se_ptr : nat; se_tv : timeval; se_job : job }.

Definition init_scheduler : list schedule_entry := [].

(** Behind the entries that are not later. *)
Fixpoint insert_entry (e : schedule_entry) (events : list schedule_entry) : list schedule_entry :=
  match events with
  | [] => [e]
  | p :: rest => if TVLESS (se_tv e) (se_tv p) then e :: p :: rest else p :: insert_entry e rest
  end.

(** The time of an entry that is due [diff] after [now]. *)
Definition schedule_time (now diff : timeval) : timeval :=
  let sec := tv_sec now + tv_sec diff in
  let usec := tv_usec now + tv_usec diff in
  if usec >? 1000000 then Tv (sec + 1) (usec - 1000000) else Tv sec usec.

(** [q] is the address of the new entry. *)
Definition schedule (now : timeval) (q : nat) (tv : timeval) (f : job) (events : list schedule_entry)
  : list schedule_entry :=
  insert_entry (Entry q (schedule_time now tv) f) events.

(** The clock is read here ([now]) and once more in [schedule] ([now']). *)
Definition aschedule (now now' : timeval) (q : nat) (tv : timeval) (f : job)
  (events : list schedule_entry) : list schedule_entry :=
  let usec := tv_usec tv - tv_usec now in
  let tv := if usec <? 0 then Tv (tv_sec tv - 1) (usec + 1000000) else Tv (tv_sec tv) usec in
  schedule now' q (Tv (tv_sec tv - tv_sec now) (tv_usec tv)) f events.

Fixpoint remove_entry (s : nat) (events : list schedule_entry) : list schedule_entry :=
  match events with
  | [] => []
  | p :: rest => if Nat.eqb (se_ptr p) s then rest else p :: remove_entry s rest
  end.

Definition deschedule (s : option nat) (events : list schedule_entry)
  : list schedule_entry :=
  match s with None => events | Some s => remove_entry s events end.

(** ** Running the queue

    [W] is everything the jobs can change; it holds the queue. *)
Context {W : Type} (get_events : W → list schedule_entry)
  (set_events : list schedule_entry → W → W)
  (run : job → W → W) (gettimeofday : W → timeval).

(** The [while (events)] loop; the second component is the last clock
    reading, [None] when the loop body never ran. *)
Fixpoint process_loop (fuel : nat) (w : W) (last : option timeval)
  : option (W * option timeval) :=
  match get_events w with
  | [] => Some (w, last)
  | p :: rest =>
      match fuel with
      | O => None
      | S fuel =>
          let now := gettimeofday w in
          if TVLESSEQ (se_tv p) now
          then process_loop fuel (run (se_job p) (set_events rest w)) (Some now)
          else Some (w, Some now)
      end
  end.

(** The timeout handed to [select]. *)
Definition next_timeout (now : timeval) (tv : timeval) : timeval :=
  let sec := tv_sec tv - tv_sec now in
  let usec := tv_usec tv - tv_usec now in
  let '(sec, usec) := if usec <? 0 then (sec - 1, usec + 1000000) else (sec, usec) in
  if (sec <=? 0) && (usec <=? 0) then Tv 1 0 else Tv sec usec.

Definition process_schedule (fuel : nat) (w : W) : option (W * option timeval) :=
  match process_loop fuel w None with
  | None => None
  | Some (w, last) =>
      match get_events w, last with
      | p :: _, Some now => Some (w, Some (next_timeout now (se_tv p)))
      | _, _ => Some (w, None)
      end
  end.

End Queue.
Arguments schedule_entry : clear implicits.
Arguments Entry {job}.

(** ** The queue is kept in order of time *)

(** A time in microseconds. *)
Definition tv_us (t : timeval) : Z := tv_sec t * 1000000 + tv_usec t.

(** What [gettimeofday] returns. *)
Definition tv_clock (t : timeval) : Prop := 0 <= tv_usec t < 1000000.
(** What an entry can hold: [schedule] normalises only above 1000000. *)
Definition tv_ok (t : timeval) : Prop := 0 <= tv_usec t <= 1000000.

Definition before {job} (a b : schedule_entry job) : Prop :=
  TVLESS (se_tv b) (se_tv a) = false.

(** Invariant of [events]: in order, entries in range, addresses distinct. *)
Record queue_ok {job} (events : list (schedule_entry job)) : Prop := {
  qo_sorted : StronglySorted before events;
  qo_range : Forall (λ e, tv_ok (se_tv e)) events;
  qo_ptrs : NoDup (se_ptr <$> events) }.

Lemma TVLESS_spec a b :
  TVLESS a b = true ↔ tv_sec a < tv_sec b ∨ tv_sec a = tv_sec b ∧ tv_usec a < tv_usec b.
Proof. unfold TVLESS. case_match; lia. Qed.
Lemma TVLESS_false a b :
  TVLESS a b = false ↔ tv_sec b < tv_sec a ∨ tv_sec a = tv_sec b ∧ tv_usec b <= tv_usec a.
Proof. unfold TVLESS. case_match; lia. Qed.
Lemma TVLESSEQ_negb a b : TVLESSEQ a b = negb (TVLESS b a).
Proof. unfold TVLESSEQ, TVLESS. rewrite (Z.eqb_sym (tv_sec b)). case_match; lia. Qed.

Lemma before_trans {job} (a b c : schedule_entry job) : before a b → before b c → before a c.
Proof. unfold before. rewrite !TVLESS_false. lia. Qed.
Lemma before_us {job} (a b : schedule_entry job) :
  tv_ok (se_tv a) → tv_ok (se_tv b) → before a b → tv_us (se_tv a) <= tv_us (se_tv b).
Proof. unfold before, tv_ok, tv_us. rewrite TVLESS_false. lia. Qed.

Lemma insert_entry_split {job} (e : schedule_entry job) events :
  StronglySorted before events →
  ∃ l1 l2, events = l1 ++ l2 ∧ insert_entry e events = l1 ++ e :: l2 ∧
    Forall (λ p, before p e) l1 ∧ Forall (λ p, TVLESS (se_tv e) (se_tv p) = true) l2.
Proof.
  induction 1 as [|p rest Hs IH Hp]; cbn; [by exists [], []|].
  destruct (TVLESS (se_tv e) (se_tv p)) eqn:E.
  - exists [], (p :: rest). split_and!; [done|done|constructor|]. constructor; [done|].
    eapply Forall_impl; [exact Hp|]. intros q Hq. revert E Hq. unfold before.
    rewrite !TVLESS_spec, TVLESS_false. lia.
  - destruct IH as (l1 & l2 & -> & -> & H1 & H2). exists (p :: l1), l2.
    split_and!; [done|done|by constructor|done].
Qed.

Lemma sorted_insert {job} (e : schedule_entry job) l1 l2 :
  StronglySorted before (l1 ++ l2) → Forall (λ p, before p e) l1 →
  Forall (λ p, TVLESS (se_tv e) (se_tv p) = true) l2 → StronglySorted before (l1 ++ e :: l2).
Proof.
  induction l1 as [|p l1 IH]; cbn; intros Hs H1 H2.
  - constructor; [done|]. eapply Forall_impl; [exact H2|]. intros q Hq. cbn in Hq. unfold before.
    rewrite TVLESS_false. rewrite TVLESS_spec in Hq. lia.
  - apply StronglySorted_inv in Hs as [Hs Hp]. apply Forall_cons in H1 as [Hpe H1].
    constructor; [by apply IH|]. rewrite !Forall_app in *. rewrite Forall_cons. tauto.
Qed.

Lemma schedule_time_us now diff : tv_us (schedule_time now diff) = tv_us now + tv_us diff.
Proof. unfold schedule_time, tv_us. cbv zeta. case_match; cbn; lia. Qed.
Lemma schedule_time_ok now diff :
  tv_clock now → tv_ok diff → tv_ok (schedule_time now diff).
Proof. unfold schedule_time, tv_clock, tv_ok. intros. case_match; cbn; lia. Qed.

Lemma insert_entry_ok {job} (e : schedule_entry job) events :
  queue_ok events → tv_ok (se_tv e) → se_ptr e ∉ se_ptr <$> events →
  queue_ok (insert_entry e events).
Proof.
  intros [Hs Hr Hp] He Hn.
  destruct (insert_entry_split e events Hs) as (l1 & l2 & -> & -> & H1 & H2). split.
  - by apply sorted_insert.
  - rewrite Forall_app in *. rewrite Forall_cons. tauto.
  - rewrite fmap_app in *. rewrite fmap_cons. rewrite <-Permutation_middle. by constructor.
Qed.

(** ** [deschedule] *)

Lemma remove_entry_filter {job} s (events : list (schedule_entry job)) :
  NoDup (se_ptr <$> events) →
  remove_entry s events = filter (λ e, se_ptr e ≠ s) events.
Proof.
  induction events as [|p rest IH]; cbn [remove_entry]; [done|].
  rewrite fmap_cons, NoDup_cons. intros [Hp Hn].
  destruct (Nat.eqb_spec (se_ptr p) s) as [<-|Hne].
  - rewrite filter_cons_False by naive_solver. symmetry. apply filter_all.
    intros e He Heq. apply Hp. rewrite <-Heq. by apply list_elem_of_fmap_2.
  - rewrite filter_cons_True by done. by rewrite IH.
Qed.

Lemma filter_sorted {job} (P : schedule_entry job → Prop) `{∀ e, Decision (P e)} events :
  StronglySorted before events → StronglySorted before (filter P events).
Proof.
  induction 1 as [|p rest Hs IH Hp]; [constructor|].
  rewrite filter_cons. case_decide; [|done]. constructor; [done|].
  apply Forall_forall. intros x [_ Hx]%list_elem_of_filter.
  rewrite Forall_forall in Hp. by apply Hp.
Qed.

Lemma filter_queue_ok {job} (P : schedule_entry job → Prop) `{∀ e, Decision (P e)} events :
  queue_ok events → queue_ok (filter P events).
Proof.
  intros [Hs Hr Hp]. constructor.
  - by apply filter_sorted.
  - rewrite Forall_forall in *. intros x [_ Hx]%list_elem_of_filter. by apply Hr.
  - eapply sublist_NoDup; [exact Hp|]. apply fmap_sublist, sublist_filter.
Qed.

(** ** [process_schedule] *)

Definition is_due {job} (t : timeval) (e : schedule_entry job) : bool := TVLESSEQ (se_tv e) t.
Definition due {job} (t : timeval) (events : list (schedule_entry job)) : nat :=
  length (List.filter (is_due t) events).

Lemma TVLESSEQ_trans a b c : TVLESSEQ a b = true → TVLESSEQ b c = true → TVLESSEQ a c = true.
Proof. rewrite !TVLESSEQ_negb, !negb_true_iff, !TVLESS_false. lia. Qed.

Section Process.
Context {job W : Type} (get_events : W → list (schedule_entry job))
  (set_events : list (schedule_entry job) → W → W)
  (run : job → W → W) (gettimeofday : W → timeval).
Hypothesis get_set : ∀ l w, get_events (set_events l w) = l.

(** The loop ends when the jobs add nothing that is due by the deadline. *)
Lemma process_loop_total (deadline : timeval) :
  (∀ w, TVLESSEQ (gettimeofday w) deadline = true) →
  (∀ j w, (due deadline (get_events (run j w)) <= due deadline (get_events w))%nat) →
  ∀ fuel w last, (due deadline (get_events w) < fuel)%nat →
  ∃ w' last', process_loop get_events set_events run gettimeofday fuel w last = Some (w', last') ∧
    match get_events w' with
    | [] => True
    | p :: _ => last' = Some (gettimeofday w') ∧ TVLESS (gettimeofday w') (se_tv p) = true
    end.
Proof.
  intros Hclock Hrun. induction fuel as [|fuel IH]; intros w last Hf; [lia|]. cbn [process_loop].
  destruct (get_events w) as [|p rest] eqn:E; [exists w, last; by rewrite E|]. cbv zeta.
  destruct (TVLESSEQ (se_tv p) (gettimeofday w)) eqn:Ed.
  - apply IH. eapply Nat.le_lt_trans; [apply Hrun|]. rewrite get_set. revert Hf. unfold due. cbn.
    unfold is_due at 1. rewrite (TVLESSEQ_trans _ _ _ Ed (Hclock w)). cbn. lia.
  - exists w, (Some (gettimeofday w)). rewrite E. split; [done|]. split; [done|].
    rewrite TVLESSEQ_negb in Ed. by apply negb_false_iff in Ed.
Qed.

(** Jobs that leave the queue alone: exactly the due entries run, in order. *)
Lemma process_loop_pure {A} (obs : W → A) (act : job → A → A) (now : timeval) :
  (∀ w, gettimeofday w = now) → (∀ j w, get_events (run j w) = get_events w) →
  (∀ l w, obs (set_events l w) = obs w) → (∀ j w, obs (run j w) = act j (obs w)) →
  ∀ events fuel w last, get_events w = events → StronglySorted before events → (due now events < fuel)%nat →
  ∃ w' last', process_loop get_events set_events run gettimeofday fuel w last = Some (w', last') ∧
    get_events w' = List.filter (λ e, negb (is_due now e)) events ∧
    obs w' = foldl (λ a e, act (se_job e) a) (obs w) (List.filter (is_due now) events).
Proof.
  intros Hclock Hrun Hset Hobs.
  induction events as [|p rest IH]; intros fuel w last E Hs Hf.
  - exists w, last. destruct fuel; cbn [process_loop]; by rewrite E.
  - apply StronglySorted_inv in Hs as [Hs Hp].
    destruct fuel as [|fuel]; [lia|]. cbn [process_loop]. rewrite E, Hclock. cbv zeta.
    change (TVLESSEQ (se_tv p) now) with (is_due now p).
    unfold due in Hf. cbn in Hf |- *. destruct (is_due now p) eqn:Ed.
    + cbn in Hf |- *. destruct (IH fuel (run (se_job p) (set_events rest w)) (Some now)) as (w' & last' & H1 & H2 & H3).
      { by rewrite Hrun, get_set. } { done. } { unfold due. lia. }
      exists w', last'. by rewrite H1, H2, H3, Hobs, Hset.
    + cbn. exists w, (Some now). split; [done|].
      assert (Forall (λ e, is_due now e = false) rest) as Hnone.
      { eapply Forall_impl; [exact Hp|]. intros e He. revert Ed He. unfold is_due, before.
        rewrite !TVLESSEQ_negb, !negb_false_iff, !TVLESS_spec, TVLESS_false. lia. }
      assert (List.filter (is_due now) rest = [] ∧ List.filter (λ e, negb (is_due now e)) rest = rest) as [-> ->].
      { clear -Hnone. induction Hnone as [|e rest He Hr [IH1 IH2]]; [done|]. cbn. by rewrite He, IH1, IH2. }
      by rewrite E.
Qed.
End Process.

Lemma next_timeout_us now tv :
  tv_clock now → tv_ok tv → TVLESS now tv = true →
  tv_us (next_timeout now tv) = tv_us tv - tv_us now ∧ 0 < tv_us (next_timeout now tv).
Proof.
  unfold next_timeout, tv_clock, tv_ok, tv_us. rewrite TVLESS_spec. intros Hn Ht Hl.
  destruct (Z.ltb_spec (tv_usec tv - tv_usec now) 0) as [Hu|Hu];
    destruct (_ && _) eqn:E; cbn; lia.
Qed.

Lemma queue_ok_us {job} (events : list (schedule_entry job)) :
  queue_ok events → StronglySorted (λ a b, tv_us (se_tv a) <= tv_us (se_tv b)) events.
Proof.
  intros [Hs Hr _]. induction Hs as [|p rest Hs IH Hp]; [constructor|].
  apply Forall_cons in Hr as [Hpr Hr]. constructor; [by apply IH|].
  rewrite Forall_forall in *. intros q Hq. apply before_us; auto.
Qed.

(** ** Properties *)

(** [schedule] keeps the queue in order of time, its entries in range and
    their addresses distinct. *)
Theorem schedule_keeps_order {job} (now : timeval) (q : nat) (tv : timeval) (f : job) events :
  queue_ok events → tv_clock now → tv_ok tv → q ∉ se_ptr <$> events →
  queue_ok (schedule now q tv f events) ∧
  StronglySorted (λ a b, tv_us (se_tv a) <= tv_us (se_tv b)) (schedule now q tv f events).
Proof.
  intros Hq Hn Ht Hp.
  assert (queue_ok (schedule now q tv f events))
    by (apply insert_entry_ok; cbn; [done|by apply schedule_time_ok|done]).
  auto using queue_ok_us.
Qed.

(** [schedule] adds exactly one entry, due the given time after now, behind
    every entry that is not later and before every later one; nothing else
    changes. *)
Theorem schedule_inserts {job} (now : timeval) (q : nat) (tv : timeval) (f : job) events :
  queue_ok events →
  ∃ l1 l2 t, events = l1 ++ l2 ∧ schedule now q tv f events = l1 ++ Entry q t f :: l2 ∧
    tv_us t = tv_us now + tv_us tv ∧
    Forall (λ p, TVLESSEQ (se_tv p) t = true) l1 ∧ Forall (λ p, TVLESS t (se_tv p) = true) l2.
Proof.
  intros [Hs _ _].
  destruct (insert_entry_split (Entry q (schedule_time now tv) f) events Hs) as (l1 & l2 & -> & E & H1 & H2).
  exists l1, l2, (schedule_time now tv). split_and!; [done|exact E|apply schedule_time_us| |done].
  eapply Forall_impl; [exact H1|]. unfold before. cbn. intros p Hp. by rewrite TVLESSEQ_negb, Hp.
Qed.

(** [aschedule] places its entry at the absolute time it is given, when the
    two readings of the clock agree. *)
Theorem aschedule_absolute {job} (now : timeval) (q : nat) (tv : timeval) (f : job) events :
  queue_ok events →
  ∃ l1 l2 t, events = l1 ++ l2 ∧ aschedule now now q tv f events = l1 ++ Entry q t f :: l2 ∧ tv_us t = tv_us tv.
Proof.
  intros [Hs _ _]. unfold aschedule, schedule. cbv zeta.
  match goal with |- context [insert_entry ?e _] =>
    destruct (insert_entry_split e events Hs) as (l1 & l2 & -> & E & _) end.
  eexists l1, l2, _. split; [done|]. split; [exact E|]. rewrite schedule_time_us. unfold tv_us.
  case_match; cbn; lia.
Qed.

(** [deschedule] removes exactly the entry it is given, and NULL is a
    no-op; the queue stays in order. *)
Theorem deschedule_removes {job} (s : option nat) (events : list (schedule_entry job)) :
  queue_ok events →
  deschedule s events = filter (λ e, Some (se_ptr e) ≠ s) events ∧
  queue_ok (deschedule s events).
Proof.
  intros Hq.
  assert (deschedule s events = filter (λ e, Some (se_ptr e) ≠ s) events) as Heq.
  { destruct s as [s|]; cbn.
    - rewrite remove_entry_filter by apply Hq. apply list_filter_iff. naive_solver.
    - symmetry. by apply filter_all. }
  split; [done|]. rewrite Heq. by apply filter_queue_ok.
Qed.

(** [process_schedule] returns.  When the jobs do not keep adding entries
    that are due by some deadline the clock does not pass, the loop ends after
    at most as many turns as there are such entries; then no entry is due, and
    the timeout it returns is exactly the time left to the first entry. *)
Theorem process_schedule_returns {job W} (get_events : W → list (schedule_entry job)) set_events
  (run : job → W → W) (gettimeofday : W → timeval) (deadline : timeval) (fuel : nat) (w : W) :
  (∀ l w, get_events (set_events l w) = l) →
  (∀ w, TVLESSEQ (gettimeofday w) deadline = true ∧ tv_clock (gettimeofday w)) →
  (∀ j w, (due deadline (get_events (run j w)) <= due deadline (get_events w))%nat) →
  (due deadline (get_events w) < fuel)%nat →
  ∃ w' r, process_schedule get_events set_events run gettimeofday fuel w = Some (w', r) ∧
    match get_events w', r with
    | [], None => True
    | p :: _, Some d =>
        TVLESS (gettimeofday w') (se_tv p) = true ∧
        (tv_ok (se_tv p) → 0 < tv_us d ∧ tv_us d = tv_us (se_tv p) - tv_us (gettimeofday w'))
    | _, _ => False
    end.
Proof.
  intros Hgs Hclock Hrun Hf.
  destruct (process_loop_total get_events set_events run gettimeofday Hgs deadline
    (λ w, proj1 (Hclock w)) Hrun fuel w None Hf) as (w' & last & E & Hp).
  unfold process_schedule. rewrite E. destruct (get_events w') as [|p rest] eqn:Ee.
  - exists w', None. by rewrite Ee.
  - destruct Hp as [-> Hp]. eexists w', _. split; [done|]. rewrite Ee. split; [done|]. intros Hok.
    destruct (next_timeout_us (gettimeofday w') (se_tv p)) as [H1 H2]; [apply Hclock|done|done|]. lia.
Qed.

(** [process_schedule] runs exactly the entries that are due, each once and
    in order of time, and leaves the others (jobs that do not touch the
    queue). *)
Theorem process_schedule_runs_due {job W A} (get_events : W → list (schedule_entry job)) set_events
  (run : job → W → W) (gettimeofday : W → timeval) (obs : W → A) (act : job → A → A)
  (now : timeval) (fuel : nat) (w : W) :
  (∀ l w, get_events (set_events l w) = l) → (∀ w, gettimeofday w = now) →
  (∀ j w, get_events (run j w) = get_events w) → (∀ l w, obs (set_events l w) = obs w) →
  (∀ j w, obs (run j w) = act j (obs w)) →
  queue_ok (get_events w) → (due now (get_events w) < fuel)%nat →
  ∃ w' r, process_schedule get_events set_events run gettimeofday fuel w = Some (w', r) ∧
    get_events w' = List.filter (λ e, negb (is_due now e)) (get_events w) ∧
    obs w' = foldl (λ a e, act (se_job e) a) (obs w) (List.filter (is_due now) (get_events w)).
Proof.
  intros Hgs Hclock Hrun Hset Hobs [Hs _ _] Hf.
  destruct (process_loop_pure get_events set_events run gettimeofday Hgs obs act now Hclock Hrun Hset Hobs
    (get_events w) fuel w None eq_refl Hs Hf) as (w' & last & E & H1 & H2).
  unfold process_schedule. rewrite E. destruct (get_events w') as [|p rest] eqn:Ee.
  - exists w', None. by rewrite Ee.
  - destruct last; eexists w', _; (split; [done|]); by rewrite Ee.
Qed.

(** ** Examples *)

Definition queue2 : list (schedule_entry nat) := [Entry 1 (Tv 61 500000) 10%nat; Entry 2 (Tv 63 0) 20%nat].
Definition t62 : timeval := Tv 62 400000.

Lemma queue2_ok : queue_ok queue2.
Proof.
  split.
  - repeat constructor.
  - repeat constructor; vm_compute; congruence.
  - apply (bool_decide_unpack _). by vm_compute.
Qed.

Example schedule_keeps_order_witness :
  queue_ok (schedule t62 3%nat (Tv 0 600000) 30%nat queue2) ∧
  se_job <$> schedule t62 3%nat (Tv 0 600000) 30%nat queue2 = [10%nat; 30%nat; 20%nat].
Proof.
  split; [|reflexivity]. refine (proj1 (schedule_keeps_order _ _ _ _ _ queue2_ok _ _ _)).
  - vm_compute. split; congruence.
  - vm_compute. split; congruence.
  - apply (bool_decide_unpack _). by vm_compute.
Defined.

Example schedule_inserts_witness :
  ∃ l1 l2 t, queue2 = l1 ++ l2 ∧ schedule t62 3%nat (Tv 1 0) 30%nat queue2 = l1 ++ Entry 3 t 30%nat :: l2 ∧
    tv_us t = 63400000 ∧
    Forall (λ p, TVLESSEQ (se_tv p) t = true) l1 ∧ Forall (λ p, TVLESS t (se_tv p) = true) l2.
Proof. exact (schedule_inserts t62 3%nat (Tv 1 0) 30%nat queue2 queue2_ok). Defined.

Example aschedule_absolute_witness :
  ∃ l1 l2 t, queue2 = l1 ++ l2 ∧ aschedule t62 t62 3%nat (Tv 63 0) 30%nat queue2 = l1 ++ Entry 3 t 30%nat :: l2 ∧
    tv_us t = 63000000.
Proof. exact (aschedule_absolute t62 3%nat (Tv 63 0) 30%nat queue2 queue2_ok). Defined.

Example deschedule_removes_witness :
  deschedule (Some 1%nat) queue2 = [Entry 2 (Tv 63 0) 20%nat] ∧ queue_ok (deschedule (Some 1%nat) queue2).
Proof. exact (deschedule_removes (Some 1%nat) queue2 queue2_ok). Defined.

(** Jobs are numbers, running one logs it. *)
Definition log_run (j : nat) (w : list (schedule_entry nat) * list nat) : list (schedule_entry nat) * list nat :=
  (w.1, w.2 ++ [j]).

Example process_schedule_returns_witness :
  ∃ w' r, process_schedule fst (λ l w, (l, w.2)) log_run (λ _, t62) 5 (queue2, []) = Some (w', r) ∧
    w'.2 = [10%nat] ∧ r = Some (Tv 0 600000).
Proof.
  destruct (process_schedule_returns fst (λ l w, (l, w.2)) log_run (λ _, t62) t62 5 (queue2, []))
    as (w' & r & E & _); [done|by vm_compute|done|by apply (bool_decide_unpack _); vm_compute|].
  exists w', r. split; [exact E|]. vm_compute in E. injection E as <- <-. done.
Defined.

Example process_schedule_runs_due_witness :
  ∃ w' r, process_schedule fst (λ l w, (l, w.2)) log_run (λ _, Tv 70 0) 5 (queue2, []) = Some (w', r) ∧
    w'.1 = [] ∧ w'.2 = [10%nat; 20%nat].
Proof.
  exact (process_schedule_runs_due fst (λ l w, (l, w.2)) log_run (λ _, Tv 70 0) snd (λ j a, a ++ [j]) (Tv 70 0) 5
    (queue2, []) (λ _ _, eq_refl) (λ _, eq_refl) (λ _ _, eq_refl) (λ _ _, eq_refl) (λ _ _, eq_refl) queue2_ok
    (bool_decide_unpack (due (Tv 70 0) queue2 < 5)%nat I)).
Defined.

End Scheduler.
