(* ===== verification/Buffer.v ===== *)
(** * Packet buffers (src/misc.c, src/misc.h; buffer parts of src/control.c
    and src/call.c)

    A [struct buffer] owns a [malloc]ed region ([rstart]); [start] is kept as
    the offset from [rstart].  Every load and store goes through the region
    and is [None] when it leaves it.  [type] and [rend] are never read by the
    program and are left out. *)

From S2P Require Import Prelude.

Module Buffer.

(** [struct sockaddr_in]: address and port in network order. *)
Record sockaddr := Sockaddr { sin_addr : Z; sin_port : Z }.

Record buffer := mkBuffer {
  b_mem : list Z;            (* the region at rstart *)
  b_start : Z;               (* start - rstart *)
  b_len : Z;
  b_maxlen : Z;
  b_peer : sockaddr;
  b_tunnel : option nat;     (* who owns this packet, if it's a control *)
  b_retries : Z }.

Definition MAX_RECV_SIZE : Z := 4096.
Definition MAXSTRLEN : Z := 120.
Definition sizeof_control_hdr : Z := 12.
Definition sizeof_payload_hdr : Z := 14.
Definition sizeof_avp_hdr : Z := 6.
Definition PAYLOAD_BUF : Z := 10.

(** [mem] is the result of [malloc (size)], [None] when it fails.  The fields
    [malloc] leaves undefined are given by [junk]. *)
Definition new_buf (size : Z) (mem : option (list Z)) (junk : buffer) : option buffer :=
  if (size =? 0) || (size <? 0) then None
  else match mem with
       | None => None
       | Some m =>
           Some { junk with b_mem := m; b_start := 0; b_len := size; b_maxlen := size }
       end.

Definition recycle_buf (b : buffer) : buffer :=
  { b with b_start := 0; b_len := b_maxlen b }.

(** Swap the byte order of [len / 2] consecutive 16-bit words at [p]. *)
Fixpoint swaps_loop (n : nat) (m : list Z) (p : Z) : option (list Z) :=
  match n with
  | O => Some m
  | S n =>
      s ← ld16 m p;
      m ← st16 m p (ntohs s);
      swaps_loop n m (p + 2)
  end.
Definition swaps (m : list Z) (p len : Z) : option (list Z) :=
  swaps_loop (Z.to_nat (len / 2)) m p.

Definition new_outgoing (peer : sockaddr) (t : nat) (mem : option (list Z)) (junk : buffer)
  : option buffer :=
  match new_buf MAX_RECV_SIZE mem junk with
  | None => None
  | Some tmp =>
      Some { tmp with b_peer := peer; b_start := b_start tmp + sizeof_control_hdr;
                      b_len := 0; b_retries := 0; b_tunnel := Some t }
  end.

Definition recycle_outgoing (b : buffer) (peer : sockaddr) : buffer :=
  { b with b_start := sizeof_control_hdr; b_peer := peer; b_len := 0;
           b_retries := -1; b_tunnel := None }.

Definition new_payload (peer : sockaddr) (mem : option (list Z)) (junk : buffer)
  : option buffer :=
  match new_buf MAX_RECV_SIZE mem junk with
  | None => None
  | Some tmp =>
      Some { tmp with b_peer := peer; b_start := b_start tmp + sizeof_payload_hdr; b_len := 0 }
  end.

Definition recycle_payload (b : buffer) (peer : sockaddr) : buffer :=
  { b with b_start := sizeof_payload_hdr; b_len := 0; b_peer := peer }.

(** Stores relative to [buf->start]. *)
Definition buf_stn (b : buffer) (off : Z) (bs : list Z) : option buffer :=
  m ← stn (b_mem b) (b_start b + off) bs; Some { b with b_mem := m }.
Definition buf_st16 (b : buffer) (off v : Z) : option buffer :=
  m ← st16 (b_mem b) (b_start b + off) v; Some { b with b_mem := m }.
Definition buf_ld16 (b : buffer) (off : Z) : option Z := ld16 (b_mem b) (b_start b + off).
Definition buf_ld8 (b : buffer) (off : Z) : option Z := ld8 (b_mem b) (b_start b + off).

(** ** Well-formed buffers and their contents *)

Record buf_wf (b : buffer) : Prop := {
  bw_mem : blen (b_mem b) = b_maxlen b;
  bw_start : 0 <= b_start b;
  bw_len : 0 <= b_len b;
  bw_room : b_start b + b_len b <= b_maxlen b }.

(** The bytes between [start] and [start + len]. *)
Definition contents (b : buffer) : list Z :=
  take (Z.to_nat (b_len b)) (drop (Z.to_nat (b_start b)) (b_mem b)).

(** Space left after the contents. *)
Definition room (b : buffer) : Z := b_maxlen b - b_start b - b_len b.

Lemma contents_ldn b : buf_wf b → ldn (b_mem b) (b_start b) (b_len b) = Some (contents b).
Proof. intros [Hm Hs Hl Hr]. apply ldn_Some. rewrite Hm. auto. Qed.

Lemma contents_length b : buf_wf b → blen (contents b) = b_len b.
Proof. intros H. eapply ldn_length. by apply contents_ldn. Qed.

(** Appending bytes at [start + len], the effect of every AVP writer. *)
Definition buf_append (b : buffer) (bs : list Z) : option buffer :=
  m ← stn (b_mem b) (b_start b + b_len b) bs;
  Some { b with b_mem := m; b_len := b_len b + blen bs }.

(** Consecutive stores are one store. *)
Lemma stn_bind m o p a bs :
  p = o + blen a → (stn m o a ≫= λ m1, stn m1 p bs) = stn m o (a ++ bs).
Proof.
  intros ->. destruct (stn m o a) as [m1|] eqn:E; cbn.
  - pose proof (stn_length _ _ _ _ E) as Hl. apply stn_Some in E as (Ho & Hb & ->).
    unfold stn. rewrite Hl, blen_app, Z.add_assoc.
    destruct (Z.leb_spec (o + blen a + blen bs) (blen m)) as [Hle|Hle]; [|by rewrite !andb_false_r].
    rewrite (proj2 (Z.leb_le 0 o)), (proj2 (Z.leb_le 0 (o + blen a)))
      by (pose proof (blen_nonneg a); lia). cbn.
    pose proof (blen_nonneg bs). unfold blen in *.
    assert (Z.to_nat (o + Z.of_nat (length a)) = length (take (Z.to_nat o) m ++ a)) as ->
      by (rewrite length_app, length_take; lia).
    rewrite !app_assoc, take_app_length, <-!app_assoc. do 4 f_equal.
    rewrite app_assoc, <-drop_drop, drop_app_length, drop_drop. f_equal.
    by rewrite length_app, Nat.add_assoc.
  - unfold stn in *. case_match eqn:E1; [done|]. rewrite blen_app.
    case_match eqn:E2; [|done]. pose proof (blen_nonneg bs). lia.
Qed.

Lemma stn_nil m o : 0 <= o <= blen m → stn m o [] = Some m.
Proof.
  intros. apply stn_Some. rewrite blen_nil. repeat split; [lia..|].
  by rewrite Nat.add_0_r, app_nil_l, take_drop.
Qed.

Lemma buf_append_ok b bs :
  buf_wf b → blen bs <= room b → ∃ b', buf_append b bs = Some b'.
Proof.
  intros [Hm Hs Hl Hr] Hroom. unfold room in Hroom. unfold buf_append.
  destruct (stn_ok (b_mem b) (b_start b + b_len b) bs) as [m ->]; [lia..|]. eauto.
Qed.

Lemma buf_append_spec b bs b' :
  buf_wf b → buf_append b bs = Some b' →
  buf_wf b' ∧ contents b' = contents b ++ bs ∧ b_len b' = b_len b + blen bs ∧
  b_start b' = b_start b ∧ b_maxlen b' = b_maxlen b ∧ room b' = room b - blen bs ∧
  b_peer b' = b_peer b ∧ b_tunnel b' = b_tunnel b ∧ b_retries b' = b_retries b.
Proof.
  intros Hwf. unfold buf_append.
  destruct (stn (b_mem b) (b_start b + b_len b) bs) as [m|] eqn:E; [|done].
  intros [= <-]. pose proof (stn_length _ _ _ _ E) as Hml.
  pose proof (contents_ldn b Hwf) as Hc. destruct Hwf as [Hm Hs Hl Hr].
  pose proof (blen_nonneg bs).
  assert (b_start b + b_len b + blen bs <= b_maxlen b)
    by (apply stn_Some in E as (_ & ? & _); lia).
  assert (buf_wf { b with b_mem := m; b_len := b_len b + blen bs }) as Hwf'
    by (constructor; cbn; lia).
  pose proof (contents_ldn _ Hwf') as Hc'. cbn in Hc'.
  split; [done|]. split; [|unfold room; cbn; split_and!; first [done|lia]].
  assert (Some (contents { b with b_mem := m; b_len := b_len b + blen bs })
          = Some (contents b ++ bs)) as [= ->]; [|done].
  rewrite <-Hc'. apply ldn_add.
  - rewrite (ldn_stn_before _ _ _ _ _ _ E) by lia. done.
  - by eapply ldn_stn_eq.
Qed.

(** Bytes put in front of the contents, the effect of every header writer. *)
Definition prepended (b : buffer) (bs m : list Z) : buffer :=
  { b with b_mem := m; b_start := b_start b - blen bs; b_len := b_len b + blen bs }.

Lemma prepend_spec b bs :
  buf_wf b → blen bs <= b_start b →
  ∃ m, stn (b_mem b) (b_start b - blen bs) bs = Some m ∧
    buf_wf (prepended b bs m) ∧ contents (prepended b bs m) = bs ++ contents b.
Proof.
  intros Hwf Hs. pose proof (contents_ldn b Hwf) as Hc. destruct Hwf as [Hm Hs0 Hl Hr].
  pose proof (blen_nonneg bs).
  destruct (stn_ok (b_mem b) (b_start b - blen bs) bs) as [m E]; [lia..|].
  exists m. split; [done|]. pose proof (stn_length _ _ _ _ E).
  assert (buf_wf (prepended b bs m)) as Hwf' by (constructor; cbn; lia).
  split; [done|]. pose proof (contents_ldn _ Hwf') as Hc'. cbn in Hc'.
  apply (inj Some). rewrite <-Hc'. rewrite (Z.add_comm (b_len b)). apply ldn_add.
  - by eapply ldn_stn_eq.
  - replace (b_start b - blen bs + blen bs) with (b_start b) by lia.
    by rewrite (ldn_stn_after _ _ _ _ _ _ E) by lia.
Qed.

(** Swapping the words of a header. *)
Lemma swaps_words ws : ∀ pre post,
  Forall is_u16 ws →
  swaps_loop (length ws) (pre ++ concat (map be16 ws) ++ post) (blen pre)
  = Some (pre ++ concat (map le16 ws) ++ post).
Proof.
  induction ws as [|v ws IH]; intros pre post Hw; [done|].
  apply Forall_cons in Hw as [Hv Hw]. cbn [length swaps_loop map concat]. rewrite <-!app_assoc.
  rewrite ld16_be by done. cbn [mbind option_bind]. rewrite htons_ntohs by done.
  rewrite st16_mid by done. cbn [mbind option_bind].
  replace (blen pre + 2) with (blen (pre ++ le16 v)) by blen.
  replace (pre ++ le16 v ++ concat (map be16 ws) ++ post)
    with ((pre ++ le16 v) ++ concat (map be16 ws) ++ post) by napp.
  rewrite IH by done. f_equal. napp.
Qed.

(** A region that holds the contents of a buffer between two others. *)
Lemma contents_split b :
  buf_wf b → ∃ pre post, b_mem b = pre ++ contents b ++ post ∧ blen pre = b_start b.
Proof.
  intros Hwf. pose proof (contents_ldn b Hwf) as Hc. destruct Hwf as [Hm Hs Hl Hr].
  destruct (mem_split (b_mem b) (b_start b) (b_len b)) as (pre & l & post & E & Hp & Hll); [lia..|].
  exists pre, post. split; [|done]. rewrite E in Hc. rewrite <-Hp, <-Hll, ldn_app_mid in Hc.
  injection Hc as Hl'. by rewrite <-Hl'.
Qed.
Lemma contents_mid pre l post b :
  b_mem b = pre ++ l ++ post → b_start b = blen pre → b_len b = blen l → contents b = l.
Proof.
  intros Hm Hs Hl. unfold contents. rewrite Hm, Hs, Hl. unfold blen.
  by rewrite !Nat2Z.id, drop_app_length, take_app_length.
Qed.

End Buffer.
