(* ===== verification/AvpSend.v ===== *)
(** * Writing AVPs (src/avpsend.c)

    Each [add_*_avp] stores an attribute-value pair after the contents of the
    buffer and advances [len].  [avp_enc] is the wire format of RFC 2661,
    section 4.1; the lemmas show that every writer appends exactly the
    encoding of its attribute. *)

From S2P Require Import Prelude Buffer.
Import Buffer.

Module AvpSend.

Definition MBIT : Z := 0x8000.
Definition VENDOR_ID : Z := 0.
Definition MAXAVPSIZE : Z := 1023.
Definition OUR_L2TP_VERSION : Z := 0x100.
Definition FIRMWARE_REV : Z := 0x0690.
(** "xelerance.com" *)
Definition VENDOR_NAME : list Z :=
  [120; 101; 108; 101; 114; 97; 110; 99; 101; 46; 99; 111; 109].

Definition add_nonmandatory_header (buf : buffer) (length type : Z) : option buffer :=
  let avp := b_len buf in
  buf ← buf_st16 buf avp (htons length);
  buf ← buf_st16 buf (avp + 2) (htons VENDOR_ID);
  buf_st16 buf (avp + 4) (htons type).

Definition add_header (buf : buffer) (length type : Z) : option buffer :=
  add_nonmandatory_header buf (Z.lor length MBIT) type.

(** [buf->start + buf->len + sizeof(struct avp_hdr)], as an offset from [start]. *)
Definition avp_ptr (buf : buffer) : Z := b_len buf + sizeof_avp_hdr.

Definition add_message_type_avp (buf : buffer) (type : Z) : option buffer :=
  let ptr := avp_ptr buf in
  buf ← add_header buf 0x8 0;
  buf ← buf_st16 buf ptr (htons type);
  Some { buf with b_len := b_len buf + 0x8 }.

Definition add_protocol_avp (buf : buffer) : option buffer :=
  let ptr := avp_ptr buf in
  buf ← add_header buf 0x8 0x2;
  buf ← buf_st16 buf ptr (htons OUR_L2TP_VERSION);
  Some { buf with b_len := b_len buf + 0x8 }.

Definition add_frame_caps_avp (buf : buffer) (caps : Z) : option buffer :=
  let ptr := avp_ptr buf in
  buf ← add_header buf 0xA 0x3;
  buf ← buf_st16 buf ptr 0;
  buf ← buf_st16 buf (ptr + 2) (htons caps);
  Some { buf with b_len := b_len buf + 0xA }.

Definition add_bearer_caps_avp (buf : buffer) (caps : Z) : option buffer :=
  let ptr := avp_ptr buf in
  buf ← add_header buf 0xA 0x4;
  buf ← buf_st16 buf ptr 0;
  buf ← buf_st16 buf (ptr + 2) (htons caps);
  Some { buf with b_len := b_len buf + 0xA }.

Definition add_firmware_avp (buf : buffer) : option buffer :=
  let ptr := avp_ptr buf in
  buf ← add_nonmandatory_header buf 0x8 0x6;
  buf ← buf_st16 buf ptr (htons FIRMWARE_REV);
  Some { buf with b_len := b_len buf + 0x8 }.

(** [hostname] is the C string without its terminator. *)
Definition add_hostname_avp (buf : buffer) (hostname : list Z) : option buffer :=
  let namelen := blen hostname in
  let namelen := if namelen >? MAXAVPSIZE - 6 then MAXAVPSIZE - 6 else namelen in
  buf ← add_header buf (u16 (0x6 + namelen)) 0x7;
  buf ← buf_stn buf (avp_ptr buf) (take (Z.to_nat namelen) hostname);
  Some { buf with b_len := b_len buf + (0x6 + namelen) }.

(** [strcpy] also stores the terminator, after the AVP. *)
Definition add_vendor_avp (buf : buffer) : option buffer :=
  buf ← add_nonmandatory_header buf (u16 (0x6 + blen VENDOR_NAME)) 0x8;
  buf ← buf_stn buf (avp_ptr buf) (VENDOR_NAME ++ [0]);
  Some { buf with b_len := b_len buf + (0x6 + blen VENDOR_NAME) }.

Definition add_tunnelid_avp (buf : buffer) (tid : Z) : option buffer :=
  let ptr := avp_ptr buf in
  buf ← add_header buf 0x8 0x9;
  buf ← buf_st16 buf ptr (htons tid);
  Some { buf with b_len := b_len buf + 0x8 }.

Definition add_avp_rws (buf : buffer) (rws : Z) : option buffer :=
  let ptr := avp_ptr buf in
  buf ← add_header buf 0x8 0xA;
  buf ← buf_st16 buf ptr (htons rws);
  Some { buf with b_len := b_len buf + 0x8 }.

(** [memcpy (dst, c, len)]: [None] when [c] has fewer than [len] bytes. *)
Definition add_challenge_avp (buf : buffer) (c : list Z) (len : Z) : option buffer :=
  buf ← add_header buf (u16 (0x6 + len)) 0xB;
  bs ← ldn c 0 len;
  buf ← buf_stn buf (avp_ptr buf) bs;
  Some { buf with b_len := b_len buf + (0x6 + len) }.

Definition add_chalresp_avp (buf : buffer) (c : list Z) (len : Z) : option buffer :=
  buf ← add_header buf (u16 (0x6 + len)) 0xD;
  bs ← ldn c 0 len;
  buf ← buf_stn buf (avp_ptr buf) bs;
  Some { buf with b_len := b_len buf + (0x6 + len) }.

Definition add_randvect_avp (buf : buffer) (c : list Z) (len : Z) : option buffer :=
  buf ← add_header buf (u16 (0x6 + len)) 0x24;
  bs ← ldn c 0 len;
  buf ← buf_stn buf (avp_ptr buf) bs;
  Some { buf with b_len := b_len buf + (0x6 + len) }.

Definition add_result_code_avp (buf : buffer) (result error : Z) (msg : list Z) (len : Z)
  : option buffer :=
  let ptr := avp_ptr buf in
  buf ← add_header buf (u16 (0xA + len)) 0x1;
  buf ← buf_st16 buf ptr (htons result);
  buf ← buf_st16 buf (ptr + 2) (htons error);
  bs ← ldn msg 0 len;
  buf ← buf_stn buf (ptr + 4) bs;
  Some { buf with b_len := b_len buf + (0xA + len) }.

Definition add_callid_avp (buf : buffer) (callid : Z) : option buffer :=
  let ptr := avp_ptr buf in
  buf ← add_header buf 0x8 0xE;
  buf ← buf_st16 buf ptr (htons callid);
  Some { buf with b_len := b_len buf + 0x8 }.

Definition add_serno_avp (buf : buffer) (serno : Z) : option buffer :=
  let ptr := avp_ptr buf in
  buf ← add_header buf 0xA 0xF;
  buf ← buf_st16 buf ptr (htons (Z.land (Z.shiftr serno 16) 0xFFFF));
  buf ← buf_st16 buf (ptr + 2) (htons (Z.land serno 0xFFFF));
  Some { buf with b_len := b_len buf + 0xA }.

Definition add_bearer_avp (buf : buffer) (bearer : Z) : option buffer :=
  let ptr := avp_ptr buf in
  buf ← add_header buf 0xA 0x12;
  buf ← buf_st16 buf ptr (htons (Z.land (Z.shiftr bearer 16) 0xFFFF));
  buf ← buf_st16 buf (ptr + 2) (htons (Z.land bearer 0xFFFF));
  Some { buf with b_len := b_len buf + 0xA }.

Definition add_frame_avp (buf : buffer) (frame : Z) : option buffer :=
  let ptr := avp_ptr buf in
  buf ← add_header buf 0xA 0x13;
  buf ← buf_st16 buf ptr (htons (Z.land (Z.shiftr frame 16) 0xFFFF));
  buf ← buf_st16 buf (ptr + 2) (htons (Z.land frame 0xFFFF));
  Some { buf with b_len := b_len buf + 0xA }.

Definition add_txspeed_avp (buf : buffer) (speed : Z) : option buffer :=
  let ptr := avp_ptr buf in
  buf ← add_header buf 0xA 0x18;
  buf ← buf_st16 buf ptr (htons (Z.land (Z.shiftr speed 16) 0xFFFF));
  buf ← buf_st16 buf (ptr + 2) (htons (Z.land speed 0xFFFF));
  Some { buf with b_len := b_len buf + 0xA }.

Definition add_rxspeed_avp (buf : buffer) (speed : Z) : option buffer :=
  let ptr := avp_ptr buf in
  buf ← add_nonmandatory_header buf 0xA 0x26;
  buf ← buf_st16 buf ptr (htons (Z.land (Z.shiftr speed 16) 0xFFFF));
  buf ← buf_st16 buf (ptr + 2) (htons (Z.land speed 0xFFFF));
  Some { buf with b_len := b_len buf + 0xA }.

Definition add_physchan_avp (buf : buffer) (physchan : Z) : option buffer :=
  let ptr := avp_ptr buf in
  buf ← add_nonmandatory_header buf 0xA 0x19;
  buf ← buf_st16 buf ptr (htons (Z.land (Z.shiftr physchan 16) 0xFFFF));
  buf ← buf_st16 buf (ptr + 2) (htons (Z.land physchan 0xFFFF));
  Some { buf with b_len := b_len buf + 0xA }.

Definition add_ppd_avp (buf : buffer) (ppd : Z) : option buffer :=
  let ptr := avp_ptr buf in
  buf ← add_header buf 0x8 0x14;
  buf ← buf_st16 buf ptr (htons ppd);
  Some { buf with b_len := b_len buf + 0x8 }.

Definition add_seqreqd_avp (buf : buffer) : option buffer :=
  buf ← add_header buf 0x6 0x27;
  Some { buf with b_len := b_len buf + 0x6 }.

Definition add_minbps_avp (buf : buffer) (speed : Z) : option buffer :=
  let ptr := avp_ptr buf in
  buf ← add_header buf 0xA 0x10;
  buf ← buf_st16 buf ptr (htons (Z.land (Z.shiftr speed 16) 0xFFFF));
  buf ← buf_st16 buf (ptr + 2) (htons (Z.land speed 0xFFFF));
  Some { buf with b_len := b_len buf + 0xA }.

Definition add_maxbps_avp (buf : buffer) (speed : Z) : option buffer :=
  let ptr := avp_ptr buf in
  buf ← add_header buf 0xA 0x11;
  buf ← buf_st16 buf ptr (htons (Z.land (Z.shiftr speed 16) 0xFFFF));
  buf ← buf_st16 buf (ptr + 2) (htons (Z.land speed 0xFFFF));
  Some { buf with b_len := b_len buf + 0xA }.

Definition add_number_avp (buf : buffer) (no : list Z) : option buffer :=
  buf ← add_header buf (u16 (0x6 + blen no)) 0x15;
  buf ← buf_stn buf (avp_ptr buf) no;
  Some { buf with b_len := b_len buf + (0x6 + blen no) }.

(** ** The wire format (RFC 2661, section 4.1)

    The M bit, a 10-bit length that counts the 6-byte header, vendor ID 0,
    the attribute type and the value. *)

Definition avp_enc (mandatory : bool) (attr : Z) (value : list Z) : list Z :=
  be16 (Z.lor (6 + blen value) (if mandatory then MBIT else 0))
  ++ be16 VENDOR_ID ++ be16 attr ++ value.

(** A 32-bit value in network order; negative [int]s in two's complement. *)
Definition be32 (v : Z) : list Z :=
  be16 (Z.land (Z.shiftr v 16) 0xFFFF) ++ be16 (Z.land v 0xFFFF).

(** ** Every writer appends the encoding of its attribute *)

Lemma buf_st16_htons b o v : buf_st16 b o (htons v) = buf_stn b o (be16 v).
Proof. unfold buf_st16, buf_stn. by rewrite st16_htons. Qed.

Lemma buf_st16_zero b o : buf_st16 b o 0 = buf_stn b o (be16 0).
Proof. done. Qed.

(** The first store of a writer lands at [len]; a later one at [len + n] after
    [n] bytes extends it. *)
Lemma store_next {A} b o p x y (k : buffer → option A) :
  p = o + blen x →
  (buf_stn b o x ≫= λ b1, buf_stn b1 p y ≫= k) = (buf_stn b o (x ++ y) ≫= k).
Proof.
  intros ->. unfold buf_stn. cbn.
  rewrite <-(stn_bind _ _ (b_start b + (o + blen x)) x y) by lia.
  destruct (stn (b_mem b) (b_start b + o) x) as [m|]; cbn; [|done].
  by destruct (stn m _ y).
Qed.

Lemma store_next' b o p x y :
  p = o + blen x →
  (buf_stn b o x ≫= λ b1, buf_stn b1 p y) = buf_stn b o (x ++ y).
Proof.
  intros Hp. pose proof (store_next b o p x y Some Hp) as H.
  destruct (buf_stn b o (x ++ y)); cbn in H; rewrite <-H;
    destruct (buf_stn b o x); cbn; try done; by destruct (buf_stn _ p y).
Qed.

Lemma buf_stn_len b o x b' : buf_stn b o x = Some b' → b_len b' = b_len b.
Proof. unfold buf_stn. destruct (stn (b_mem b) (b_start b + o) x); [|done]. by intros [= <-]. Qed.

(** A store at an offset from the current [len], which stores do not move. *)
Lemma store_next_ptr {A} b o x y (k : buffer → option A) :
  o + blen x = b_len b + 6 →
  (buf_stn b o x ≫= λ b1, buf_stn b1 (avp_ptr b1) y ≫= k) = (buf_stn b o (x ++ y) ≫= k).
Proof.
  intros Hp. rewrite <-(store_next b o (avp_ptr b) x y k)
    by (unfold avp_ptr, sizeof_avp_hdr; lia).
  destruct (buf_stn b o x) as [b1|] eqn:E; [|done]. cbn. unfold avp_ptr.
  by rewrite (buf_stn_len _ _ _ _ E).
Qed.

Lemma store_done b x n :
  n = blen x →
  (buf_stn b (b_len b) x ≫= λ b1, Some { b1 with b_len := b_len b1 + n }) = buf_append b x.
Proof.
  intros ->. unfold buf_stn, buf_append. by destruct (stn (b_mem b) (b_start b + b_len b) x).
Qed.

Lemma add_nonmandatory_header_eq b length type :
  add_nonmandatory_header b length type
  = buf_stn b (b_len b) (be16 length ++ be16 VENDOR_ID ++ be16 type).
Proof.
  unfold add_nonmandatory_header. rewrite app_assoc.
  rewrite buf_st16_htons, <-(store_next' b (b_len b) (b_len b + 4)) by blen.
  rewrite <-(store_next' b (b_len b) (b_len b + 2)) by blen.
  destruct (buf_stn b (b_len b) _) as [b1|]; cbn; [|done]. rewrite buf_st16_htons.
  destruct (buf_stn b1 _ _); cbn; [|done]. by rewrite buf_st16_htons.
Qed.

Lemma add_header_eq b length type :
  add_header b length type
  = buf_stn b (b_len b) (be16 (Z.lor length MBIT) ++ be16 VENDOR_ID ++ be16 type).
Proof. apply add_nonmandatory_header_eq. Qed.

(** Fixed-size attributes: every store at a constant offset. *)
Lemma avp16 b length type v :
  (add_nonmandatory_header b length type ≫= λ b1,
   buf_st16 b1 (avp_ptr b) (htons v) ≫= λ b2, Some { b2 with b_len := b_len b2 + 8 })
  = buf_append b (be16 length ++ be16 VENDOR_ID ++ be16 type ++ be16 v).
Proof.
  rewrite add_nonmandatory_header_eq.
  etransitivity; [apply option_bind_ext_fun; intros b1; by rewrite buf_st16_htons|].
  rewrite (store_next b (b_len b)) by (unfold avp_ptr, sizeof_avp_hdr; blen).
  rewrite store_done by done. by rewrite <-!app_assoc.
Qed.

Lemma avp32 b length type hi lo :
  (add_nonmandatory_header b length type ≫= λ b1,
   buf_st16 b1 (avp_ptr b) (htons hi) ≫= λ b2,
   buf_st16 b2 (avp_ptr b + 2) (htons lo) ≫= λ b3, Some { b3 with b_len := b_len b3 + 10 })
  = buf_append b (be16 length ++ be16 VENDOR_ID ++ be16 type ++ be16 hi ++ be16 lo).
Proof.
  rewrite add_nonmandatory_header_eq.
  etransitivity; [apply option_bind_ext_fun; intros b1; rewrite buf_st16_htons;
    apply option_bind_ext_fun; intros b2; by rewrite buf_st16_htons|].
  rewrite (store_next b (b_len b)) by (unfold avp_ptr, sizeof_avp_hdr; blen).
  rewrite (store_next b (b_len b)) by (unfold avp_ptr, sizeof_avp_hdr; blen).
  rewrite store_done by done. by rewrite <-!app_assoc.
Qed.

(** Variable-size attributes: the value copied right after the header. *)
Lemma avpn b length type v n :
  n = 6 + blen v →
  (add_nonmandatory_header b length type ≫= λ b1,
   buf_stn b1 (avp_ptr b1) v ≫= λ b2, Some { b2 with b_len := b_len b2 + n })
  = buf_append b (be16 length ++ be16 VENDOR_ID ++ be16 type ++ v).
Proof.
  intros ->. rewrite add_nonmandatory_header_eq, store_next_ptr by blen.
  rewrite store_done by blen. by rewrite <-!app_assoc.
Qed.

(** The attributes the daemon can send, with their values. *)
Inductive avp :=
| MessageType (type : Z)
| ResultCode (result error : Z) (msg : list Z)
| ProtocolVersion
| FramingCaps (caps : Z)
| BearerCaps (caps : Z)
| FirmwareRev
| HostName (name : list Z)
| VendorName
| AssignedTunnel (tid : Z)
| ReceiveWindow (rws : Z)
| Challenge (c : list Z)
| ChallengeResponse (c : list Z)
| AssignedCall (cid : Z)
| CallSerial (serno : Z)
| MinimumBps (speed : Z)
| MaximumBps (speed : Z)
| BearerType (bearer : Z)
| FramingType (frame : Z)
| PacketDelay (ppd : Z)
| DialedNumber (no : list Z)
| TxSpeed (speed : Z)
| PhysChannel (chan : Z)
| RandomVector (c : list Z)
| RxSpeed (speed : Z)
| SequencingRequired.

Definition write_avp (a : avp) (b : buffer) : option buffer :=
  match a with
  | MessageType ty => add_message_type_avp b ty
  | ResultCode r e msg => add_result_code_avp b r e msg (blen msg)
  | ProtocolVersion => add_protocol_avp b
  | FramingCaps caps => add_frame_caps_avp b caps
  | BearerCaps caps => add_bearer_caps_avp b caps
  | FirmwareRev => add_firmware_avp b
  | HostName name => add_hostname_avp b name
  | VendorName => add_vendor_avp b
  | AssignedTunnel tid => add_tunnelid_avp b tid
  | ReceiveWindow rws => add_avp_rws b rws
  | Challenge c => add_challenge_avp b c (blen c)
  | ChallengeResponse c => add_chalresp_avp b c (blen c)
  | AssignedCall cid => add_callid_avp b cid
  | CallSerial n => add_serno_avp b n
  | MinimumBps n => add_minbps_avp b n
  | MaximumBps n => add_maxbps_avp b n
  | BearerType n => add_bearer_avp b n
  | FramingType n => add_frame_avp b n
  | PacketDelay n => add_ppd_avp b n
  | DialedNumber no => add_number_avp b no
  | TxSpeed n => add_txspeed_avp b n
  | PhysChannel n => add_physchan_avp b n
  | RandomVector c => add_randvect_avp b c (blen c)
  | RxSpeed n => add_rxspeed_avp b n
  | SequencingRequired => add_seqreqd_avp b
  end.

(** M bit, attribute type and value of each, from RFC 2661, section 4.4. *)
Definition enc_avp (a : avp) : list Z :=
  match a with
  | MessageType ty => avp_enc true 0 (be16 ty)
  | ResultCode r e msg => avp_enc true 1 (be16 r ++ be16 e ++ msg)
  | ProtocolVersion => avp_enc true 2 [1; 0]
  | FramingCaps caps => avp_enc true 3 ([0; 0] ++ be16 caps)
  | BearerCaps caps => avp_enc true 4 ([0; 0] ++ be16 caps)
  | FirmwareRev => avp_enc false 6 (be16 FIRMWARE_REV)
  | HostName name => avp_enc true 7 (take 1017 name)
  | VendorName => avp_enc false 8 VENDOR_NAME
  | AssignedTunnel tid => avp_enc true 9 (be16 tid)
  | ReceiveWindow rws => avp_enc true 10 (be16 rws)
  | Challenge c => avp_enc true 11 c
  | ChallengeResponse c => avp_enc true 13 c
  | AssignedCall cid => avp_enc true 14 (be16 cid)
  | CallSerial n => avp_enc true 15 (be32 n)
  | MinimumBps n => avp_enc true 16 (be32 n)
  | MaximumBps n => avp_enc true 17 (be32 n)
  | BearerType n => avp_enc true 18 (be32 n)
  | FramingType n => avp_enc true 19 (be32 n)
  | PacketDelay n => avp_enc true 20 (be16 n)
  | DialedNumber no => avp_enc true 21 no
  | TxSpeed n => avp_enc true 24 (be32 n)
  | PhysChannel n => avp_enc false 25 (be32 n)
  | RandomVector c => avp_enc true 36 c
  | RxSpeed n => avp_enc false 38 (be32 n)
  | SequencingRequired => avp_enc true 39 []
  end.

(** Values whose length the 10-bit length field can express. *)
Definition avp_fits (a : avp) : Prop :=
  match a with
  | ResultCode _ _ msg => blen msg <= 1013
  | Challenge c | ChallengeResponse c | RandomVector c => blen c <= 1017
  | DialedNumber no => blen no <= 1017
  | _ => True
  end.

Lemma u16_small z : 0 <= z < 65536 → u16 z = z.
Proof. intros. by apply u16_id. Qed.

Lemma ldn_whole c : ldn c 0 (blen c) = Some c.
Proof. pose proof (ldn_app_mid [] c []) as H. by rewrite app_nil_r in H. Qed.

Lemma blen_take_1017 name :
  blen (take 1017 name) = if blen name >? 1017 then 1017 else blen name.
Proof. unfold blen. rewrite length_take. case_match; lia. Qed.

(** Copying writers, for a value that fits. *)
Lemma copy_avp b type c :
  blen c <= 1017 →
  (add_header b (u16 (6 + blen c)) type ≫= λ b1, ldn c 0 (blen c) ≫= λ bs,
   buf_stn b1 (avp_ptr b1) bs ≫= λ b2, Some { b2 with b_len := b_len b2 + (6 + blen c) })
  = buf_append b (avp_enc true type c).
Proof.
  intros Hc. pose proof (blen_nonneg c). rewrite ldn_whole, u16_small by lia. cbn [mbind option_bind].
  unfold add_header. rewrite avpn by done. done.
Qed.

Lemma hostname_avp_eq b name :
  add_hostname_avp b name = buf_append b (avp_enc true 7 (take 1017 name)).
Proof.
  unfold add_hostname_avp, MAXAVPSIZE. change (1023 - 6) with 1017.
  rewrite <-blen_take_1017. set (n := blen (take 1017 name)).
  assert (take (Z.to_nat n) name = take 1017 name) as ->.
  { subst n. rewrite blen_take_1017. unfold blen. case_match; [done|].
    rewrite Nat2Z.id, !take_ge by lia. done. }
  rewrite u16_small by (subst n; rewrite blen_take_1017; unfold blen; case_match; lia).
  unfold add_header. by rewrite avpn.
Qed.

Lemma result_code_avp_eq b r e msg :
  blen msg <= 1013 →
  add_result_code_avp b r e msg (blen msg)
  = buf_append b (avp_enc true 1 (be16 r ++ be16 e ++ msg)).
Proof.
  intros Hm. pose proof (blen_nonneg msg). unfold add_result_code_avp.
  rewrite ldn_whole, u16_small, add_header_eq by lia. cbn zeta.
  etransitivity; [apply option_bind_ext_fun; intros b1; rewrite buf_st16_htons;
    apply option_bind_ext_fun; intros b2; rewrite buf_st16_htons; cbn; reflexivity|].
  do 3 rewrite (store_next b (b_len b)) by (unfold avp_ptr, sizeof_avp_hdr; blen).
  rewrite store_done by blen. unfold avp_enc. rewrite <-!app_assoc.
  replace (6 + blen (be16 r ++ be16 e ++ msg)) with (0xA + blen msg) by blen. done.
Qed.

Lemma vendor_avp_eq b :
  add_vendor_avp b
  = (buf_append b (avp_enc false 8 VENDOR_NAME) ≫= λ b', buf_stn b' (b_len b') [0]).
Proof.
  unfold add_vendor_avp. rewrite add_nonmandatory_header_eq, store_next_ptr by blen.
  rewrite app_assoc, <-(store_next b (b_len b) (b_len b + 19)) by done.
  rewrite <-(store_done b (avp_enc false 8 VENDOR_NAME) 19) by done.
  change (be16 (u16 (0x6 + blen VENDOR_NAME)) ++ be16 VENDOR_ID ++ be16 8)
    with (be16 19 ++ be16 VENDOR_ID ++ be16 8).
  change (avp_enc false 8 VENDOR_NAME) with ((be16 19 ++ be16 VENDOR_ID ++ be16 8) ++ VENDOR_NAME).
  destruct (buf_stn b (b_len b) _) as [b1|] eqn:E; [|done]. cbn.
  rewrite (buf_stn_len _ _ _ _ E). unfold buf_stn. cbn.
  destruct (stn (b_mem b1) _ [0]); cbn; [|done]. by rewrite (buf_stn_len _ _ _ _ E).
Qed.

(** A store outside the contents does not change them. *)
Lemma store_after_contents b bs :
  buf_wf b → blen bs <= room b →
  ∃ b', buf_stn b (b_len b) bs = Some b' ∧ buf_wf b' ∧ contents b' = contents b ∧
    b_len b' = b_len b ∧ b_start b' = b_start b ∧ b_maxlen b' = b_maxlen b.
Proof.
  intros Hwf Hr. pose proof (contents_ldn b Hwf) as Hc. destruct Hwf as [Hm Hs Hl Hro].
  unfold room in Hr. unfold buf_stn.
  destruct (stn_ok (b_mem b) (b_start b + b_len b) bs) as [m E]; [lia..|]. rewrite E. cbn.
  pose proof (stn_length _ _ _ _ E). eexists. split; [done|].
  assert (buf_wf { b with b_mem := m }) as Hwf' by (constructor; cbn; lia).
  split; [done|]. split; [|done]. pose proof (contents_ldn _ Hwf') as Hc'. cbn in Hc'.
  rewrite (ldn_stn_before _ _ _ _ _ _ E), Hc in Hc' by lia. by injection Hc'.
Qed.

Lemma write_avp_append a b :
  avp_fits a → a ≠ VendorName → write_avp a b = buf_append b (enc_avp a).
Proof.
  intros Hf Hv. destruct a; cbn [write_avp enc_avp avp_fits] in *; try done;
    try apply avp16; try apply avp32; try (by apply copy_avp);
    auto using hostname_avp_eq, result_code_avp_eq.
  - apply (avp32 b (Z.lor 10 MBIT) 3 0 caps).
  - apply (avp32 b (Z.lor 10 MBIT) 4 0 caps).
  - pose proof (blen_nonneg no). unfold add_number_avp, add_header.
    rewrite u16_small, avpn by lia. done.
  - unfold add_seqreqd_avp, add_header. rewrite add_nonmandatory_header_eq.
    by rewrite store_done.
Qed.

(** The destination of a buffer and how often it was sent. *)
Definition same_dest (b b' : buffer) : Prop :=
  b_peer b' = b_peer b ∧ b_tunnel b' = b_tunnel b ∧ b_retries b' = b_retries b.
#[export] Instance same_dest_preorder : PreOrder same_dest.
Proof. split; [done|]. intros ??? (? & ? & ?) (? & ? & ?). split_and!; congruence. Qed.

Lemma buf_stn_dest b p bs b' : buf_stn b p bs = Some b' → same_dest b b'.
Proof. unfold buf_stn. destruct (stn _ _ _); [|done]. by intros [= <-]. Qed.

Lemma write_avp_spec a b :
  buf_wf b → avp_fits a → blen (enc_avp a) < room b →
  ∃ b', write_avp a b = Some b' ∧ buf_wf b' ∧ contents b' = contents b ++ enc_avp a ∧
    b_start b' = b_start b ∧ b_maxlen b' = b_maxlen b ∧ room b' = room b - blen (enc_avp a) ∧
    same_dest b b'.
Proof.
  intros Hwf Hf Hr. destruct (buf_append_ok b (enc_avp a) Hwf) as [b1 E]; [lia|].
  destruct (buf_append_spec _ _ _ Hwf E) as (Hwf1 & Hc & Hl & Hs & Hm & Hroom & Hd).
  assert (a = VendorName ∨ a ≠ VendorName) as [->|Hv] by (destruct a; auto).
  - cbn [write_avp enc_avp] in *. rewrite vendor_avp_eq, E. cbn.
    destruct (store_after_contents b1 [0] Hwf1)
      as (b2 & E2 & Hwf2 & Hc2 & Hl2 & Hs2 & Hm2); [change (blen [0]) with 1; lia|]. rewrite E2.
    exists b2. split; [done|]. split; [done|]. split; [by rewrite Hc2|]. split; [by rewrite Hs2|].
    split; [by rewrite Hm2|]. split; [|by transitivity b1; [|eapply buf_stn_dest]].
    transitivity (room b1); [unfold room; lia|exact Hroom].
  - exists b1. by rewrite write_avp_append, E.
Qed.

(** A message is written attribute by attribute. *)
Fixpoint write_avps (l : list avp) (b : buffer) : option buffer :=
  match l with [] => Some b | a :: l => b ← write_avp a b; write_avps l b end.

Lemma write_avps_spec l : ∀ b,
  buf_wf b → Forall avp_fits l → blen (concat (map enc_avp l)) < room b →
  ∃ b', write_avps l b = Some b' ∧ buf_wf b' ∧
    contents b' = contents b ++ concat (map enc_avp l) ∧
    b_start b' = b_start b ∧ b_maxlen b' = b_maxlen b ∧
    room b' = room b - blen (concat (map enc_avp l)) ∧ same_dest b b'.
Proof.
  induction l as [|a l IH]; intros b Hwf Hf Hr.
  - exists b. cbn [write_avps map concat]. rewrite app_nil_r, blen_nil, Z.sub_0_r. by auto 8.
  - apply Forall_cons in Hf as [Ha Hf]. cbn [map concat] in *. rewrite blen_app in *.
    pose proof (blen_nonneg (concat (map enc_avp l))).
    destruct (write_avp_spec a b Hwf Ha) as (b1 & E & Hwf1 & Hc & Hs & Hm & Hr1 & Hd1); [lia|].
    destruct (IH b1 Hwf1 Hf) as (b2 & E2 & Hwf2 & Hc2 & Hs2 & Hm2 & Hr2 & Hd2); [lia|].
    exists b2. cbn [write_avps]. rewrite E. cbn.
    split; [done|]. split; [done|]. split; [by rewrite Hc2, Hc, <-app_assoc|].
    split; [congruence|]. split; [congruence|]. split; [lia|by transitivity b1].
Qed.

(** ** Properties *)

(** Every attribute writer of [avpsend.c] stores exactly the RFC 2661
    encoding of its attribute (M bit, 10-bit length, vendor ID 0, attribute
    number, value in network order) after the contents of the buffer and
    nothing inside them, and never leaves the buffer when more bytes are free
    than it writes (one more, for the terminator [strcpy] stores after the
    vendor name). *)
Theorem writers_append_encoding (a : avp) (b : buffer) :
  buf_wf b → avp_fits a → blen (enc_avp a) < room b →
  ∃ b', write_avp a b = Some b' ∧ buf_wf b' ∧ contents b' = contents b ++ enc_avp a ∧
    room b' = room b - blen (enc_avp a).
Proof.
  intros Hwf Hf Hr. destruct (write_avp_spec a b Hwf Hf Hr) as (b' & ? & ? & ? & _ & _ & ? & _).
  eauto.
Qed.

Definition empty_buf (n : nat) : buffer :=
  mkBuffer (replicate n 0) 12 0 (Z.of_nat n) (Sockaddr 0 0) None 0.

Lemma empty_buf_wf : buf_wf (empty_buf 64).
Proof. constructor; vm_compute; congruence. Qed.

Example writers_append_encoding_witness :
  ∃ b', write_avp (AssignedTunnel 0x1234) (empty_buf 64) = Some b' ∧ buf_wf b' ∧
    contents b' = [0x80; 8; 0; 0; 0; 9; 0x12; 0x34] ∧ room b' = 44.
Proof.
  exact (writers_append_encoding (AssignedTunnel 0x1234) (empty_buf 64) empty_buf_wf I
    ltac:(vm_compute; reflexivity)).
Defined.

(** A message built by any sequence of attribute writers holds the
    concatenation of the encodings, in order. *)
Theorem message_encoding (l : list avp) (b : buffer) :
  buf_wf b → Forall avp_fits l → blen (concat (map enc_avp l)) < room b →
  ∃ b', write_avps l b = Some b' ∧ buf_wf b' ∧
    contents b' = contents b ++ concat (map enc_avp l).
Proof.
  intros Hwf Hf Hr. destruct (write_avps_spec l b Hwf Hf Hr) as (b' & ? & ? & ? & _). eauto.
Qed.

Example message_encoding_witness :
  ∃ b', write_avps [MessageType 6; VendorName] (empty_buf 64) = Some b' ∧ buf_wf b' ∧
    contents b' = [0x80; 8; 0; 0; 0; 0; 0; 6] ++ [0; 19; 0; 0; 0; 8] ++ VENDOR_NAME.
Proof.
  exact (message_encoding [MessageType 6; VendorName] (empty_buf 64) empty_buf_wf
    ltac:(repeat constructor) ltac:(vm_compute; reflexivity)).
Defined.

End AvpSend.
