(* ===== verification/State.v ===== *)
(** * The daemon's data and the effects of its code

    The structures of [src/call.h], [src/l2tp.h], [src/file.h] and
    [src/aaa.h], the heap that holds them, and the monad the later files
    write the program in.

    - [struct call], [struct tunnel], [struct lns] and [struct lac] live in
      finite maps from addresses; a pointer is an [option nat], [None] being
      [NULL].  An access through a pointer that is not in the map (NULL, or an
      object that was freed) is undefined behaviour: the outcome [UB].
    - a loop over a linked list runs with fuel; the outcome [NoFuel] means
      that the fuel given was not enough.
    - what the environment answers ([gettimeofday], [rand], [malloc], the
      entropy source, system calls) is read from streams in [env]; what the
      program does to it (datagrams, signals, processes) is appended to
      [w_out].  Logging is left out. *)

From S2P Require Import Prelude.
From S2P Require Import Md5.
From S2P Require Import Scheduler.
From S2P Require Import Buffer.
From Stdlib Require Import Ascii.
From stdpp Require Export strings gmap.

Module State.
Import Md5 Scheduler Buffer.
Open Scope Z_scope.

(** ** Constants *)

Definition EINVAL : Z := 22.
Definition EIO : Z := 5.
Definition EINTR : Z := 4.
Definition EAGAIN : Z := 11.

Definition SCCRQ : Z := 1.
Definition SCCRP : Z := 2.
Definition SCCCN : Z := 3.
Definition StopCCN : Z := 4.
Definition Hello : Z := 6.
Definition OCRQ : Z := 7.
Definition OCRP : Z := 8.
Definition OCCN : Z := 9.
Definition ICRQ : Z := 10.
Definition ICRP : Z := 11.
Definition ICCN : Z := 12.
Definition CDN : Z := 14.
Definition WEN : Z := 15.
Definition SLI : Z := 16.
Definition MAX_MSG : Z := 16.

Definition TBIT : Z := 0x8000.
Definition LBIT : Z := 0x4000.
Definition RBIT : Z := 0x2000.
Definition FBIT : Z := 0x0800.
Definition VER_L2TP : Z := 2.

Definition SYNC_FRAMING : Z := 1.
Definition ASYNC_FRAMING : Z := 2.

Definition DEFAULT_RWS_SIZE : Z := 4.
Definition DEFAULT_TX_BPS : Z := 10000000.
Definition DEFAULT_RX_BPS : Z := 10000000.
Definition DEFAULT_MAX_BPS : Z := 10000000.
Definition DEFAULT_MIN_BPS : Z := 10000.
Definition PAYLOAD_FUDGE : Z := 2.
Definition MIN_PAYLOAD_HDR_LEN : Z := 6.
Definition HELLO_DELAY : Z := 60.

Definition MD_SIG_SIZE : Z := 16.
Definition VECTOR_SIZE : Z := 16.
Definition STATE_NONE : Z := 0.
Definition STATE_CHALLENGED : Z := 1.
Definition STATE_COMPLETE : Z := 2.

Definition RESULT_CLEAR : Z := 1.
Definition RESULT_ERROR : Z := 2.
Definition RESULT_EXISTS : Z := 3.
Definition ERROR_RESERVED : Z := 3.
Definition ERROR_LENGTH : Z := 2.
Definition ERROR_NOTEXIST : Z := 1.
Definition ERROR_NORES : Z := 4.
Definition ERROR_INVALID : Z := 6.
Definition VENDOR_ERROR : Z := 6.
Definition SIGTERM : Z := 15.

Definition CTBIT (ver : Z) : bool := truthy (Z.land ver 0x8000).
Definition CLBIT (ver : Z) : bool := truthy (Z.land ver 0x4000).
Definition CFBIT (ver : Z) : bool := truthy (Z.land ver 0x0800).
Definition CVER (ver : Z) : Z := Z.land ver 0x0007.
Definition PSBIT (ver : Z) : bool := truthy (Z.land ver 0x0200).

(** A [char] array holding a C string, as the bytes stored before the
    terminator the copying routine writes; [cstr] is what [strlen] sees. *)
Fixpoint cstr (s : list Z) : list Z :=
  match s with [] => [] | x :: s => if x =? 0 then [] else x :: cstr s end.

(** The bytes of a string constant. *)
Definition str (s : string) : list Z :=
  map (λ a, Z.of_N (N_of_ascii a)) (String.list_ascii_of_string s).

(** [%d] *)
Fixpoint digits (fuel : nat) (n : Z) (acc : list Z) : list Z :=
  match fuel with
  | O => acc
  | S fuel => if n <? 10 then (48 + n) :: acc else digits fuel (n / 10) ((48 + n mod 10) :: acc)
  end.
Definition dec (n : Z) : list Z := if n <? 0 then 45 :: digits 12 (- n) [] else digits 12 n [].

(** ** Structures *)

(** [unsigned char *vector] of a challenge points into the packet being
    handled or to a block of its own. *)
Inductive vecptr := VNull | VPkt (off : Z) | VHeap (bs : list Z).

(** The MD5 context inside a challenge is scratch space: [calloc] clears it
    and [MD5Final] clears it again, so it is all zero whenever a digest is
    begun; it is left out. *)
Record challenge := mkChallenge {
  ch_ss : Z;                      (* state we're sending in *)
  ch_secret : list Z;
  ch_challenge : option (list Z); (* the original challenge *)
  ch_chal_len : Z;
  ch_response : list Z;           (* what we expect as a response *)
  ch_reply : list Z;              (* what the peer sent *)
  ch_vector : vecptr;
  ch_vector_len : Z;
  ch_state : Z }.

Record iprange := IpRange { r_start : Z; r_end : Z; r_sense : Z }.
Definition SENSE_ALLOW : Z := -1.
Definition SENSE_DENY : Z := 0.

Record lns := mkLns {
  lns_exclusive : Z; lns_localaddr : Z; lns_tun_rws : Z; lns_call_rws : Z; lns_rxspeed : Z; lns_txspeed : Z;
  lns_hbit : Z; lns_lbit : Z; lns_challenge : Z;
  lns_authpeer : Z; lns_authself : Z; lns_authname : list Z; lns_peername : list Z;
  lns_hostname : list Z; lns_entname : list Z;
  lns_lacs : list iprange; lns_range : list iprange; lns_localrange : list iprange;
  lns_assign_ip : Z; lns_passwdauth : Z;
  lns_pap_require : Z; lns_chap_require : Z; lns_pap_refuse : Z; lns_chap_refuse : Z;
  lns_debug : Z; lns_pass_peer : Z; lns_pppoptfile : list Z;
  lns_t : option nat }.

Record lac := mkLac {
  lac_lns : list (list Z * Z);    (* hosts we can connect to: name, port *)
  lac_rsched : option nat;
  lac_tun_rws : Z; lac_call_rws : Z; lac_rxspeed : Z; lac_txspeed : Z;
  lac_active : Z; lac_hbit : Z; lac_lbit : Z; lac_challenge : Z;
  lac_localaddr : Z; lac_remoteaddr : Z;
  lac_authname : list Z; lac_password : list Z; lac_peername : list Z;
  lac_hostname : list Z; lac_entname : list Z;
  lac_authpeer : Z; lac_authself : Z;
  lac_pap_require : Z; lac_chap_require : Z; lac_pap_refuse : Z; lac_chap_refuse : Z;
  lac_autodial : Z; lac_defaultroute : Z; lac_redial : Z; lac_rmax : Z; lac_rtries : Z; lac_rtimeout : Z;
  lac_pass_peer : Z; lac_pppoptfile : list Z; lac_debug : Z;
  lac_t : option nat;             (* our tunnel *)
  lac_c : option nat }.           (* our call *)

Record call := mkCall {
  c_lbit : Z; c_seq_reqd : Z;
  c_tx_pkts : Z; c_rx_pkts : Z; c_tx_bytes : Z; c_rx_bytes : Z;
  c_zlb_xmit : option nat;
  c_prx : Z; c_state : Z; c_frame : Z;
  c_next : option nat;
  c_debug : Z; c_msgtype : Z;
  c_ourcid : Z; c_cid : Z; c_qcid : Z;
  c_bearer : Z; c_serno : Z; c_addr : Z; c_txspeed : Z; c_rxspeed : Z; c_ppd : Z;
  c_physchan : Z; c_dialed : list Z; c_dialing : list Z; c_subaddy : list Z;
  c_needclose : Z; c_closing : Z;
  c_container : option nat;
  c_fd : Z; c_rbuf : list Z; c_rbuf_pos : Z; c_rbuf_max : Z;
  c_ppp_buf : option buffer;
  c_die : Z; c_nego : Z; c_pppd : Z; c_result : Z; c_error : Z;
  c_fbit : Z; c_ourfbit : Z; c_cnu : Z; c_pnu : Z;
  c_errormsg : list Z;
  c_data_seq_num : Z; c_data_rec_seq_num : Z; c_closeSs : Z; c_pLr : Z;
  c_lns : option nat; c_lac : option nat;
  c_dial_no : list Z }.

Record tunnel := mkTunnel {
  t_call_head : option nat; t_next : option nat;
  t_fc : Z; t_hello : option nat; t_ourfc : Z; t_bc : Z; t_hbit : Z; t_ourbc : Z;
  t_tb : Z; t_ourtb : Z; t_tid : Z; t_refme : Z; t_refhim : Z; t_ourtid : Z; t_qtid : Z;
  t_firmware : Z; t_peer : sockaddr;
  t_debug : Z; t_nego : Z; t_count : Z; t_state : Z;
  t_control_seq_num : Z; t_control_rec_seq_num : Z; t_cLr : Z;
  t_sanity : Z; t_rws : Z; t_ourrws : Z; t_rxspeed : Z; t_txspeed : Z;
  t_udp_fd : Z; t_pppox_fd : Z;
  t_self : option nat; t_lns : option nat; t_lac : option nat;
  t_my_addr : Z;
  t_hostname : list Z; t_vendor : list Z;
  t_chal_us : challenge; t_chal_them : challenge;
  t_secret : list Z }.

Record global := mkGlobal {
  g_listenaddr : Z; g_port : Z; g_authfile : list Z; g_accesscontrol : Z; g_forceuserspace : Z;
  g_packet_dump : Z; g_debug_avp : Z; g_debug_network : Z; g_debug_tunnel : Z; g_debug_state : Z;
  g_ipsecsaref : Z; g_sarefnum : Z; g_max_retries : Z; g_cap_backoff : Z;
  g_controltos : list Z; g_controlfile : list Z; g_pidfile : list Z; g_daemon : Z }.

(** The functions put on the scheduler's queue, with their argument.  A
    buffer waiting for retransmission is owned by its entry. *)
Inductive job :=
  | Jcontrol_xmit (b : buffer)
  | Jhello (t : nat)
  | Jsend_zlb (c : nat)
  | Jmagic_lac_dial (l : nat).

(** ** The environment *)

(** The answer of [write]: it takes up to [n] of the bytes offered, or fails
    with [errno]. *)
Inductive io := IoOk (n : nat) | IoErr (e : Z).

(** The system calls whose answers steer the code, with the arguments that
    matter.  [Sopen] and [Ssocket] answer a descriptor, [Sfork] what [fork]
    answers to the process the model follows, the others 0 or more, and all of
    them a negative number on failure. *)
Record pppol2tp := Pppol2tp {
  sx_fd : Z; sx_addr : sockaddr; sx_s_tunnel : Z; sx_s_session : Z; sx_d_tunnel : Z; sx_d_session : Z }.
Inductive syscall :=
  | Ssocket (domain : Z)
  | Sbind (fd : Z) (addr : sockaddr)
  | Sconnect (fd : Z) (addr : sockaddr)
  | Sconnect_pppox (fd : Z) (sax : pppol2tp)
  | Ssetsockopt (fd level name value : Z)
  | Sgetfl (fd : Z)
  | Ssetfl (fd flags : Z)
  | Sopen (path : list Z) (flags : Z)
  | Sclose (fd : Z)
  | Sunlockpt (fd : Z)
  | Snoecho (fd : Z)               (* tcgetattr and tcsetattr *)
  | Sdup2 (fd to : Z)
  | Sfork
  | Suname
  | Ssetsid
  | Sgetpid
  | Skill0 (pid : Z)               (* kill (pid, 0) *)
  | Sunlink (path : list Z)
  | Smkfifo (path : list Z)
  | Swrite (fd : Z) (data : list Z).

Record env := mkEnv {
  e_now : nat → timeval;          (* gettimeofday *)
  e_rand : nat → Z;               (* rand () *)
  e_entropy : nat → list Z;       (* bytes the entropy source delivers *)
  e_malloc : nat → Z → option (list Z);   (* None: out of memory *)
  e_write : nat → list io;        (* answers to the writes of one packet *)
  e_stack : nat → list Z;         (* what a fresh stack array holds *)
  e_sys : nat → syscall → Z;
  e_pipe : nat → Z;               (* read end of the password pipe; negative on failure *)
  e_host : nat → option Z;        (* gethostbyname *)
  e_ptsname : nat → option (list Z);      (* ptsname; None: NULL *)
  e_sockname : nat → option Z;    (* sin_port as getsockname reports it; None: failure *)
  e_read : nat → option (list Z) }.       (* what read finds in the pid file; None: failure *)

Inductive output :=
  | Oudp (to : sockaddr) (from : Z) (data : list Z)
  | Oclose (fd : Z)
  | Okill (pid sig : Z)
  | Otty (fd : Z) (data : list Z)
  | Opppd (c : nat) (argv : list (list Z)) (child : list syscall) (caller : option (list Z))
                                   (* execv of pppd: its arguments, what the child did to its descriptors,
                                      CALLER_ID *)
  | Ores (line : list Z).          (* text for the client of a control command *)

Record world := mkWorld {
  w_env : env;
  w_clk : nat;                    (* next position in the streams of [w_env] *)
  w_fresh : nat;                  (* next address to allocate *)
  w_tunnels : gmap nat tunnel;
  w_calls : gmap nat call;
  w_lnss : gmap nat lns;
  w_lacs : gmap nat lac;
  w_head : option nat; w_count : Z;         (* tunnels.head, tunnels.count *)
  w_lnslist : list nat; w_deflns : option nat; w_deflac : option nat;
  w_laclist : list nat;
  w_gconfig : global;
  w_kernel_support : Z;
  w_switch_io : Z;
  w_global_serno : Z;
  w_hostname : list Z;
  w_dial_no_tmp : list Z;
  w_events : list (schedule_entry job);
  w_uaddr : gmap Z (list Z);                (* the hash table of reserved addresses *)
  w_secrets : option (list Z);              (* the authentication file, if it can be opened *)
  w_rx : list Z;                            (* memory of the packet being handled *)
  w_out : list output;
  w_server_socket : Z; w_control_fd : Z;
  w_sys : list (syscall * Z) }.             (* the system calls made, with their answers *)

(** ** The monad *)

Inductive res (A : Type) :=
  | Ret (a : A) (w : world)
  | UB
  | NoFuel.
#[global] Arguments Ret {A} a w.
#[global] Arguments UB {A}.
#[global] Arguments NoFuel {A}.

Definition M (A : Type) : Type := world → res A.

#[export] Instance M_ret : MRet M := λ A a w, Ret a w.
#[export] Instance M_bind : MBind M := λ A B k m w,
  match m w with Ret a w' => k a w' | UB => UB | NoFuel => NoFuel end.

Definition ub {A} : M A := λ _, UB.
Definition nofuel {A} : M A := λ _, NoFuel.
Definition gets {A} (f : world → A) : M A := λ w, Ret (f w) w.
Definition upd (f : world → world) : M unit := λ w, Ret tt (f w).
Definition need {A} (o : option A) : M A := λ w, match o with Some a => Ret a w | None => UB end.
Definition when (b : bool) (m : M unit) : M unit := if b then m else mret tt.

(** Objects on the heap. *)
Definition get_t (p : nat) : M tunnel := λ w,
  match w_tunnels w !! p with Some t => Ret t w | None => UB end.
Definition get_c (p : nat) : M call := λ w,
  match w_calls w !! p with Some c => Ret c w | None => UB end.
Definition get_lnsp (p : nat) : M lns := λ w,
  match w_lnss w !! p with Some c => Ret c w | None => UB end.
Definition get_lacp (p : nat) : M lac := λ w,
  match w_lacs w !! p with Some c => Ret c w | None => UB end.

Definition mod_t (p : nat) (f : tunnel → tunnel) : M unit := λ w,
  match w_tunnels w !! p with
  | Some t => Ret tt { w with w_tunnels := <[p := f t]> (w_tunnels w) } | None => UB end.
Definition mod_c (p : nat) (f : call → call) : M unit := λ w,
  match w_calls w !! p with
  | Some c => Ret tt { w with w_calls := <[p := f c]> (w_calls w) } | None => UB end.
Definition mod_lns (p : nat) (f : lns → lns) : M unit := λ w,
  match w_lnss w !! p with
  | Some c => Ret tt { w with w_lnss := <[p := f c]> (w_lnss w) } | None => UB end.
Definition mod_lac (p : nat) (f : lac → lac) : M unit := λ w,
  match w_lacs w !! p with
  | Some c => Ret tt { w with w_lacs := <[p := f c]> (w_lacs w) } | None => UB end.

Definition alloc : M nat := λ w, Ret (w_fresh w) { w with w_fresh := S (w_fresh w) }.
Definition emit (o : output) : M unit := upd (λ w, { w with w_out := w_out w ++ [o] }).

(** One answer of the environment. *)
Definition ask {A} (f : env → nat → A) : M A := λ w,
  Ret (f (w_env w) (w_clk w)) { w with w_clk := S (w_clk w) }.

(** A system call. *)
Definition sys (s : syscall) : M Z :=
  r ← ask (λ e k, e_sys e k s);
  upd (λ w, { w with w_sys := w_sys w ++ [(s, r)] });;
  mret r.
(** One whose answer is not looked at. *)
Definition sys_ (s : syscall) : M unit := sys s;; mret tt.

(** The scheduler at work on the daemon's queue. *)
Definition Mschedule (tv : timeval) (j : job) : M nat :=
  now ← ask e_now;
  q ← alloc;
  upd (λ w, { w with w_events := schedule now q tv j (w_events w) });;
  mret q.
Definition Mdeschedule (s : option nat) : M unit :=
  upd (λ w, { w with w_events := deschedule s (w_events w) }).

(** [set_error]: the message is already formatted; [vsnprintf] keeps
    [MAXSTRLEN - 1] bytes of it and a trailing newline is dropped. *)
Definition set_error (c : nat) (error : Z) (msg : list Z) : M unit :=
  let m := take (Z.to_nat (MAXSTRLEN - 1)) msg in
  let m := if bool_decide (last m = Some 10) then take (length m - 1) m else m in
  mod_c c (λ c, { c with c_error := error; c_result := RESULT_ERROR; c_needclose := -1;
                         c_errormsg := m }).

(** [safe_copy a b size]: at most [MAXSTRLEN - 1] bytes of [b], [strncpy]
    stopping at a terminator. *)
Definition safe_copy (b : list Z) (size : Z) : list Z :=
  cstr (take (Z.to_nat (Z.min size (MAXSTRLEN - 1))) b).

(** ** Concrete values for examples *)

Definition zero_sockaddr : sockaddr := Sockaddr 0 0.
Definition zero_challenge : challenge :=
  mkChallenge 0 [] None 0 (replicate 16 0) (replicate 16 0) VNull 0 0.
Definition zero_lns : lns :=
  mkLns 0 0 4 4 0 0 0 0 0 0 0 [] [] [] [] [] [] [] 0 0 0 0 0 0 0 0 [] None.
Definition zero_lac : lac :=
  mkLac [] None 4 4 0 0 0 0 0 0 0 0 [] [] [] [] [] 0 0 0 0 0 0 0 0 0 0 0 0 0 [] 0 None None.
Definition zero_call : call :=
  mkCall 0 0 0 0 0 0 None 0 0 0 None 0 0 0 0 0 0 0 0 0 0 0 0 [] [] [] 0 0 None (-1)
    (replicate 4096 0) 0 0 None 0 0 0 (-1) (-1) 0 0 0 0 [] 0 0 0 (-1) None None [].
Definition zero_tunnel : tunnel :=
  mkTunnel None None (-1) None 3 (-1) 0 0 0 0 (-1) 0 0 0 (-1) 0 zero_sockaddr 0 0 0 0 0 0 0
    (-1) 0 4 0 0 (-1) (-1) None None None 0 [] [] zero_challenge zero_challenge [].
Definition zero_env : env :=
  mkEnv (λ _, Tv 100 0) (λ _, 7) (λ n, replicate 16 (Z.of_nat n)) (λ _ n, Some (replicate (Z.to_nat n) 0))
    (λ _, [IoOk 4096]) (λ _, replicate 100 0)
    (λ _ s, match s with Sfork => 1234 | Sopen _ _ => 5 | Ssocket _ => 6 | Swrite _ d => blen d | _ => 0 end)
    (λ _, 9) (λ _, Some 0x0100007f) (λ _, Some (str "/dev/pts/1")) (λ _, Some 0xa506) (λ _, None).
Definition zero_global : global := mkGlobal 0 1701 [] 0 0 0 0 0 0 0 0 30 5 0 [] [] [] 0.
Definition zero_world : world :=
  mkWorld zero_env 0 100 ∅ ∅ ∅ ∅ None 0 [] None None [] zero_global 0 0 1 [104] [] [] ∅ None [] [] 3 4 [].

End State.
