(* ===== verification/Logic.v ===== *)
(** * Reasoning about the daemon's code

    Four predicates on computations of [State.M], with rules for every
    construct and a tactic for each that applies them:
    - [wp m Q w]: from [w], [m] returns (it neither leaves memory nor runs
      out of fuel) and result and final state satisfy [Q];
    - [wlp m Q w]: if [m] returns from [w], result and final state satisfy [Q];
    - [pres I m]: whenever [m] returns, the invariant [I] is kept;
    - [fueled m]: [m] never runs out of fuel.
    The last part is the linked lists of tunnels and calls. *)

From S2P Require Import Prelude.
From S2P Require Import Scheduler.
From S2P Require Import Buffer.
From S2P Require Import State.

Module Logic.
Import Scheduler Buffer State.
Open Scope Z_scope.

(** ** Total correctness *)

Definition wp {A} (m : M A) (Q : A → world → Prop) (w : world) : Prop :=
  match m w with Ret a w' => Q a w' | UB => False | NoFuel => False end.

(** Running the first half of a sequence. *)
Lemma bind_eq {A B} (m : M A) (k : A → M B) w a w' :
  m w = Ret a w' → (m ≫= k) w = k a w'.
Proof. unfold mbind, M_bind. by intros ->. Qed.

Section Wp.
Context {A B : Type}.
Implicit Types (w : world) (Q : A → world → Prop).

Lemma wp_iff (m : M A) Q w : wp m Q w ↔ ∃ a w', m w = Ret a w' ∧ Q a w'.
Proof. unfold wp. destruct (m w); naive_solver. Qed.
Lemma wp_mono (m : M A) Q Q' w : wp m Q w → (∀ a w', Q a w' → Q' a w') → wp m Q' w.
Proof. unfold wp. destruct (m w); naive_solver. Qed.
Lemma wp_eq (m : M A) Q w a w' : m w = Ret a w' → Q a w' → wp m Q w.
Proof. unfold wp. by intros ->. Qed.
Lemma wp_run (m : M A) w a w' : wp m (λ b w2, b = a ∧ w2 = w') w → m w = Ret a w'.
Proof. intros (b & w2 & E & -> & ->)%wp_iff. done. Qed.
Lemma wp_ret (a : A) Q w : Q a w → wp (mret a) Q w.
Proof. done. Qed.
Lemma wp_bind (m : M B) (k : B → M A) Q w : wp m (λ b, wp (k b) Q) w → wp (m ≫= k) Q w.
Proof. unfold wp, mbind, M_bind. by destruct (m w). Qed.
Lemma wp_gets (f : world → A) Q w : Q (f w) w → wp (gets f) Q w.
Proof. done. Qed.
Lemma wp_need (o : option A) a Q w : o = Some a → Q a w → wp (need o) Q w.
Proof. by intros ->. Qed.
Lemma wp_ask (f : env → nat → A) Q w :
  Q (f (w_env w) (w_clk w)) { w with w_clk := S (w_clk w) } → wp (ask f) Q w.
Proof. done. Qed.
End Wp.

Lemma wp_upd f (Q : unit → world → Prop) w : Q tt (f w) → wp (upd f) Q w.
Proof. done. Qed.
Lemma wp_emit o (Q : unit → world → Prop) w :
  Q tt { w with w_out := w_out w ++ [o] } → wp (emit o) Q w.
Proof. done. Qed.
Lemma wp_when (b : bool) m (Q : unit → world → Prop) w :
  (if b then wp m Q w else Q tt w) → wp (when b m) Q w.
Proof. by destruct b. Qed.
Lemma wp_get_t p t Q w : w_tunnels w !! p = Some t → Q t w → wp (get_t p) Q w.
Proof. unfold wp, get_t. by intros ->. Qed.
Lemma wp_get_c p c Q w : w_calls w !! p = Some c → Q c w → wp (get_c p) Q w.
Proof. unfold wp, get_c. by intros ->. Qed.
Lemma wp_get_lnsp p l Q w : w_lnss w !! p = Some l → Q l w → wp (get_lnsp p) Q w.
Proof. unfold wp, get_lnsp. by intros ->. Qed.
Lemma wp_get_lacp p l Q w : w_lacs w !! p = Some l → Q l w → wp (get_lacp p) Q w.
Proof. unfold wp, get_lacp. by intros ->. Qed.

(** The effect of an assignment through a pointer. *)
Definition set_t (p : nat) (t : tunnel) (w : world) : world :=
  { w with w_tunnels := <[p := t]> (w_tunnels w) }.
Definition set_c (p : nat) (c : call) (w : world) : world :=
  { w with w_calls := <[p := c]> (w_calls w) }.
Lemma wp_mod_t p t f (Q : unit → world → Prop) w :
  w_tunnels w !! p = Some t → Q tt (set_t p (f t) w) → wp (mod_t p f) Q w.
Proof. unfold wp, mod_t. by intros ->. Qed.
Lemma wp_mod_c p c f (Q : unit → world → Prop) w :
  w_calls w !! p = Some c → Q tt (set_c p (f c) w) → wp (mod_c p f) Q w.
Proof. unfold wp, mod_c. by intros ->. Qed.

(** Lookup after assignments. *)
Lemma set_t_eq p t w : w_tunnels (set_t p t w) !! p = Some t.
Proof. apply lookup_insert_eq. Qed.
Lemma set_c_eq p c w : w_calls (set_c p c w) !! p = Some c.
Proof. apply lookup_insert_eq. Qed.
Lemma set_t_ne p q t w : p ≠ q → w_tunnels (set_t p t w) !! q = w_tunnels w !! q.
Proof. apply lookup_insert_ne. Qed.
Lemma set_c_ne p q c w : p ≠ q → w_calls (set_c p c w) !! q = w_calls w !! q.
Proof. apply lookup_insert_ne. Qed.
Lemma set_t_twice w p t t' : set_t p t (set_t p t' w) = set_t p t w.
Proof. unfold set_t. cbn. by rewrite insert_insert_eq. Qed.
Lemma set_c_twice w p c c' : set_c p c (set_c p c' w) = set_c p c w.
Proof. unfold set_c. cbn. by rewrite insert_insert_eq. Qed.
Lemma set_t_set_c w p t q c : set_t p t (set_c q c w) = set_c q c (set_t p t w).
Proof. done. Qed.
Lemma set_t_id w p t : w_tunnels w !! p = Some t → set_t p t w = w.
Proof. intros Ht. unfold set_t. rewrite insert_id by done. by destruct w. Qed.
Lemma set_c_id w p c : w_calls w !! p = Some c → set_c p c w = w.
Proof. intros Ht. unfold set_c. rewrite insert_id by done. by destruct w. Qed.
Lemma set_t_calls p t w : w_calls (set_t p t w) = w_calls w.
Proof. done. Qed.
Lemma set_c_tunnels p c w : w_tunnels (set_c p c w) = w_tunnels w.
Proof. done. Qed.
(** A system call is recorded with its answer. *)
Definition called (s : syscall) (w : world) : world :=
  { w with w_clk := S (w_clk w); w_sys := w_sys w ++ [(s, e_sys (w_env w) (w_clk w) s)] }.
Lemma wp_sys s (Q : Z → world → Prop) w : Q (e_sys (w_env w) (w_clk w) s) (called s w) → wp (sys s) Q w.
Proof. done. Qed.
Lemma wp_sys_ s (Q : unit → world → Prop) w : Q tt (called s w) → wp (sys_ s) Q w.
Proof. done. Qed.
(** When the answer does not matter: the state is the same but for the calls
    made. *)
Definition after_calls (k : nat) (tr : list (syscall * Z)) (w : world) : world := { w with w_clk := k; w_sys := tr }.
Lemma after_calls_twice k tr k' tr' w : after_calls k tr (after_calls k' tr' w) = after_calls k tr w.
Proof. done. Qed.
Lemma after_calls_set_t k tr p t w : after_calls k tr (set_t p t w) = set_t p t (after_calls k tr w).
Proof. done. Qed.
Lemma after_calls_set_c k tr p c w : after_calls k tr (set_c p c w) = set_c p c (after_calls k tr w).
Proof. done. Qed.
Lemma after_calls_tunnels k tr w : w_tunnels (after_calls k tr w) = w_tunnels w.
Proof. done. Qed.
Lemma after_calls_calls k tr w : w_calls (after_calls k tr w) = w_calls w.
Proof. done. Qed.
Lemma wp_sys_any s (Q : Z → world → Prop) w : (∀ r k tr, Q r (after_calls k tr w)) → wp (sys s) Q w.
Proof. intros HQ. apply HQ. Qed.
Lemma wp_sys__any s (Q : unit → world → Prop) w : (∀ k tr, Q tt (after_calls k tr w)) → wp (sys_ s) Q w.
Proof. intros HQ. apply HQ. Qed.
(** Closed facts about concrete states. *)
Ltac by_compute := solve [vm_compute; first [reflexivity | split; congruence | congruence]].

Create Rewrite HintDb heap.
#[export] Hint Rewrite set_t_eq set_c_eq set_t_calls set_c_tunnels after_calls_tunnels after_calls_calls : heap.

(** A heap lookup, through the assignments made so far. *)
Ltac heap := autorewrite with heap; first [eassumption | reflexivity].

Ltac wstep :=
  match goal with
  | |- wp (mbind _ _) _ _ => apply wp_bind
  | |- wp (mret _) _ _ => apply wp_ret
  | |- wp (gets _) _ _ => apply wp_gets
  | |- wp (upd _) _ _ => apply wp_upd
  | |- wp (emit _) _ _ => apply wp_emit
  | |- wp (ask _) _ _ => apply wp_ask
  | |- wp (sys _) _ _ => apply wp_sys
  | |- wp (sys_ _) _ _ => apply wp_sys_
  | |- wp (when _ _) _ _ => apply wp_when
  | |- wp (need (Some _)) _ _ => eapply wp_need; [reflexivity|]
  | |- wp (get_t _) _ _ => eapply wp_get_t; [heap|]
  | |- wp (get_c _) _ _ => eapply wp_get_c; [heap|]
  | |- wp (get_lnsp _) _ _ => eapply wp_get_lnsp; [heap|]
  | |- wp (get_lacp _) _ _ => eapply wp_get_lacp; [heap|]
  | |- wp (mod_t _ _) _ _ => eapply wp_mod_t; [heap|]
  | |- wp (mod_c _ _) _ _ => eapply wp_mod_c; [heap|]
  end; cbv beta.
Ltac wsteps := repeat wstep.
(** Running code that makes system calls with answers that do not matter. *)
Ltac wany :=
  repeat first
    [ match goal with
      | |- wp (sys _) _ _ => apply wp_sys_any; intros ? ? ?
      | |- wp (sys_ _) _ _ => apply wp_sys__any; intros ? ?
      end; cbv beta
    | wstep
    | match goal with |- wp (if ?b then _ else _) _ _ => destruct b end
    | progress rewrite ?after_calls_twice, ?after_calls_set_t, ?after_calls_set_c, ?set_t_twice, ?set_c_twice ].

(** ** Invariants *)

Definition pres (I : world → Prop) {A} (m : M A) : Prop :=
  ∀ w a w', I w → m w = Ret a w' → I w'.

Section Pres.
Context (I : world → Prop).
Context {A B : Type}.

Lemma pres_ret (a : A) : pres I (mret a).
Proof. intros w a' w' Hw. by intros [= <- <-]. Qed.
Lemma pres_bind (m : M B) (k : B → M A) :
  pres I m → (∀ b, pres I (k b)) → pres I (m ≫= k).
Proof.
  intros Hm Hk w a w' Hw. unfold mbind, M_bind. destruct (m w) as [b w1| |] eqn:E; [|done..].
  apply Hk. eauto.
Qed.
Lemma pres_ub : pres I (ub (A := A)).
Proof. by intros w a w'. Qed.
Lemma pres_nofuel : pres I (nofuel (A := A)).
Proof. by intros w a w'. Qed.
Lemma pres_gets (f : world → A) : pres I (gets f).
Proof. intros w a w' Hw. by intros [= <- <-]. Qed.
Lemma pres_need (o : option A) : pres I (need o).
Proof. intros w a w' Hw. unfold need. destruct o; [by intros [= <- <-]|done]. Qed.
End Pres.
Lemma pres_upd (I : world → Prop) f : (∀ w, I w → I (f w)) → pres I (upd f).
Proof. intros Hf w a w' Hw [= <- <-]. auto. Qed.
Lemma pres_when (I : world → Prop) (b : bool) m : pres I m → pres I (when b m).
Proof. destruct b; [done|]. intros _. apply pres_ret. Qed.
Lemma pres_get_t I p : pres I (get_t p).
Proof. intros w a w' Hw. unfold get_t. case_match; [by intros [= <- <-]|done]. Qed.
Lemma pres_get_c I p : pres I (get_c p).
Proof. intros w a w' Hw. unfold get_c. case_match; [by intros [= <- <-]|done]. Qed.
Lemma pres_get_lnsp I p : pres I (get_lnsp p).
Proof. intros w a w' Hw. unfold get_lnsp. case_match; [by intros [= <- <-]|done]. Qed.
Lemma pres_get_lacp I p : pres I (get_lacp p).
Proof. intros w a w' Hw. unfold get_lacp. case_match; [by intros [= <- <-]|done]. Qed.

Create HintDb pres.
#[export] Hint Resolve pres_ret pres_ub pres_nofuel pres_gets pres_need pres_get_t pres_get_c
  pres_get_lnsp pres_get_lacp : pres.

Ltac pres1 :=
  match goal with
  | |- pres _ (mbind _ _) => apply pres_bind; [|intro]
  | |- pres _ (let _ := _ in _) => cbv zeta
  | |- pres _ (when _ _) => apply pres_when
  | |- pres _ (match ?x with _ => _ end) => destruct x
  | |- pres _ _ => solve [eauto 2 with pres]
  end.
Ltac pres := intros; repeat (pres1; cbv beta).

(** ** Partial correctness *)

(** If [m] returns from [w], result and final state satisfy [Q]. *)
Definition wlp {A} (m : M A) (Q : A → world → Prop) (w : world) : Prop :=
  ∀ a w', m w = Ret a w' → Q a w'.

Section Wlp.
Context {A B : Type}.
Implicit Types (w : world) (Q : A → world → Prop).

Lemma wlp_mono (m : M A) Q Q' w : wlp m Q w → (∀ a w', Q a w' → Q' a w') → wlp m Q' w.
Proof. unfold wlp. eauto. Qed.
Lemma wlp_ret (a : A) Q w : Q a w → wlp (mret a) Q w.
Proof. intros HQ a' w'. by intros [= <- <-]. Qed.
Lemma wlp_ub Q w : wlp ub Q w.
Proof. by intros a w'. Qed.
Lemma wlp_nofuel Q w : wlp nofuel Q w.
Proof. by intros a w'. Qed.
Lemma wlp_bind (m : M B) (k : B → M A) Q w : wlp m (λ b, wlp (k b) Q) w → wlp (m ≫= k) Q w.
Proof. unfold wlp, mbind, M_bind. intros H a w'. destruct (m w) eqn:E; [by eapply H|done..]. Qed.
Lemma wlp_gets (f : world → A) Q w : Q (f w) w → wlp (gets f) Q w.
Proof. intros HQ a' w'. by intros [= <- <-]. Qed.
Lemma wlp_need (o : option A) Q w : (∀ a, o = Some a → Q a w) → wlp (need o) Q w.
Proof. intros HQ a' w'. unfold need. destruct o; [intros [= <- <-]; by apply HQ|done]. Qed.
Lemma wlp_ask (f : env → nat → A) Q w :
  Q (f (w_env w) (w_clk w)) { w with w_clk := S (w_clk w) } → wlp (ask f) Q w.
Proof. intros HQ a' w'. by intros [= <- <-]. Qed.
Lemma wlp_pres (I : world → Prop) (m : M A) w : pres I m → I w → wlp m (λ _, I) w.
Proof. intros Hm Hw a w' E. by eapply Hm. Qed.
Lemma wlp_and (m : M A) Q Q' w : wlp m Q w → wlp m Q' w → wlp m (λ a w', Q a w' ∧ Q' a w') w.
Proof. unfold wlp. eauto. Qed.
Lemma pres_wlp (I : world → Prop) (m : M A) : (∀ w, I w → wlp m (λ _, I) w) → pres I m.
Proof. intros H w a w' Hw E. by eapply H. Qed.
End Wlp.

Lemma wlp_upd f (Q : unit → world → Prop) w : Q tt (f w) → wlp (upd f) Q w.
Proof. intros HQ a' w'. by intros [= <- <-]. Qed.
Lemma wlp_alloc (Q : nat → world → Prop) w :
  Q (w_fresh w) { w with w_fresh := S (w_fresh w) } → wlp alloc Q w.
Proof. intros HQ a' w'. by intros [= <- <-]. Qed.
Lemma wlp_when (b : bool) m (Q : unit → world → Prop) w :
  (if b then wlp m Q w else Q tt w) → wlp (when b m) Q w.
Proof. destruct b; [done|]. apply wlp_ret. Qed.
Lemma wlp_get_t p Q w : (∀ t, w_tunnels w !! p = Some t → Q t w) → wlp (get_t p) Q w.
Proof. intros HQ a w'. unfold get_t. destruct (w_tunnels w !! p); [intros [= <- <-]; auto|done]. Qed.
Lemma wlp_get_c p Q w : (∀ c, w_calls w !! p = Some c → Q c w) → wlp (get_c p) Q w.
Proof. intros HQ a w'. unfold get_c. destruct (w_calls w !! p); [intros [= <- <-]; auto|done]. Qed.
Lemma wlp_get_lnsp p Q w : (∀ l, w_lnss w !! p = Some l → Q l w) → wlp (get_lnsp p) Q w.
Proof. intros HQ a w'. unfold get_lnsp. destruct (w_lnss w !! p); [intros [= <- <-]; auto|done]. Qed.
Lemma wlp_get_lacp p Q w : (∀ l, w_lacs w !! p = Some l → Q l w) → wlp (get_lacp p) Q w.
Proof. intros HQ a w'. unfold get_lacp. destruct (w_lacs w !! p); [intros [= <- <-]; auto|done]. Qed.
Lemma wlp_mod_t p f (Q : unit → world → Prop) w :
  (∀ t, w_tunnels w !! p = Some t → Q tt (set_t p (f t) w)) → wlp (mod_t p f) Q w.
Proof. intros HQ a w'. unfold mod_t. destruct (w_tunnels w !! p); [intros [= <- <-]; by apply HQ|done]. Qed.
Lemma wlp_mod_c p f (Q : unit → world → Prop) w :
  (∀ c, w_calls w !! p = Some c → Q tt (set_c p (f c) w)) → wlp (mod_c p f) Q w.
Proof. intros HQ a w'. unfold mod_c. destruct (w_calls w !! p); [intros [= <- <-]; by apply HQ|done]. Qed.

Definition set_lac (p : nat) (l : lac) (w : world) : world := { w with w_lacs := <[p := l]> (w_lacs w) }.
Definition set_lns (p : nat) (l : lns) (w : world) : world := { w with w_lnss := <[p := l]> (w_lnss w) }.
Lemma wlp_mod_lac p f (Q : unit → world → Prop) w :
  (∀ l, w_lacs w !! p = Some l → Q tt (set_lac p (f l) w)) → wlp (mod_lac p f) Q w.
Proof. intros HQ a w'. unfold mod_lac. destruct (w_lacs w !! p); [intros [= <- <-]; by apply HQ|done]. Qed.
Lemma wlp_mod_lns p f (Q : unit → world → Prop) w :
  (∀ l, w_lnss w !! p = Some l → Q tt (set_lns p (f l) w)) → wlp (mod_lns p f) Q w.
Proof. intros HQ a w'. unfold mod_lns. destruct (w_lnss w !! p); [intros [= <- <-]; by apply HQ|done]. Qed.

Lemma wlp_sys s (Q : Z → world → Prop) w : Q (e_sys (w_env w) (w_clk w) s) (called s w) → wlp (sys s) Q w.
Proof. intros HQ a' w'. by intros [= <- <-]. Qed.
Lemma wlp_sys_ s (Q : unit → world → Prop) w : Q tt (called s w) → wlp (sys_ s) Q w.
Proof. intros HQ a' w'. by intros [= <- <-]. Qed.

Ltac wlp1 :=
  match goal with
  | |- wlp (sys _) _ _ => apply wlp_sys
  | |- wlp (sys_ _) _ _ => apply wlp_sys_
  | |- wlp (mbind _ _) _ _ => apply wlp_bind
  | |- wlp (mret _) _ _ => apply wlp_ret
  | |- wlp ub _ _ => apply wlp_ub
  | |- wlp nofuel _ _ => apply wlp_nofuel
  | |- wlp (gets _) _ _ => apply wlp_gets
  | |- wlp (upd _) _ _ => apply wlp_upd
  | |- wlp (emit _) _ _ => apply wlp_upd
  | |- wlp alloc _ _ => apply wlp_alloc
  | |- wlp (ask _) _ _ => apply wlp_ask
  | |- wlp (when _ _) _ _ => apply wlp_when
  | |- wlp (need _) _ _ => apply wlp_need; intros
  | |- wlp (get_t _) _ _ => apply wlp_get_t; intros
  | |- wlp (get_c _) _ _ => apply wlp_get_c; intros
  | |- wlp (get_lnsp _) _ _ => apply wlp_get_lnsp; intros
  | |- wlp (get_lacp _) _ _ => apply wlp_get_lacp; intros
  | |- wlp (mod_t _ _) _ _ => apply wlp_mod_t; intros
  | |- wlp (mod_c _ _) _ _ => apply wlp_mod_c; intros
  | |- wlp (mod_lac _ _) _ _ => apply wlp_mod_lac; intros
  | |- wlp (mod_lns _ _) _ _ => apply wlp_mod_lns; intros
  end; cbv beta.
Ltac wlps := repeat wlp1.

(** Two continuations that agree on what the first half can return. *)
Lemma bind_agree {A B} (m : M A) (k k' : A → M B) w :
  wlp m (λ a w', k a w' = k' a w') w → (m ≫= k) w = (m ≫= k') w.
Proof. unfold wlp, mbind, M_bind. intros H. destruct (m w) eqn:E; [by apply H|done..]. Qed.

Lemma bind_cong {A B} (m m' : M A) (k : A → M B) w : m w = m' w → (m ≫= k) w = (m' ≫= k) w.
Proof. unfold mbind, M_bind. by intros ->. Qed.

(** ** Results *)

(** Whatever [m] returns satisfies [P]. *)
Definition yields {A} (P : A → Prop) (m : M A) : Prop := ∀ w a w', m w = Ret a w' → P a.

Lemma yields_ret {A} (P : A → Prop) a : P a → yields P (mret a).
Proof. intros HP w a' w'. by intros [= <- <-]. Qed.
Lemma yields_bind {A B} (P : A → Prop) (m : M B) (k : B → M A) :
  (∀ b, yields P (k b)) → yields P (m ≫= k).
Proof. intros Hk w a w'. unfold mbind, M_bind. destruct (m w); [apply Hk|done..]. Qed.
Ltac yields :=
  intros; repeat match goal with
  | |- yields _ (mbind _ _) => apply yields_bind; intro
  | |- yields _ (let _ := _ in _) => cbv zeta
  | |- yields _ (match ?x with _ => _ end) => destruct x
  | |- yields _ (mret _) => apply yields_ret
  end.

(** ** Fuel *)

Definition fueled {A} (m : M A) : Prop := ∀ w, m w ≠ NoFuel.

Section Fueled.
Context {A B : Type}.
Lemma fueled_ret (a : A) : fueled (mret a).
Proof. done. Qed.
Lemma fueled_bind (m : M B) (k : B → M A) : fueled m → (∀ b, fueled (k b)) → fueled (m ≫= k).
Proof.
  intros Hm Hk w. unfold mbind, M_bind. specialize (Hm w). destruct (m w); [apply Hk|done..].
Qed.
Lemma fueled_ub : fueled (ub (A := A)).
Proof. done. Qed.
Lemma fueled_gets (f : world → A) : fueled (gets f).
Proof. done. Qed.
Lemma fueled_need (o : option A) : fueled (need o).
Proof. by destruct o. Qed.
Lemma fueled_ask (f : env → nat → A) : fueled (ask f).
Proof. done. Qed.
End Fueled.
Lemma fueled_upd f : fueled (upd f).
Proof. done. Qed.
Lemma fueled_get_t p : fueled (get_t p).
Proof. intros w. unfold get_t. by case_match. Qed.
Lemma fueled_get_c p : fueled (get_c p).
Proof. intros w. unfold get_c. by case_match. Qed.
Lemma fueled_mod_t p f : fueled (mod_t p f).
Proof. intros w. unfold mod_t. by case_match. Qed.
Lemma fueled_mod_c p f : fueled (mod_c p f).
Proof. intros w. unfold mod_c. by case_match. Qed.
Lemma fueled_sys s : fueled (sys s).
Proof. done. Qed.
Lemma fueled_when (b : bool) m : fueled m → fueled (when b m).
Proof. by destruct b. Qed.
Create HintDb fueled.
#[export] Hint Resolve fueled_sys fueled_ret fueled_ub fueled_gets fueled_need fueled_ask fueled_upd
  fueled_get_t fueled_get_c fueled_mod_t fueled_mod_c : fueled.
Ltac fueled1 :=
  match goal with
  | |- fueled (mbind _ _) => apply fueled_bind; [|intro]
  | |- fueled (let _ := _ in _) => cbv zeta
  | |- fueled (when _ _) => apply fueled_when
  | |- fueled (match ?x with _ => _ end) => destruct x
  | |- fueled _ => solve [eauto 2 with fueled]
  end.
Ltac fueled := intros; repeat (fueled1; cbv beta).

(** ** Linked lists *)

(** The tunnels reached from [o] by [t_next], in order. *)
Fixpoint tpath (w : world) (o : option nat) (ps : list nat) : Prop :=
  match ps with
  | [] => o = None
  | p :: ps => o = Some p ∧ ∃ t, w_tunnels w !! p = Some t ∧ tpath w (t_next t) ps
  end.
(** The calls reached from [o] by [c_next]. *)
Fixpoint cpath (w : world) (o : option nat) (ps : list nat) : Prop :=
  match ps with
  | [] => o = None
  | p :: ps => o = Some p ∧ ∃ c, w_calls w !! p = Some c ∧ cpath w (c_next c) ps
  end.

Lemma tpath_det w ps : ∀ o ps', tpath w o ps → tpath w o ps' → ps = ps'.
Proof. induction ps as [|p ps IH]; intros o [|p' ps'] H1 H2; cbn in *; naive_solver congruence. Qed.
Lemma cpath_det w ps : ∀ o ps', cpath w o ps → cpath w o ps' → ps = ps'.
Proof. induction ps as [|p ps IH]; intros o [|p' ps'] H1 H2; cbn in *; naive_solver congruence. Qed.

Lemma tpath_suffix w ps q qs : ∀ o, tpath w o (ps ++ q :: qs) → tpath w (Some q) (q :: qs).
Proof.
  induction ps as [|p ps IH]; intros o H; [by destruct H as (-> & H)|].
  destruct H as (_ & t & _ & H). eauto.
Qed.
Lemma cpath_suffix w ps q qs : ∀ o, cpath w o (ps ++ q :: qs) → cpath w (Some q) (q :: qs).
Proof.
  induction ps as [|p ps IH]; intros o H; [by destruct H as (-> & H)|].
  destruct H as (_ & t & _ & H). eauto.
Qed.

(** A list that ends has no cycle. *)
Lemma tpath_nodup w ps : ∀ o, tpath w o ps → NoDup ps.
Proof.
  induction ps as [|p ps IH]; intros o H; [constructor|].
  pose proof H as (Ho & t & Ht & Hn). constructor; [|by eapply IH].
  intros (l1 & l2 & ->)%list_elem_of_split. subst o.
  pose proof (tpath_det _ _ _ _ H (tpath_suffix _ (p :: l1) _ _ _ H)) as Hl.
  apply (f_equal length) in Hl. revert Hl. cbn. rewrite length_app. cbn. lia.
Qed.
Lemma cpath_nodup w ps : ∀ o, cpath w o ps → NoDup ps.
Proof.
  induction ps as [|p ps IH]; intros o H; [constructor|].
  pose proof H as (Ho & t & Ht & Hn). constructor; [|by eapply IH].
  intros (l1 & l2 & ->)%list_elem_of_split. subst o.
  pose proof (cpath_det _ _ _ _ H (cpath_suffix _ (p :: l1) _ _ _ H)) as Hl.
  apply (f_equal length) in Hl. revert Hl. cbn. rewrite length_app. cbn. lia.
Qed.

Lemma tpath_dom w ps : ∀ o, tpath w o ps → ∀ p, p ∈ ps → is_Some (w_tunnels w !! p).
Proof.
  induction ps as [|p ps IH]; intros o H q; [by intros ?%elem_of_nil|].
  destruct H as (_ & t & Ht & H). intros [->|?]%elem_of_cons; eauto.
Qed.
Lemma cpath_dom w ps : ∀ o, cpath w o ps → ∀ p, p ∈ ps → is_Some (w_calls w !! p).
Proof.
  induction ps as [|p ps IH]; intros o H q; [by intros ?%elem_of_nil|].
  destruct H as (_ & t & Ht & H). intros [->|?]%elem_of_cons; eauto.
Qed.

(** Distinct keys of a map are no more than its size. *)
Lemma keys_le_size {A} (m : gmap nat A) (ps : list nat) :
  NoDup ps → (∀ p, p ∈ ps → is_Some (m !! p)) → (length ps <= size m)%nat.
Proof.
  intros Hn Hd. rewrite <-(size_list_to_set (C := gset nat) ps), <-size_dom by done.
  apply subseteq_size. intros p Hp%elem_of_list_to_set. apply elem_of_dom. auto.
Qed.
Lemma tpath_size w o ps : tpath w o ps → (length ps <= size (w_tunnels w))%nat.
Proof. intros H. apply keys_le_size; [by eapply tpath_nodup|by eapply tpath_dom]. Qed.
Lemma cpath_size w o ps : cpath w o ps → (length ps <= size (w_calls w))%nat.
Proof. intros H. apply keys_le_size; [by eapply cpath_nodup|by eapply cpath_dom]. Qed.

End Logic.
