(* ===== verification/Ppp.v ===== *)
(** * PPP frames between the tunnel and pppd (src/control.c, src/call.c)

    [write_packet] turns the payload of a data packet into an asynchronous
    HDLC frame on pppd's tty ([add_fcs] appends the frame check sequence);
    [read_packet] collects such a frame from the tty.  The answers of [write]
    and [read] are scripts, lists with one answer per call; [Blocked] means
    the script has ended with the function still waiting. *)

From S2P Require Import Prelude.
From S2P Require Import Buffer.
From S2P Require Import State.

Module Ppp.
Import Buffer State.

Definition PPP_FLAG : Z := 0x7e.
Definition PPP_ESCAPE : Z := 0x7d.
Definition PPP_TRANS : Z := 0x20.
Definition PPP_INITFCS : Z := 0xffff.
Definition PPP_GOODFCS : Z := 0xf0b8.

Definition ppp_crc16_table : list Z := [
    0x0000; 0x1189; 0x2312; 0x329b; 0x4624; 0x57ad; 0x6536; 0x74bf;
    0x8c48; 0x9dc1; 0xaf5a; 0xbed3; 0xca6c; 0xdbe5; 0xe97e; 0xf8f7;
    0x1081; 0x0108; 0x3393; 0x221a; 0x56a5; 0x472c; 0x75b7; 0x643e;
    0x9cc9; 0x8d40; 0xbfdb; 0xae52; 0xdaed; 0xcb64; 0xf9ff; 0xe876;
    0x2102; 0x308b; 0x0210; 0x1399; 0x6726; 0x76af; 0x4434; 0x55bd;
    0xad4a; 0xbcc3; 0x8e58; 0x9fd1; 0xeb6e; 0xfae7; 0xc87c; 0xd9f5;
    0x3183; 0x200a; 0x1291; 0x0318; 0x77a7; 0x662e; 0x54b5; 0x453c;
    0xbdcb; 0xac42; 0x9ed9; 0x8f50; 0xfbef; 0xea66; 0xd8fd; 0xc974;
    0x4204; 0x538d; 0x6116; 0x709f; 0x0420; 0x15a9; 0x2732; 0x36bb;
    0xce4c; 0xdfc5; 0xed5e; 0xfcd7; 0x8868; 0x99e1; 0xab7a; 0xbaf3;
    0x5285; 0x430c; 0x7197; 0x601e; 0x14a1; 0x0528; 0x37b3; 0x263a;
    0xdecd; 0xcf44; 0xfddf; 0xec56; 0x98e9; 0x8960; 0xbbfb; 0xaa72;
    0x6306; 0x728f; 0x4014; 0x519d; 0x2522; 0x34ab; 0x0630; 0x17b9;
    0xef4e; 0xfec7; 0xcc5c; 0xddd5; 0xa96a; 0xb8e3; 0x8a78; 0x9bf1;
    0x7387; 0x620e; 0x5095; 0x411c; 0x35a3; 0x242a; 0x16b1; 0x0738;
    0xffcf; 0xee46; 0xdcdd; 0xcd54; 0xb9eb; 0xa862; 0x9af9; 0x8b70;
    0x8408; 0x9581; 0xa71a; 0xb693; 0xc22c; 0xd3a5; 0xe13e; 0xf0b7;
    0x0840; 0x19c9; 0x2b52; 0x3adb; 0x4e64; 0x5fed; 0x6d76; 0x7cff;
    0x9489; 0x8500; 0xb79b; 0xa612; 0xd2ad; 0xc324; 0xf1bf; 0xe036;
    0x18c1; 0x0948; 0x3bd3; 0x2a5a; 0x5ee5; 0x4f6c; 0x7df7; 0x6c7e;
    0xa50a; 0xb483; 0x8618; 0x9791; 0xe32e; 0xf2a7; 0xc03c; 0xd1b5;
    0x2942; 0x38cb; 0x0a50; 0x1bd9; 0x6f66; 0x7eef; 0x4c74; 0x5dfd;
    0xb58b; 0xa402; 0x9699; 0x8710; 0xf3af; 0xe226; 0xd0bd; 0xc134;
    0x39c3; 0x284a; 0x1ad1; 0x0b58; 0x7fe7; 0x6e6e; 0x5cf5; 0x4d7c;
    0xc60c; 0xd785; 0xe51e; 0xf497; 0x8028; 0x91a1; 0xa33a; 0xb2b3;
    0x4a44; 0x5bcd; 0x6956; 0x78df; 0x0c60; 0x1de9; 0x2f72; 0x3efb;
    0xd68d; 0xc704; 0xf59f; 0xe416; 0x90a9; 0x8120; 0xb3bb; 0xa232;
    0x5ac5; 0x4b4c; 0x79d7; 0x685e; 0x1ce1; 0x0d68; 0x3ff3; 0x2e7a;
    0xe70e; 0xf687; 0xc41c; 0xd595; 0xa12a; 0xb0a3; 0x8238; 0x93b1;
    0x6b46; 0x7acf; 0x4854; 0x59dd; 0x2d62; 0x3ceb; 0x0e70; 0x1ff9;
    0xf78f; 0xe606; 0xd49d; 0xc514; 0xb1ab; 0xa022; 0x92b9; 0x8330;
    0x7bc7; 0x6a4e; 0x58d5; 0x495c; 0x3de3; 0x2c6a; 0x1ef1; 0x0f78
  ].

Definition fcstab (i : Z) : Z := nth (Z.to_nat i) ppp_crc16_table 0.

Definition PPP_FCS (fcs c : Z) : Z :=
  Z.lxor (Z.shiftr fcs 8) (fcstab (Z.land (Z.lxor fcs c) 0xff)).

(** The checksum of [len] bytes at [start], stored after them. *)
Definition add_fcs (buf : buffer) : option buffer :=
  c ← ldn (b_mem buf) (b_start buf) (b_len buf);
  let fcs := fold_left PPP_FCS c PPP_INITFCS in
  let fcs := Z.lxor fcs 0xFFFF in
  buf ← buf_stn buf (b_len buf) [Z.land fcs 0xFF];
  buf ← buf_stn buf (b_len buf + 1) [Z.land (Z.shiftr fcs 8) 0xFF];
  Some { buf with b_len := u64 (b_len buf + 2) }.

(** The outcome of a routine that performs system calls. *)
Inductive outcome (A : Type) := Done (a : A) | Fault | Blocked.
#[global] Arguments Done {A} a.
#[global] Arguments Fault {A}.
#[global] Arguments Blocked {A}.

(** One store [wbuf[pos++] = e] into the static array of [MAX_RECV_SIZE]
    bytes; [wbuf] is what has been stored so far. *)
Definition wput (wbuf : list Z) (e : Z) : option (list Z) :=
  if blen wbuf <? MAX_RECV_SIZE then Some (wbuf ++ [e]) else None.

Definition must_escape (e : Z) : bool :=
  (e <? 0x20) || (e =? PPP_ESCAPE) || (e =? PPP_FLAG).

(** The conversion loop; the inner [None] is the "too big" exit. *)
Fixpoint convert_loop (bs wbuf : list Z) : option (option (list Z)) :=
  match bs with
  | [] => Some (Some wbuf)
  | e :: bs =>
      if MAX_RECV_SIZE - 4 <=? blen wbuf then Some None
      else if must_escape e then
        wbuf ← wput wbuf PPP_ESCAPE;
        wbuf ← wput wbuf (Z.lxor e 0x20);
        convert_loop bs wbuf
      else
        wbuf ← wput wbuf e;
        convert_loop bs wbuf
  end.

(** [while (pos != x) write (fd, wbuf + x, pos - x)]: the bytes the tty took,
    and [false] when an error other than EINTR and EAGAIN ended it. *)
Fixpoint write_loop (script : list io) (data : list Z) : outcome (bool * list Z) :=
  match data with
  | [] => Done (true, [])
  | _ =>
      match script with
      | [] => Blocked
      | IoErr e :: script =>
          if negb (e =? EINTR) && negb (e =? EAGAIN) then Done (false, [])
          else write_loop script data
      | IoOk n :: script =>
          match write_loop script (drop n data) with
          | Done (ok, out) => Done (ok, take n data ++ out)
          | Fault => Fault
          | Blocked => Blocked
          end
      end
  end.

(** The loop for frames that are already asynchronous ([convert] is zero);
    any error makes it try again. *)
Fixpoint write_async (script : list io) (data : list Z) : outcome (Z * list Z) :=
  match script with
  | [] => Blocked
  | IoErr e :: script => write_async script data
  | IoOk n :: script =>
      let err := blen (take n data) in
      Done (if err =? blen data then 0 else - EINVAL, take n data)
  end.

(** Result, buffer, call, and the bytes written to the tty. *)
Definition write_packet (script : list io) (buf : buffer) (c : call) (convert : Z)
  : outcome (Z * buffer * call * list Z) :=
  if c_fd c <? 0 then Done (- EIO, buf, c, [])
  else
    match buf_ld16 buf 12 with
    | None => Fault
    | Some offset =>
        let buf := { buf with b_start := b_start buf + (sizeof_payload_hdr + offset);
                              b_len := u64 (b_len buf - (sizeof_payload_hdr + offset)) } in
        let c := { c with c_rx_pkts := s32 (c_rx_pkts c + 1);
                          c_rx_bytes := s32 (c_rx_bytes c + b_len buf) } in
        if negb (truthy convert) then
          match ldn (b_mem buf) (b_start buf) (b_len buf) with
          | None => Fault
          | Some data =>
              match write_async script data with
              | Done (r, out) => Done (r, buf, c, out)
              | Fault => Fault
              | Blocked => Blocked
              end
          end
        else
          match (buf ← add_fcs buf;
                 data ← ldn (b_mem buf) (b_start buf) (b_len buf);
                 wbuf ← wput [] PPP_FLAG;
                 r ← convert_loop data wbuf;
                 match r with
                 | None => Some (buf, None)
                 | Some wbuf => wbuf ← wput wbuf PPP_FLAG; Some (buf, Some wbuf)
                 end) with
          | None => Fault
          | Some (buf, None) => Done (- EINVAL, buf, c, [])
          | Some (buf, Some wbuf) =>
              match write_loop script wbuf with
              | Done (true, out) => Done (0, buf, c, out)
              | Done (false, out) =>
                  Done (- EIO, buf, { c with c_needclose := -1; c_fd := -1 }, out)
              | Fault => Fault
              | Blocked => Blocked
              end
          end
    end.

(** ** Reading a frame *)

(** An answer of [read]: the bytes it stored (none at end of file), or errno. *)
Inductive rd := RdOk (bs : list Z) | RdErr (e : Z).

Definition sizeof_rbuf : Z := MAX_RECV_SIZE.

(** [c->rbuf_max = read (c->fd, c->rbuf, sizeof (c->rbuf)); c->rbuf_pos = 0] *)
Definition refill (r : rd) (c : call) : option (Z * call) :=
  match r with
  | RdOk bs =>
      if blen bs <=? sizeof_rbuf then
        rbuf ← stn (c_rbuf c) 0 bs;
        Some (blen bs, { c with c_rbuf := rbuf; c_rbuf_max := blen bs; c_rbuf_pos := 0 })
      else None
  | RdErr e => Some (-1, { c with c_rbuf_max := -1; c_rbuf_pos := 0 })
  end.

Definition drop_rbuf (c : call) : call := { c with c_rbuf_pos := 0; c_rbuf_max := 0 }.

(** The three-way [switch] on a byte: go on with a new buffer and escape
    state, or return. *)
Inductive rstep := Go (buf : buffer) (escape : Z) | Stop (r : Z) (buf : buffer) (reset : bool).

Definition read_char (ch escape : Z) (buf : buffer) : option rstep :=
  if ch =? PPP_FLAG then
    if truthy escape then Some (Stop (- EINVAL) buf true)
    else if 2 <=? b_len buf then
      let buf := { buf with b_len := b_len buf - 2 } in Some (Stop (b_len buf) buf false)
    else if b_len buf =? 1 then Some (Stop (b_len buf) buf false)
    else Some (Go buf escape)
  else if ch =? PPP_ESCAPE then Some (Go buf PPP_TRANS)
  else
    let ch := Z.lxor ch escape in
    if b_len buf <? b_maxlen buf then
      buf ← buf_stn buf (b_len buf) [ch];
      Some (Go { buf with b_len := b_len buf + 1 } 0)
    else Some (Stop (- EINVAL) buf true).

Definition soft_error (e : Z) : bool := (e =? EIO) || (e =? EINTR) || (e =? EAGAIN).

(** Result, call and unread answers. *)
Fixpoint read_loop (fuel : nat) (script : list rd) (c : call) (buf : buffer) (escape errors : Z)
  : outcome (Z * call * list rd) :=
  match fuel with
  | O => Blocked
  | S fuel =>
      let fill :=
        if c_rbuf_max c <=? c_rbuf_pos c then
          match script with
          | [] => None
          | r :: script =>
              Some (match refill r c with Some (res, c) => Some (res, c, Some r, script) | None => None end)
          end
        else Some (Some (1, c, None, script)) in
      match fill with
      | None => Blocked
      | Some None => Fault
      | Some (Some (res, c, r, script)) =>
          match ld8 (c_rbuf c) (c_rbuf_pos c) with
          | None => Fault
          | Some ch =>
              let c := { c with c_rbuf_pos := c_rbuf_pos c + 1 } in
              if res <? 1 then
                match r with
                | Some (RdErr e) =>
                    if soft_error e then Done (0, { c with c_ppp_buf := Some buf }, script)
                    else if 10 <? errors + 1
                    then Done (- e, drop_rbuf { c with c_ppp_buf := Some buf }, script)
                    else read_loop fuel script c buf escape (errors + 1)
                | _ => Done (0, { c with c_ppp_buf := Some buf }, script)
                end
              else
                match read_char ch escape buf with
                | None => Fault
                | Some (Go buf escape) => read_loop fuel script c buf escape errors
                | Some (Stop r buf reset) =>
                    let c := { c with c_ppp_buf := Some buf } in
                    Done (r, if reset then drop_rbuf c else c, script)
                end
          end
      end
  end.

Definition read_packet (fuel : nat) (script : list rd) (c : call)
  : outcome (Z * call * list rd) :=
  match c_ppp_buf c with
  | None => Fault
  | Some buf => read_loop fuel script c buf 0 0
  end.

(** ** The checksum *)

(** One bit of the CRC with the reflected polynomial of RFC 1662, and a byte. *)
Definition crc_bit (r : Z) : Z :=
  if Z.odd r then Z.lxor (Z.shiftr r 1) 0x8408 else Z.shiftr r 1.
Fixpoint crc_bits (n : nat) (r : Z) : Z :=
  match n with O => r | S n => crc_bits n (crc_bit r) end.
Definition crc_byte (r : Z) : Z := crc_bits 8 r.

Lemma crc_bit_lxor a b : crc_bit (Z.lxor a b) = Z.lxor (crc_bit a) (crc_bit b).
Proof.
  unfold crc_bit. rewrite <-!Z.bit0_odd, Z.lxor_spec, Z.shiftr_lxor.
  destruct (Z.testbit a 0), (Z.testbit b 0); cbn [xorb];
    apply Z.bits_inj'; intros n _; rewrite !Z.lxor_spec;
    repeat match goal with |- context [Z.testbit ?x n] => destruct (Z.testbit x n) end; done.
Qed.

Lemma crc_bits_lxor k a b : crc_bits k (Z.lxor a b) = Z.lxor (crc_bits k a) (crc_bits k b).
Proof. revert a b. induction k as [|k IH]; intros; cbn; [done|]. by rewrite crc_bit_lxor, IH. Qed.

Lemma crc_bits_shift k h : crc_bits k (Z.shiftl h (Z.of_nat k)) = h.
Proof.
  induction k as [|k IH]; [apply Z.shiftl_0_r|]. cbn [crc_bits]. unfold crc_bit.
  rewrite <-Z.bit0_odd, Z.shiftl_spec_low by lia.
  rewrite Z.shiftr_shiftl_l by lia.
  by replace (Z.of_nat (S k) - 1) with (Z.of_nat k) by lia.
Qed.

Lemma table_check : forallb (λ n, fcstab (Z.of_nat n) =? crc_byte (Z.of_nat n)) (seq 0 256) = true.
Proof. vm_compute. reflexivity. Qed.

Lemma table_bitwise i : 0 <= i < 256 → fcstab i = crc_byte i.
Proof.
  intros Hi. pose proof (proj1 (forallb_forall _ _) table_check (Z.to_nat i)) as H.
  cbv beta in H. rewrite Z2Nat.id in H by lia. apply Z.eqb_eq, H, in_seq. lia.
Qed.

(** A 16-bit register is its high byte over its low byte. *)
Lemma split_low8 r : Z.lxor (Z.shiftl (Z.shiftr r 8) 8) (Z.land r 0xff) = r.
Proof.
  apply Z.bits_inj'. intros n Hn. change 0xff with (Z.ones 8).
  rewrite Z.lxor_spec, Z.land_spec, Z.shiftl_spec by done.
  destruct (Z.lt_ge_cases n 8).
  - rewrite (Z.testbit_neg_r _ (n - 8)), Z.ones_spec_low by lia. by destruct (Z.testbit r n).
  - rewrite Z.shiftr_spec, Z.ones_spec_high by lia.
    replace (n - 8 + 8) with n by lia. by destruct (Z.testbit r n).
Qed.

Lemma PPP_FCS_bitwise fcs c : 0 <= c < 256 → PPP_FCS fcs c = crc_byte (Z.lxor fcs c).
Proof.
  intros Hc. unfold PPP_FCS. rewrite table_bitwise.
  - rewrite <-(split_low8 (Z.lxor fcs c)) at 2. unfold crc_byte. rewrite crc_bits_lxor.
    change 8 with (Z.of_nat 8) at 3. rewrite crc_bits_shift.
    f_equal. rewrite Z.shiftr_lxor. change 256 with (2 ^ 8) in Hc.
    rewrite (Z.shiftr_div_pow2 c), Z.div_small by lia. by rewrite Z.lxor_0_r.
  - change 0xff with (Z.ones 8). rewrite Z.land_ones by lia. apply Z.mod_pos_bound. lia.
Qed.

(** The register stays inside 16 bits. *)
Lemma crc_bit_range r : 0 <= r < 2 ^ 16 → 0 <= crc_bit r < 2 ^ 16.
Proof.
  intros Hr. assert (0 <= Z.shiftr r 1 < 2 ^ 16)
    by (rewrite Z.shiftr_div_pow2 by lia; change (2 ^ 1) with 2; zdiv).
  unfold crc_bit. destruct (Z.odd r); [|done]. by apply lxor_bound.
Qed.
Lemma crc_bits_range k r : 0 <= r < 2 ^ 16 → 0 <= crc_bits k r < 2 ^ 16.
Proof. revert r. induction k; intros; cbn; auto using crc_bit_range. Qed.

Lemma PPP_FCS_range fcs c : is_u16 fcs → is_u8 c → is_u16 (PPP_FCS fcs c).
Proof.
  unfold is_u16, is_u8. intros Hf Hc. rewrite PPP_FCS_bitwise by done.
  apply crc_bits_range, lxor_bound; [lia|done|lia].
Qed.
Lemma fold_fcs_range p fcs : is_u16 fcs → is_bytes p → is_u16 (fold_left PPP_FCS p fcs).
Proof.
  intros Hf Hp. revert fcs Hf. induction Hp; intros; cbn; auto using PPP_FCS_range.
Qed.

(** The two bytes [add_fcs] appends to [p]. *)
Definition fcs_bytes (p : list Z) : list Z :=
  let fcs := Z.lxor (fold_left PPP_FCS p PPP_INITFCS) 0xFFFF in
  [Z.land fcs 0xFF; Z.land (Z.shiftr fcs 8) 0xFF].

Lemma land_ff z : Z.land z 0xff = u8 z.
Proof. change 0xff with (Z.ones 8). by rewrite Z.land_ones. Qed.
Lemma shiftr_8 z : Z.shiftr z 8 = z / 256.
Proof. by rewrite Z.shiftr_div_pow2. Qed.

Lemma fcs_bytes_ok p : is_bytes (fcs_bytes p).
Proof. unfold fcs_bytes. rewrite !land_ff. repeat constructor; apply u8_range. Qed.

Ltac bits := apply Z.bits_inj'; intros n Hn;
  repeat first [rewrite Z.lxor_spec | rewrite Z.land_spec | rewrite Z.shiftr_spec by lia].

Lemma fcs_low f : Z.land (Z.lxor f (Z.land (Z.lxor f 0xffff) 0xff)) 0xff = 0xff.
Proof.
  bits. destruct (Z.lt_ge_cases n 8).
  - assert (Z.testbit 0xff n = true) as -> by (by apply (Z.ones_spec_low 8)).
    assert (Z.testbit 0xffff n = true) as -> by (apply (Z.ones_spec_low 16); lia).
    by destruct (Z.testbit f n).
  - change 0xff with (Z.ones 8). rewrite Z.ones_spec_high by lia. by rewrite andb_false_r.
Qed.

Lemma fcs_high f :
  Z.land (Z.lxor (Z.lxor (Z.shiftr f 8) 0x0f78) (Z.land (Z.shiftr (Z.lxor f 0xffff) 8) 0xff)) 0xff
  = 0x87.
Proof.
  bits. destruct (Z.lt_ge_cases n 8).
  - assert (Z.testbit 0xff n = true) as -> by (by apply (Z.ones_spec_low 8)).
    assert (Z.testbit 0xffff (n + 8) = true) as -> by (apply (Z.ones_spec_low 16); lia).
    rewrite !andb_true_r.
    assert (Z.testbit 0x87 n = negb (Z.testbit 0x0f78 n)) as ->.
    { assert (n = 0 ∨ n = 1 ∨ n = 2 ∨ n = 3 ∨ n = 4 ∨ n = 5 ∨ n = 6 ∨ n = 7) as Hc by lia.
      repeat destruct Hc as [->|Hc]; try done. by subst. }
    destruct (Z.testbit f (n + 8)), (Z.testbit 0x0f78 n); done.
  - change 0xff with (Z.ones 8). rewrite Z.ones_spec_high by lia. rewrite andb_false_r.
    symmetry. apply Z.bits_above_log2; [lia|]. change (Z.log2 0x87) with 7. lia.
Qed.

(** Checking a frame: the checksum over the data and the two bytes appended
    to it is the constant [PPP_GOODFCS]. *)
Lemma fcs_residue p :
  is_bytes p → fold_left PPP_FCS (p ++ fcs_bytes p) PPP_INITFCS = PPP_GOODFCS.
Proof.
  intros Hp. rewrite fold_left_app.
  pose proof (fold_fcs_range p PPP_INITFCS ltac:(unfold is_u16, PPP_INITFCS; lia) Hp) as Hf.
  unfold fcs_bytes. set (f := fold_left PPP_FCS p PPP_INITFCS) in *. cbn [fold_left].
  unfold PPP_FCS at 2. rewrite fcs_low. change (fcstab 0xff) with 0x0f78.
  unfold PPP_FCS. rewrite fcs_high. change (fcstab 0x87) with 0xf0b7.
  rewrite Z.shiftr_lxor, Z.shiftr_shiftr by lia. rewrite Z.shiftr_div_pow2 by lia.
  rewrite Z.div_small by done. done.
Qed.

(** ** Writing a frame *)

Lemma add_fcs_eq b :
  buf_wf b → 2 <= room b → b_maxlen b < 2 ^ 63 →
  add_fcs b = buf_append b (fcs_bytes (contents b)).
Proof.
  intros Hwf Hr Hm. unfold add_fcs. rewrite contents_ldn by done. cbn [mbind option_bind].
  unfold buf_append. destruct Hwf as [? ? ? ?]. unfold room in Hr.
  change (fcs_bytes (contents b)) with ([(fcs_bytes (contents b) !!! 0%nat)] ++ [(fcs_bytes (contents b) !!! 1%nat)]).
  rewrite <-(stn_bind _ _ (b_start b + (b_len b + 1))) by blen.
  unfold buf_stn at 2. cbn.
  destruct (stn (b_mem b) _ _) as [m|]; [|done]. cbn. unfold buf_stn. cbn.
  destruct (stn m _ _) as [m'|]; [|done]. cbn. do 2 f_equal.
  unfold u64. rewrite Z.mod_small; [done|]. lia.
Qed.

Definition stuff (bs : list Z) : list Z :=
  concat (map (λ e, if must_escape e then [PPP_ESCAPE; Z.lxor e 0x20] else [e]) bs).
(** The asynchronous frame of a packet. *)
Definition frame (p : list Z) : list Z :=
  PPP_FLAG :: stuff (p ++ fcs_bytes p) ++ [PPP_FLAG].

Lemma stuff_cons e bs :
  stuff (e :: bs) = (if must_escape e then [PPP_ESCAPE; Z.lxor e 0x20] else [e]) ++ stuff bs.
Proof. done. Qed.

(** The guard leaves space for everything the loop stores. *)
Lemma convert_loop_spec bs : ∀ wbuf,
  blen wbuf <= MAX_RECV_SIZE - 3 →
  (convert_loop bs wbuf = Some None ∧ MAX_RECV_SIZE - 4 < blen (wbuf ++ stuff bs)) ∨
  (convert_loop bs wbuf = Some (Some (wbuf ++ stuff bs)) ∧
   blen (wbuf ++ stuff bs) <= MAX_RECV_SIZE - 3).
Proof.
  induction bs as [|e bs IH]; intros wbuf Hw.
  - right. cbn. rewrite app_nil_r. done.
  - cbn [convert_loop]. rewrite stuff_cons. unfold MAX_RECV_SIZE in *.
    pose proof (blen_nonneg (stuff bs)).
    destruct (Z.leb_spec (4096 - 4) (blen wbuf)).
    { left. split; [done|]. destruct (must_escape e); blen. }
    unfold wput, MAX_RECV_SIZE in *.
    rewrite (proj2 (Z.ltb_lt (blen wbuf) 4096)) by lia.
    destruct (must_escape e); cbn [mbind option_bind].
    + rewrite (proj2 (Z.ltb_lt (blen (wbuf ++ [PPP_ESCAPE])) 4096)) by blen. cbn [mbind option_bind].
      rewrite (app_assoc wbuf). replace (wbuf ++ [PPP_ESCAPE; Z.lxor e 32])
        with ((wbuf ++ [PPP_ESCAPE]) ++ [Z.lxor e 32]) by (by rewrite <-app_assoc).
      apply IH. blen.
    + rewrite (app_assoc wbuf). apply IH. blen.
Qed.

Definition hard_error (a : io) : bool :=
  match a with IoErr e => negb (e =? EINTR) && negb (e =? EAGAIN) | IoOk _ => false end.
Definition capacity (script : list io) : nat :=
  sum_list_with (λ a, match a with IoOk n => n | IoErr _ => O end) script.

(** Whatever the answers, a prefix of the data reaches the tty, all of it
    when no hard error ends the loop. *)
Lemma write_loop_prefix script : ∀ data ok out,
  write_loop script data = Done (ok, out) →
  out `prefix_of` data ∧ (ok = true → out = data) ∧ (ok = false → Exists hard_error script).
Proof.
  induction script as [|[n|e] script IH]; intros [|x data] ok out; cbn [write_loop];
    try (intros [= <- <-]; split_and!; [done|done|done]); [done|..].
  - destruct (write_loop script (drop n (x :: data))) as [[ok' out']| |] eqn:E; [|done..].
    intros [= <- <-]. destruct (IH _ _ _ E) as (Hp & Ht & Hf). split_and!.
    + rewrite <-(take_drop n (x :: data)) at 2. by apply prefix_app.
    + intros ->. rewrite Ht by done. by rewrite take_drop.
    + intros ->. right. auto.
  - destruct (_ && _) eqn:E.
    + intros [= <- <-]. split_and!; [apply prefix_nil|done|].
      intros _. left. cbn. by rewrite E.
    + intros H. destruct (IH _ _ _ H) as (? & ? & Hf). split_and!; [done..|].
      intros ->. right. auto.
Qed.

Lemma write_loop_done script : ∀ data,
  Forall (λ a, hard_error a = false) script → (length data <= capacity script)%nat →
  write_loop script data = Done (true, data).
Proof.
  induction script as [|[n|e] script IH]; intros [|x data] Hs Hc;
    cbn [write_loop]; try done; [cbn in Hc; lia|..];
    apply Forall_cons in Hs as [Ha Hs].
  - rewrite IH; [by rewrite take_drop|done|]. unfold capacity in *. cbn [sum_list_with] in Hc.
    rewrite length_drop. lia.
  - cbn in Ha. rewrite Ha. by apply IH.
Qed.

Lemma write_loop_no_fault script : ∀ data, write_loop script data ≠ Fault.
Proof.
  induction script as [|[n|e] script IH]; intros [|x data]; cbn [write_loop]; try done.
  - specialize (IH (drop n (x :: data))).
    by destruct (write_loop script (drop n (x :: data))) as [[]| |].
  - by destruct (_ && _).
Qed.

Lemma skip_hdr b k :
  buf_wf b → 0 <= k <= b_len b →
  let b' := { b with b_start := b_start b + k; b_len := b_len b - k } in
  buf_wf b' ∧ contents b' = drop (Z.to_nat k) (contents b) ∧ room b' = room b.
Proof.
  intros [Hm Hs Hl Hr] Hk. cbn. split; [constructor; cbn; lia|].
  unfold contents, room. cbn. split; [|lia].
  rewrite Z2Nat.inj_add, Z2Nat.inj_sub by lia.
  rewrite <-drop_drop. by rewrite skipn_firstn_comm.
Qed.

(** What [write_packet] does to the counters of the call. *)
Definition counted (c : call) (n : Z) : call :=
  { c with c_rx_pkts := s32 (c_rx_pkts c + 1); c_rx_bytes := s32 (c_rx_bytes c + n) }.

(** The packets [write_packet] accepts: the offset stays inside the packet,
    and there is space for the checksum behind it. *)
Record packet_ok (b : buffer) (off : Z) : Prop := {
  pk_wf : buf_wf b;
  pk_max : b_maxlen b < 2 ^ 63;
  pk_room : 2 <= room b;
  pk_off : buf_ld16 b 12 = Some off;
  pk_in : 0 <= off ∧ sizeof_payload_hdr + off <= b_len b }.

Lemma write_packet_eq script b c convert off :
  packet_ok b off → 0 <= c_fd c → truthy convert = true →
  let p := drop (Z.to_nat (sizeof_payload_hdr + off)) (contents b) in
  let c' := counted c (blen p) in
  ∃ b', contents b' = p ++ fcs_bytes p ∧
    ((MAX_RECV_SIZE - 3 < blen (frame p) ∧
      write_packet script b c convert = Done (- EINVAL, b', c', [])) ∨
     (blen (frame p) <= MAX_RECV_SIZE - 2 ∧
      write_packet script b c convert =
        match write_loop script (frame p) with
        | Done (true, out) => Done (0, b', c', out)
        | Done (false, out) => Done (- EIO, b', { c' with c_needclose := -1; c_fd := -1 }, out)
        | Fault => Fault
        | Blocked => Blocked
        end)).
Proof.
  intros [Hwf Hmax Hroom Hoff [Ho Hin]] Hfd Hc p c'.
  pose proof (skip_hdr b (sizeof_payload_hdr + off) Hwf) as Hskip.
  assert (0 <= sizeof_payload_hdr + off) as H0 by (unfold sizeof_payload_hdr; lia).
  destruct Hskip as (Hwf1 & Hc1 & Hr1); [lia|].
  set (b1 := { b with b_start := _; b_len := _ }) in *. fold p in Hc1.
  pose proof (contents_length b1 Hwf1) as Hl1. rewrite Hc1 in Hl1. cbn in Hl1.
  assert (u64 (b_len b - (sizeof_payload_hdr + off)) = b_len b - (sizeof_payload_hdr + off)) as Hu.
  { destruct Hwf. unfold u64. apply Z.mod_small. lia. }
  destruct (buf_append_ok b1 (fcs_bytes (contents b1)) Hwf1) as [b2 E2].
  { rewrite Hr1. change (blen (fcs_bytes _)) with 2. done. }
  destruct (buf_append_spec _ _ _ Hwf1 E2) as (Hwf2 & Hc2 & _). rewrite Hc1 in Hc2.
  exists b2. split; [done|].
  unfold write_packet. rewrite (proj2 (Z.ltb_ge _ _)) by done. rewrite Hoff, Hc, Hu. cbn [negb].
  fold b1. rewrite add_fcs_eq by (done || by rewrite Hr1). rewrite E2. cbn [mbind option_bind].
  rewrite contents_ldn by done. cbn [mbind option_bind].
  change (wput [] PPP_FLAG) with (Some [PPP_FLAG]). cbn [mbind option_bind]. rewrite Hc2.
  change (c_rx_bytes c + b_len b1) with (c_rx_bytes c + (b_len b - (sizeof_payload_hdr + off))).
  rewrite <-Hl1. fold (counted c (blen p)). fold c'. unfold frame.
  destruct (convert_loop_spec (p ++ fcs_bytes p) [PPP_FLAG]) as [[-> Hb]|[-> Hb]];
    [unfold MAX_RECV_SIZE; done|..]; cbn [mbind option_bind].
  - left. split; [|done]. rewrite app_comm_cons. rewrite blen_app in *. change ([PPP_FLAG] ++ ?x) with (PPP_FLAG :: x) in *. blen.
  - right. split.
    + rewrite app_comm_cons. change ([PPP_FLAG] ++ ?x) with (PPP_FLAG :: x) in *. rewrite blen_app. change (blen [PPP_FLAG]) with 1. lia.
    + unfold wput. rewrite (proj2 (Z.ltb_lt _ _)) by lia. cbn [mbind option_bind].
      by rewrite <-app_assoc.
Qed.

(** ** Reading a frame: the byte stream behind the reads *)

(** [read_char] on a stream of bytes: how it ends and what is left. *)
Inductive srun := SStop (r : Z) (buf : buffer) (reset : bool) (rest : list Z) | SFault | SMore.

Fixpoint run_stream (s : list Z) (buf : buffer) (escape : Z) : srun :=
  match s with
  | [] => SMore
  | ch :: s =>
      match read_char ch escape buf with
      | None => SFault
      | Some (Go buf escape) => run_stream s buf escape
      | Some (Stop r buf reset) => SStop r buf reset s
      end
  end.

(** The bytes read but not yet looked at. *)
Definition pending (c : call) : list Z :=
  take (Z.to_nat (c_rbuf_max c - c_rbuf_pos c)) (drop (Z.to_nat (c_rbuf_pos c)) (c_rbuf c)).

Record rbuf_ok (c : call) : Prop := {
  rb_len : blen (c_rbuf c) = sizeof_rbuf;
  rb_pos : 0 <= c_rbuf_pos c;
  rb_max : c_rbuf_max c <= sizeof_rbuf }.

(** The reads of [script] deliver the stream [s], in pieces of any size, and
    then come the answers [tail]. *)
Definition feeds_until (tail : list rd) (c : call) (script : list rd) (s : list Z) : Prop :=
  ∃ chunks, script = map RdOk chunks ++ tail ∧
    Forall (λ ch, 1 <= blen ch <= sizeof_rbuf) chunks ∧
    rbuf_ok c ∧ pending c ++ concat chunks = s.
Definition feeds : call → list rd → list Z → Prop := feeds_until [].

Lemma pending_cons c :
  rbuf_ok c → c_rbuf_pos c < c_rbuf_max c →
  ∃ ch, ld8 (c_rbuf c) (c_rbuf_pos c) = Some ch ∧
    pending c = ch :: pending { c with c_rbuf_pos := c_rbuf_pos c + 1 }.
Proof.
  intros [Hl Hp Hm] Hlt.
  destruct (mem_split (c_rbuf c) (c_rbuf_pos c) 1) as (pre & l & post & E & Hpre & Hl1); [lia..|].
  destruct l as [|ch [|]]; [done| |unfold blen in Hl1; cbn in Hl1; lia].
  exists ch. unfold ld8, pending. cbn -[Z.add Z.sub]. rewrite E.
  rewrite <-Hpre. change 1 with (blen [ch]) at 1. rewrite ldn_app_mid. split; [done|].
  unfold blen. rewrite !Nat2Z.id, drop_app_length.
  replace (Z.to_nat (Z.of_nat (length pre) + 1)) with (length pre + 1)%nat by lia.
  rewrite <-drop_drop, drop_app_length. cbn [app drop].
  replace (Z.to_nat (c_rbuf_max c - Z.of_nat (length pre)))
    with (S (Z.to_nat (c_rbuf_max c - (Z.of_nat (length pre) + 1)))) by (unfold blen in Hpre; lia).
  done.
Qed.

Lemma refill_ok c ch :
  rbuf_ok c → 1 <= blen ch <= sizeof_rbuf →
  ∃ c', refill (RdOk ch) c = Some (blen ch, c') ∧ rbuf_ok c' ∧ pending c' = ch ∧
    c_rbuf_pos c' < c_rbuf_max c' ∧ c_ppp_buf c' = c_ppp_buf c.
Proof.
  intros [Hl Hp Hm] Hch. unfold refill. rewrite (proj2 (Z.leb_le _ _)) by lia.
  destruct (stn_ok (c_rbuf c) 0 ch) as [m E]; [lia..|]. rewrite E. cbn [mbind option_bind].
  pose proof (stn_length _ _ _ _ E). eexists. split; [done|].
  split; [constructor; cbn; lia|]. split; [|cbn; split; [lia|done]].
  unfold pending. cbn -[Z.sub]. apply ldn_stn_eq, ldn_Some in E as (_ & _ & _ & Ech).
  by rewrite Z.sub_0_r.
Qed.

(** One turn of the loop takes one byte of the stream. *)
Lemma read_loop_byte tail fuel script c buf escape errors ch s :
  feeds_until tail c script (ch :: s) →
  ∃ c' script', feeds_until tail c' script' s ∧ c_ppp_buf c' = c_ppp_buf c ∧
    read_loop (S fuel) script c buf escape errors =
      match read_char ch escape buf with
      | None => Fault
      | Some (Go buf escape) => read_loop fuel script' c' buf escape errors
      | Some (Stop r buf reset) =>
          let c' := { c' with c_ppp_buf := Some buf } in
          Done (r, if reset then drop_rbuf c' else c', script')
      end.
Proof.
  intros (chunks & -> & Hch & Hok & Hs). cbn [read_loop].
  destruct (Z.leb_spec (c_rbuf_max c) (c_rbuf_pos c)) as [Hle|Hlt].
  - assert (pending c = []) as Hnil.
    { unfold pending. replace (Z.to_nat _) with O by lia. done. }
    rewrite Hnil in Hs. destruct chunks as [|k chunks]; [done|].
    apply Forall_cons in Hch as [Hk Hch]. cbn [map app].
    destruct (refill_ok c k Hok Hk) as (c1 & -> & Hok1 & Hp1 & Hlt1 & Hb1).
    destruct (pending_cons c1 Hok1 Hlt1) as (ch' & -> & Hpc). cbn [concat app] in Hs.
    rewrite <-Hp1, Hpc in Hs. injection Hs as -> Hs.
    rewrite (proj2 (Z.ltb_ge _ _)) by lia.
    exists { c1 with c_rbuf_pos := c_rbuf_pos c1 + 1 }, (map RdOk chunks ++ tail).
    split; [|by split]. exists chunks. split_and!; try done.
    destruct Hok1. constructor; cbn; lia.
  - destruct (pending_cons c Hok Hlt) as (ch' & -> & Hpc). rewrite Hpc in Hs.
    injection Hs as -> Hs. change (1 <? 1) with false. cbv iota.
    exists { c with c_rbuf_pos := c_rbuf_pos c + 1 }, (map RdOk chunks ++ tail).
    split; [|by split]. exists chunks. split_and!; try done.
    destruct Hok. constructor; cbn; lia.
Qed.

Lemma feeds_ppp_buf c script s o :
  feeds c script s → feeds { c with c_ppp_buf := o } script s.
Proof. intros (chunks & ? & ? & [] & ?). exists chunks. split_and!; done. Qed.

Lemma read_loop_stream s : ∀ fuel script c buf escape errors r buf' reset rest,
  feeds c script s → (length s <= fuel)%nat →
  run_stream s buf escape = SStop r buf' reset rest →
  ∃ c' script', read_loop fuel script c buf escape errors = Done (r, c', script') ∧
    c_ppp_buf c' = Some buf' ∧ (reset = false → feeds c' script' rest).
Proof.
  induction s as [|ch s IH]; intros fuel script c buf escape errors r buf' reset rest Hf Hl Hr;
    [done|]. cbn [run_stream] in Hr. destruct fuel as [|fuel]; [cbn in Hl; lia|].
  destruct (read_loop_byte [] fuel script c buf escape errors ch s Hf) as (c1 & s1 & Hf1 & Hb1 & ->).
  destruct (read_char ch escape buf) as [[b e|r' b rs]|]; [|injection Hr as -> -> -> ->|done].
  - eapply IH; [done| |done]. cbn in Hl. lia.
  - eexists _, _. split; [done|]. destruct reset; (split; [done|]); [done|].
    intros _. by apply feeds_ppp_buf.
Qed.

(** Stuffing is undone byte by byte. *)
Lemma read_char_data ch buf escape :
  ch ≠ PPP_FLAG → ch ≠ PPP_ESCAPE → buf_wf buf → 1 <= room buf →
  ∃ buf', read_char ch escape buf = Some (Go buf' 0) ∧
    buf_append buf [Z.lxor ch escape] = Some buf'.
Proof.
  intros Hf He Hwf Hr. unfold read_char.
  rewrite (proj2 (Z.eqb_neq ch PPP_FLAG)), (proj2 (Z.eqb_neq ch PPP_ESCAPE)) by done.
  assert (b_len buf < b_maxlen buf) by (destruct Hwf; unfold room in Hr; lia).
  rewrite (proj2 (Z.ltb_lt _ _)) by done.
  destruct (buf_append_ok buf [Z.lxor ch escape] Hwf) as [b' E]; [done|].
  exists b'. split; [|done]. unfold buf_append in E. unfold buf_stn.
  destruct (stn _ _ _) as [m|]; [|done]. by injection E as <-.
Qed.

Lemma escaped_ok e :
  is_u8 e → must_escape e = true → Z.lxor e 0x20 ≠ PPP_FLAG ∧ Z.lxor e 0x20 ≠ PPP_ESCAPE.
Proof.
  intros He Hm. assert (Forall (λ n, must_escape (Z.of_nat n) = true →
    Z.lxor (Z.of_nat n) 0x20 ≠ PPP_FLAG ∧ Z.lxor (Z.of_nat n) 0x20 ≠ PPP_ESCAPE) (seq 0 256)) as H.
  { apply Forall_forall. intros n _. unfold must_escape, PPP_FLAG, PPP_ESCAPE.
    intros Hn. split; intros Hx; apply (f_equal (Z.lxor 0x20)) in Hx;
    rewrite (Z.lxor_comm (Z.of_nat n)), <-Z.lxor_assoc, Z.lxor_nilpotent, Z.lxor_0_l in Hx;
    rewrite Hx in Hn; done. }
  rewrite Forall_forall in H. unfold is_u8 in He. specialize (H (Z.to_nat e)).
  rewrite Z2Nat.id in H by lia. apply H; [|done]. apply elem_of_seq. lia.
Qed.

Lemma run_stuff data : ∀ tail buf,
  is_bytes data → buf_wf buf → blen data <= room buf →
  ∃ buf', buf_wf buf' ∧ contents buf' = contents buf ++ data ∧ b_len buf' = b_len buf + blen data ∧
    run_stream (stuff data ++ tail) buf 0 = run_stream tail buf' 0.
Proof.
  induction data as [|e data IH]; intros tail buf Hd Hwf Hr.
  - exists buf. rewrite app_nil_r, blen_nil, Z.add_0_r. done.
  - apply Forall_cons in Hd as [He Hd]. rewrite blen_cons in Hr. pose proof (blen_nonneg data).
    assert (∃ b1, buf_append buf [e] = Some b1 ∧
      run_stream (stuff (e :: data) ++ tail) buf 0 = run_stream (stuff data ++ tail) b1 0)
      as (b1 & E1 & ->).
    { rewrite stuff_cons, <-app_assoc. destruct (must_escape e) eqn:Em; cbn [app run_stream].
      - destruct (escaped_ok e He Em) as [H1 H2].
        change (read_char PPP_ESCAPE 0 buf) with (Some (Go buf PPP_TRANS)). cbv iota.
        destruct (read_char_data (Z.lxor e 0x20) buf PPP_TRANS H1 H2 Hwf) as (b1 & -> & E1); [lia|].
        exists b1. split; [|done]. unfold PPP_TRANS in E1.
        by rewrite Z.lxor_assoc, Z.lxor_nilpotent, Z.lxor_0_r in E1.
      - unfold must_escape in Em.
        destruct (read_char_data e buf 0) as (b1 & -> & E1); [lia|lia|done|lia|].
        exists b1. by rewrite Z.lxor_0_r in E1. }
    destruct (buf_append_spec _ _ _ Hwf E1) as (Hwf1 & Hc1 & Hl1 & _ & _ & Hr1 & _).
    change (blen [e]) with 1 in *.
    destruct (IH tail b1 Hd Hwf1) as (b2 & Hwf2 & Hc2 & Hl2 & ->); [lia|].
    exists b2. rewrite blen_cons. split_and!; [done| |lia|done].
    by rewrite Hc2, Hc1, <-app_assoc.
Qed.

Lemma contents_shrink b n :
  buf_wf b → 0 <= n <= b_len b →
  contents { b with b_len := b_len b - n } = take (Z.to_nat (b_len b - n)) (contents b).
Proof.
  intros [] Hn. unfold contents. cbn. rewrite take_take. f_equal. lia.
Qed.

(** A frame is read back as the packet it was made of. *)
Lemma run_frame p rest buf :
  is_bytes p → buf_wf buf → b_len buf = 0 → blen p + 2 <= room buf →
  ∃ buf', run_stream (frame p ++ rest) buf 0 = SStop (blen p) buf' false rest ∧
    contents buf' = p ∧ b_len buf' = blen p ∧ buf_wf buf'.
Proof.
  intros Hp Hwf H0 Hr. unfold frame. rewrite <-app_comm_cons. cbn [run_stream].
  unfold read_char at 1. rewrite Z.eqb_refl, H0. cbn [truthy negb Z.eqb Z.leb Z.compare].
  rewrite <-app_assoc.
  pose proof (fcs_bytes_ok p) as Hf. assert (blen (fcs_bytes p) = 2) as Hf2 by done.
  destruct (run_stuff (p ++ fcs_bytes p) ([PPP_FLAG] ++ rest) buf) as (b1 & Hwf1 & Hc1 & Hl1 & ->);
    [by apply is_bytes_app|done|blen|]. rewrite blen_app, H0, Hf2 in Hl1.
  assert (contents buf = []) as Hnil.
  { apply nil_length_inv. pose proof (contents_length buf Hwf). unfold blen in *. lia. }
  rewrite Hnil, app_nil_l in Hc1. pose proof (blen_nonneg p). cbn [app run_stream]. unfold read_char.
  rewrite Z.eqb_refl. cbn [truthy negb Z.eqb]. rewrite (proj2 (Z.leb_le _ _)) by lia.
  exists { b1 with b_len := b_len b1 - 2 }. split; [|split].
  - cbn. f_equal. lia.
  - rewrite contents_shrink by (done || lia). rewrite Hc1.
    replace (Z.to_nat (b_len b1 - 2)) with (length p) by (unfold blen in *; lia).
    apply take_app_length.
  - cbn. split; [lia|]. destruct Hwf1. constructor; cbn; lia.
Qed.

(** ** Properties *)

(** The table-driven checksum step [PPP_FCS] is eight steps of the
    bitwise CRC of RFC 1662 (reflected polynomial 0x8408) on the register
    xor the byte, for every entry of [ppp_crc16_table]; and a packet followed
    by the two bytes [add_fcs] appends checks to [PPP_GOODFCS]. *)
Theorem fcs_correct (fcs c : Z) (p : list Z) :
  is_u8 c → is_bytes p →
  PPP_FCS fcs c = crc_byte (Z.lxor fcs c) ∧
  fold_left PPP_FCS (p ++ fcs_bytes p) PPP_INITFCS = PPP_GOODFCS.
Proof. intros Hc Hp. split; [by apply PPP_FCS_bitwise|by apply fcs_residue]. Qed.

Example fcs_correct_witness :
  PPP_FCS 0xffff 0x45 = crc_byte (Z.lxor 0xffff 0x45) ∧
  fold_left PPP_FCS ([0xff; 3; 0; 0x21] ++ fcs_bytes [0xff; 3; 0; 0x21]) PPP_INITFCS = PPP_GOODFCS.
Proof.
  apply (fcs_correct 0xffff 0x45 [0xff; 3; 0; 0x21]).
  - unfold is_u8. lia.
  - repeat constructor; unfold is_u8; lia.
Defined.

(** [write_packet] never stores outside its static array or the buffer
    and, whatever the answers of [write], sends a prefix of the asynchronous
    frame of the packet behind the payload header and offset: all of it when
    it returns 0, nothing when it refuses the packet as too big, and it gives
    up the tty only after a hard error. *)
Theorem write_packet_frames script b c convert off :
  packet_ok b off → 0 <= c_fd c → truthy convert = true →
  let p := drop (Z.to_nat (sizeof_payload_hdr + off)) (contents b) in
  match write_packet script b c convert with
  | Fault => False
  | Blocked => blen (frame p) <= MAX_RECV_SIZE - 2
  | Done (r, b', c', out) =>
      contents b' = p ++ fcs_bytes p ∧ out `prefix_of` frame p ∧
      ((r = 0 ∧ out = frame p ∧ c' = counted c (blen p)) ∨
       (r = - EINVAL ∧ out = [] ∧ MAX_RECV_SIZE - 3 < blen (frame p) ∧ c' = counted c (blen p)) ∨
       (r = - EIO ∧ Exists hard_error script ∧ c_fd c' = -1 ∧ c_needclose c' = -1))
  end.
Proof.
  intros Hp Hfd Hc p.
  destruct (write_packet_eq script b c convert off Hp Hfd Hc) as (b' & Hb & [[Hl ->]|[Hl ->]]).
  - split; [done|]. split; [apply prefix_nil|]. right. by left.
  - destruct (write_loop script _) as [[ok out]| |] eqn:E; [|by apply write_loop_no_fault in E|done].
    destruct (write_loop_prefix _ _ _ _ E) as (Hpre & Ht & Hf).
    destruct ok; (split; [done|]); (split; [done|]); [left|right; right]; auto.
Qed.

(** A data packet with an empty offset carrying a four-byte LCP fragment. *)
Definition lcp_packet : buffer :=
  mkBuffer ([0x02; 0; 0; 0; 7; 0; 9; 0; 0; 0; 0; 0; 0; 0; 0xff; 3; 0xc0; 0x21] ++ replicate 14 0)
    0 18 32 (Sockaddr 0 0) None 0.
Lemma lcp_packet_ok : packet_ok lcp_packet 0.
Proof. repeat constructor; vm_compute; congruence. Qed.

(** A call with descriptor 4 and an empty receive buffer; its other fields
    are zero. *)
Definition tty_call : call :=
  mkCall 0 0 0 0 0 0 None 0 0 0 None 0 0 0 0 0 0 0 0 0 0 0 0 [] [] [] 0 0 None 4
    (replicate 4096 0) 0 0 (Some (mkBuffer (replicate 4096 0) 14 0 4096 (Sockaddr 0 0) None 0))
    0 0 0 0 0 0 0 0 0 [] 0 0 0 0 None None [].

Example write_packet_frames_witness :
  match write_packet [IoOk 3; IoErr EAGAIN; IoOk 100] lcp_packet tty_call 1 with
  | Fault => False
  | Blocked => blen (frame [0xff; 3; 0xc0; 0x21]) <= MAX_RECV_SIZE - 2
  | Done (r, b', c', out) =>
      contents b' = [0xff; 3; 0xc0; 0x21] ++ fcs_bytes [0xff; 3; 0xc0; 0x21] ∧
      out `prefix_of` frame [0xff; 3; 0xc0; 0x21] ∧
      ((r = 0 ∧ out = frame [0xff; 3; 0xc0; 0x21] ∧ c' = counted tty_call 4) ∨
       (r = - EINVAL ∧ out = [] ∧ MAX_RECV_SIZE - 3 < blen (frame [0xff; 3; 0xc0; 0x21]) ∧
        c' = counted tty_call 4) ∨
       (r = - EIO ∧ Exists hard_error [IoOk 3; IoErr EAGAIN; IoOk 100] ∧ c_fd c' = -1 ∧
        c_needclose c' = -1))
  end.
Proof.
  apply (write_packet_frames [IoOk 3; IoErr EAGAIN; IoOk 100] lcp_packet tty_call 1 0).
  - apply lcp_packet_ok.
  - cbn. lia.
  - reflexivity.
Defined.

(** C25: a packet survives the tty: when [write] takes the bytes (in pieces,
    with interruptions) [write_packet] returns 0, and one call of [read_packet],
    whose reads succeed and deliver the bytes it sent in pieces of any size into
    an empty payload buffer with space for them, returns the length of the packet
    with exactly the packet in the buffer and leaves what follows for the next
    call.  (A read that fails in the middle is [escape_lost].) *)
Theorem ppp_roundtrip wscript b c convert off :
  packet_ok b off → is_bytes (b_mem b) → 0 <= c_fd c → truthy convert = true →
  Forall (λ a, hard_error a = false) wscript → (Z.to_nat MAX_RECV_SIZE <= capacity wscript)%nat →
  let p := drop (Z.to_nat (sizeof_payload_hdr + off)) (contents b) in
  blen (frame p) <= MAX_RECV_SIZE - 3 →
  ∃ b' c' out, write_packet wscript b c convert = Done (0, b', c', out) ∧
    ∀ fuel rscript c2 buf rest,
      feeds c2 rscript (out ++ rest) → (length (out ++ rest) <= fuel)%nat →
      c_ppp_buf c2 = Some buf → buf_wf buf → b_len buf = 0 → blen p + 2 <= room buf →
      ∃ c3 rscript3 buf3, read_packet fuel rscript c2 = Done (blen p, c3, rscript3) ∧
        c_ppp_buf c3 = Some buf3 ∧ contents buf3 = p ∧ feeds c3 rscript3 rest.
Proof.
  intros Hp Hby Hfd Hc Hs Hcap p Hfit.
  destruct (write_packet_eq wscript b c convert off Hp Hfd Hc) as (b' & _ & [[Hl _]|[Hl E]]);
    fold p in Hl; [lia|]. fold p in E.
  rewrite write_loop_done in E; [|done|unfold blen, MAX_RECV_SIZE in *; lia].
  eexists b', _, (frame p). split; [done|]. intros fuel rscript c2 buf rest Hf Hfu Hb Hwf H0 Hr.
  assert (is_bytes p) as Hpb by (by apply is_bytes_drop, is_bytes_take, is_bytes_drop).
  destruct (run_frame p rest buf Hpb Hwf H0 Hr) as (buf3 & Hrun & Hc3 & _ & _).
  unfold read_packet. rewrite Hb.
  destruct (read_loop_stream _ fuel rscript c2 buf 0 0 _ _ _ _ Hf Hfu Hrun) as (c3 & s3 & H3 & Hb3 & Hf3).
  exists c3, s3, buf3. auto.
Qed.

Example ppp_roundtrip_witness :
  ∃ b' c' out, write_packet [IoOk 3; IoErr EINTR; IoOk 4096] lcp_packet tty_call 1 = Done (0, b', c', out) ∧
    ∀ fuel rscript c2 buf rest,
      feeds c2 rscript (out ++ rest) → (length (out ++ rest) <= fuel)%nat →
      c_ppp_buf c2 = Some buf → buf_wf buf → b_len buf = 0 → blen [0xff; 3; 0xc0; 0x21] + 2 <= room buf →
      ∃ c3 rscript3 buf3, read_packet fuel rscript c2 = Done (blen [0xff; 3; 0xc0; 0x21], c3, rscript3) ∧
        c_ppp_buf c3 = Some buf3 ∧ contents buf3 = [0xff; 3; 0xc0; 0x21] ∧ feeds c3 rscript3 rest.
Proof.
  apply (ppp_roundtrip [IoOk 3; IoErr EINTR; IoOk 4096] lcp_packet tty_call 1 0).
  - apply lcp_packet_ok.
  - repeat constructor; unfold is_u8; lia.
  - cbn. lia.
  - reflexivity.
  - repeat constructor.
  - vm_compute. lia.
  - vm_compute. congruence.
Defined.

(** The offset field of a data packet is not checked against its length:
    when the header and the offset reach beyond the packet, [buf->len] wraps
    below zero and [add_fcs] runs out of the receive buffer. *)
Theorem write_packet_offset_overrun script b c convert off :
  buf_wf b → b_maxlen b < 2 ^ 32 → 0 <= c_fd c → buf_ld16 b 12 = Some off →
  0 <= off <= 65535 → b_len b < sizeof_payload_hdr + off →
  write_packet script b c convert = Fault.
Proof.
  intros [Hm Hs Hl Hr] Hmax Hfd Hoff Ho Hlen. unfold write_packet.
  rewrite (proj2 (Z.ltb_ge _ _)), Hoff by done. unfold sizeof_payload_hdr in *.
  assert (u64 (b_len b - (14 + off)) = b_len b - (14 + off) + 2 ^ 64) as Hu.
  { unfold u64. rewrite <-(Z_mod_plus_full _ 1). apply Z.mod_small. lia. }
  rewrite Hu. cbn -[Z.add Z.sub Z.pow].
  assert (∀ o n, 2 ^ 63 < n → ldn (b_mem b) (b_start b + o) n = None) as Hnone.
  { intros o n Hn. unfold ldn. rewrite Hm.
    destruct (Z.leb_spec 0 (b_start b + o)); [|done].
    rewrite (proj2 (Z.leb_gt (b_start b + o + n) (b_maxlen b))) by lia. by rewrite andb_false_r. }
  unfold add_fcs. cbn -[Z.add Z.sub Z.pow]. rewrite Hnone by lia. by destruct (negb (truthy convert)).
Qed.

(** *** Reads that would block *)

(** The bytes [s] are stored and no frame has ended: the buffer and what is
    pending of an escape. *)
Fixpoint run_more (s : list Z) (buf : buffer) (escape : Z) : option (buffer * Z) :=
  match s with
  | [] => Some (buf, escape)
  | ch :: s => match read_char ch escape buf with Some (Go buf escape) => run_more s buf escape | _ => None end
  end.
(** When the tty has no more, [read_packet] returns 0 and keeps the buffer, but
    not the escape. *)
Lemma read_loop_waits e tail s : soft_error e = true → ∀ fuel script c buf escape errors buf' escape',
  feeds_until (RdErr e :: tail) c script s → (length s < fuel)%nat → run_more s buf escape = Some (buf', escape') →
  ∃ c', read_loop fuel script c buf escape errors = Done (0, c', tail) ∧ c_ppp_buf c' = Some buf' ∧
    rbuf_ok c' ∧ pending c' = [].
Proof.
  intros He. induction s as [|ch s IH]; intros fuel script c buf escape errors buf' escape' Hf Hl Hr.
  - destruct fuel as [|fuel]; [cbn in Hl; lia|]. destruct Hf as (chunks & -> & Hch & [Hb Hp Hm] & Hs).
    apply app_eq_nil in Hs as [Hp0 Hc0]. assert (chunks = []) as ->.
    { destruct chunks as [|k chunks]; [done|]. apply Forall_cons in Hch as [Hk _]. cbn in Hc0.
      apply app_eq_nil in Hc0 as [-> _]. unfold blen in Hk. cbn in Hk. lia. }
    assert (c_rbuf_max c <= c_rbuf_pos c) as Hle.
    { destruct (Z.le_gt_cases (c_rbuf_max c) (c_rbuf_pos c)) as [|Hlt]; [done|]. exfalso.
      destruct (pending_cons c) as (ch & _ & Hx); [by split|lia|]. congruence. }
    injection Hr as <- <-. cbn [map app read_loop]. rewrite (proj2 (Z.leb_le _ _) Hle). cbn [refill].
    cbn -[ld8 soft_error]. destruct (ld8 (c_rbuf c) 0) as [x|] eqn:E.
    2: { exfalso. revert E. destruct (c_rbuf c) as [|x l]; [done|]. unfold ld8, ldn. cbn [Z.leb Z.compare andb].
         rewrite (proj2 (Z.leb_le _ _)); [done|]. rewrite blen_cons. pose proof (blen_nonneg l). lia. }
    rewrite He. eexists. split; [reflexivity|]. split; [done|]. split; [split; cbn; [done|lia|unfold sizeof_rbuf, MAX_RECV_SIZE; lia]|].
    done.
  - destruct fuel as [|fuel]; [cbn in Hl; lia|]. cbn [run_more] in Hr.
    destruct (read_loop_byte _ fuel script c buf escape errors ch s Hf) as (c1 & s1 & Hf1 & _ & ->).
    destruct (read_char ch escape buf) as [[b1 e1|r1 b1 rs1]|]; [|done..]. eapply IH; [done| |done]. cbn in Hl. lia.
Qed.

(** C36: a read that would block loses an escape.  The escape state is a local
    variable of [read_packet], which returns when the tty has nothing more: when
    the two bytes of an escaped character arrive in one read, the character is
    stored; when the tty has nothing between them, the second byte is stored as
    it came.  Here for any character, whatever is in the buffer. *)
Theorem escape_lost c buf ch e :
  c_ppp_buf c = Some buf → buf_wf buf → 1 <= room buf → rbuf_ok c → pending c = [] →
  ch ≠ PPP_FLAG → ch ≠ PPP_ESCAPE → soft_error e = true →
  (∃ c1 buf1, read_packet 3 [RdOk [PPP_ESCAPE; ch]; RdErr e] c = Done (0, c1, []) ∧
     c_ppp_buf c1 = Some buf1 ∧ contents buf1 = contents buf ++ [Z.lxor ch PPP_TRANS]) ∧
  (∃ c1 c2 buf2, read_packet 3 [RdOk [PPP_ESCAPE]; RdErr e] c = Done (0, c1, []) ∧
     read_packet 3 [RdOk [ch]; RdErr e] c1 = Done (0, c2, []) ∧
     c_ppp_buf c2 = Some buf2 ∧ contents buf2 = contents buf ++ [ch]).
Proof.
  intros Hb Hwf Hr Hok Hp Hf He Hs.
  assert (∀ bs c, rbuf_ok c → pending c = [] → 1 <= blen bs <= sizeof_rbuf →
    feeds_until [RdErr e] c [RdOk bs; RdErr e] bs) as Hfeeds.
  { intros bs c0 H1 H2 H3. exists [bs]. split_and!; [done|by constructor|done|]. rewrite H2. cbn. apply app_nil_r. }
  destruct (read_char_data ch buf PPP_TRANS Hf He Hwf Hr) as (b1 & E1 & A1).
  destruct (read_char_data ch buf 0 Hf He Hwf Hr) as (b2 & E2 & A2). rewrite Z.lxor_0_r in A2.
  apply buf_append_spec in A1 as (_ & A1 & _); [|done]. apply buf_append_spec in A2 as (_ & A2 & _); [|done].
  split.
  - destruct (read_loop_waits e [] [PPP_ESCAPE; ch] Hs 3 [RdOk [PPP_ESCAPE; ch]; RdErr e] c buf 0 0 b1 0)
      as (c1 & R1 & B1 & _); [by apply Hfeeds|cbn; lia|change (run_more [ch] buf PPP_TRANS = Some (b1, 0)); cbn [run_more]; by rewrite E1|].
    exists c1, b1. split; [unfold read_packet; by rewrite Hb|]. by split.
  - destruct (read_loop_waits e [] [PPP_ESCAPE] Hs 3 [RdOk [PPP_ESCAPE]; RdErr e] c buf 0 0 buf PPP_TRANS)
      as (c1 & R1 & B1 & Ok1 & P1); [by apply Hfeeds|cbn; lia|done|].
    destruct (read_loop_waits e [] [ch] Hs 3 [RdOk [ch]; RdErr e] c1 buf 0 0 b2 0)
      as (c2 & R2 & B2 & _); [by apply Hfeeds|cbn; lia|cbn [run_more]; by rewrite E2|].
    exists c1, c2, b2. split; [unfold read_packet; by rewrite Hb|]. split; [unfold read_packet; by rewrite B1|]. by split.
Qed.
(** The escaped 0x7e after 0x41. *)
Definition waiting_call : call :=
  { tty_call with c_ppp_buf := Some (mkBuffer (replicate 14 0 ++ [65] ++ replicate 4081 0) 14 1 4096 (Sockaddr 0 0) None 0) }.
Example escape_lost_witness :
  ∃ c1 c2 c3 b2 b3, read_packet 3 [RdOk [PPP_ESCAPE; 94]; RdErr EAGAIN] waiting_call = Done (0, c2, []) ∧
    c_ppp_buf c2 = Some b2 ∧ contents b2 = [65; 126] ∧
    read_packet 3 [RdOk [PPP_ESCAPE]; RdErr EAGAIN] waiting_call = Done (0, c1, []) ∧
    read_packet 3 [RdOk [94]; RdErr EAGAIN] c1 = Done (0, c3, []) ∧ c_ppp_buf c3 = Some b3 ∧ contents b3 = [65; 94].
Proof.
  destruct (escape_lost waiting_call (mkBuffer (replicate 14 0 ++ [65] ++ replicate 4081 0) 14 1 4096 (Sockaddr 0 0) None 0) 94 EAGAIN)
    as [(c2 & b2 & H1 & H2 & H3) (c1 & c3 & b3 & H4 & H5 & H6 & H7)].
  - reflexivity.
  - constructor; vm_compute; congruence.
  - vm_compute. congruence.
  - constructor; vm_compute; congruence.
  - reflexivity.
  - unfold PPP_FLAG. lia.
  - unfold PPP_ESCAPE. lia.
  - reflexivity.
  - exists c1, c2, c3, b2, b3. split_and!; assumption.
Defined.

(** C35: [read_packet] compares the length of the payload buffer with its
    whole size although the payload starts behind the space for the header:
    a frame that fills the buffer to the end makes it store outside. *)
Theorem read_packet_overruns fuel script c buf ch s :
  feeds c script (ch :: s) → c_ppp_buf c = Some buf →
  buf_wf buf → room buf = 0 → 0 < b_start buf → ch ≠ PPP_FLAG → ch ≠ PPP_ESCAPE →
  read_packet (S fuel) script c = Fault.
Proof.
  intros Hf Hb [Hm Hs Hl Hr] Hroom Hst Hfl He. unfold room in Hroom. unfold read_packet. rewrite Hb.
  destruct (read_loop_byte [] fuel script c buf 0 0 ch s Hf) as (? & ? & _ & _ & ->).
  unfold read_char. rewrite (proj2 (Z.eqb_neq ch PPP_FLAG)), (proj2 (Z.eqb_neq ch PPP_ESCAPE)) by done.
  rewrite (proj2 (Z.ltb_lt _ _)) by lia. unfold buf_stn, stn.
  change (blen [Z.lxor ch 0]) with 1.
  rewrite (proj2 (Z.leb_gt (b_start buf + b_len buf + 1) _)) by lia. by rewrite andb_false_r.
Qed.

(** The payload buffer of a call ([new_payload]) with 4082 bytes in it. *)
Definition full_call : call :=
  { tty_call with c_ppp_buf := Some (mkBuffer (replicate 4096 0) 14 4082 4096 (Sockaddr 0 0) None 0) }.

Lemma full_call_feeds : feeds full_call [RdOk [1; 2; PPP_FLAG]] [1; 2; PPP_FLAG].
Proof.
  exists [[1; 2; PPP_FLAG]]. split; [done|].
  split; [repeat constructor; vm_compute; congruence|].
  split; [constructor; vm_compute; congruence|done].
Qed.

Example read_packet_overruns_witness :
  read_packet 5 [RdOk [1; 2; PPP_FLAG]] full_call = Fault.
Proof.
  apply (read_packet_overruns 4 [RdOk [1; 2; PPP_FLAG]] full_call
    (mkBuffer (replicate 4096 0) 14 4082 4096 (Sockaddr 0 0) None 0) 1 [2; PPP_FLAG]).
  - apply full_call_feeds.
  - reflexivity.
  - constructor; vm_compute; congruence.
  - reflexivity.
  - cbn. lia.
  - unfold PPP_FLAG. lia.
  - unfold PPP_ESCAPE. lia.
Defined.

Definition offset_packet : buffer :=
  mkBuffer ([0x02; 2; 0; 0; 7; 0; 9; 0; 0; 0; 0; 0; 0xff; 0xff; 0xff; 3; 0xc0; 0x21] ++ replicate 14 0)
    0 18 32 (Sockaddr 0 0) None 0.

Example write_packet_offset_overrun_witness :
  write_packet [IoOk 100] offset_packet tty_call 1 = Fault.
Proof.
  apply (write_packet_offset_overrun [IoOk 100] offset_packet tty_call 1 65535).
  - constructor; vm_compute; congruence.
  - vm_compute. congruence.
  - cbn. lia.
  - reflexivity.
  - lia.
  - vm_compute. congruence.
Defined.

End Ppp.
