(* ===== verification/AddrPool.v ===== *)
(** * Reserved addresses (src/aaa.c, [uaddr] and its routines)

    The addresses handed to peers are kept in a chained hash table of
    [ADDR_HASH_SIZE] buckets; [get_addr] looks for a free address in a list of
    allow and deny ranges.  Addresses are in network order at the interface
    and in host order in the table. *)

From S2P Require Import Prelude.
From S2P Require Import State.

Module AddrPool.
Import State.
Open Scope Z_scope.

Definition ADDR_HASH_SIZE : Z := 256.

Abbreviation table := (gmap Z (list Z)) (only parsing).

Definition bucket (uaddr : table) (k : Z) : list Z := default [] (uaddr !! k).

Definition init_addr : table := ∅.

Fixpoint find_addr (addr : Z) (tmp : list Z) : Z :=
  match tmp with
  | [] => 0
  | a :: tmp => if a =? addr then -1 else find_addr addr tmp
  end.

Definition ip_used (uaddr : table) (addr : Z) : Z :=
  find_addr addr (bucket uaddr (addr mod ADDR_HASH_SIZE)).

Definition reserve_addr (uaddr : table) (addr : Z) : table :=
  let addr := ntohl addr in
  if truthy (ip_used uaddr addr) then uaddr
  else <[addr mod ADDR_HASH_SIZE := addr :: bucket uaddr (addr mod ADDR_HASH_SIZE)]> uaddr.

(** Every node with the address is unlinked. *)
Fixpoint unlink_addr (addr : Z) (tmp : list Z) : list Z :=
  match tmp with
  | [] => []
  | a :: tmp => if a =? addr then unlink_addr addr tmp else a :: unlink_addr addr tmp
  end.

Definition unreserve_addr (uaddr : table) (addr : Z) : table :=
  let addr := ntohl addr in
  let k := addr mod ADDR_HASH_SIZE in
  <[k := unlink_addr addr (bucket uaddr k)]> uaddr.

Definition in_range (r : iprange) (x : Z) : bool :=
  (ntohl (r_start r) <=? x) && (x <=? ntohl (r_end r)).

(** [status] after the ranges behind the current one. *)
Fixpoint range_status (status x : Z) (ipr2 : list iprange) : Z :=
  match ipr2 with
  | [] => status
  | r :: ipr2 => range_status (if in_range r x then r_sense r else status) x ipr2
  end.

(** The [for] over one range, [x] being unsigned: [None] when the fuel ends. *)
Fixpoint addr_loop (fuel : nat) (uaddr : table) (x e : Z) (next : list iprange)
  : option (option Z) :=
  match fuel with
  | O => None
  | S fuel =>
      if x <=? e then
        if negb (truthy (ip_used uaddr x)) && (range_status SENSE_ALLOW x next =? SENSE_ALLOW)
        then Some (Some (htonl x))
        else addr_loop fuel uaddr (u32 (x + 1)) e next
      else Some None
  end.

(** One more turn than the range has addresses. *)
Definition loop_fuel (x e : Z) : nat := S (Z.to_nat (e - x + 1)).

(** [None]: still running after the last address of a range. *)
Fixpoint get_addr (uaddr : table) (ipr : list iprange) : option Z :=
  match ipr with
  | [] => Some 0
  | r :: next =>
      if r_sense r =? SENSE_ALLOW then
        let x := ntohl (r_start r) in
        let e := ntohl (r_end r) in
        match addr_loop (loop_fuel x e) uaddr x e next with
        | None => None
        | Some (Some y) => Some y
        | Some None => get_addr uaddr next
        end
      else get_addr uaddr next
  end.

(** ** The table as a set of addresses *)

Definition in_use (uaddr : table) (x : Z) : Prop := x ∈ bucket uaddr (x mod ADDR_HASH_SIZE).

(** An address is only ever in its own bucket, once. *)
Record table_ok (uaddr : table) : Prop := {
  tb_home : ∀ k x, x ∈ bucket uaddr k → k = x mod ADDR_HASH_SIZE;
  tb_nodup : ∀ k, NoDup (bucket uaddr k) }.

Lemma find_addr_spec addr l : truthy (find_addr addr l) = true ↔ addr ∈ l.
Proof.
  induction l as [|a l IH]; cbn; [split; [done|by intros ?%elem_of_nil]|].
  destruct (Z.eqb_spec a addr) as [->|Hn]; rewrite elem_of_cons; [|rewrite IH]; naive_solver.
Qed.

Lemma ip_used_spec u x : truthy (ip_used u x) = true ↔ in_use u x.
Proof. apply find_addr_spec. Qed.

Lemma unlink_addr_spec addr l x : x ∈ unlink_addr addr l ↔ x ∈ l ∧ x ≠ addr.
Proof.
  induction l as [|a l IH]; cbn; [set_solver|].
  destruct (Z.eqb_spec a addr) as [->|Hn]; rewrite ?elem_of_cons, IH; naive_solver.
Qed.
Lemma unlink_addr_nodup addr l : NoDup l → NoDup (unlink_addr addr l).
Proof.
  induction 1 as [|a l Ha Hl IH]; cbn; [constructor|].
  destruct (a =? addr); [done|]. constructor; [|done]. rewrite unlink_addr_spec. tauto.
Qed.

Lemma bucket_insert u k l j : bucket (<[k := l]> u) j = if decide (k = j) then l else bucket u j.
Proof.
  unfold bucket. destruct (decide (k = j)) as [->|Hn].
  - by rewrite lookup_insert_eq.
  - by rewrite lookup_insert_ne.
Qed.

Lemma init_addr_ok : table_ok init_addr.
Proof.
  unfold init_addr. split; intros *; unfold bucket; rewrite lookup_empty; cbn.
  - by intros ?%elem_of_nil.
  - constructor.
Qed.

Lemma reserve_addr_ok u a : table_ok u → table_ok (reserve_addr u a).
Proof.
  intros [Hh Hn]. unfold reserve_addr. destruct (truthy _) eqn:E; [done|].
  assert (¬ in_use u (ntohl a)) by (rewrite <-ip_used_spec, E; done).
  split; intros k; rewrite bucket_insert; destruct (decide _) as [<-|]; auto.
  - intros x [->|?]%elem_of_cons; auto.
  - constructor; auto.
Qed.
Lemma reserve_addr_use u a x : in_use (reserve_addr u a) x ↔ in_use u x ∨ x = ntohl a.
Proof.
  unfold reserve_addr. destruct (truthy _) eqn:E.
  - apply ip_used_spec in E. naive_solver.
  - unfold in_use. rewrite bucket_insert. destruct (decide _) as [Heq|Hne].
    + rewrite elem_of_cons, Heq. tauto.
    + split; [tauto|]. intros [? | ->]; done.
Qed.

Lemma unreserve_addr_ok u a : table_ok u → table_ok (unreserve_addr u a).
Proof.
  intros [Hh Hn]. unfold unreserve_addr. split; intros k; rewrite bucket_insert;
    destruct (decide _) as [<-|]; auto using unlink_addr_nodup.
  intros x [? ?]%unlink_addr_spec. auto.
Qed.
Lemma unreserve_addr_use u a x : in_use (unreserve_addr u a) x ↔ in_use u x ∧ x ≠ ntohl a.
Proof.
  unfold unreserve_addr, in_use. rewrite bucket_insert. destruct (decide _) as [Heq|Hne].
  - by rewrite unlink_addr_spec, Heq.
  - split; [|tauto]. intros ?. split; [done|]. congruence.
Qed.

(** ** What [get_addr] promises *)

(** The verdict on [x]: the last range that contains it. *)
Definition verdict (x : Z) (ipr : list iprange) : Z := range_status SENSE_DENY x ipr.

Lemma range_status_next st x ipr :
  range_status st x ipr = if existsb (λ r, in_range r x) ipr then verdict x ipr else st.
Proof.
  unfold verdict. revert st. generalize SENSE_DENY.
  induction ipr as [|r ipr IH]; intros d st; cbn; [done|].
  destruct (in_range r x); [done|]. apply IH.
Qed.

(** The test in the loop is the verdict of the ranges from the current one on. *)
Lemma loop_test r next x :
  r_sense r = SENSE_ALLOW → in_range r x = true →
  range_status SENSE_ALLOW x next = verdict x (r :: next).
Proof. intros Hs Hr. unfold verdict. cbn. by rewrite Hr, Hs. Qed.

Definition candidate (u : table) (ipr : list iprange) (x : Z) : Prop :=
  ¬ in_use u x ∧ verdict x ipr = SENSE_ALLOW.

Lemma candidate_test u r next x :
  r_sense r = SENSE_ALLOW → in_range r x = true →
  negb (truthy (ip_used u x)) && (range_status SENSE_ALLOW x next =? SENSE_ALLOW) = true ↔
  candidate u (r :: next) x.
Proof.
  intros Hs Hr. unfold candidate. rewrite andb_true_iff, negb_true_iff, Z.eqb_eq.
  rewrite <-ip_used_spec, not_true_iff_false. by rewrite (loop_test r).
Qed.

Lemma addr_loop_spec u r next : ∀ n x,
  r_sense r = SENSE_ALLOW → ntohl (r_end r) < 2 ^ 32 - 1 → ntohl (r_start r) <= x →
  n = Z.to_nat (ntohl (r_end r) - x + 1) → 0 <= x < 2 ^ 32 →
  (∃ y, addr_loop (S n) u x (ntohl (r_end r)) next = Some (Some (htonl y)) ∧
     x <= y <= ntohl (r_end r) ∧ candidate u (r :: next) y) ∨
  (addr_loop (S n) u x (ntohl (r_end r)) next = Some None ∧
   ∀ y, x <= y <= ntohl (r_end r) → ¬ candidate u (r :: next) y).
Proof.
  induction n as [|n IH]; intros x Hs He Hx Hn Hr.
  - right. cbn [addr_loop]. rewrite (proj2 (Z.leb_gt x _)) by lia. split; [done|]. lia.
  - cbn [addr_loop]. rewrite (proj2 (Z.leb_le x _)) by lia.
    assert (in_range r x = true) as Hin by (unfold in_range; lia).
    destruct (negb _ && _) eqn:E.
    + left. exists x. split; [done|]. split; [lia|]. by apply (candidate_test u r next x).
    + assert (u32 (x + 1) = x + 1) as -> by (apply u32_id; unfold is_u32; lia).
      assert (¬ candidate u (r :: next) x) as Hnc.
      { rewrite <-candidate_test, E by done. done. }
      destruct (IH (x + 1)) as [(y & Hy & ? & ?)|[Hy Hno]]; [done|done|lia|lia|lia| |].
      * left. exists y. split; [done|]. split; [lia|done].
      * right. split; [done|]. intros y ?. destruct (decide (y = x)) as [->|]; [done|].
        apply Hno. lia.
Qed.

(** A range that the unsigned loop variable can step out of. *)
Definition range_ok (r : iprange) : Prop := ntohl (r_end r) < 2 ^ 32 - 1.

Lemma ntohl_range v : 0 <= ntohl v < 2 ^ 32.
Proof. apply bswap32_range. Qed.

Lemma candidate_next u r next x :
  candidate u next x → candidate u (r :: next) x.
Proof.
  intros [Hu Hv]. split; [done|]. unfold verdict in *. cbn. rewrite range_status_next in *.
  destruct (existsb _ next); [done|]. unfold SENSE_DENY, SENSE_ALLOW in Hv. done.
Qed.

Lemma get_addr_spec u ipr :
  Forall range_ok ipr →
  (∃ x, get_addr u ipr = Some (htonl x) ∧ 0 <= x < 2 ^ 32 ∧ candidate u ipr x) ∨
  (get_addr u ipr = Some 0 ∧ ∀ x, ¬ candidate u ipr x).
Proof.
  induction ipr as [|r next IH]; intros Hok.
  - right. split; [done|]. intros x [_ Hv]. done.
  - apply Forall_cons in Hok as [Hr Hok]. cbn [get_addr].
    assert ((∃ x, get_addr u next = Some (htonl x) ∧ 0 <= x < 2 ^ 32 ∧ candidate u (r :: next) x) ∨
      (get_addr u next = Some 0 ∧ ∀ x, ¬ candidate u next x)) as Hnext.
    { destruct (IH Hok) as [(x & ? & ? & ?)|]; [left; exists x; auto using candidate_next|by right]. }
    pose proof (ntohl_range (r_start r)). pose proof (ntohl_range (r_end r)).
    destruct (Z.eqb_spec (r_sense r) SENSE_ALLOW) as [Hs|Hs].
    + destruct (addr_loop_spec u r next _ (ntohl (r_start r)) Hs Hr ltac:(lia) eq_refl ltac:(lia))
        as [(y & Hy & ? & ?)|[Hy Hno]]; unfold loop_fuel; rewrite Hy.
      * left. exists y. split; [done|]. split; [lia|done].
      * destruct Hnext as [?|[? Hnc]]; [by left|right]. split; [done|].
        intros x Hc. apply (Hnc x). destruct (in_range r x) eqn:Hin.
        { exfalso. apply (Hno x); [|done]. unfold in_range in Hin. lia. }
        destruct Hc as [? Hv]. split; [done|]. unfold verdict in *. cbn in Hv. by rewrite Hin in Hv.
    + destruct Hnext as [?|[? Hnc]]; [by left|right]. split; [done|].
      intros x Hc. apply (Hnc x). destruct Hc as [? Hv]. split; [done|].
      unfold verdict in *. cbn in Hv. rewrite range_status_next in Hv |- *.
      destruct (existsb _ next); [done|]. by destruct (in_range r x).
Qed.

(** ** The interface the call control uses *)

(** An address pool: addresses in network order, 0 for "none". *)
Class AddressPool (T : Type) := {
  pool_empty : T;
  pool_used : T → Z → Prop;
  pool_reserve : T → Z → T;
  pool_release : T → Z → T;
  pool_find : T → list iprange → option Z;
  pool_empty_used a : ¬ pool_used pool_empty a;
  pool_reserve_used t a b :
    is_u32 a → is_u32 b → pool_used (pool_reserve t a) b ↔ pool_used t b ∨ b = a;
  pool_release_used t a b :
    is_u32 a → is_u32 b → pool_used (pool_release t a) b ↔ pool_used t b ∧ b ≠ a;
  pool_find_free t ipr a :
    Forall range_ok ipr → pool_find t ipr = Some a → a ≠ 0 → is_u32 a ∧ ¬ pool_used t a }.

Lemma ntohl_inj a b : is_u32 a → is_u32 b → ntohl a = ntohl b ↔ a = b.
Proof.
  intros Ha Hb. split; [|by intros ->]. intros H. apply (f_equal htonl) in H.
  unfold htonl, ntohl in H. by rewrite !bswap32_involutive in H.
Qed.

#[export] Program Instance hash_pool : AddressPool table := {
  pool_empty := init_addr;
  pool_used u a := in_use u (ntohl a);
  pool_reserve := reserve_addr;
  pool_release := unreserve_addr;
  pool_find := get_addr }.
Next Obligation.
  intros a. unfold in_use, bucket, init_addr. rewrite lookup_empty. by intros ?%elem_of_nil.
Qed.
Next Obligation. intros u a b Ha Hb. rewrite reserve_addr_use. by rewrite ntohl_inj. Qed.
Next Obligation. intros u a b Ha Hb. rewrite unreserve_addr_use. by rewrite ntohl_inj. Qed.
Next Obligation.
  intros u ipr a Hok Hf Ha. destruct (get_addr_spec u ipr Hok) as [(x & Hx & Hr & Hu & _)|[Hx _]].
  - rewrite Hx in Hf. injection Hf as <-. split; [apply bswap32_range|].
    unfold ntohl, htonl. by rewrite bswap32_involutive.
  - congruence.
Qed.

(** What incoming calls do with a pool: lease an address from a range (the
    ICRQ case of [control_finish]) and give it back ([destroy_call]). *)
Inductive pool_op := Lease (ipr : list iprange) | Release (a : Z).

Section Leases.
Context {T : Type} `{AddressPool T}.

(** The pool with the addresses leased and not yet given back. *)
Definition pool_step (s : T * list Z) (o : pool_op) : option (T * list Z) :=
  let '(t, leased) := s in
  match o with
  | Lease ipr =>
      a ← pool_find t ipr;
      if a =? 0 then Some (t, leased) else Some (pool_reserve t a, a :: leased)
  | Release a =>
      if bool_decide (a ∈ leased) then Some (pool_release t a, filter (.≠ a) leased)
      else Some (t, leased)
  end.

Fixpoint pool_run (s : T * list Z) (ops : list pool_op) : option (T * list Z) :=
  match ops with [] => Some s | o :: ops => s ← pool_step s o; pool_run s ops end.

Definition op_ok (o : pool_op) : Prop :=
  match o with Lease ipr => Forall range_ok ipr | Release _ => True end.

(** The leased addresses are the used ones, each leased once. *)
Definition lease_inv (s : T * list Z) : Prop :=
  NoDup (s.2) ∧ Forall is_u32 (s.2) ∧ ∀ a, is_u32 a → pool_used (s.1) a ↔ a ∈ s.2.

Lemma pool_step_inv s o s' : lease_inv s → op_ok o → pool_step s o = Some s' → lease_inv s'.
Proof.
  destruct s as [t l]. intros (Hn & Hu & Hi) Ho. destruct o as [ipr|a]; cbn in *.
  - destruct (pool_find t ipr) as [a|] eqn:E; cbn; [|done].
    destruct (Z.eqb_spec a 0) as [->|Ha]; intros [= <-]; [done|].
    destruct (pool_find_free _ _ _ Ho E Ha) as [Har Hfree].
    split; [constructor; [by rewrite <-Hi|done]|]. split; [by constructor|].
    intros b Hb. cbn. rewrite pool_reserve_used, Hi, elem_of_cons by done. tauto.
  - case_bool_decide as Hin; intros [= <-]; [|done].
    assert (is_u32 a) by (by eapply Forall_forall in Hu).
    split; [by apply NoDup_filter|]. split; [apply Forall_forall; intros b [_ ?]%list_elem_of_filter; by eapply Forall_forall in Hu|].
    intros b Hb. cbn. rewrite pool_release_used, Hi, list_elem_of_filter by done. tauto.
Qed.

Lemma pool_run_inv ops : ∀ s s',
  lease_inv s → Forall op_ok ops → pool_run s ops = Some s' → lease_inv s'.
Proof.
  induction ops as [|o ops IH]; intros s s' Hs Ho; cbn; [by intros [= <-]|].
  apply Forall_cons in Ho as [? ?]. destruct (pool_step s o) as [s1|] eqn:E; [|done]. cbn.
  apply IH; [by eapply pool_step_inv|done].
Qed.
End Leases.

(** ** Properties *)

(** C16: [get_addr] returns, for ranges that do not end at 255.255.255.255,
    and what it returns is an address that is not reserved and on which the
    last range containing it says "allow"; it returns 0 only when there is no
    such address (0.0.0.0 apart). *)
Theorem get_addr_correct (u : table) (ipr : list iprange) :
  Forall range_ok ipr →
  ∃ y, get_addr u ipr = Some y ∧
    ((is_u32 y ∧ ¬ in_use u (ntohl y) ∧ verdict (ntohl y) ipr = SENSE_ALLOW) ∨
     (y = 0 ∧ ∀ x, verdict x ipr = SENSE_ALLOW → in_use u x)).
Proof.
  intros Hok. destruct (get_addr_spec u ipr Hok) as [(x & Hx & Hr & Hu & Hv)|[Hx Hno]].
  - exists (htonl x). split; [done|]. left. rewrite htonl_ntohl by done.
    split; [apply bswap32_range|]. done.
  - exists 0. split; [done|]. right. split; [done|]. intros x Hv.
    apply ip_used_spec. destruct (truthy (ip_used u x)) eqn:E; [done|].
    exfalso. apply (Hno x). split; [|done]. by rewrite <-ip_used_spec, E.
Qed.

(** 10.0.0.1 to 10.0.0.3 without 10.0.0.2. *)
Definition three_hosts : list iprange :=
  [IpRange (htonl 0x0a000001) (htonl 0x0a000003) SENSE_ALLOW;
   IpRange (htonl 0x0a000002) (htonl 0x0a000002) SENSE_DENY].

Example get_addr_correct_witness :
  get_addr (reserve_addr init_addr (htonl 0x0a000001)) three_hosts = Some (htonl 0x0a000003) ∧
  ∃ y, get_addr (reserve_addr init_addr (htonl 0x0a000001)) three_hosts = Some y ∧
    ((is_u32 y ∧ ¬ in_use (reserve_addr init_addr (htonl 0x0a000001)) (ntohl y) ∧
      verdict (ntohl y) three_hosts = SENSE_ALLOW) ∨
     (y = 0 ∧ ∀ x, verdict x three_hosts = SENSE_ALLOW →
        in_use (reserve_addr init_addr (htonl 0x0a000001)) x)).
Proof.
  split; [vm_compute; reflexivity|].
  apply (get_addr_correct (reserve_addr init_addr (htonl 0x0a000001)) three_hosts).
  repeat constructor; vm_compute; congruence.
Defined.

(** C17: the hash table refines a set of addresses: [reserve_addr] adds its
    address and [unreserve_addr] removes it, nothing else changes, and every
    address stays in its own bucket once. *)
Theorem addr_table_is_set (u : table) (a x : Z) :
  table_ok u →
  table_ok (reserve_addr u a) ∧ table_ok (unreserve_addr u a) ∧
  (in_use (reserve_addr u a) x ↔ in_use u x ∨ x = ntohl a) ∧
  (in_use (unreserve_addr u a) x ↔ in_use u x ∧ x ≠ ntohl a) ∧
  (truthy (ip_used u x) = true ↔ in_use u x).
Proof.
  intros Hu. split_and!; auto using reserve_addr_ok, unreserve_addr_ok, reserve_addr_use,
    unreserve_addr_use, ip_used_spec.
Qed.

Example addr_table_is_set_witness :
  table_ok (reserve_addr init_addr 0x0100000a) ∧ table_ok (unreserve_addr init_addr 0x0100000a) ∧
  (in_use (reserve_addr init_addr 0x0100000a) 0x0a000001 ↔
     in_use init_addr 0x0a000001 ∨ 0x0a000001 = ntohl 0x0100000a) ∧
  (in_use (unreserve_addr init_addr 0x0100000a) 0x0a000001 ↔
     in_use init_addr 0x0a000001 ∧ 0x0a000001 ≠ ntohl 0x0100000a) ∧
  (truthy (ip_used init_addr 0x0a000001) = true ↔ in_use init_addr 0x0a000001).
Proof. exact (addr_table_is_set init_addr 0x0100000a 0x0a000001 init_addr_ok). Defined.

(** Over any history of calls that lease an address and give it back, no
    address is leased to two calls at once, and the reserved addresses are
    exactly the leased ones. *)
Theorem leases_distinct (ops : list pool_op) (u : table) (leased : list Z) :
  Forall op_ok ops → pool_run (init_addr, []) ops = Some (u, leased) →
  NoDup leased ∧ ∀ a, is_u32 a → in_use u (ntohl a) ↔ a ∈ leased.
Proof.
  intros Ho Hr.
  assert (lease_inv (T := table) (init_addr, [])) as Hi.
  { split; [constructor|]. split; [constructor|]. intros a _. cbn. split.
    - intros Hu. by destruct (pool_empty_used (T := table) a).
    - by intros ?%elem_of_nil. }
  by destruct (pool_run_inv ops _ _ Hi Ho Hr) as (? & _ & ?).
Qed.

Example leases_distinct_witness :
  let ops := [Lease three_hosts; Lease three_hosts; Release (htonl 0x0a000001); Lease three_hosts] in
  pool_run (T := table) (init_addr, []) ops
    = Some (reserve_addr (unreserve_addr (reserve_addr (reserve_addr init_addr (htonl 0x0a000001))
        (htonl 0x0a000003)) (htonl 0x0a000001)) (htonl 0x0a000001),
      [htonl 0x0a000001; htonl 0x0a000003]) ∧
  NoDup [htonl 0x0a000001; htonl 0x0a000003].
Proof.
  intros ops. assert (pool_run (T := table) (init_addr, []) ops
    = Some (reserve_addr (unreserve_addr (reserve_addr (reserve_addr init_addr (htonl 0x0a000001))
        (htonl 0x0a000003)) (htonl 0x0a000001)) (htonl 0x0a000001),
      [htonl 0x0a000001; htonl 0x0a000003])) as E by (vm_compute; reflexivity).
  split; [exact E|]. refine (proj1 (leases_distinct ops _ _ _ E)).
  repeat constructor; vm_compute; congruence.
Defined.

End AddrPool.
