(* ===== verification/Auth.v ===== *)
(** * Authentication and hidden attributes (src/aaa.c)

    The lookup in the secrets file, the responses to challenges, the choice of
    an LNS for a peer, and the hiding and unhiding of attributes. *)

From S2P Require Import Prelude.
From S2P Require Import Md5.
From S2P Require Import Buffer.
From S2P Require Import State.
From S2P Require Import AvpSend.

Module Auth.
Import Md5 Buffer State AvpSend.
Open Scope Z_scope.

Definition STRLEN : Z := 100.

(** ** The secrets file *)

(** A [char] is signed. *)
Definition schar (b : Z) : Z := if 128 <=? b then b - 256 else b.

(** The first position from [t] on whose character fails the test; [None]
    when the scan leaves the array. *)
Fixpoint scan (fuel : nat) (test : Z → bool) (buf : list Z) (t : Z) : option Z :=
  match fuel with
  | O => None
  | S fuel =>
      ch ← ld8 buf t;
      if test (schar ch) then scan fuel test buf (t + 1) else Some t
  end.
Definition scan_buf (test : Z → bool) (buf : list Z) (t : Z) : option Z :=
  scan (S (length buf)) test buf t.

(** [fgets (buf, sizeof (buf), f)] on what is left of the file: the line with
    its newline, at most [n] characters. *)
Fixpoint fgets_line (n : nat) (f : list Z) : list Z * list Z :=
  match n, f with
  | O, _ => ([], f)
  | _, [] => ([], [])
  | S n, ch :: f =>
      if ch =? 10 then ([ch], f)
      else let '(line, rest) := fgets_line n f in (ch :: line, rest)
  end.

(** Comment characters are overwritten up to the end of the string. *)
Fixpoint strip_comments (buf : list Z) : list Z :=
  match buf with
  | [] => []
  | ch :: buf =>
      if ch =? 0 then ch :: buf
      else (if (ch =? 35) || (ch =? 59) then 0 else ch) :: strip_comments buf
  end.

(** From [buf + strlen (buf) - 1] downwards, blanks are overwritten with the
    terminator. *)
Fixpoint strip_trailing (n : nat) (buf : list Z) : option (list Z) :=
  match n with
  | O => Some buf
  | S k =>
      ch ← ld8 buf (Z.of_nat k);
      if schar ch <? 33 then buf ← st8 buf (Z.of_nat k) 0; strip_trailing k buf
      else Some buf
  end.

(** The C string at [p] in the array. *)
Definition str_at (buf : list Z) (p : Z) : list Z := cstr (drop (Z.to_nat p) buf).

Definition not_blank (ch : Z) : bool := negb (ch =? 0) && (ch <? 33).

(** The three words of a line, terminated in place; [None] when one of them
    is missing. *)
Definition split_words (buf : list Z) : option (list Z * option (Z * Z * Z)) :=
  u ← scan_buf not_blank buf 0;
  cu ← ld8 buf u;
  if cu =? 0 then Some (buf, None)
  else
    t ← scan_buf (λ ch, 32 <? ch) buf u;
    buf ← st8 buf t 0;
    t ← scan_buf not_blank buf (t + 1);
    ct ← ld8 buf t;
    if ct =? 0 then Some (buf, None)
    else
      s ← scan_buf (λ ch, 33 <? ch) buf t;
      buf ← st8 buf s 0;
      s ← scan_buf not_blank buf (s + 1);
      cs ← ld8 buf s;
      if cs =? 0 then Some (buf, None)
      else Some (buf, Some (u, t, s)).

(** One line: the three words, or [None] for a line that is skipped. *)
Definition parse_secret (buf : list Z) : option (list Z * option (Z * Z * Z)) :=
  let buf := strip_comments buf in
  buf ← strip_trailing (length (cstr buf)) buf;
  if blen (cstr buf) =? 0 then Some (buf, None) else split_words buf.

Definition lower (ch : Z) : Z := if (65 <=? ch) && (ch <=? 90) then ch + 32 else ch.
(** [!strcasecmp (a, b)] *)
Definition casecmp (a b : list Z) : bool := bool_decide (map lower (cstr a) = map lower (cstr b)).
Definition star : list Z := [42].

(** [None]: outside the line buffer; [Some None]: no secret; otherwise the
    string copied to [secret]. *)
Fixpoint secret_loop (fuel : nat) (buf f us them : list Z) (size : Z) : option (option (list Z)) :=
  match fuel with
  | O => Some None
  | S fuel =>
      match f with
      | [] => Some None
      | _ =>
          let '(line, f) := fgets_line (Z.to_nat (STRLEN - 1)) f in
          buf ← stn buf 0 (line ++ [0]);
          r ← parse_secret buf;
          match r with
          | (buf, None) => secret_loop fuel buf f us them size
          | (buf, Some (u, t, s)) =>
              if (casecmp (str_at buf u) us || casecmp (str_at buf u) star) &&
                 (casecmp (str_at buf t) them || casecmp (str_at buf t) star)
              then Some (Some (take (Z.to_nat size) (str_at buf s)))
              else secret_loop fuel buf f us them size
          end
      end
  end.

(** Every line takes at least one byte of the file. *)
Definition get_secret (stack : list Z) (file : option (list Z)) (us them : list Z) (size : Z)
  : option (option (list Z)) :=
  match file with
  | None => Some None
  | Some f => secret_loop (length f) stack f us them size
  end.

(** ** Entropy and challenges *)

(** [get_entropy (buf, count)]: the bytes the source delivers overwrite the
    beginning of the buffer. *)
Definition get_entropy (buf : list Z) (count : Z) : M (list Z) :=
  bs ← ask e_entropy;
  let bs := take (Z.to_nat (Z.min count (blen buf))) bs in
  mret (bs ++ drop (length bs) buf).

Definition mk_challenge (c : list Z) (length : Z) : M (list Z) := get_entropy c length.

(** A digest begun in a cleared context. *)
Definition zero_ctx : MD5Context :=
  {| md_buf := Regs 0 0 0 0; md_bits0 := 0; md_bits1 := 0; md_in := replicate 64 0 |}.
Definition md5 (pieces : list (list Z)) : list Z := md5_digest zero_ctx pieces.

(** The two challenges of a tunnel: theirs to us, and ours to them. *)
Inductive which := Chal_us | Chal_them.
Definition get_chal (k : which) (t : tunnel) : challenge :=
  match k with Chal_us => t_chal_us t | Chal_them => t_chal_them t end.
Definition set_chal (k : which) (ch : challenge) (t : tunnel) : tunnel :=
  match k with Chal_us => { t with t_chal_us := ch } | Chal_them => { t with t_chal_them := ch } end.

(** [len] bytes behind a pointer. *)
Definition ptr_bytes (o : option (list Z)) (len : Z) : option (list Z) :=
  match o with
  | None => if len =? 0 then Some [] else None
  | Some bs => ldn bs 0 len
  end.

Definition nonempty (s : list Z) : bool := negb (blen (cstr s) =? 0).

(** Who we are and who they are, for the secrets file. *)
Definition auth_names (t : tunnel) : M (list Z * list Z) :=
  hostname ← gets w_hostname;
  match t_lns t with
  | Some p =>
      l ← get_lnsp p;
      mret (if nonempty (lns_hostname l) then lns_hostname l else hostname,
            if nonempty (lns_peername l) then lns_peername l else t_hostname t)
  | None =>
      p ← need (t_lac t);
      l ← get_lacp p;
      mret (if nonempty (lac_hostname l) then lac_hostname l else hostname,
            if nonempty (lac_peername l) then lac_peername l else t_hostname t)
  end.

Definition handle_challenge (tp : nat) (k : which) : M Z :=
  t ← get_t tp;
  if bool_decide (t_lns t = None) && bool_decide (t_lac t = None) then mret (-1)
  else
    names ← auth_names t;
    stack ← ask e_stack;
    file ← gets w_secrets;
    r ← need (get_secret stack file names.1 names.2 MAXSTRLEN);
    match r with
    | None => mret (-1)
    | Some secret =>
        let chal := get_chal k t in
        challenge ← need (ptr_bytes (ch_challenge chal) (ch_chal_len chal));
        let response := md5 [[ch_ss chal]; cstr secret; challenge] in
        mod_t tp (set_chal k { chal with ch_secret := secret; ch_response := response;
                                         ch_state := STATE_CHALLENGED });;
        mret 0
    end.

(** ** Choosing an LNS *)

Definition addr_in (addr : Z) (r : iprange) : bool :=
  (ntohl (r_start r) <=? ntohl addr) && (ntohl addr <=? ntohl (r_end r)).

Fixpoint lacs_allow (allow addr : Z) (ipr : list iprange) : Z :=
  match ipr with
  | [] => allow
  | r :: ipr => lacs_allow (if addr_in addr r then r_sense r else allow) addr ipr
  end.

(** The entries in turn, the default last. *)
Fixpoint lns_loop (addr allow : Z) (l : list nat) : M (option nat) :=
  match l with
  | [] =>
      g ← gets w_gconfig;
      deflns ← gets w_deflns;
      mret (if truthy (g_accesscontrol g) then None else deflns)
  | p :: l =>
      e ← get_lnsp p;
      let allow := lacs_allow allow addr (lns_lacs e) in
      if truthy allow then mret (Some p) else lns_loop addr allow l
  end.

Definition get_lns (tp : nat) : M (option nat) :=
  t ← get_t tp;
  lnslist ← gets w_lnslist;
  deflns ← gets w_deflns;
  lns_loop (sin_addr (t_peer t)) 0 (lnslist ++ option_list deflns).

(** ** Hidden attributes *)

Definition HBIT : Z := 0x4000.

(** The bytes of a challenge's random vector. *)
Definition vector_bytes (rx : list Z) (ch : challenge) : option (option (list Z)) :=
  match ch_vector ch with
  | VNull => Some None
  | VPkt off => v ← ldn rx off (ch_vector_len ch); Some (Some v)
  | VHeap bs => v ← ldn bs 0 (ch_vector_len ch); Some (Some v)
  end.

(** Decrypting [n] bytes at [ptr]; [saved] is the ciphertext of the current
    segment. *)
Fixpoint decrypt_loop (n : nat) (secret mem : list Z) (ptr cnt : Z) (digest saved : list Z)
  : option (list Z) :=
  match n with
  | O => Some mem
  | S k =>
      let '(cnt, digest) :=
        if MD_SIG_SIZE <=? cnt then (0, md5 [secret; saved]) else (cnt, digest) in
      saved ← (if cnt =? 0 then
                 let seglen := if Z.of_nat n <? MD_SIG_SIZE then Z.of_nat n else MD_SIG_SIZE in
                 seg ← ldn mem ptr seglen; Some (seg ++ drop (length seg) saved)
               else Some saved);
      ch ← ld8 mem ptr;
      d ← ld8 digest cnt;
      mem ← st8 mem ptr (Z.lxor ch d);
      decrypt_loop k secret mem (ptr + 1) (cnt + 1) digest saved
  end.

(** [decrypt_avp] on the packet memory: result and memory. *)
Definition decrypt_mem (mem : list Z) (p : Z) (ch : challenge) (stack : list Z)
  : option (Z * list Z) :=
  olen16 ← ld16 mem p;
  let olen := Z.land olen16 0x0FFF in
  vec ← vector_bytes mem ch;
  match vec with
  | None => Some (- EINVAL, mem)
  | Some vector =>
      attr ← ld16 mem (p + 4);
      let attr := ntohs attr in
      let digest := md5 [[u8 attr; u8 (attr / 256)]; cstr (ch_secret ch); vector] in
      mem ← decrypt_loop (Z.to_nat (olen - sizeof_avp_hdr)) (cstr (ch_secret ch)) mem
              (p + sizeof_avp_hdr) 0 digest stack;
      olen16 ← ld16 mem p;
      let flags := Z.land (Z.land olen16 0xF000) (Z.lnot HBIT) in
      sub ← ld16 mem (p + 2 + 4);
      let len := ntohs sub + sizeof_avp_hdr in
      if olen - 2 <? len then Some (- EINVAL, mem)
      else
        oattr ← ld16 mem (p + 4);
        mem ← st16 mem (p + 2 + 4) oattr;
        ovendor ← ld16 mem (p + 2);
        mem ← st16 mem (p + 2 + 2) ovendor;
        mem ← st16 mem (p + 2) (Z.lor len flags);
        Some (0, mem)
  end.

Definition decrypt_avp (p : Z) (tp : nat) : M Z :=
  t ← get_t tp;
  rx ← gets w_rx;
  stack ← ask e_stack;
  r ← need (decrypt_mem rx p (t_chal_us t) (take 16 stack));
  upd (λ w, { w with w_rx := r.2 });;
  mret r.1.

(** [for (cnt = 0; cnt < MD_SIG_SIZE; cnt++, ptr++)] over one segment. *)
Fixpoint xor_segment (n : nat) (mem digest : list Z) (ptr cnt : Z) : option (list Z) :=
  match n with
  | O => Some mem
  | S n =>
      ch ← ld8 mem ptr;
      d ← ld8 digest cnt;
      mem ← st8 mem ptr (Z.lxor ch d);
      xor_segment n mem digest (ptr + 1) (cnt + 1)
  end.

Fixpoint encrypt_loop (segments : nat) (secret mem : list Z) (ptr : Z) (digest : list Z)
  : option (list Z) :=
  match segments with
  | O => Some mem
  | S segments =>
      mem ← xor_segment (Z.to_nat MD_SIG_SIZE) mem digest ptr 0;
      previous_segment ← ldn mem ptr MD_SIG_SIZE;
      encrypt_loop segments secret mem (ptr + MD_SIG_SIZE) (md5 [secret; previous_segment])
  end.

Definition hidden_length (len : Z) : Z :=
  u16 ((u64 (len - sizeof_avp_hdr + 1) / 16 + 1) * 16 + sizeof_avp_hdr).

(** The rewriting of the headers in [encrypt_avp]: the attribute number as it
    is stored, and the buffer. *)
Definition encrypt_hdr (buf : buffer) (len : Z) : option (Z * buffer) :=
  let new_hdr := b_len buf - len in
  let old_hdr := b_len buf - len + 2 in
  let length := hidden_length len in
  olength ← buf_ld16 buf old_hdr;
  let flags := Z.land (htons olength) 0xF000 in
  buf ← buf_st16 buf new_hdr (htons (Z.lor (Z.lor length flags) HBIT));
  vendorid ← buf_ld16 buf (old_hdr + 2);
  buf ← buf_st16 buf (new_hdr + 2) vendorid;
  attr ← buf_ld16 buf (old_hdr + 4);
  buf ← buf_st16 buf (new_hdr + 4) attr;
  buf ← buf_st16 buf (old_hdr + 4) (htons (len - sizeof_avp_hdr));
  Some (attr, { buf with b_len := b_len buf - len + length }).

(** [encrypt_avp (buf, len, t)] with [ch] the tunnel's [chal_them]. *)
Definition encrypt_avp (buf : buffer) (len : Z) (ch : challenge) : option buffer :=
  let new_hdr := b_len buf - len in
  let length := hidden_length len in
  h ← encrypt_hdr buf len;
  let '(attr, buf) := h : Z * buffer in
  vector ← (match ch_vector ch with VHeap bs => ldn bs 0 VECTOR_SIZE | _ => None end);
  let secret := cstr (ch_secret ch) in
  let digest := md5 [[u8 attr; u8 (attr / 256)]; secret; vector] in
  mem ← encrypt_loop (Z.to_nat ((length - sizeof_avp_hdr) / MD_SIG_SIZE)) secret (b_mem buf)
          (b_start buf + new_hdr + sizeof_avp_hdr) digest;
  Some { buf with b_mem := mem }.

(** *** Reading a well-formed file *)

Lemma scan_word test w : ∀ fuel pre ch post,
  Forall (λ x, test (schar x) = true) w → test (schar ch) = false → (length w < fuel)%nat →
  scan fuel test (pre ++ w ++ ch :: post) (blen pre) = Some (blen pre + blen w).
Proof.
  induction w as [|x w IH]; intros [|fuel] pre ch post Hw Hch Hf; cbn in Hf; try lia.
  - cbn [scan app]. rewrite ld8_mid. cbn. rewrite Hch. f_equal. rewrite blen_nil. lia.
  - apply Forall_cons in Hw as [Hx Hw]. cbn [scan]. rewrite <-app_comm_cons, ld8_mid. cbn. rewrite Hx.
    replace (blen pre + 1) with (blen (pre ++ [x])) by blen.
    replace (pre ++ x :: w ++ ch :: post) with ((pre ++ [x]) ++ w ++ ch :: post)
      by (by rewrite <-app_assoc).
    rewrite IH by (done || lia). f_equal. blen.
Qed.

Lemma scan_buf_word test pre w ch post :
  Forall (λ x, test (schar x) = true) w → test (schar ch) = false →
  scan_buf test (pre ++ w ++ ch :: post) (blen pre) = Some (blen pre + blen w).
Proof. intros. apply scan_word; [done..|]. rewrite !length_app. cbn. lia. Qed.

Definition word (w : list Z) : Prop :=
  w ≠ [] ∧ Forall (λ ch, 33 < ch < 127 ∧ ch ≠ 35 ∧ ch ≠ 59) w.

Record entry := mkEntry { e_us : list Z; e_them : list Z; e_secret : list Z }.
Definition fmt (e : entry) : list Z := e_us e ++ [32] ++ e_them e ++ [32] ++ e_secret e ++ [10].
Record entry_ok (e : entry) : Prop := {
  en_us : word (e_us e); en_them : word (e_them e); en_secret : word (e_secret e);
  en_len : blen (fmt e) <= STRLEN - 1 }.

Lemma cstr_app w post : Forall (λ ch, ch ≠ 0) w → cstr (w ++ 0 :: post) = w.
Proof.
  induction 1 as [|x w Hx Hw IH]; [done|]. cbn. rewrite (proj2 (Z.eqb_neq x 0)) by done. by rewrite IH.
Qed.

Lemma strip_comments_id w post :
  Forall (λ ch, ch ≠ 0 ∧ ch ≠ 35 ∧ ch ≠ 59) w → strip_comments (w ++ 0 :: post) = w ++ 0 :: post.
Proof.
  induction 1 as [|x w (H0 & H1 & H2) Hw IH]; [done|]. cbn.
  rewrite (proj2 (Z.eqb_neq x 0)), (proj2 (Z.eqb_neq x 35)), (proj2 (Z.eqb_neq x 59)) by done.
  cbn. by rewrite IH.
Qed.

Lemma word_schar ch : 33 < ch < 127 → schar ch = ch.
Proof. intros. unfold schar. by rewrite (proj2 (Z.leb_gt 128 ch)) by lia. Qed.

Lemma word_scan (test : Z → bool) w :
  (∀ ch, 33 < ch < 127 → test ch = true) → word w → Forall (λ x, test (schar x) = true) w.
Proof.
  intros Ht [_ Hw]. eapply Forall_impl; [done|]. intros ch (Hc & _). cbn. rewrite word_schar by done. auto.
Qed.

Lemma word_nonzero w : word w → Forall (λ ch, ch ≠ 0) w.
Proof. intros [_ Hw]. eapply Forall_impl; [done|]. cbn. lia. Qed.

Lemma word_head w : word w → ∃ ch w', w = ch :: w' ∧ 33 < ch < 127.
Proof. intros [Hn Hw]. destruct w as [|ch w']; [done|]. apply Forall_cons in Hw as [(? & _) _]. eauto. Qed.

(** [scan] for the start of a word finds it at once. *)
Lemma scan_start w pre post : word w → scan_buf not_blank (pre ++ w ++ post) (blen pre) = Some (blen pre).
Proof.
  intros (ch & w' & -> & Hc)%word_head.
  pose proof (scan_buf_word not_blank pre [] ch (w' ++ post)) as H. cbn [app] in H.
  rewrite blen_nil, Z.add_0_r in H. apply H; [constructor|].
  rewrite word_schar by done. unfold not_blank. lia.
Qed.

Lemma ld8_word w pre post : word w → ∃ ch, ld8 (pre ++ w ++ post) (blen pre) = Some ch ∧ (ch =? 0) = false.
Proof.
  intros (ch & w' & -> & Hc)%word_head. exists ch. rewrite <-app_comm_cons, ld8_mid. split; [done|lia].
Qed.

(** Blanks after the last word are removed. *)
Lemma strip_trailing_newline w ch post :
  33 < ch < 127 →
  strip_trailing (S (S (length w))) (w ++ ch :: 10 :: post) = Some (w ++ ch :: 0 :: post).
Proof.
  intros Hc. cbn [strip_trailing].
  replace (Z.of_nat (S (length w))) with (blen (w ++ [ch])) by (unfold blen; rewrite length_app; cbn; lia).
  replace (w ++ ch :: 10 :: post) with ((w ++ [ch]) ++ 10 :: post) by (by rewrite <-app_assoc).
  rewrite ld8_mid. cbn [mbind option_bind]. change (schar 10 <? 33) with true. cbv iota.
  rewrite st8_mid. cbn [mbind option_bind]. rewrite <-app_assoc. cbn [app].
  change (Z.of_nat (length w)) with (blen w). rewrite ld8_mid. cbn [mbind option_bind].
  rewrite word_schar by done. by rewrite (proj2 (Z.ltb_ge ch 33)) by lia.
Qed.

(** A word at [pre], ended by a character the scan stops at, which is then
    overwritten: the scan for the next word starts behind it. *)
Lemma next_word (test : Z → bool) pre w c w2 post :
  (∀ ch, 33 < ch < 127 → test ch = true) → test (schar c) = false → word w → word w2 →
  ∃ buf, scan_buf test (pre ++ w ++ c :: w2 ++ post) (blen pre) = Some (blen (pre ++ w)) ∧
    st8 (pre ++ w ++ c :: w2 ++ post) (blen (pre ++ w)) 0 = Some buf ∧
    buf = (pre ++ w ++ [0]) ++ w2 ++ post ∧
    scan_buf not_blank buf (blen (pre ++ w) + 1) = Some (blen (pre ++ w ++ [0])) ∧
    ∃ ch, ld8 buf (blen (pre ++ w ++ [0])) = Some ch ∧ (ch =? 0) = false.
Proof.
  intros Ht Hc Hw Hw2. exists ((pre ++ w ++ [0]) ++ w2 ++ post).
  split; [rewrite scan_buf_word; [f_equal; blen|by apply word_scan|done]|].
  split; [rewrite app_assoc, st8_mid; f_equal; change (u8 0) with 0; napp|].
  split; [done|].
  split; [|by apply ld8_word].
  replace (blen (pre ++ w) + 1) with (blen (pre ++ w ++ [0])) by blen. by apply scan_start.
Qed.

Lemma split_words_spec wu wt ws post :
  word wu → word wt → word ws →
  split_words (wu ++ 32 :: wt ++ 32 :: ws ++ 0 :: post)
  = Some (wu ++ 0 :: wt ++ 0 :: ws ++ 0 :: post,
      Some (0, blen (wu ++ [0]), blen (wu ++ 0 :: wt ++ [0]))).
Proof.
  intros Hu Ht Hs. unfold split_words.
  destruct (ld8_word wu [] (32 :: wt ++ 32 :: ws ++ 0 :: post) Hu) as (cu & E1 & E2).
  pose proof (scan_start wu [] (32 :: wt ++ 32 :: ws ++ 0 :: post) Hu) as E3.
  cbn [app] in E1, E3. change (blen []) with 0 in E1, E3.
  rewrite E3. cbn [mbind option_bind]. rewrite E1. cbn [mbind option_bind]. rewrite E2.
  destruct (next_word (λ ch, 32 <? ch) [] wu 32 wt (32 :: ws ++ 0 :: post))
    as (b1 & F1 & F2 & -> & F4 & ch & F5 & F6); [intros; lia|done..|].
  cbn [app] in F1, F2, F4, F5. change (blen []) with 0 in F1.
  rewrite F1. cbn [mbind option_bind]. rewrite F2. cbn [mbind option_bind].
  rewrite F4. cbn [mbind option_bind]. rewrite F5. cbn [mbind option_bind]. rewrite F6.
  destruct (next_word (λ ch, 33 <? ch) (wu ++ [0]) wt 32 ws (0 :: post))
    as (b2 & G1 & G2 & -> & G4 & ch2 & G5 & G6); [intros; lia|done..|].
  rewrite G1. cbn [mbind option_bind]. rewrite G2. cbn [mbind option_bind].
  rewrite G4. cbn [mbind option_bind]. rewrite G5. cbn [mbind option_bind]. rewrite G6.
  napp.
Qed.

(** The three strings the words of a split line are. *)
Lemma split_strings wu wt ws post :
  word wu → word wt → word ws →
  let buf := wu ++ 0 :: wt ++ 0 :: ws ++ 0 :: post in
  str_at buf 0 = wu ∧ str_at buf (blen (wu ++ [0])) = wt ∧
  str_at buf (blen (wu ++ 0 :: wt ++ [0])) = ws.
Proof.
  intros Hu Ht Hs. cbn zeta. unfold str_at, blen. rewrite !Nat2Z.id.
  split; [by apply cstr_app, word_nonzero|]. split.
  - replace (wu ++ 0 :: wt ++ 0 :: ws ++ 0 :: post)
      with ((wu ++ [0]) ++ wt ++ 0 :: ws ++ 0 :: post) by napp.
    rewrite drop_app_length. by apply cstr_app, word_nonzero.
  - replace (wu ++ 0 :: wt ++ 0 :: ws ++ 0 :: post)
      with ((wu ++ 0 :: wt ++ [0]) ++ ws ++ 0 :: post) by napp.
    rewrite drop_app_length. by apply cstr_app, word_nonzero.
Qed.

Lemma fmt_chars e : entry_ok e → Forall (λ ch, ch ≠ 0 ∧ ch ≠ 35 ∧ ch ≠ 59) (fmt e).
Proof.
  intros [Hu Ht Hs _]. assert (∀ w, word w → Forall (λ ch, ch ≠ 0 ∧ ch ≠ 35 ∧ ch ≠ 59) w) as Hw
    by (intros w [_ Hw]; eapply Forall_impl; [done|]; cbn; lia).
  unfold fmt. rewrite !Forall_app, !Forall_singleton. split_and!; auto; lia.
Qed.

Lemma parse_entry e post :
  entry_ok e →
  let buf := e_us e ++ 0 :: e_them e ++ 0 :: e_secret e ++ 0 :: 0 :: post in
  parse_secret (fmt e ++ 0 :: post)
  = Some (buf, Some (0, blen (e_us e ++ [0]), blen (e_us e ++ 0 :: e_them e ++ [0]))).
Proof.
  intros He buf. unfold parse_secret. rewrite strip_comments_id by (by apply fmt_chars).
  rewrite cstr_app by (eapply Forall_impl; [by apply fmt_chars|]; cbn; tauto).
  destruct He as [Hu Ht Hs _]. destruct e as [wu wt ws]. cbn [e_us e_them e_secret] in *.
  unfold fmt. cbn [e_us e_them e_secret app].
  destruct (exists_last (proj1 Hs)) as (ws' & cs & Hws).
  assert (33 < cs < 127) as Hcs.
  { destruct Hs as [_ Hs]. rewrite Hws in Hs. apply Forall_app in Hs as [_ Hs].
    by apply Forall_cons in Hs as [(? & _) _]. }
  set (pre := wu ++ 32 :: wt ++ 32 :: ws').
  assert (wu ++ 32 :: wt ++ 32 :: ws ++ [10] = pre ++ [cs; 10]) as ->
    by (unfold pre; rewrite Hws; napp).
  replace ((pre ++ [cs; 10]) ++ 0 :: post) with (pre ++ cs :: 10 :: 0 :: post) by napp.
  replace (length (pre ++ [cs; 10])) with (S (S (length pre))) by (rewrite length_app; cbn; lia).
  rewrite strip_trailing_newline by done. cbn [mbind option_bind].
  replace (pre ++ cs :: 0 :: 0 :: post) with (wu ++ 32 :: wt ++ 32 :: ws ++ 0 :: 0 :: post)
    by (unfold pre; rewrite Hws; napp).
  rewrite split_words_spec by done.
  destruct (word_head wu Hu) as (ch & w' & -> & Hc). cbn [app cstr].
  rewrite (proj2 (Z.eqb_neq ch 0)) by lia. rewrite blen_cons.
  rewrite (proj2 (Z.eqb_neq _ 0)); [done|].
  pose proof (blen_nonneg (cstr (w' ++ 32 :: wt ++ 32 :: ws ++ 0 :: 0 :: post))). lia.
Qed.

Definition entry_matches (us them : list Z) (e : entry) : bool :=
  (casecmp (e_us e) us || casecmp (e_us e) star) && (casecmp (e_them e) them || casecmp (e_them e) star).

Fixpoint first_match (us them : list Z) (l : list entry) : option (list Z) :=
  match l with
  | [] => None
  | e :: l => if entry_matches us them e then Some (e_secret e) else first_match us them l
  end.

Lemma fgets_line_app n w rest :
  Forall (λ ch, ch ≠ 10) w → (length w < n)%nat →
  fgets_line n (w ++ 10 :: rest) = (w ++ [10], rest).
Proof.
  intros Hw. revert n. induction Hw as [|x w Hx Hw IH]; intros [|n] Hn; cbn in *; try lia; [done|].
  rewrite (proj2 (Z.eqb_neq x 10)), IH by (done || lia). done.
Qed.

Lemma fgets_fmt e rest : entry_ok e → fgets_line (Z.to_nat (STRLEN - 1)) (fmt e ++ rest) = (fmt e, rest).
Proof.
  intros [Hu Ht Hs Hl]. assert (∀ w, word w → Forall (λ ch, ch ≠ 10) w) as Hw
    by (intros w [_ Hw]; eapply Forall_impl; [done|]; cbn; lia).
  set (body := e_us e ++ [32] ++ e_them e ++ [32] ++ e_secret e).
  assert (fmt e = body ++ [10]) as Hf by (unfold fmt, body; napp).
  rewrite Hf. rewrite <-app_assoc. apply fgets_line_app.
  - unfold body. rewrite !Forall_app, !Forall_singleton. split_and!; auto; lia.
  - rewrite Hf in Hl. unfold blen, STRLEN in *. rewrite length_app in Hl. cbn in Hl. lia.
Qed.

Lemma fmt_nonempty e : (1 <= length (fmt e))%nat.
Proof. unfold fmt. rewrite !length_app. cbn. lia. Qed.

(** A line and its terminator stored at the start of the array. *)
Lemma store_line buf line :
  blen line < blen buf → ∃ post, stn buf 0 (line ++ [0]) = Some (line ++ 0 :: post) ∧
    blen (line ++ 0 :: post) = blen buf.
Proof.
  intros Hl. destruct (stn_ok buf 0 (line ++ [0])) as [m E]; [done|blen|].
  pose proof (stn_length _ _ _ _ E) as Hm. rewrite E. apply stn_Some in E as (_ & _ & ->).
  cbn [Z.to_nat take app] in *. rewrite <-app_assoc in *. eauto.
Qed.

Lemma secret_loop_spec entries : ∀ fuel buf us them,
  Forall entry_ok entries → blen buf = STRLEN →
  (length (concat (map fmt entries)) <= fuel)%nat →
  secret_loop fuel buf (concat (map fmt entries)) us them MAXSTRLEN
  = Some (first_match us them entries).
Proof.
  induction entries as [|e l IH]; intros fuel buf us them Hok Hb Hf.
  - by destruct fuel.
  - apply Forall_cons in Hok as [He Hok]. pose proof (fmt_nonempty e) as Hne. cbn [map concat] in *.
    rewrite length_app in Hf. destruct fuel as [|fuel]; [lia|]. cbn [secret_loop].
    destruct (fmt e ++ concat (map fmt l)) as [|x f] eqn:Ef.
    { apply (f_equal length) in Ef. rewrite length_app in Ef. cbn in Ef. lia. }
    rewrite <-Ef, fgets_fmt by done. pose proof (en_len _ He) as Hlen.
    destruct (store_line buf (fmt e)) as (post & -> & Hpost); [rewrite Hb; lia|]. cbn [mbind option_bind].
    rewrite parse_entry by done. cbn [mbind option_bind].
    destruct (split_strings (e_us e) (e_them e) (e_secret e) (0 :: post)) as (-> & -> & ->);
      [apply He..|].
    cbn [first_match]. unfold entry_matches. destruct (_ && _).
    + do 2 f_equal. apply take_ge. unfold fmt in Hlen. unfold blen, STRLEN, MAXSTRLEN in *.
      rewrite !length_app in Hlen. lia.
    + apply IH; [done| |lia]. rewrite <-Hb, <-Hpost. unfold fmt. unfold blen. f_equal.
      rewrite !length_app. cbn. rewrite !length_app. cbn. rewrite !length_app. cbn. lia.
Qed.

(** *** Hiding as RFC 2661 section 4.3 defines it *)

Definition xorl (a b : list Z) : list Z := zip_with Z.lxor a b.

(** The chained key stream over a subformat: each segment of 16 bytes is
    masked with the digest of the secret and the segment before it. *)
Fixpoint rfc_hide (fuel : nat) (secret d p : list Z) : list Z :=
  match fuel, p with
  | O, _ | _, [] => []
  | S fuel, _ =>
      let c := xorl (take 16 p) d in
      c ++ rfc_hide fuel secret (md5 [secret; c]) (drop 16 p)
  end.
Fixpoint rfc_unhide (fuel : nat) (secret d c : list Z) : list Z :=
  match fuel, c with
  | O, _ | _, [] => []
  | S fuel, _ =>
      xorl (take 16 c) d ++ rfc_unhide fuel secret (md5 [secret; take 16 c]) (drop 16 c)
  end.

Lemma md5_length pieces : length (md5 pieces) = 16%nat.
Proof. apply MD5Final_length. Qed.
Lemma md5_is_bytes pieces : is_bytes (md5 pieces).
Proof. apply MD5Final_is_bytes. Qed.

Lemma xorl_length a d : (length a <= length d)%nat → length (xorl a d) = length a.
Proof. intros. unfold xorl. rewrite length_zip_with. lia. Qed.

Lemma xorl_involutive a : ∀ d, (length a <= length d)%nat → xorl (xorl a d) d = a.
Proof.
  induction a as [|x a IH]; intros [|y d] Hl; cbn in *; try done; [lia|].
  rewrite IH by lia. by rewrite Z.lxor_assoc, Z.lxor_nilpotent, Z.lxor_0_r.
Qed.

Lemma rfc_hide_length fuel : ∀ secret d p,
  length d = 16%nat → (length p <= 16 * fuel)%nat → length (rfc_hide fuel secret d p) = length p.
Proof.
  induction fuel as [|fuel IH]; intros secret d p Hd Hp; [cbn; lia|].
  destruct p as [|x p']; [done|]. set (p := x :: p') in *. change (rfc_hide (S fuel) secret d p)
    with (xorl (take 16 p) d ++ rfc_hide fuel secret (md5 [secret; xorl (take 16 p) d]) (drop 16 p)).
  rewrite length_app, IH, xorl_length; rewrite ?length_take, ?length_drop; auto using md5_length; lia.
Qed.

Lemma rfc_unhide_hide fuel : ∀ secret d p,
  length d = 16%nat → (length p <= 16 * fuel)%nat →
  rfc_unhide fuel secret d (rfc_hide fuel secret d p) = p.
Proof.
  induction fuel as [|fuel IH]; intros secret d p Hd Hp.
  { destruct p; [done|cbn in Hp; lia]. }
  destruct p as [|x p']; [done|]. set (p := x :: p') in *. change (rfc_hide (S fuel) secret d p)
    with (xorl (take 16 p) d ++ rfc_hide fuel secret (md5 [secret; xorl (take 16 p) d]) (drop 16 p)).
  set (c := xorl (take 16 p) d).
  assert (length c = length (take 16 p)) as Hc by (apply xorl_length; rewrite length_take; lia).
  assert (length c = 16%nat ∨ drop 16 p = []) as Hcase.
  { rewrite Hc, length_take. destruct (Nat.le_gt_cases 16 (length p)); [left; lia|right].
    apply drop_ge. lia. }
  assert (rfc_hide fuel secret (md5 [secret; c]) [] = []) as Hnil by (by destruct fuel).
  assert (take 16 (c ++ rfc_hide fuel secret (md5 [secret; c]) (drop 16 p)) = c ∧
          drop 16 (c ++ rfc_hide fuel secret (md5 [secret; c]) (drop 16 p))
          = rfc_hide fuel secret (md5 [secret; c]) (drop 16 p)) as [Ht Hdr].
  { destruct Hcase as [H16|Hz].
    - rewrite <-H16. by rewrite take_app_length, drop_app_length.
    - rewrite Hz, Hnil, app_nil_r. rewrite length_take in Hc. split; [apply take_ge|apply drop_ge]; lia. }
  destruct (c ++ _) as [|y r] eqn:E.
  { apply (f_equal length) in E. rewrite length_app, Hc in E. cbn in E. lia. }
  cbn [rfc_unhide]. rewrite Ht, Hdr. unfold c at 1. rewrite xorl_involutive by (rewrite length_take; lia).
  rewrite IH; [apply take_drop|apply md5_length|rewrite length_drop; lia].
Qed.

(** *** The loops against the specification *)

Lemma lxor_u8 x y : is_u8 x → is_u8 y → u8 (Z.lxor x y) = Z.lxor x y.
Proof. intros. apply u8_id. apply (lxor_bound 8); [lia|done..]. Qed.

Lemma xorl_is_bytes a d : is_bytes a → is_bytes d → is_bytes (xorl a d).
Proof.
  intros Ha. revert d. induction Ha as [|x a Hx Ha IH]; intros d Hd; [constructor|].
  destruct Hd as [|y d Hy Hd]; [constructor|]. cbn. constructor; [|by apply IH].
  by apply (lxor_bound 8).
Qed.

Lemma xorl_app a b d : xorl (a ++ b) d = xorl a d ++ xorl b (drop (length a) d).
Proof. revert d. induction a as [|x a IH]; intros [|y d]; cbn; try done; [by destruct b|]. f_equal. apply IH. Qed.

(** One byte of a segment. *)
Lemma xor_byte pre x post d1 y d2 :
  is_u8 x → is_u8 y →
  (ch ← ld8 (pre ++ x :: post) (blen pre); d ← ld8 (d1 ++ y :: d2) (blen d1);
   st8 (pre ++ x :: post) (blen pre) (Z.lxor ch d)) = Some (pre ++ Z.lxor x y :: post).
Proof. intros. rewrite !ld8_mid. cbn [mbind option_bind]. by rewrite st8_mid, lxor_u8. Qed.

(** The rest of a segment, [i] bytes of the digest being used. *)
Lemma decrypt_in_segment w : ∀ m key pre post d1 d2 saved,
  is_bytes w → is_bytes d2 → d1 ≠ [] → (length d1 + length w <= 16)%nat → length (d1 ++ d2) = 16%nat →
  decrypt_loop (length w + m) key (pre ++ w ++ post) (blen pre) (blen d1) (d1 ++ d2) saved
  = decrypt_loop m key (pre ++ xorl w d2 ++ post) (blen pre + blen w) (blen d1 + blen w) (d1 ++ d2) saved.
Proof.
  induction w as [|x w IH]; intros m key pre post d1 d2 saved Hw Hd Hn Hl Hd16.
  - cbn [length Nat.add app xorl zip_with]. by rewrite blen_nil, !Z.add_0_r.
  - apply Forall_cons in Hw as [Hx Hw]. rewrite length_app in Hd16. cbn [length] in Hl.
    destruct d2 as [|y d2]; [cbn in Hd16; lia|]. apply Forall_cons in Hd as [Hy Hd]. cbn [length Nat.add decrypt_loop].
    assert (1 <= blen d1 < 16) as Hb
      by (unfold blen; destruct d1; [done|cbn [length] in *; lia]).
    rewrite (proj2 (Z.leb_gt MD_SIG_SIZE _)) by (unfold MD_SIG_SIZE; lia).
    rewrite (proj2 (Z.eqb_neq _ 0)) by lia. cbn [mbind option_bind]. rewrite <-app_comm_cons.
    pose proof (xor_byte pre x (w ++ post) d1 y d2 Hx Hy) as E.
    rewrite !ld8_mid in *. cbn [mbind option_bind] in *. rewrite E. cbn [mbind option_bind].
    replace (blen pre + 1) with (blen (pre ++ [Z.lxor x y])) by blen.
    replace (blen d1 + 1) with (blen (d1 ++ [y])) by blen.
    replace (pre ++ Z.lxor x y :: w ++ post) with ((pre ++ [Z.lxor x y]) ++ w ++ post) by napp.
    replace (d1 ++ y :: d2) with ((d1 ++ [y]) ++ d2) by napp.
    rewrite IH; [|done|done|by destruct d1|rewrite length_app; cbn; lia|
      rewrite !length_app; cbn in *; lia].
    f_equal; [|blen..]. cbn [xorl zip_with]. napp.
Qed.

Lemma decrypt_next_segment n key mem ptr d saved :
  decrypt_loop (S n) key mem ptr 16 d saved
  = decrypt_loop (S n) key mem ptr 0 (md5 [key; saved]) saved.
Proof. reflexivity. Qed.

(** A whole segment from its beginning. *)
Lemma decrypt_segment seg m key pre post d saved :
  is_bytes seg → seg ≠ [] → (length seg <= 16)%nat → (m = 0 ∨ length seg = 16)%nat →
  is_bytes d → length d = 16%nat → length saved = 16%nat →
  ∃ saved', length saved' = 16%nat ∧ (length seg = 16%nat → saved' = seg) ∧
    decrypt_loop (length seg + m) key (pre ++ seg ++ post) (blen pre) 0 d saved
    = decrypt_loop m key (pre ++ xorl seg d ++ post) (blen pre + blen seg) (blen seg) d saved'.
Proof.
  intros Hs Hn Hl Hm Hd Hd16 Hs16. exists (seg ++ drop (length seg) saved).
  split; [rewrite length_app, length_drop; lia|].
  split; [intros E; rewrite drop_ge by lia; apply app_nil_r|].
  destruct Hs as [|x seg Hx Hs]; [done|]. destruct Hd as [|y d Hy Hd]; [done|].
  set (sv := (x :: seg) ++ drop (length (x :: seg)) saved).
  cbn [length Nat.add decrypt_loop]. change (MD_SIG_SIZE <=? 0) with false. cbv iota.
  change (0 =? 0) with true. cbv iota.
  assert ((if Z.of_nat (S (length seg + m)) <? MD_SIG_SIZE then Z.of_nat (S (length seg + m)) else MD_SIG_SIZE)
    = blen (x :: seg)) as ->.
  { unfold blen, MD_SIG_SIZE. cbn [length] in *. destruct (Z.ltb_spec (Z.of_nat (S (length seg + m))) 16); lia. }
  rewrite ldn_app_mid. cbn [mbind option_bind]. fold sv. rewrite <-app_comm_cons.
  pose proof (xor_byte pre x (seg ++ post) [] y d Hx Hy) as E. change (blen []) with 0 in E.
  cbn [app] in E. rewrite !ld8_mid in *. cbn [mbind option_bind] in *.
  assert (ld8 (y :: d) 0 = Some y) as Ey by (apply (ld8_mid [])).
  rewrite Ey in *. cbn [mbind option_bind] in *. rewrite E.
  cbn [mbind option_bind]. replace (blen pre + 1) with (blen (pre ++ [Z.lxor x y])) by blen.
  replace (pre ++ Z.lxor x y :: seg ++ post) with ((pre ++ [Z.lxor x y]) ++ seg ++ post) by napp.
  change (0 + 1) with (blen [y]). change (y :: d) with ([y] ++ d).
  rewrite decrypt_in_segment; [|done..|cbn [length] in *; lia|done].
  f_equal; [|blen..]. cbn [xorl zip_with]. napp.
Qed.

Lemma decrypt_loop_spec fuel : ∀ c key pre post d saved,
  is_bytes c → (length c <= 16 * fuel)%nat → is_bytes d → length d = 16%nat → length saved = 16%nat →
  decrypt_loop (length c) key (pre ++ c ++ post) (blen pre) 0 d saved
  = Some (pre ++ rfc_unhide fuel key d c ++ post).
Proof.
  induction fuel as [|fuel IH]; intros c key pre post d saved Hc Hl Hd Hd16 Hs16.
  { destruct c; [done|cbn in Hl; lia]. }
  destruct (decide (c = [])) as [->|Hne]; [done|].
  assert (rfc_unhide (S fuel) key d c
    = xorl (take 16 c) d ++ rfc_unhide fuel key (md5 [key; take 16 c]) (drop 16 c)) as ->
    by (by destruct c).
  set (seg := take 16 c). set (rest := drop 16 c).
  assert (c = seg ++ rest) as Ec by (unfold seg, rest; by rewrite take_drop).
  assert (length seg = 16%nat ∨ rest = []) as Hcase.
  { unfold seg, rest. rewrite length_take.
    destruct (Nat.le_gt_cases 16 (length c)); [left; lia|right; apply drop_ge; lia]. }
  assert (length (rest) <= 16 * fuel)%nat as Hrl by (unfold rest; rewrite length_drop; lia).
  apply (f_equal length) in Ec as Elen. rewrite length_app in Elen. rewrite Elen, Ec, <-app_assoc.
  destruct (decrypt_segment seg (length rest) key pre (rest ++ post) d saved)
    as (sv & Hsv & Hfull & ->); try done.
  - unfold seg. by apply is_bytes_take.
  - unfold seg. intros Ht%(f_equal length). rewrite length_take in Ht. destruct c; [done|].
    cbn [length] in Ht. lia.
  - unfold seg. rewrite length_take. lia.
  - destruct Hcase as [|Hr]; [by right|left; by rewrite Hr].
  - destruct (decide (rest = [])) as [Hr|Hr].
    { rewrite Hr. cbn [length decrypt_loop app]. assert (∀ d', rfc_unhide fuel key d' [] = []) as ->
        by (by destruct fuel). by rewrite app_nil_r. }
    destruct Hcase as [H16|]; [|done]. specialize (Hfull H16). subst sv.
    replace (blen seg) with 16 at 2 by (unfold blen; lia).
    destruct (length rest) as [|k] eqn:Ek; [by destruct rest|]. rewrite decrypt_next_segment, <-Ek.
    replace (blen pre + blen seg) with (blen (pre ++ xorl seg d))
      by (rewrite blen_app; f_equal; unfold blen; rewrite xorl_length; lia).
    rewrite app_assoc, IH; try done; [f_equal; napp|..].
    + unfold rest. by apply is_bytes_drop.
    + by rewrite Ek.
    + apply md5_is_bytes.
    + apply md5_length.
Qed.

(** *** Unhiding *)

Definition mflag (m : bool) : Z := if m then 0x8000 else 0.

(** The subformat of a value: its length, the value and any padding. *)
Definition subformat (value pad : list Z) : list Z := be16 (blen value) ++ value ++ pad.
Definition hide_key (attr : Z) (secret rv : list Z) : list Z := md5 [be16 attr; secret; rv].
Definition hidden (attr : Z) (secret rv sub : list Z) : list Z :=
  rfc_hide (length sub) secret (hide_key attr secret rv) sub.

(** The header of a hidden attribute as [handle_avps] leaves it: three words
    in host order. *)
Definition hidden_word (m : bool) (n : Z) : Z := Z.lor (Z.lor n (mflag m)) HBIT.

Lemma testbit_small n i : 0 <= n < 1024 → 10 <= i → Z.testbit n i = false.
Proof. intros Hn Hi. apply (Z_bounded_by_bits 10 n) in Hn as [_ H]; [|lia]. by apply H. Qed.

Lemma mflag_low m i : i < 12 → Z.testbit (mflag m) i = false ∧ Z.testbit HBIT i = false.
Proof.
  intros Hi. destruct (Z.lt_ge_cases i 0); [by rewrite !Z.testbit_neg_r|].
  assert (i = 0 ∨ i = 1 ∨ i = 2 ∨ i = 3 ∨ i = 4 ∨ i = 5 ∨ i = 6 ∨ i = 7 ∨ i = 8 ∨ i = 9 ∨ i = 10 ∨ i = 11)
    as Hc by lia.
  repeat destruct Hc as [->|Hc]; try (by destruct m). subst. by destruct m.
Qed.

Lemma hidden_word_length m n : 0 <= n < 1024 → Z.land (hidden_word m n) 0x0FFF = n.
Proof.
  intros Hn. apply Z.bits_inj'. intros i Hi. unfold hidden_word.
  rewrite Z.land_spec, !Z.lor_spec. destruct (Z.lt_ge_cases i 12).
  - destruct (mflag_low m i) as [-> ->]; [done|].
    assert (Z.testbit 0xFFF i = true) as -> by (by apply (Z.ones_spec_low 12)).
    by rewrite !orb_false_r, andb_true_r.
  - change 0xFFF with (Z.ones 12). rewrite Z.ones_spec_high by lia. rewrite andb_false_r.
    rewrite testbit_small by (done || lia). done.
Qed.

Lemma hidden_word_flags m n :
  0 <= n < 1024 → Z.land (Z.land (hidden_word m n) 0xF000) (Z.lnot HBIT) = mflag m.
Proof.
  intros Hn. apply Z.bits_inj'. intros i Hi. unfold hidden_word.
  rewrite !Z.land_spec, !Z.lor_spec, Z.lnot_spec by done. destruct (Z.lt_ge_cases i 12).
  - destruct (mflag_low m i) as [-> ->]; [done|].
    assert (Z.testbit 0xF000 i = false) as ->; [|by rewrite andb_false_r].
    change 0xF000 with (Z.shiftl 0xF 12). apply Z.shiftl_spec_low. lia.
  - rewrite testbit_small by (done || lia). rewrite orb_false_l.
    destruct (Z.lt_ge_cases i 16).
    + assert (i = 12 ∨ i = 13 ∨ i = 14 ∨ i = 15) as Hc by lia.
      repeat destruct Hc as [->|Hc]; try (by destruct m). subst. by destruct m.
    + assert (Z.testbit 0xF000 i = false) as -> by (apply Z.bits_above_log2; [lia|]; change (Z.log2 0xF000) with 15; lia).
      rewrite andb_false_r. cbn. destruct m; [|by rewrite Z.bits_0].
      symmetry. apply Z.bits_above_log2; [done|]. change (Z.log2 (mflag true)) with 15. lia.
Qed.

Lemma hidden_word_u16 m n : 0 <= n < 1024 → is_u16 (hidden_word m n).
Proof.
  intros. unfold is_u16. apply (lor_bound 16); [lia| |by destruct m].
  apply (lor_bound 16); [lia|lia|by destruct m].
Qed.

Lemma rfc_hide_is_bytes fuel : ∀ secret d p, is_bytes d → is_bytes p → is_bytes (rfc_hide fuel secret d p).
Proof.
  induction fuel as [|fuel IH]; intros secret d p Hd Hp; [constructor|].
  destruct p as [|x p']; [constructor|]. apply is_bytes_app.
  split; [apply xorl_is_bytes; [by apply is_bytes_take|done]|].
  apply IH; [apply md5_is_bytes|by apply is_bytes_drop].
Qed.

(** The header is moved two bytes up. *)
Lemma move_hdr pre w vendor attr l2 rest v :
  is_u16 vendor → is_u16 attr → length l2 = 2%nat →
  (let mem := pre ++ le16 w ++ le16 vendor ++ le16 attr ++ l2 ++ rest in
   let p := blen pre in
   oattr ← ld16 mem (p + 4);
   mem ← st16 mem (p + 2 + 4) oattr;
   ovendor ← ld16 mem (p + 2);
   mem ← st16 mem (p + 2 + 2) ovendor;
   mem ← st16 mem (p + 2) v;
   Some (0, mem))
  = Some (0, pre ++ le16 w ++ le16 v ++ le16 vendor ++ le16 attr ++ rest).
Proof.
  intros Hven Hat Hl2. cbn zeta.
  rewrite (ld16_at _ (pre ++ le16 w ++ le16 vendor) attr (l2 ++ rest)); [|napp|blen|done].
  cbn [mbind option_bind].
  rewrite (st16_at _ (pre ++ le16 w ++ le16 vendor ++ le16 attr) l2 rest); [|napp|blen|done].
  cbn [mbind option_bind].
  rewrite (ld16_at _ (pre ++ le16 w) vendor (le16 attr ++ le16 attr ++ rest)); [|napp|blen|done].
  cbn [mbind option_bind].
  rewrite (st16_at _ (pre ++ le16 w ++ le16 vendor) (le16 attr) (le16 attr ++ rest)); [|napp|blen|done].
  cbn [mbind option_bind].
  rewrite (st16_at _ (pre ++ le16 w) (le16 vendor) (le16 vendor ++ le16 attr ++ rest)); [|napp|blen|done].
  cbn [mbind option_bind]. napp.
Qed.

(** [decrypt_mem] on an attribute hidden as in the RFC. *)
Lemma decrypt_mem_spec pre m vendor attr value pad post ch stack rv :
  let secret := cstr (ch_secret ch) in
  let sub := subformat value pad in
  let olen := sizeof_avp_hdr + blen sub in
  let w := hidden_word m olen in
  let mem := pre ++ le16 w ++ le16 vendor ++ le16 attr ++ hidden attr secret rv sub ++ post in
  is_bytes value → is_bytes pad → olen < 1024 → is_u16 vendor → is_u16 attr →
  length stack = 16%nat → vector_bytes mem ch = Some (Some rv) →
  decrypt_mem mem (blen pre) ch stack
  = Some (0, pre ++ le16 w ++
      le16 (Z.lor (blen value + sizeof_avp_hdr) (mflag m)) ++ le16 vendor ++ le16 attr ++
      value ++ pad ++ post).
Proof.
  intros secret sub olen w mem Hv Hp Hol Hven Hat Hst Hvec.
  assert (blen sub = 2 + blen value + blen pad) as Hsub by (unfold sub, subformat; blen).
  pose proof (blen_nonneg value). pose proof (blen_nonneg pad). unfold sizeof_avp_hdr in *.
  assert (is_u16 w) as Hw by (apply hidden_word_u16; lia).
  assert (is_bytes sub) as Hsb by (unfold sub, subformat; rewrite !is_bytes_app; auto with l2tp).
  set (c := hidden attr secret rv sub) in *.
  assert (length c = length sub) as Hcl by (apply rfc_hide_length; [apply md5_length|lia]).
  set (hdr := pre ++ le16 w ++ le16 vendor ++ le16 attr).
  assert (mem = hdr ++ c ++ post) as Hmem by (unfold mem, hdr; napp).
  unfold decrypt_mem, sizeof_avp_hdr. rewrite (ld16_at mem pre w (le16 vendor ++ le16 attr ++ c ++ post) (blen pre)) by done.
  cbn [mbind option_bind]. rewrite Hvec. cbn [mbind option_bind].
  rewrite (ld16_at mem (pre ++ le16 w ++ le16 vendor) attr (c ++ post) (blen pre + 4)); [|unfold mem; napp|blen|done].
  cbn [mbind option_bind]. rewrite le16_ntohs.
  assert (Z.land w 0x0FFF = olen) as Hwl by (apply hidden_word_length; lia). rewrite !Hwl.
  replace (Z.to_nat (olen - 6)) with (length c) by (unfold olen, blen; lia).
  replace (blen pre + 6) with (blen hdr) by (unfold hdr; blen). rewrite Hmem.
  fold secret. fold (hide_key attr secret rv).
  rewrite (decrypt_loop_spec (length sub)); [|by apply rfc_hide_is_bytes; [apply md5_is_bytes|]|lia|
    apply md5_is_bytes|apply md5_length|done].
  unfold c, hidden. rewrite rfc_unhide_hide; [|apply md5_length|lia]. cbn [mbind option_bind].
  rewrite (ld16_at _ pre w (le16 vendor ++ le16 attr ++ sub ++ post) (blen pre)); [|unfold hdr; napp|done..].
  cbn [mbind option_bind].
  assert (Z.land (Z.land w 0xF000) (Z.lnot HBIT) = mflag m) as -> by (apply hidden_word_flags; lia).
  assert (ld16 (hdr ++ sub ++ post) (blen pre + 2 + 4) = Some (htons (blen value))) as ->.
  { replace (blen pre + 2 + 4) with (blen hdr) by (unfold hdr; blen). unfold sub, subformat.
    rewrite <-!app_assoc. apply ld16_be. unfold is_u16. lia. }
  cbn [mbind option_bind]. rewrite htons_ntohs by (unfold is_u16; lia).
  rewrite (proj2 (Z.ltb_ge _ _)) by (unfold olen; lia).
  replace (hdr ++ sub ++ post)
    with (pre ++ le16 w ++ le16 vendor ++ le16 attr ++ be16 (blen value) ++ (value ++ pad ++ post))
    by (unfold hdr, sub, subformat; napp).
  by apply move_hdr.
Qed.

(** *** Hiding *)

Lemma xor_segment_spec w : ∀ pre post d1 d2,
  is_bytes w → is_bytes d2 → (length w <= length d2)%nat →
  xor_segment (length w) (pre ++ w ++ post) (d1 ++ d2) (blen pre) (blen d1)
  = Some (pre ++ xorl w d2 ++ post).
Proof.
  induction w as [|x w IH]; intros pre post d1 d2 Hw Hd Hl; [done|].
  destruct d2 as [|y d2]; [cbn in Hl; lia|].
  apply Forall_cons in Hw as [Hx Hw]. apply Forall_cons in Hd as [Hy Hd].
  cbn [length xor_segment]. rewrite <-app_comm_cons.
  pose proof (xor_byte pre x (w ++ post) d1 y d2 Hx Hy) as E.
  rewrite !ld8_mid in *. cbn [mbind option_bind] in *. rewrite E. cbn [mbind option_bind].
  replace (blen pre + 1) with (blen (pre ++ [Z.lxor x y])) by blen.
  replace (blen d1 + 1) with (blen (d1 ++ [y])) by blen.
  replace (pre ++ Z.lxor x y :: w ++ post) with ((pre ++ [Z.lxor x y]) ++ w ++ post) by napp.
  replace (d1 ++ y :: d2) with ((d1 ++ [y]) ++ d2) by napp.
  rewrite IH by (done || cbn in Hl; lia). f_equal. cbn [xorl zip_with]. napp.
Qed.

Lemma encrypt_loop_spec k : ∀ fuel secret pre p post d,
  is_bytes p → is_bytes d → length d = 16%nat → length p = (16 * k)%nat → (k <= fuel)%nat →
  encrypt_loop k secret (pre ++ p ++ post) (blen pre) d = Some (pre ++ rfc_hide fuel secret d p ++ post).
Proof.
  induction k as [|k IH]; intros fuel secret pre p post d Hp Hd Hd16 Hl Hf.
  { destruct p; [|cbn in Hl; lia]. by destruct fuel. }
  destruct fuel as [|fuel]; [lia|].
  assert (rfc_hide (S fuel) secret d p = xorl (take 16 p) d ++
    rfc_hide fuel secret (md5 [secret; xorl (take 16 p) d]) (drop 16 p)) as ->
    by (destruct p; [cbn in Hl; lia|done]).
  set (seg := take 16 p). set (rest := drop 16 p).
  assert (length seg = 16%nat) as Hseg by (unfold seg; rewrite length_take; lia).
  assert (length (xorl seg d) = 16%nat) as Hx by (rewrite xorl_length; lia).
  assert (length rest = (16 * k)%nat) as Hrest by (unfold rest; rewrite length_drop; lia).
  replace p with (seg ++ rest) by (unfold seg, rest; by rewrite take_drop).
  cbn [encrypt_loop]. rewrite <-app_assoc.
  pose proof (xor_segment_spec seg pre (rest ++ post) [] d) as E. cbn [app] in E.
  rewrite Hseg in E. change (Z.to_nat MD_SIG_SIZE) with 16%nat. change (blen []) with 0 in E.
  rewrite E; [|unfold seg; by apply is_bytes_take|done|lia]. cbn [mbind option_bind].
  assert (MD_SIG_SIZE = blen (xorl seg d)) as Hm by (unfold blen; rewrite Hx; done).
  rewrite Hm, ldn_app_mid. cbn [mbind option_bind]. rewrite <-blen_app, app_assoc.
  rewrite (IH fuel); [f_equal; napp|..]; try done; [|apply md5_is_bytes|apply md5_length|lia].
  unfold rest. by apply is_bytes_drop.
Qed.

(** A buffer position given by what precedes it. *)
Lemma buf_ld16_at b pre v post off :
  b_mem b = pre ++ be16 v ++ post → b_start b + off = blen pre → is_u16 v →
  buf_ld16 b off = Some (htons v).
Proof. intros Hm Hp Hv. unfold buf_ld16. rewrite Hm, Hp. by apply ld16_be. Qed.
Lemma buf_st16_at b pre l post off v :
  b_mem b = pre ++ l ++ post → b_start b + off = blen pre → length l = 2%nat →
  buf_st16 b off (htons v) = Some { b with b_mem := pre ++ be16 v ++ post }.
Proof.
  intros Hm Hp Hl. unfold buf_st16. rewrite Hm, Hp, st16_htons. by rewrite stn_app_mid.
Qed.

(** The plain attribute [encrypt_avp] is given, two spare bytes before it and
    the padding behind it. *)
Definition plain_avp (m : bool) (vendor attr : Z) (value : list Z) : list Z :=
  be16 (Z.lor (sizeof_avp_hdr + blen value) (mflag m)) ++ be16 vendor ++ be16 attr ++ value.
Definition hidden_avp (m : bool) (vendor attr : Z) (secret rv sub : list Z) : list Z :=
  be16 (hidden_word m (sizeof_avp_hdr + blen sub)) ++ be16 vendor ++ be16 attr ++
  hidden attr secret rv sub.

Lemma plain_word_flags m n : 0 <= n < 1024 → Z.land (Z.lor n (mflag m)) 0xF000 = mflag m.
Proof.
  intros Hn. apply Z.bits_inj'. intros i Hi. rewrite Z.land_spec, Z.lor_spec.
  destruct (Z.lt_ge_cases i 12).
  - destruct (mflag_low m i) as [-> _]; [done|].
    assert (Z.testbit 0xF000 i = false) as ->; [|by rewrite andb_false_r].
    change 0xF000 with (Z.shiftl 0xF 12). apply Z.shiftl_spec_low. lia.
  - rewrite testbit_small by (done || lia). rewrite orb_false_l. destruct m.
    + destruct (decide (i = 15)) as [->|]; [done|]. assert (Z.testbit (mflag true) i = false) as ->; [|done].
      change (mflag true) with (2 ^ 15). by apply Z.pow2_bits_false.
    + cbn. by rewrite Z.bits_0.
Qed.

Lemma hidden_length_eq len :
  6 <= len < 1024 → hidden_length len = ((len - 5) / 16 + 1) * 16 + 6.
Proof.
  intros. unfold hidden_length, sizeof_avp_hdr, u64, u16.
  rewrite (Z.mod_small (len - 6 + 1)) by lia. replace (len - 6 + 1) with (len - 5) by lia.
  apply Z.mod_small. zdiv.
Qed.

Lemma encrypt_hdr_spec b pre spare m vendor attr value tail :
  let len := sizeof_avp_hdr + blen value in
  b_mem b = pre ++ spare ++ plain_avp m vendor attr value ++ tail →
  b_start b + b_len b - len = blen pre → length spare = 2%nat →
  len < 1000 → is_u16 vendor → is_u16 attr →
  encrypt_hdr b len = Some (htons attr,
    { b with b_mem := pre ++ be16 (hidden_word m (hidden_length len)) ++ be16 vendor ++ be16 attr ++
                      be16 (blen value) ++ value ++ tail;
             b_len := b_len b - len + hidden_length len }).
Proof.
  intros len Hmem Hpos Hsp Hlen Hven Hat.
  pose proof (blen_nonneg value). unfold len, sizeof_avp_hdr in *.
  set (L := Z.lor (6 + blen value) (mflag m)).
  assert (is_u16 L) as HL by (apply (lor_bound 16); [lia|lia|by destruct m]).
  assert (blen spare = 2) as Hsp2 by (unfold blen; lia).
  unfold plain_avp, sizeof_avp_hdr in Hmem. fold L in Hmem. unfold encrypt_hdr, sizeof_avp_hdr.
  set (hl := hidden_length (6 + blen value)).
  rewrite (buf_ld16_at b (pre ++ spare) L (be16 vendor ++ be16 attr ++ value ++ tail));
    [|rewrite Hmem; napp|blen|done].
  cbn [mbind option_bind]. assert (htons (htons L) = L) as -> by (by apply htons_ntohs).
  unfold L at 1. rewrite plain_word_flags by lia. fold (hidden_word m hl).
  rewrite (buf_st16_at b pre spare (be16 L ++ be16 vendor ++ be16 attr ++ value ++ tail));
    [|rewrite Hmem; napp|lia|done].
  cbn [mbind option_bind]. set (W := hidden_word m hl).
  rewrite (buf_ld16_at _ (pre ++ be16 W ++ be16 L) vendor (be16 attr ++ value ++ tail)); [|cbn; napp|cbn -[Z.add]; blen|done].
  cbn [mbind option_bind].
  rewrite (buf_st16_at _ (pre ++ be16 W) (be16 L) (be16 vendor ++ be16 attr ++ value ++ tail)); [|cbn; napp|cbn -[Z.add]; blen|done].
  cbn [mbind option_bind].
  rewrite (buf_ld16_at _ (pre ++ be16 W ++ be16 vendor ++ be16 vendor) attr (value ++ tail)); [|cbn; napp|cbn -[Z.add]; blen|done].
  cbn [mbind option_bind].
  rewrite (buf_st16_at _ (pre ++ be16 W ++ be16 vendor) (be16 vendor) (be16 attr ++ value ++ tail)); [|cbn; napp|cbn -[Z.add]; blen|done].
  cbn [mbind option_bind].
  rewrite (buf_st16_at _ (pre ++ be16 W ++ be16 vendor ++ be16 attr) (be16 attr) (value ++ tail)); [|cbn; napp|cbn -[Z.add]; blen|done].
  cbn [mbind option_bind]. replace (6 + blen value - 6) with (blen value) by lia.
  cbn -[Z.add Z.sub app be16 hidden_length]. do 3 f_equal. napp.
Qed.

Lemma encrypt_avp_spec b ch pre spare m vendor attr value pad post rv :
  let secret := cstr (ch_secret ch) in
  let len := sizeof_avp_hdr + blen value in
  let sub := subformat value pad in
  b_mem b = pre ++ spare ++ plain_avp m vendor attr value ++ pad ++ post →
  b_start b + b_len b - len = blen pre → length spare = 2%nat →
  blen sub = ((blen value + 1) / 16 + 1) * 16 → len < 1000 →
  is_bytes value → is_bytes pad → is_u16 vendor → is_u16 attr →
  (∃ bs, ch_vector ch = VHeap bs ∧ ldn bs 0 VECTOR_SIZE = Some rv) →
  ∃ b', encrypt_avp b len ch = Some b' ∧
    b_mem b' = pre ++ hidden_avp m vendor attr secret rv sub ++ post ∧
    b_start b' = b_start b ∧ b_len b' = b_len b - len + (sizeof_avp_hdr + blen sub).
Proof.
  intros secret len sub Hmem Hpos Hsp Hsubl Hlen Hv Hp Hven Hat (bs & Hbs & Hrv).
  assert (is_bytes sub) as Hsb by (unfold sub, subformat; rewrite !is_bytes_app; auto with l2tp).
  pose proof (blen_nonneg value).
  assert (hidden_length len = 6 + blen sub) as Hhl.
  { unfold len, sizeof_avp_hdr in *. rewrite hidden_length_eq by lia. rewrite Hsubl.
    replace (6 + blen value - 5) with (blen value + 1) by lia. lia. }
  unfold encrypt_avp. unfold len. rewrite (encrypt_hdr_spec b pre spare m vendor attr value (pad ++ post)) by done.
  fold len. cbn [mbind option_bind]. rewrite Hbs, Hrv. cbn [mbind option_bind].
  rewrite le16_ntohs, !Hhl. fold secret. fold (hide_key attr secret rv).
  set (hdr := pre ++ be16 (hidden_word m (6 + blen sub)) ++ be16 vendor ++ be16 attr).
  set (k := (blen value + 1) / 16 + 1) in *.
  assert (0 <= k) as Hk by (unfold k; zdiv).
  replace (Z.to_nat ((6 + blen sub - sizeof_avp_hdr) / MD_SIG_SIZE)) with (Z.to_nat k).
  2: { unfold sizeof_avp_hdr, MD_SIG_SIZE. rewrite Hsubl. f_equal. replace (6 + k * 16 - 6) with (k * 16) by lia.
       by rewrite Z.div_mul. }
  cbn -[Z.add Z.sub app be16 encrypt_loop sizeof_avp_hdr subformat].
  replace (b_start b + (b_len b - len) + sizeof_avp_hdr) with (blen hdr)
    by (unfold hdr, sizeof_avp_hdr; blen).
  match goal with |- context [encrypt_loop _ _ ?mm _ _] =>
    replace mm with (hdr ++ sub ++ post) by (unfold hdr, sub, subformat; napp) end.
  rewrite (encrypt_loop_spec _ (length sub)); [|done|apply md5_is_bytes|apply md5_length|unfold blen in *; lia..].
  cbn [mbind option_bind]. eexists. split; [done|]. cbn -[Z.add Z.sub app be16 sizeof_avp_hdr].
  split; [unfold hidden_avp, hidden, hdr, sizeof_avp_hdr; napp|]. done.
Qed.

(** ** Properties *)

(** C24: for a file of well-formed entries (lines of at most 99 characters,
    three words separated by a space), whatever the stack held, [get_secret]
    stays inside its line buffer and finds the secret of the first entry whose
    names match, ignoring case, or are "*"; it fails when there is none. *)
Theorem get_secret_first_match (stack : list Z) (entries : list entry) (us them : list Z) :
  blen stack = STRLEN → Forall entry_ok entries →
  get_secret stack (Some (concat (map fmt entries))) us them MAXSTRLEN
  = Some (first_match us them entries).
Proof. intros Hs He. unfold get_secret. by apply secret_loop_spec. Qed.

(** "lac lns s3cret" and "* * guest". *)
Definition two_entries : list entry :=
  [mkEntry [108; 97; 99] [108; 110; 115] [115; 51; 99; 114; 101; 116];
   mkEntry [42] [42] [103; 117; 101; 115; 116]].
Lemma two_entries_ok : Forall entry_ok two_entries.
Proof.
  repeat constructor; cbn; try (intros H; discriminate H); try lia.
Qed.

Example get_secret_first_match_witness :
  get_secret (replicate 100 0x55) (Some (concat (map fmt two_entries))) [76; 65; 67] [108; 110; 115] MAXSTRLEN
  = Some (first_match [76; 65; 67] [108; 110; 115] two_entries) ∧
  first_match [76; 65; 67] [108; 110; 115] two_entries = Some [115; 51; 99; 114; 101; 116].
Proof.
  split; [|reflexivity].
  apply (get_secret_first_match (replicate 100 0x55) two_entries [76; 65; 67] [108; 110; 115]).
  - reflexivity.
  - apply two_entries_ok.
Defined.

(** What [handle_challenge] does when the secret is found. *)
Lemma handle_challenge_eq w tp t k us them secret challenge :
  w_tunnels w !! tp = Some t → (t_lns t ≠ None ∨ t_lac t ≠ None) →
  auth_names t w = Ret (us, them) w →
  get_secret (e_stack (w_env w) (w_clk w)) (w_secrets w) us them MAXSTRLEN = Some (Some secret) →
  ptr_bytes (ch_challenge (get_chal k t)) (ch_chal_len (get_chal k t)) = Some challenge →
  blen challenge < 2 ^ 32 → blen secret < 2 ^ 32 →
  handle_challenge tp k w
  = Ret 0 { w with w_clk := S (w_clk w);
      w_tunnels := <[tp := set_chal k { (get_chal k t) with ch_secret := secret;
        ch_response := rfc_md5 ([ch_ss (get_chal k t)] ++ cstr secret ++ challenge);
        ch_state := STATE_CHALLENGED } t]> (w_tunnels w) }.
Proof.
  intros Ht Hl Hn Hs Hc Hcl Hsl. unfold handle_challenge. unfold mbind, M_bind at 1. unfold get_t. rewrite Ht.
  assert (bool_decide (t_lns t = None) && bool_decide (t_lac t = None) = false) as ->.
  { destruct Hl as [Hl|Hl]; rewrite (bool_decide_false _ Hl); [done|by rewrite andb_false_r]. }
  unfold mbind, M_bind. rewrite Hn. unfold ask, gets, need. cbn -[get_secret md5].
  rewrite Hs, Hc. unfold mod_t, mret, M_ret. cbn -[md5]. rewrite Ht.
  unfold md5. rewrite md5_digest_rfc; [cbn [concat]; by rewrite app_nil_r|done|].
  assert (blen (cstr secret) <= blen secret) as Hcs.
  { clear. induction secret as [|x l IH]; [done|]. cbn. destruct (x =? 0); rewrite ?blen_cons, ?blen_nil;
      pose proof (blen_nonneg l); lia. }
  rewrite !Forall_cons, blen_cons, blen_nil. split_and!; [lia|lia|done|constructor].
Qed.

(** The names of the section a tunnel belongs to, its LNS first, and the name
    that is used: the section's, or else another. *)
Definition section_names (w : world) (t : tunnel) (own peer : list Z) : Prop :=
  (∃ p n, t_lns t = Some p ∧ w_lnss w !! p = Some n ∧ own = lns_hostname n ∧ peer = lns_peername n) ∨
  (∃ p l, t_lns t = None ∧ t_lac t = Some p ∧ w_lacs w !! p = Some l ∧ own = lac_hostname l ∧ peer = lac_peername l).
Definition or_else (name other : list Z) : list Z := if bool_decide (cstr name = []) then other else name.
Lemma nonempty_or_else name other : (if nonempty name then name else other) = or_else name other.
Proof.
  unfold nonempty, or_else. case_bool_decide as E; [by rewrite E|]. destruct (cstr name) as [|x l]; [done|].
  rewrite blen_cons. pose proof (blen_nonneg l). by rewrite (proj2 (Z.eqb_neq _ 0)) by lia.
Qed.
Lemma auth_names_spec w t own peer : section_names w t own peer →
  (t_lns t ≠ None ∨ t_lac t ≠ None) ∧
  auth_names t w = Ret (or_else own (w_hostname w), or_else peer (t_hostname t)) w.
Proof.
  intros [(p & n & H1 & H2 & -> & ->)|(p & l & H0 & H1 & H2 & -> & ->)];
    unfold auth_names, mbind, M_bind, gets, need, get_lnsp, get_lacp; rewrite ?H0, ?H1, ?H2, !nonempty_or_else;
    (split; [|done]); [left|right]; congruence.
Qed.
Lemma first_match_short us them entries secret : Forall entry_ok entries →
  first_match us them entries = Some secret → blen secret < 2 ^ 32.
Proof.
  induction 1 as [|e l [_ _ _ Hl] Hes IH]; [done|]. cbn [first_match]. destruct (entry_matches us them e); [|by apply IH].
  intros [= <-]. revert Hl. unfold fmt, blen, STRLEN. rewrite !length_app. lia.
Qed.

(** C23: [handle_challenge] answers a challenge with the CHAP response of
    RFC 2661.  The names it looks up are its own (the host name of the tunnel's
    LNS or LAC section, or else of this host) and the peer's (the peer name of
    the section, or else the host name the peer sent).  With a secrets file of
    well-formed entries: when no entry matches both names it fails and nothing
    changes; otherwise the response is the RFC 1321 digest of the message type
    byte, the secret of the first entry that matches and the challenge, the
    secret is remembered and the challenge marked as answered; nothing else of
    the tunnel changes. *)
Theorem handle_challenge_response w tp t k own peer entries challenge :
  w_tunnels w !! tp = Some t → section_names w t own peer →
  w_secrets w = Some (concat (map fmt entries)) → Forall entry_ok entries → blen (e_stack (w_env w) (w_clk w)) = STRLEN →
  ptr_bytes (ch_challenge (get_chal k t)) (ch_chal_len (get_chal k t)) = Some challenge → blen challenge < 2 ^ 32 →
  handle_challenge tp k w =
  match first_match (or_else own (w_hostname w)) (or_else peer (t_hostname t)) entries with
  | None => Ret (-1) { w with w_clk := S (w_clk w) }
  | Some secret =>
      Ret 0 { w with w_clk := S (w_clk w);
        w_tunnels := <[tp := set_chal k { (get_chal k t) with ch_secret := secret;
          ch_response := rfc_md5 ([ch_ss (get_chal k t)] ++ cstr secret ++ challenge);
          ch_state := STATE_CHALLENGED } t]> (w_tunnels w) }
  end.
Proof.
  intros Ht Hsec Hfile Hok Hst Hc Hcl. destruct (auth_names_spec w t own peer Hsec) as [Hl Hn].
  pose proof (secret_loop_spec entries _ (e_stack (w_env w) (w_clk w)) (or_else own (w_hostname w)) (or_else peer (t_hostname t))
    Hok Hst (le_n _)) as Hs.
  destruct (first_match _ _ entries) as [secret|] eqn:E.
  - eapply handle_challenge_eq; try done; [|by eapply first_match_short]. rewrite Hfile. unfold get_secret. exact Hs.
  - unfold handle_challenge. unfold mbind, M_bind at 1. unfold get_t. rewrite Ht.
    assert (bool_decide (t_lns t = None) && bool_decide (t_lac t = None) = false) as ->.
    { destruct Hl as [Hl|Hl]; rewrite (bool_decide_false _ Hl); [done|by rewrite andb_false_r]. }
    unfold mbind, M_bind. rewrite Hn. unfold ask, gets, need. cbn -[get_secret]. rewrite Hfile. unfold get_secret.
    by rewrite Hs.
Qed.

(** Tunnel 1, on LNS 2 ("lns"), challenged by "lac" with three bytes. *)
Definition chal_tunnel : tunnel :=
  { zero_tunnel with t_lns := Some 2%nat; t_hostname := [108; 110; 115];
    t_chal_us := { zero_challenge with ch_ss := 2; ch_challenge := Some [1; 2; 3]; ch_chal_len := 3;
                                       ch_state := 1 } }.
Definition chal_world : world :=
  { zero_world with w_tunnels := {[1%nat := chal_tunnel]};
    w_lnss := {[2%nat := { zero_lns with lns_hostname := [108; 97; 99] }]};
    w_secrets := Some (concat (map fmt two_entries)) }.

Example handle_challenge_response_witness :
  handle_challenge 1 Chal_us chal_world
  = Ret 0 { chal_world with w_clk := 1%nat;
      w_tunnels := <[1%nat := set_chal Chal_us { (t_chal_us chal_tunnel) with
        ch_secret := [115; 51; 99; 114; 101; 116];
        ch_response := rfc_md5 ([2] ++ [115; 51; 99; 114; 101; 116] ++ [1; 2; 3]);
        ch_state := STATE_CHALLENGED } chal_tunnel]> (w_tunnels chal_world) } ∧
  handle_challenge 1 Chal_us { chal_world with w_secrets := Some (concat (map fmt (take 1 two_entries)));
      w_lnss := {[2%nat := { zero_lns with lns_hostname := [108; 110; 115]; lns_peername := [108; 97; 99] }]} }
  = Ret (-1) { chal_world with w_secrets := Some (concat (map fmt (take 1 two_entries))); w_clk := 1%nat;
      w_lnss := {[2%nat := { zero_lns with lns_hostname := [108; 110; 115]; lns_peername := [108; 97; 99] }]} }.
Proof.
  split.
  - refine (handle_challenge_response chal_world 1 chal_tunnel Chal_us [108; 97; 99] [] two_entries [1; 2; 3] _ _ _ _ _ _ _).
    + reflexivity.
    + left. do 2 eexists. repeat split; reflexivity.
    + reflexivity.
    + apply two_entries_ok.
    + vm_compute. reflexivity.
    + reflexivity.
    + vm_compute. reflexivity.
  - refine (handle_challenge_response _ 1 chal_tunnel Chal_us [108; 110; 115] [108; 97; 99] (take 1 two_entries) [1; 2; 3] _ _ _ _ _ _ _).
    + reflexivity.
    + left. do 2 eexists. repeat split; reflexivity.
    + reflexivity.
    + apply Forall_take, two_entries_ok.
    + vm_compute. reflexivity.
    + reflexivity.
    + vm_compute. reflexivity.
Defined.

(** C13: hiding and unhiding are inverse: the attribute [encrypt_avp] makes of
    a plain one (as long as its 10-bit length allows) is, after the receiver
    swaps its header, turned back by [decrypt_avp] into the plain attribute
    with its mandatory bit, two bytes further up, for every value, vendor and
    attribute number, when both ends share the secret and the random vector. *)
Theorem hidden_roundtrip b ch pre spare m vendor attr value pad post rv ch2 pre2 post2 stack mem2 :
  let secret := cstr (ch_secret ch) in
  let len := sizeof_avp_hdr + blen value in
  let sub := subformat value pad in
  let wire := hidden_avp m vendor attr secret rv sub in
  b_mem b = pre ++ spare ++ plain_avp m vendor attr value ++ pad ++ post →
  b_start b + b_len b - len = blen pre → length spare = 2%nat →
  blen sub = ((blen value + 1) / 16 + 1) * 16 → len < 1000 →
  is_bytes value → is_bytes pad → is_u16 vendor → is_u16 attr →
  (∃ bs, ch_vector ch = VHeap bs ∧ ldn bs 0 VECTOR_SIZE = Some rv) →
  cstr (ch_secret ch2) = secret → length stack = 16%nat →
  swaps (pre2 ++ wire ++ post2) (blen pre2) sizeof_avp_hdr = Some mem2 →
  vector_bytes mem2 ch2 = Some (Some rv) →
  (∃ b', encrypt_avp b len ch = Some b' ∧ b_mem b' = pre ++ wire ++ post) ∧
  ∃ w, decrypt_mem mem2 (blen pre2) ch2 stack
    = Some (0, pre2 ++ w ++ (le16 (Z.lor (blen value + sizeof_avp_hdr) (mflag m)) ++ le16 vendor ++
        le16 attr ++ value) ++ pad ++ post2).
Proof.
  intros secret len sub wire Hmem Hpos Hsp Hsub Hlen Hv Hp Hven Hat Hvec Hsec Hst Hsw Hvec2.
  split.
  { destruct (encrypt_avp_spec b ch pre spare m vendor attr value pad post rv) as (b' & ? & ? & _);
      eauto. }
  assert (sizeof_avp_hdr + blen sub < 1024) as Hol.
  { rewrite Hsub. pose proof (blen_nonneg value). unfold len, sizeof_avp_hdr in Hlen |- *.
    clear - Hlen H. zdiv. }
  assert (0 <= blen sub) as H0 by apply blen_nonneg.
  set (w := hidden_word m (sizeof_avp_hdr + blen sub)).
  assert (is_u16 w) as Hw by (apply hidden_word_u16; unfold sizeof_avp_hdr in *; lia).
  exists (le16 w).
  pose proof (swaps_words [w; vendor; attr] pre2 (hidden attr secret rv sub ++ post2)
    (Forall_cons_2 _ _ _ Hw (Forall_cons_2 _ _ _ Hven (Forall_cons_2 _ _ _ Hat (Forall_nil_2 _))))) as Hs. cbn [map concat length] in Hs.
  unfold swaps in Hsw. change (Z.to_nat (sizeof_avp_hdr / 2)) with 3%nat in Hsw.
  replace (pre2 ++ (be16 w ++ be16 vendor ++ be16 attr ++ []) ++ hidden attr secret rv sub ++ post2)
    with (pre2 ++ wire ++ post2) in Hs by (unfold wire, hidden_avp; fold w; napp).
  rewrite Hsw in Hs. apply (inj Some) in Hs. subst mem2.
  match type of Hvec2 with vector_bytes ?mm _ = _ => replace mm with
    (pre2 ++ le16 w ++ le16 vendor ++ le16 attr ++ hidden attr secret rv sub ++ post2) in * by napp end.
  rewrite <-Hsec in *.
  pose proof (decrypt_mem_spec pre2 m vendor attr value pad post2 ch2 stack rv) as Hd. cbn zeta in Hd.
  fold sub in Hd. fold w in Hd. rewrite Hd by done. napp.
Qed.

(** A call ID attribute of value 0x1234 with 12 bytes of padding; secret
    "key"; the receiver keeps the vector in a block of its own. *)
Definition hide_chal : challenge :=
  { zero_challenge with ch_secret := [107; 101; 121]; ch_vector := VHeap (replicate 16 9);
                        ch_vector_len := 16 }.
Definition hide_mem : list Z := [0; 0] ++ plain_avp true 0 14 [0x12; 0x34] ++ replicate 12 7 ++ [1].
Definition hide_buf : buffer := mkBuffer hide_mem 0 8 (blen hide_mem) zero_sockaddr None 0.
Definition hide_wire : list Z :=
  hidden_avp true 0 14 [107; 101; 121] (replicate 16 9) (subformat [0x12; 0x34] (replicate 12 7)).
Definition hide_mem2 : list Z := default [] (swaps ([5] ++ hide_wire ++ []) 1 sizeof_avp_hdr).

Example hidden_roundtrip_witness :
  (∃ b', encrypt_avp hide_buf 8 hide_chal = Some b' ∧ b_mem b' = [] ++ hide_wire ++ [1]) ∧
  ∃ w, decrypt_mem hide_mem2 1 hide_chal (replicate 16 0)
    = Some (0, [5] ++ w ++ (le16 (Z.lor (2 + 6) 0x8000) ++ le16 0 ++ le16 14 ++ [0x12; 0x34]) ++
        replicate 12 7 ++ []).
Proof.
  apply (hidden_roundtrip hide_buf hide_chal [] [0; 0] true 0 14 [0x12; 0x34] (replicate 12 7) [1]
    (replicate 16 9) hide_chal [5] [] (replicate 16 0) hide_mem2).
  - reflexivity.
  - reflexivity.
  - reflexivity.
  - reflexivity.
  - vm_compute. reflexivity.
  - repeat constructor; unfold is_u8; lia.
  - repeat constructor; unfold is_u8; lia.
  - unfold is_u16. lia.
  - unfold is_u16. lia.
  - exists (replicate 16 9). split; reflexivity.
  - reflexivity.
  - reflexivity.
  - vm_compute. reflexivity.
  - vm_compute. reflexivity.
Defined.

End Auth.
