(* ===== verification/Config.v ===== *)
(** * The configuration file (src/file.c, src/file.h)

    The parser of [xl2tpd.conf] and the handlers of its keywords.

    - Lines, words and values are C strings: lists of bytes without a NUL.
      [char] is signed, so that a byte above 127 compares below 33: it is a
      blank to every loop that skips or strips white space.
    - A handler takes the word, the value, the context and the item the
      option is for ([void *item]), and returns the C result with the item
      after the call; [None] is undefined behaviour (an access outside an
      array, an item of another type than the context says).
    - [gethostbyname] is the parameter [resolve]; what an array on the stack
      holds before it is written is the argument [stack].
    - A [char] array of [STRLEN] bytes filled by [strncpy] is the list of its
      bytes up to the terminator: with [STRLEN] bytes there is none. *)

From S2P Require Import Prelude.
From S2P Require Import Buffer.
From S2P Require Import State.
From S2P Require Import Auth.

Module Config.
Import Buffer State Auth.
Open Scope Z_scope.

(** ** C strings *)

(** [*p < 33] on a signed [char]. *)
Definition blank (ch : Z) : bool := schar ch <? 33.
(** Skips beginning white space. *)
Fixpoint lstrip (s : list Z) : list Z :=
  match s with ch :: s' => if blank ch then lstrip s' else s | [] => [] end.
(** Ditches trailing white space. *)
Fixpoint rstrip (s : list Z) : list Z :=
  match s with
  | [] => []
  | ch :: s => match rstrip s with [] => if blank ch then [] else [ch] | s' => ch :: s' end
  end.

(** [strchr (s, ch)]: what is before the character and what follows it. *)
Fixpoint strchr (ch : Z) (s : list Z) : option (list Z * list Z) :=
  match s with
  | [] => None
  | x :: s => if x =? ch then Some ([], s)
              else match strchr ch s with Some (a, b) => Some (x :: a, b) | None => None end
  end.

(** [isspace] in the C locale, and [atoi]: [strtol] on a 64-bit [long], which
    saturates, cut to an [int]. *)
Definition isspace (ch : Z) : bool := (ch =? 32) || ((9 <=? ch) && (ch <=? 13)).
Fixpoint skip_space (s : list Z) : list Z :=
  match s with ch :: s' => if isspace ch then skip_space s' else s | [] => [] end.
Fixpoint decimal (s : list Z) (acc : Z) : Z :=
  match s with
  | ch :: s => if (48 <=? ch) && (ch <=? 57) then decimal s (10 * acc + (ch - 48)) else acc
  | [] => acc
  end.
Definition strtol (s : list Z) : Z :=
  match skip_space s with
  | 45 :: s => Z.max (- 2 ^ 63) (- decimal s 0)
  | 43 :: s => Z.min (2 ^ 63 - 1) (decimal s 0)
  | s => Z.min (2 ^ 63 - 1) (decimal s 0)
  end.
Definition atoi (s : list Z) : Z := s32 (strtol s).

(** [strncpy (a, s, sizeof (a))] and [!strcasecmp (s, a)] on an array of
    [STRLEN] bytes: an array with no terminator is left when [s] agrees with
    all of it. *)
Definition strncpy (s : list Z) : list Z := take (Z.to_nat STRLEN) s.
Definition casecmp_array (s a : list Z) : option bool :=
  if blen a <? STRLEN then Some (casecmp s a)
  else if bool_decide (map lower (strncpy s) = map lower a) then None else Some false.

(** [!strncmp (s, p, strlen (p))] *)
Definition starts (s : list Z) (p : string) : bool := bool_decide (take (length (str p)) s = str p).

(** ** Items *)

Definition CONTEXT_GLOBAL : Z := 1.
Definition CONTEXT_LNS : Z := 2.
Definition CONTEXT_LAC : Z := 3.
Definition CONTEXT_DEFAULT : Z := 256.

Definition UDP_LISTEN_PORT : Z := 1701.
Definition IP_IPSEC_REFINFO : Z := 30.
Definition DEFAULT_MAX_RETRIES : Z := 5.
Definition RAND_DEV : Z := 0.
Definition RAND_SYS : Z := 1.
Definition RAND_EGD : Z := 2.

(** What [void *item] points to.  [rand_source] is a variable of its own that
    only the options of the global context reach. *)
Inductive item :=
  | Iglobal (g : global) (rand_source : Z)
  | Ilns (n : lns)
  | Ilac (l : lac).

Definition new_lns : lns :=
  mkLns 0 0 DEFAULT_RWS_SIZE DEFAULT_RWS_SIZE DEFAULT_RX_BPS DEFAULT_TX_BPS 0 0 0 0 (-1)
    [] [] [] [] [] [] [] 1 0 0 0 0 0 0 0 [] None.
Definition new_lac : lac :=
  mkLac [] None DEFAULT_RWS_SIZE DEFAULT_RWS_SIZE 0 0 0 0 0 0 0 0 [] [] [] [] [] 0 (-1) 0 0 0 0
    0 0 0 0 0 30 0 [] 0 None None.
(** [calloc (1, sizeof (struct lac))] *)
Definition calloc_lac : lac :=
  mkLac [] None 0 0 0 0 0 0 0 0 0 0 [] [] [] [] [] 0 0 0 0 0 0 0 0 0 0 0 0 0 [] 0 None None.

(** ** Handlers

    [switch (context & ~CONTEXT_DEFAULT)]: an absent case is [default], which
    refuses the option. *)
Definition by_context (context : Z) (it : item) (fg : option (global → option (Z * global)))
    (fn : option (lns → option (Z * lns))) (fc : option (lac → option (Z * lac))) : option (Z * item) :=
  let k := Z.land context (Z.lnot CONTEXT_DEFAULT) in
  match (if k =? CONTEXT_GLOBAL then fg else None), (if k =? CONTEXT_LNS then fn else None),
        (if k =? CONTEXT_LAC then fc else None) with
  | Some f, _, _ => match it with Iglobal g r => '(z, g) ← f g; Some (z, Iglobal g r) | _ => None end
  | _, Some f, _ => match it with Ilns n => '(z, n) ← f n; Some (z, Ilns n) | _ => None end
  | _, _, Some f => match it with Ilac l => '(z, l) ← f l; Some (z, Ilac l) | _ => None end
  | None, None, None => Some (-1, it)
  end.

Definition is_word (value : list Z) (s : string) : bool := casecmp value (str s).
Definition yesno (value : list Z) : Z :=
  if is_word value "yes" || is_word value "y" || is_word value "true" then 1
  else if is_word value "no" || is_word value "n" || is_word value "false" then 0
  else -1.

Section Setters.
Context {X : Type}.
(** [int *ptr] is the function that stores to it. *)
Definition set_boolean (value : list Z) (ptr : Z → X → X) (o : X) : Z * X :=
  let val := yesno value in if val <? 0 then (-1, o) else (0, ptr val o).
Definition set_int (value : list Z) (ptr : Z → X → X) (o : X) : Z * X :=
  let val := atoi value in if val <? 0 then (-1, o) else (0, ptr val o).
Definition set_string (value : list Z) (ptr : list Z → X → X) (o : X) : Z * X :=
  (0, ptr (strncpy value) o).

(** [if (set_boolean (...)) return -1; break;] *)
Definition boolean (value : list Z) (ptr : Z → X → X) : option (X → option (Z * X)) :=
  Some (λ o, Some (let '(z, o) := set_boolean value ptr o in if truthy z then (-1, o) else (0, o))).
(** [set_int (...); break;] *)
Definition integer (value : list Z) (ptr : Z → X → X) : option (X → option (Z * X)) :=
  Some (λ o, Some (0, (set_int value ptr o).2)).
Definition text (value : list Z) (ptr : list Z → X → X) : option (X → option (Z * X)) :=
  Some (λ o, Some (let '(z, o) := set_string value ptr o in if truthy z then (-1, o) else (0, o))).
End Setters.

(** The type of [keyword.handler]. *)
Definition handler : Type := list Z → list Z → Z → item → option (Z * item).

Definition set_port : handler := λ word value context it,
  by_context context it (integer value (λ v g, { g with g_port := v })) None None.

Definition set_rtimeout : handler := λ word value context it,
  if atoi value <? 1 then Some (-1, it)
  else by_context context it None None (integer value (λ v l, { l with lac_rtimeout := v })).

Definition first_is (word : list Z) (ch : Z) : bool := bool_decide (head word = Some ch).

Definition set_rws : handler := λ word value context it,
  if atoi value <? -1 then Some (-1, it)
  else by_context context it None
    (Some (λ n, let n := if first_is word 99 then (set_int value (λ v n, { n with lns_call_rws := v }) n).2 else n in
       if first_is word 116 then
         let n := (set_int value (λ v n, { n with lns_tun_rws := v }) n).2 in
         if lns_tun_rws n <? 1 then Some (-1, n) else Some (0, n)
       else Some (0, n)))
    (Some (λ l, let l := if first_is word 99 then (set_int value (λ v l, { l with lac_call_rws := v }) l).2 else l in
       if first_is word 116 then
         let l := (set_int value (λ v l, { l with lac_tun_rws := v }) l).2 in
         if lac_tun_rws l <? 1 then Some (-1, l) else Some (0, l)
       else Some (0, l))).

Definition set_speed : handler := λ word value context it,
  if atoi value <? 1 then Some (-1, it)
  else by_context context it None
    (Some (λ n, Some (0,
       if first_is word 116 then (set_int value (λ v n, { n with lns_txspeed := v }) n).2
       else if first_is word 114 then (set_int value (λ v n, { n with lns_rxspeed := v }) n).2
       else (set_int value (λ v n, { n with lns_txspeed := v })
               (set_int value (λ v n, { n with lns_rxspeed := v }) n).2).2)))
    (Some (λ l, Some (0,
       if first_is word 116 then (set_int value (λ v l, { l with lac_txspeed := v }) l).2
       else if first_is word 114 then (set_int value (λ v l, { l with lac_rxspeed := v }) l).2
       else (set_int value (λ v l, { l with lac_txspeed := v })
               (set_int value (λ v l, { l with lac_rxspeed := v }) l).2).2))).

Definition set_maxretries : handler := λ word value context it,
  by_context context it (integer value (λ v g, { g with g_max_retries := v })) None None.
Definition set_capbackoff : handler := λ word value context it,
  by_context context it (integer value (λ v g, { g with g_cap_backoff := v })) None None.
Definition set_rmax : handler := λ word value context it,
  if atoi value <? 1 then Some (-1, it)
  else by_context context it None None (integer value (λ v l, { l with lac_rmax := v })).
Definition set_authfile : handler := λ word value context it,
  if blen value =? 0 then Some (-1, it)
  else by_context context it (Some (λ g, Some (0, { g with g_authfile := strncpy value }))) None None.

Definition set_autodial : handler := λ word value context it,
  by_context context it None None (boolean value (λ v l, { l with lac_autodial := v })).
Definition set_flow : handler := λ word value context it,
  let v := (set_boolean value (λ v _, v) (-1)).2 in
  if v <? 0 then Some (-1, it)
  else by_context context it None
    (Some (λ n, Some (0,
       if truthy v then (if lns_call_rws n <? 0 then { n with lns_call_rws := 0 } else n)
       else { n with lns_call_rws := -1 })))
    (Some (λ l, Some (0,
       if truthy v then (if lac_call_rws l <? 0 then { l with lac_call_rws := 0 } else l)
       else { l with lac_call_rws := -1 }))).
Definition set_defaultroute : handler := λ word value context it,
  by_context context it None None (boolean value (λ v l, { l with lac_defaultroute := v })).
Definition set_authname : handler := λ word value context it,
  by_context context it None (text value (λ v n, { n with lns_authname := v }))
    (text value (λ v l, { l with lac_authname := v })).
Definition set_hostname : handler := λ word value context it,
  by_context context it None (text value (λ v n, { n with lns_hostname := v }))
    (text value (λ v l, { l with lac_hostname := v })).
Definition set_passwdauth : handler := λ word value context it,
  by_context context it None (boolean value (λ v n, { n with lns_passwdauth := v })) None.
Definition set_hbit : handler := λ word value context it,
  by_context context it None (boolean value (λ v n, { n with lns_hbit := v }))
    (boolean value (λ v l, { l with lac_hbit := v })).
Definition set_challenge : handler := λ word value context it,
  by_context context it None (boolean value (λ v n, { n with lns_challenge := v }))
    (boolean value (λ v l, { l with lac_challenge := v })).
Definition set_lbit : handler := λ word value context it,
  by_context context it None (boolean value (λ v n, { n with lns_lbit := v }))
    (boolean value (λ v l, { l with lac_lbit := v })).
Definition set_debug : handler := λ word value context it,
  by_context context it None (boolean value (λ v n, { n with lns_debug := v }))
    (boolean value (λ v l, { l with lac_debug := v })).
Definition set_pass_peer : handler := λ word value context it,
  by_context context it None (boolean value (λ v n, { n with lns_pass_peer := v }))
    (boolean value (λ v l, { l with lac_pass_peer := v })).
Definition set_pppoptfile : handler := λ word value context it,
  by_context context it None (text value (λ v n, { n with lns_pppoptfile := v }))
    (text value (λ v l, { l with lac_pppoptfile := v })).

(** [word[2] == 'f'] and the first character after the space choose the
    field; a word with no space makes [c] the address 1. *)
Definition set_papchap : handler := λ word value context it,
  let '(z, result) := set_boolean value (λ v _, v) 0 in
  if truthy z then Some (-1, it)
  else
    match strchr 32 word with
    | None => None
    | Some (_, c) =>
        let refuse := bool_decide (word !! 2%nat = Some 102) in
        let no := if truthy result then 0 else 1 in
        by_context context it None
          (Some (λ n, Some (0,
             if first_is c 112 then
               if refuse then { n with lns_pap_refuse := result } else { n with lns_pap_require := result }
             else if first_is c 97 then
               if refuse then { n with lns_authself := no } else { n with lns_authpeer := result }
             else if refuse then { n with lns_chap_refuse := result } else { n with lns_chap_require := result })))
          (Some (λ l, Some (0,
             if first_is c 112 then
               if refuse then { l with lac_pap_refuse := result } else { l with lac_pap_require := result }
             else if first_is c 97 then
               if refuse then { l with lac_authself := no } else { l with lac_authpeer := result }
             else if refuse then { l with lac_chap_refuse := result } else { l with lac_chap_require := result })))
    end.

Definition set_redial : handler := λ word value context it,
  by_context context it None None (boolean value (λ v l, { l with lac_redial := v })).
Definition set_accesscontrol : handler := λ word value context it,
  by_context context it (boolean value (λ v g, { g with g_accesscontrol := v })) None None.
Definition set_userspace : handler := λ word value context it,
  by_context context it (boolean value (λ v g, { g with g_forceuserspace := v })) None None.
Definition set_debugavp : handler := λ word value context it,
  by_context context it (boolean value (λ v g, { g with g_debug_avp := v })) None None.
Definition set_debugnetwork : handler := λ word value context it,
  by_context context it (boolean value (λ v g, { g with g_debug_network := v })) None None.
Definition set_debugpacket : handler := λ word value context it,
  by_context context it (boolean value (λ v g, { g with g_packet_dump := v })) None None.
Definition set_debugtunnel : handler := λ word value context it,
  by_context context it (boolean value (λ v g, { g with g_debug_tunnel := v })) None None.
Definition set_debugstate : handler := λ word value context it,
  by_context context it (boolean value (λ v g, { g with g_debug_state := v })) None None.
Definition set_assignip : handler := λ word value context it,
  by_context context it None (boolean value (λ v n, { n with lns_assign_ip := v })) None.
Definition set_exclusive : handler := λ word value context it,
  by_context context it None (boolean value (λ v n, { n with lns_exclusive := v })) None.

(** *** Addresses *)

Definition dots (s : list Z) : Z := Z.of_nat (length (filter (λ ch, ch = 46) s)).

(** [char ip_hi[16]], with the byte after it, and what [strcpy] and the loop
    that runs down from [ip_hi + sizeof (ip_hi)] make of it: the position
    after the dot that makes [count] negative, [-1] when there is none. *)
Definition IP_HI : Z := 16.
Fixpoint last_field (n : nat) (ip_hi : list Z) (count : Z) : Z :=
  match n with
  | O => -1
  | S e =>
      let count := if bool_decide (ip_hi !! e = Some 46) then count - 1 else count in
      if count <? 0 then Z.of_nat e + 1 else last_field e ip_hi count
  end.

(** The end of a range [a.b.c.d - e]: the missing fields are those of the
    start. *)
Definition range_end (stack value d : list Z) : option (list Z) :=
  if dots d <? 3 then
    if IP_HI <? blen value + 1 then None
    else
      ip_hi ← stn stack 0 (value ++ [0]);
      let e := last_field (Z.to_nat IP_HI + 1) ip_hi (dots d) in
      if blen d <? u64 (IP_HI - e) then
        if (e <? 0) || (IP_HI <? e + blen d + 1) then None
        else ip_hi ← stn ip_hi e (d ++ [0]); Some (cstr ip_hi)
      else Some d
  else Some d.

Section Resolve.
(** [gethostbyname]: the first address of a host, in network order. *)
Context (resolve : list Z → option Z).

(** [Some None] is [NULL]. *)
Definition set_range (stack word value : list Z) (inr : list iprange) : option (option (list iprange)) :=
  let '(value, d) :=
    match strchr 45 value with
    | Some (v, d) => (rstrip v, Some (lstrip d))
    | None => (value, None)
    end in
  if (blen value =? 0) || bool_decide (d = Some []) then Some None
  else
    match resolve value with
    | None => Some None
    | Some start =>
        last ← match d with
               | Some d => d ← range_end stack value d; Some (resolve d)
               | None => Some (Some start)
               end;
        match last with
        | None => Some None
        | Some last =>
            if ntohl last <? ntohl start then Some None
            else
              let sense := if first_is word 110 then SENSE_DENY else SENSE_ALLOW in
              Some (Some (inr ++ [IpRange start last sense]))
        end
    end.

(** [x = set_range (word, value, x); if (!x) return -1;] *)
Definition store_range (stack word value : list Z) (get : lns → list iprange)
    (put : list iprange → lns → lns) (n : lns) : option (Z * lns) :=
  r ← set_range stack word value (get n);
  Some match r with Some l => (0, put l n) | None => (-1, put [] n) end.

Definition set_iprange (stack : list Z) : handler := λ word value context it,
  by_context context it None
    (Some (store_range stack word value lns_range (λ l n, { n with lns_range := l }))) None.
Definition set_localiprange (stack : list Z) : handler := λ word value context it,
  by_context context it None
    (Some (λ n, if truthy (lns_localaddr n) then Some (-1, n)
                else store_range stack word value lns_localrange (λ l n, { n with lns_localrange := l }) n)) None.
Definition set_lac (stack : list Z) : handler := λ word value context it,
  by_context context it None
    (Some (store_range stack word value lns_lacs (λ l n, { n with lns_lacs := l }))) None.

Definition set_ip {X} (value : list Z) (addr : Z → X → X) (o : X) : Z * X :=
  match resolve value with None => (-1, o) | Some a => (0, addr a o) end.
Definition set_listenaddr : handler := λ word value context it,
  by_context context it
    (Some (λ g, Some (let '(z, g) := set_ip value (λ v g, { g with g_listenaddr := v }) g in
                      if truthy z then (-1, g) else (0, g)))) None None.
Definition set_localaddr : handler := λ word value context it,
  by_context context it None
    (Some (λ n, match lns_localrange n with
                | [] => Some (set_ip value (λ v n, { n with lns_localaddr := v }) n)
                | _ => Some (-1, n)
                end))
    (Some (λ l, Some (set_ip value (λ v l, { l with lac_localaddr := v }) l))).
Definition set_remoteaddr : handler := λ word value context it,
  by_context context it None None
    (Some (λ l, Some (set_ip value (λ v l, { l with lac_remoteaddr := v }) l))).

Definition set_lns : handler := λ word value context it,
  by_context context it None None
    (Some (λ l,
       let '(host, port) := match strchr 58 value with
                            | Some (h, d) => (h, atoi d)
                            | None => (value, UDP_LISTEN_PORT)
                            end in
       Some (0, { l with lac_lns := lac_lns l ++ [(strncpy host, port)] }))).

Definition set_ipsec_saref : handler := λ word value context it,
  by_context context it
    (Some (λ g, let '(z, g) := set_boolean value (λ v g, { g with g_ipsecsaref := v }) g in
       if truthy z then Some (-1, g)
       else Some (0, if truthy (g_ipsecsaref g) && negb (g_forceuserspace g =? 1)
                     then { g with g_forceuserspace := 1 } else g))) None None.
Definition set_saref_num : handler := λ word value context it,
  by_context context it (integer value (λ v g, { g with g_sarefnum := v })) None None.

Definition set_rand_sys (g : global) : Z * item := (0, Iglobal g RAND_SYS).
Definition set_rand_dev (g : global) : Z * item := (0, Iglobal g RAND_DEV).
Definition set_rand_egd (g : global) : Z * item := (-1, Iglobal g RAND_EGD).
(** [context] is compared as it is: [global default] is refused. *)
Definition set_rand_source : handler := λ word value context it,
  if negb (context =? CONTEXT_GLOBAL) then Some (-1, it)
  else match it with
  | Iglobal g _ =>
      if blen value =? 0 then Some (-1, it)
      else if bool_decide (take 3 value = str "egd") then Some (set_rand_egd g)
      else if bool_decide (take 3 value = str "dev") then Some (set_rand_dev g)
      else if bool_decide (take 3 value = str "sys") then Some (set_rand_sys g)
      else Some (-1, it)
  | _ => None
  end.

(** ** Keywords *)

Definition words (stack : list Z) : list (string * handler) := [
  ("listen-addr"%string, set_listenaddr);
  ("port"%string, set_port);
  ("saref refinfo"%string, set_saref_num);
  ("rand source"%string, set_rand_source);
  ("auth file"%string, set_authfile);
  ("exclusive"%string, set_exclusive);
  ("autodial"%string, set_autodial);
  ("redial"%string, set_redial);
  ("redial timeout"%string, set_rtimeout);
  ("lns"%string, set_lns);
  ("max redials"%string, set_rmax);
  ("access control"%string, set_accesscontrol);
  ("force userspace"%string, set_userspace);
  ("ip range"%string, set_iprange stack);
  ("no ip range"%string, set_iprange stack);
  ("debug avp"%string, set_debugavp);
  ("debug network"%string, set_debugnetwork);
  ("debug packet"%string, set_debugpacket);
  ("debug tunnel"%string, set_debugtunnel);
  ("debug state"%string, set_debugstate);
  ("ipsec saref"%string, set_ipsec_saref);
  ("lac"%string, set_lac stack);
  ("no lac"%string, set_lac stack);
  ("assign ip"%string, set_assignip);
  ("local ip"%string, set_localaddr);
  ("local ip range"%string, set_localiprange stack);
  ("remote ip"%string, set_remoteaddr);
  ("defaultroute"%string, set_defaultroute);
  ("length bit"%string, set_lbit);
  ("hidden bit"%string, set_hbit);
  ("require pap"%string, set_papchap);
  ("require chap"%string, set_papchap);
  ("require authentication"%string, set_papchap);
  ("require auth"%string, set_papchap);
  ("refuse pap"%string, set_papchap);
  ("refuse chap"%string, set_papchap);
  ("refuse authentication"%string, set_papchap);
  ("refuse auth"%string, set_papchap);
  ("unix authentication"%string, set_passwdauth);
  ("unix auth"%string, set_passwdauth);
  ("name"%string, set_authname);
  ("hostname"%string, set_hostname);
  ("ppp debug"%string, set_debug);
  ("pass peer"%string, set_pass_peer);
  ("pppoptfile"%string, set_pppoptfile);
  ("call rws"%string, set_rws);
  ("tunnel rws"%string, set_rws);
  ("flow bit"%string, set_flow);
  ("challenge"%string, set_challenge);
  ("tx bps"%string, set_speed);
  ("rx bps"%string, set_speed);
  ("bps"%string, set_speed);
  ("max retries"%string, set_maxretries);
  ("cap backoff"%string, set_capbackoff)].

Fixpoint find_keyword (kws : list (string * handler)) (word : list Z) : option handler :=
  match kws with
  | [] => None
  | (kw, h) :: kws => if is_word word kw then Some h else find_keyword kws word
  end.

Definition parse_one_option (stack word value : list Z) (context : Z) (it : item) : option (Z * item) :=
  match find_keyword (words stack) word with
  | None => Some (-2, it)
  | Some h => '(z, it) ← h word value context it; Some (if truthy z then -1 else 0, it)
  end.

(** ** The file *)

(** [gconfig], [rand_source], [lnslist], [laclist], [deflns] and [deflac]. *)
Record config := mkConfig {
  cf_global : global; cf_rand_source : Z;
  cf_lnslist : list lns; cf_deflns : option lns;
  cf_laclist : list lac; cf_deflac : option lac }.

(** [void *data]: an entry of a list is its position, which stays valid as
    long as [data] points to it: entries are added only by a header, which
    sets [data]. *)
Inductive ref := Rnull | Rglobal | Rlns (i : nat) | Rdeflns | Rlac (i : nat) | Rdeflac.

Definition get_item (cf : config) (data : ref) : option item :=
  match data with
  | Rnull => None
  | Rglobal => Some (Iglobal (cf_global cf) (cf_rand_source cf))
  | Rlns i => Ilns <$> cf_lnslist cf !! i
  | Rdeflns => Ilns <$> cf_deflns cf
  | Rlac i => Ilac <$> cf_laclist cf !! i
  | Rdeflac => Ilac <$> cf_deflac cf
  end.
Definition put_item (cf : config) (data : ref) (it : item) : config :=
  match data, it with
  | Rglobal, Iglobal g r => { cf with cf_global := g; cf_rand_source := r }
  | Rlns i, Ilns n => { cf with cf_lnslist := <[i := n]> (cf_lnslist cf) }
  | Rdeflns, Ilns n => { cf with cf_deflns := Some n }
  | Rlac i, Ilac l => { cf with cf_laclist := <[i := l]> (cf_laclist cf) }
  | Rdeflac, Ilac l => { cf with cf_deflac := Some l }
  | _, _ => cf
  end.

(** What [parse_config] carries from line to line. *)
Record pstate := mkPstate { p_context : Z; p_def : Z; p_data : ref; p_cf : config }.

(** The first entry with the name, by its position. *)
Fixpoint find_entry (names : list (list Z)) (d : list Z) (i : nat) : option (option nat) :=
  match names with
  | [] => Some None
  | a :: names => b ← casecmp_array d a; if (b : bool) then Some (Some i) else find_entry names d (S i)
  end.

(** [\[lns d\]] and [\[lac d\]] when the section is not the default one. *)
Definition enter_lns (d : option (list Z)) (cf : config) : option (ref * config) :=
  found ← match d with Some d => find_entry (lns_entname <$> cf_lnslist cf) d 0 | None => Some None end;
  let '(i, l) := match found with Some i => (i, cf_lnslist cf) | None => (0%nat, new_lns :: cf_lnslist cf) end in
  let l := match d with Some d => alter (λ n, { n with lns_entname := strncpy d }) i l | None => l end in
  Some (Rlns i, { cf with cf_lnslist := l }).
Definition enter_lac (d : option (list Z)) (cf : config) : option (ref * config) :=
  found ← match d with Some d => find_entry (lac_entname <$> cf_laclist cf) d 0 | None => Some None end;
  let '(i, l) := match found with Some i => (i, cf_laclist cf) | None => (0%nat, new_lac :: cf_laclist cf) end in
  let l := match d with Some d => alter (λ c, { c with lac_entname := strncpy d }) i l | None => l end in
  Some (Rlac i, { cf with cf_laclist := l }).

(** A section: [s] is its kind, [d] its parameter.  The result is 0, or -1
    where [parse_config] returns. *)
Definition enter_section (s : list Z) (d : option (list Z)) (st : pstate) : option (Z * pstate) :=
  let def := match d with Some d => if is_word d "default" then CONTEXT_DEFAULT else 0 | None => 0 end in
  let cf := p_cf st in
  if is_word s "global" then Some (0, mkPstate CONTEXT_GLOBAL def Rglobal cf)
  else if is_word s "lns" then
    if truthy def then
      let n := default { new_lns with lns_entname := str "default" } (cf_deflns cf) in
      Some (0, mkPstate CONTEXT_LNS def Rdeflns { cf with cf_deflns := Some n })
    else '(data, cf) ← enter_lns d cf; Some (0, mkPstate CONTEXT_LNS def data cf)
  else if is_word s "lac" then
    if truthy def then
      let l := default { new_lac with lac_entname := str "default" } (cf_deflac cf) in
      Some (0, mkPstate CONTEXT_LAC def Rdeflac { cf with cf_deflac := Some l })
    else '(data, cf) ← enter_lac d cf; Some (0, mkPstate CONTEXT_LAC def data cf)
  else Some (-1, { st with p_def := def }).

(** An option for the current section. *)
Definition apply_option (stack word value : list Z) (st : pstate) : option (Z * pstate) :=
  it ← get_item (p_cf st) (p_data st);
  '(z, it) ← parse_one_option stack word value (Z.lor (p_context st) (p_def st)) it;
  Some (if truthy z then -1 else 0, { st with p_cf := put_item (p_cf st) (p_data st) it }).

(** One line, without comment and white space around it. *)
Definition parse_line (stack s : list Z) (st : pstate) : option (Z * pstate) :=
  match s with
  | [] => Some (0, st)
  | 91 :: s =>
      match strchr 93 s with
      | None => Some (-1, st)
      | Some (s, _) =>
          match strchr 32 s with
          | Some (s, d) => enter_section s (Some d) st
          | None => enter_section s None st
          end
      end
  | s =>
      if negb (truthy (p_context st)) then Some (-1, st)
      else match strchr 61 s with
      | None => Some (-1, st)
      | Some (word, value) => apply_option stack (rstrip word) (lstrip value) st
      end
  end.

(** Everything before the first [;]. *)
Definition strip_comment (s : list Z) : list Z := match strchr 59 s with Some (a, _) => a | None => s end.

(** [stack n] is what the stack holds when line [n] is handled.  Every line
    takes at least one byte of the file. *)
Fixpoint parse_lines (fuel : nat) (stack : nat → list Z) (linenum : nat) (in_comment : bool) (f : list Z)
    (st : pstate) : option (Z * pstate) :=
  match fuel, f with
  | S fuel, _ :: _ =>
      let '(line, f) := fgets_line 1023 f in
      let buf := cstr line in
      match last buf with
      | None => None
      | Some ch =>
          let has_lf := ch =? 10 in
          if in_comment then parse_lines fuel stack linenum (negb has_lf) f st
          else
            let linenum := S linenum in
            let in_comment := bool_decide (59 ∈ buf) && negb has_lf in
            '(z, st) ← parse_line (stack linenum) (rstrip (lstrip (strip_comment buf))) st;
            if truthy z then Some (z, st) else parse_lines fuel stack linenum in_comment f st
      end
  | _, _ => Some (0, st)
  end.

Definition parse_config (stack : nat → list Z) (f : list Z) (cf : config) : option (Z * config) :=
  '(z, st) ← parse_lines (length f) stack 0 false f (mkPstate 0 0 Rnull cf);
  Some (z, p_cf st).

(** The state [init_config] starts from. *)
Definition default_config (cf : config) : config :=
  { cf with
    cf_global := { cf_global cf with g_port := UDP_LISTEN_PORT; g_sarefnum := IP_IPSEC_REFINFO; g_ipsecsaref := 0;
      g_forceuserspace := 0; g_listenaddr := 0; g_debug_avp := 0; g_debug_network := 0; g_packet_dump := 0;
      g_debug_tunnel := 0; g_debug_state := 0; g_max_retries := DEFAULT_MAX_RETRIES; g_cap_backoff := 0 };
    cf_lnslist := []; cf_laclist := []; cf_deflac := Some calloc_lac }.

(** [file] and [altfile] are the contents of the two files, [None] when a file
    cannot be opened. *)
Definition init_config (stack : nat → list Z) (file altfile : option (list Z)) (altauthfile : list Z)
    (cf : config) : option (Z * config) :=
  let cf := default_config cf in
  match file, altfile with
  | Some f, _ => parse_config stack f cf
  | None, Some f => parse_config stack f { cf with cf_global := { cf_global cf with g_authfile := strncpy altauthfile } }
  | None, None => Some (-1, cf)
  end.
End Resolve.

(** ** The command line of the daemon ([init_args] in src/xl2tpd.c)

    [strncpy (a, s, sizeof (a) - 1)] into an array that was cleared. *)
Definition strncpy1 (s : list Z) : list Z := take (Z.to_nat (STRLEN - 1)) s.
Record cmdline := mkCmdline {
  a_configfile : list Z; a_altconfigfile : list Z; a_authfile : list Z; a_altauthfile : list Z;
  a_pidfile : list Z; a_controlfile : list Z; a_controltos : list Z; a_daemon : Z; a_syslog : Z }.
Definition default_cmdline : cmdline :=
  mkCmdline (strncpy1 (str "/etc/xl2tpd/xl2tpd.conf")) (strncpy1 (str "/etc/l2tp/l2tpd.conf"))
    (strncpy1 (str "/etc/xl2tpd/l2tp-secrets")) (strncpy1 (str "/etc/l2tpd/l2tp-secrets"))
    (strncpy1 (str "/var/run/xl2tpd.pid")) (strncpy1 (str "/var/run/xl2tpd/l2tp-control")) [] 1 (-1).

(** [Quit]: the program prints its version or its usage and exits. *)
Inductive parsed := Run (a : cmdline) | Quit (code : Z).
Fixpoint args_loop (a : cmdline) (argv : list (list Z)) : parsed :=
  (* [if (++i == argc) usage (); else store (argv[i]);] *)
  let with_value rest store :=
    match rest with
    | [] => Quit 1
    | v :: rest => match store v with Run a => args_loop a rest | Quit n => Quit n end
    end in
  match argv with
  | [] => Run (if a_syslog a <? 0 then { a with a_syslog := a_daemon a } else a)
  | o :: rest =>
      if starts o "--version" || starts o "-v" then Quit 1
      else if starts o "-c" then with_value rest (λ v, Run { a with a_configfile := strncpy1 v })
      else if starts o "-D" then args_loop { a with a_daemon := 0 } rest
      else if starts o "-l" then args_loop { a with a_syslog := 1 } rest
      else if starts o "-s" then with_value rest (λ v, Run { a with a_authfile := strncpy1 v })
      else if starts o "-p" then with_value rest (λ v, Run { a with a_pidfile := strncpy1 v })
      else if starts o "-C" then with_value rest (λ v, Run { a with a_controlfile := strncpy1 v })
      else if starts o "-q" then
        with_value rest (λ v,
          let v := strncpy1 v in
          if (atoi v <? 0) || (255 <? atoi v) then Quit 1 else Run { a with a_controltos := v })
      else Quit 1
  end.
(** [argv] without the name of the program. *)
Definition init_args (argv : list (list Z)) : parsed := args_loop default_cmdline argv.

(** ** Stripping and searching *)

Lemma blank_char ch : 33 <= ch < 128 → blank ch = false.
Proof. intros H. unfold blank, schar. rewrite (proj2 (Z.leb_gt 128 ch)) by lia. apply Z.ltb_ge. lia. Qed.

Lemma lstrip_app ws s : Forall (λ ch, blank ch = true) ws → lstrip (ws ++ s) = lstrip s.
Proof. induction 1 as [|ch ws H _ IH]; cbn; [done|]. by rewrite H. Qed.
Lemma lstrip_id ch s : blank ch = false → lstrip (ch :: s) = ch :: s.
Proof. cbn. by intros ->. Qed.
Lemma rstrip_blank ws : Forall (λ ch, blank ch = true) ws → rstrip ws = [].
Proof. induction 1 as [|ch ws H _ IH]; cbn; [done|]. by rewrite IH, H. Qed.
Lemma rstrip_app s ws : Forall (λ ch, blank ch = true) ws → rstrip (s ++ ws) = rstrip s.
Proof. intros H. induction s as [|ch s IH]; cbn; [by apply rstrip_blank|]. by rewrite IH. Qed.
Lemma rstrip_snoc s ch : blank ch = false → rstrip (s ++ [ch]) = s ++ [ch].
Proof.
  intros H. induction s as [|x s IH]; cbn; [by rewrite H|]. rewrite IH. by destruct s.
Qed.
Lemma rstrip_keep s t : rstrip t = t → t ≠ [] → rstrip (s ++ t) = s ++ t.
Proof. intros Ht Hn. induction s as [|x s IH]; cbn; [done|]. rewrite IH. by destruct s, t. Qed.
Lemma strchr_app ch a b : Forall (λ x, x ≠ ch) a → strchr ch (a ++ ch :: b) = Some (a, b).
Proof.
  induction 1 as [|x a H _ IH]; cbn; [by rewrite Z.eqb_refl|].
  by rewrite (proj2 (Z.eqb_neq x ch) H), IH.
Qed.
Lemma strchr_none ch a : Forall (λ x, x ≠ ch) a → strchr ch a = None.
Proof. induction 1 as [|x a H _ IH]; cbn; [done|]. by rewrite (proj2 (Z.eqb_neq x ch) H), IH. Qed.
Lemma cstr_id s : Forall (λ x, x ≠ 0) s → cstr s = s.
Proof. induction 1 as [|x s H _ IH]; cbn; [done|]. by rewrite (proj2 (Z.eqb_neq x 0) H), IH. Qed.

(** ** The language of the file

    What a line says, and the ways to write it. *)

Inductive stmt :=
  | Ssection (kind : list Z) (name : option (list Z))
  | Soption (word value : list Z).
(** [lead], [before], [after] and [trail] are white space at the beginning of
    the line, around the [=] and at the end of the line. *)
Record line := Line {
  l_lead : list Z; l_stmt : option stmt; l_before : list Z; l_after : list Z; l_trail : list Z;
  l_comment : option (list Z) }.

Definition print_stmt (before after : list Z) (s : stmt) : list Z :=
  match s with
  | Ssection kind None => 91 :: kind ++ [93]
  | Ssection kind (Some name) => 91 :: kind ++ 32 :: name ++ [93]
  | Soption word value => word ++ before ++ 61 :: after ++ value
  end.
Definition print_text (l : line) : list Z :=
  l_lead l ++ match l_stmt l with Some s => print_stmt (l_before l) (l_after l) s | None => [] end ++ l_trail l.
Definition print_line (l : line) : list Z :=
  print_text l ++ match l_comment l with Some c => 59 :: c | None => [] end ++ [10].
Definition print (ls : list line) : list Z := concat (map print_line ls).

(** The meaning of a file, without any text. *)
Section Meaning.
Context (resolve : list Z → option Z) (stack : nat → list Z).
Definition meaning (linenum : nat) (s : option stmt) (st : pstate) : option (Z * pstate) :=
  match s with
  | None => Some (0, st)
  | Some (Ssection kind name) => enter_section kind name st
  | Some (Soption word value) =>
      if truthy (p_context st) then apply_option resolve (stack linenum) word value st else Some (-1, st)
  end.
Fixpoint interpret (linenum : nat) (ls : list line) (st : pstate) : option (Z * pstate) :=
  match ls with
  | [] => Some (0, st)
  | l :: ls =>
      '(z, st) ← meaning (S linenum) (l_stmt l) st;
      if truthy z then Some (z, st) else interpret (S linenum) ls st
  end.
End Meaning.

(** Text that may stand in a line, outside a comment: no NUL, newline or
    [;], and white space that is a blank and none of them. *)
Definition plain (s : list Z) : Prop := Forall (λ ch, ch ≠ 0 ∧ ch ≠ 10 ∧ ch ≠ 59) s.
Definition white (s : list Z) : Prop := Forall (λ ch, blank ch = true ∧ ch ≠ 0 ∧ ch ≠ 10 ∧ ch ≠ 59) s.
(** The first and the last character are not blank. *)
Definition trimmed (s : list Z) : Prop := lstrip s = s ∧ rstrip s = s.
Definition without (ch : Z) (s : list Z) : Prop := Forall (λ x, x ≠ ch) s.

Definition stmt_ok (s : stmt) : Prop :=
  match s with
  | Ssection kind None => plain kind ∧ without 32 kind ∧ without 93 kind
  | Ssection kind (Some name) => plain kind ∧ without 32 kind ∧ without 93 kind ∧ plain name ∧ without 93 name
  | Soption word value =>
      plain word ∧ trimmed word ∧ word ≠ [] ∧ without 61 word ∧ head word ≠ Some 91 ∧ plain value ∧ trimmed value
  end.
Record line_ok (l : line) : Prop := {
  lk_lead : white (l_lead l); lk_before : white (l_before l); lk_after : white (l_after l);
  lk_trail : white (l_trail l);
  lk_stmt : ∀ s, l_stmt l = Some s → stmt_ok s;
  lk_comment : ∀ c, l_comment l = Some c → Forall (λ ch, ch ≠ 0 ∧ ch ≠ 10) c;
  lk_len : (length (print_line l) <= 1023)%nat }.

Lemma white_blank s : white s → Forall (λ ch, blank ch = true) s.
Proof. intros H. eapply Forall_impl; [done|]. by intros x []. Qed.
Lemma white_plain s : white s → plain s.
Proof. intros H. eapply Forall_impl; [done|]. by intros x []. Qed.
Lemma plain_without ch s : plain s → ch = 0 ∨ ch = 10 ∨ ch = 59 → without ch s.
Proof. intros H Hc. eapply Forall_impl; [done|]. cbn. intros x (?&?&?). by destruct Hc as [->|[->| ->]]. Qed.

Lemma lstrip_nonblank ch s : lstrip (ch :: s) = ch :: s → blank ch = false.
Proof.
  cbn. destruct (blank ch); [|done]. intros E. exfalso.
  assert (∀ t, (length (lstrip t) <= length t)%nat) as Hl.
  { induction t as [|x t IH]; cbn; [lia|]. destruct (blank x); cbn; lia. }
  pose proof (Hl s) as H. rewrite E in H. cbn in H. lia.
Qed.

(** The text of a line is plain; its body is what is left of it. *)
Lemma stmt_plain b a s : white b → white a → stmt_ok s → plain (print_stmt b a s).
Proof.
  intros Hb%white_plain Ha%white_plain Hs. unfold plain in *.
  destruct s as [kind [name|]|word value]; cbn in Hs |- *; destruct_and?;
    repeat first [assumption|apply Forall_cons_2; [lia|]|apply Forall_app_2|apply Forall_nil_2].
Qed.
Lemma text_plain l : line_ok l → plain (print_text l).
Proof.
  intros [Hl Hb Ha Ht Hs _ _]. unfold print_text, plain. rewrite !Forall_app.
  split_and!; [by apply white_plain| |by apply white_plain].
  destruct (l_stmt l) as [s|]; [apply stmt_plain; auto|constructor].
Qed.

Lemma stmt_head b a s : stmt_ok s → ∃ ch t, print_stmt b a s = ch :: t ∧ blank ch = false.
Proof.
  destruct s as [kind [name|]|word value]; cbn; intros Hs; [eexists _, _; split; [done|done]..|].
  destruct Hs as (_ & [Ht _] & Hn & _). destruct word as [|ch word]; [done|].
  eexists _, _. split; [done|]. by eapply lstrip_nonblank.
Qed.

Lemma strip_text l : line_ok l →
  rstrip (lstrip (print_text l)) = match l_stmt l with Some s => rstrip (print_stmt (l_before l) (l_after l) s) | None => [] end.
Proof.
  intros [Hl _ _ Ht Hs _ _]. unfold print_text. rewrite lstrip_app by by apply white_blank.
  destruct (l_stmt l) as [s|]; cbn [app].
  - destruct (stmt_head (l_before l) (l_after l) s (Hs _ eq_refl)) as (ch & t & -> & Hc).
    cbn [app]. rewrite lstrip_id by done. change (ch :: t ++ l_trail l) with ((ch :: t) ++ l_trail l).
    apply rstrip_app. by apply white_blank.
  - apply white_blank in Ht. clear -Ht. assert (lstrip (l_trail l) = []) as ->; [|done].
    rewrite <-(app_nil_r (l_trail l)). by rewrite lstrip_app.
Qed.

Lemma strip_line l : line_ok l →
  rstrip (lstrip (strip_comment (cstr (print_line l)))) =
  match l_stmt l with Some s => rstrip (print_stmt (l_before l) (l_after l) s) | None => [] end.
Proof.
  intros Hl. pose proof (text_plain l Hl) as Hp. rewrite <-strip_text by done.
  assert (Forall (λ x, x ≠ 0) (print_line l)) as Hz.
  { unfold print_line. rewrite !Forall_app. split_and!; [by apply plain_without; auto| |by repeat constructor].
    destruct (l_comment l) as [c|] eqn:Ec; [|constructor]. constructor; [lia|].
    eapply Forall_impl; [by apply (lk_comment l Hl)|]. by intros x []. }
  rewrite cstr_id by done. unfold print_line, strip_comment.
  destruct (l_comment l) as [c|]; cbn [app].
  - by rewrite strchr_app by (apply plain_without; auto).
  - rewrite strchr_none.
    2: { apply Forall_app. split; [by apply plain_without; auto|by repeat constructor]. }
    generalize (print_text l) as t. induction t as [|x t IH]; [done|]. cbn [app lstrip]. destruct (blank x); [done|].
    change (x :: t ++ [10]) with ((x :: t) ++ [10]). by rewrite rstrip_app by by repeat constructor.
Qed.

(** A line that does not open a section. *)
Lemma parse_line_option resolve stack ch s st : ch ≠ 91 →
  parse_line resolve stack (ch :: s) st =
  if negb (truthy (p_context st)) then Some (-1, st)
  else match strchr 61 (ch :: s) with
       | None => Some (-1, st)
       | Some (word, value) => apply_option resolve stack (rstrip word) (lstrip value) st
       end.
Proof.
  intros Hc. cbn [parse_line].
  repeat match goal with |- context [match ?p with _ => _ end] => is_var p; destruct p end; done.
Qed.

(** The word and the value of an option. *)
Lemma split_option b a word value : white b → white a → stmt_ok (Soption word value) →
  ∃ ch t x y, rstrip (print_stmt b a (Soption word value)) = ch :: t ∧ ch ≠ 91 ∧
    strchr 61 (ch :: t) = Some (x, y) ∧ rstrip x = word ∧ lstrip y = value.
Proof.
  intros Hb Ha (_ & [Hl Hr] & Hn & He & H91 & _ & [Hvl Hvr]). cbn [print_stmt].
  set (y := match value with [] => [] | _ => a ++ value end).
  assert (rstrip (word ++ b ++ 61 :: a ++ value) = (word ++ b) ++ 61 :: y) as Et.
  { subst y. destruct value as [|v vs].
    - rewrite app_nil_r, app_assoc. change (61 :: a) with ([61] ++ a). rewrite app_assoc.
      rewrite rstrip_app by by apply white_blank. by rewrite rstrip_snoc.
    - rewrite !app_assoc. change (61 :: a ++ v :: vs) with ((61 :: a) ++ v :: vs). rewrite app_assoc.
      by rewrite rstrip_keep. }
  assert (strchr 61 ((word ++ b) ++ 61 :: y) = Some (word ++ b, y)) as Hc.
  { apply strchr_app. apply Forall_app. split; [done|]. eapply Forall_impl; [done|].
    cbn. intros x [Hx _] ->. vm_compute in Hx. done. }
  destruct word as [|w word]; [done|]. exists w, ((word ++ b) ++ 61 :: y), ((w :: word) ++ b), y.
  split_and!; [done|intros ->; by apply H91|done| |].
  - by rewrite rstrip_app by by apply white_blank.
  - subst y. destruct value as [|v vs]; [done|]. by rewrite lstrip_app by by apply white_blank.
Qed.

(** The parser reads back a statement. *)
Lemma parse_stmt resolve stack n b a s st : white b → white a → stmt_ok s →
  parse_line resolve (stack n) (rstrip (print_stmt b a s)) st = meaning resolve stack n (Some s) st.
Proof.
  intros Hb Ha Hs. destruct s as [kind [name|]|word value].
  - destruct Hs as (_ & Hk & Hk' & _ & Hn). cbn [print_stmt].
    change (91 :: kind ++ 32 :: name ++ [93]) with ((91 :: kind) ++ (32 :: name) ++ [93]).
    rewrite app_assoc, rstrip_snoc by done. cbn [app parse_line]. rewrite strchr_app.
    + by rewrite strchr_app.
    + apply Forall_app. split; [done|]. by constructor.
  - destruct Hs as (_ & Hk & Hk'). cbn [print_stmt].
    change (91 :: kind ++ [93]) with ((91 :: kind) ++ [93]). rewrite rstrip_snoc by done.
    cbn [app parse_line]. rewrite strchr_app by done. by rewrite strchr_none.
  - destruct (split_option b a word value Hb Ha Hs) as (ch & t & x & y & -> & Hc & Ex & <- & <-).
    rewrite parse_line_option, Ex by done. cbn [meaning]. by destruct (truthy _).
Qed.

Lemma line_chars l : line_ok l → ∃ w, print_line l = w ++ [10] ∧ Forall (λ ch, ch ≠ 0) w ∧ Forall (λ ch, ch ≠ 10) w.
Proof.
  intros Hl. pose proof (text_plain l Hl) as Hp.
  exists (print_text l ++ match l_comment l with Some c => 59 :: c | None => [] end). unfold print_line.
  split; [by rewrite app_assoc|]. destruct (l_comment l) as [c|] eqn:Ec.
  - pose proof (lk_comment l Hl c Ec) as Hc.
    split; (apply Forall_app; split; [by apply plain_without; auto|]; constructor; [lia|]);
      (eapply Forall_impl; [done|]); by intros x [].
  - rewrite app_nil_r. split; apply plain_without; auto.
Qed.

Lemma parse_print resolve stack ls : Forall line_ok ls → ∀ fuel n st, (length (print ls) <= fuel)%nat →
  parse_lines resolve fuel stack n false (print ls) st = interpret resolve stack n ls st.
Proof.
  induction 1 as [|l ls Hl Hls IH]; intros fuel n st Hf.
  - by destruct fuel.
  - destruct (line_chars l Hl) as (w & Ew & Hz & Hn). unfold print in Hf |- *. cbn [map concat] in Hf |- *.
    fold (print ls) in Hf |- *. rewrite length_app in Hf.
    pose proof (lk_len l Hl) as Hlen. pose proof (strip_line l Hl) as Hs.
    rewrite Ew, length_app in Hf, Hlen. cbn [length] in Hf, Hlen.
    destruct fuel as [|fuel]; [lia|].
    assert (∃ ch f, print_line l ++ print ls = ch :: f) as (ch & f & E) by (rewrite Ew; destruct w; eauto).
    assert (fgets_line 1023 (ch :: f) = (print_line l, print ls)) as Hg.
    { rewrite <-E, Ew, <-app_assoc. cbn [app]. apply fgets_line_app; [done|lia]. }
    rewrite E. cbn [parse_lines interpret]. rewrite Hg, Hs.
    rewrite Ew, cstr_id by (apply Forall_app; split; [done|by repeat constructor]). rewrite last_snoc.
    rewrite andb_false_r. cbn [Z.eqb Pos.eqb].
    assert (parse_line resolve (stack (S n)) (match l_stmt l with Some s => rstrip (print_stmt (l_before l) (l_after l) s) | None => [] end) st
      = meaning resolve stack (S n) (l_stmt l) st) as ->.
    { destruct (l_stmt l) as [s|] eqn:Est; [|done]. destruct Hl. apply parse_stmt; auto. }
    destruct (meaning _ _ _ _ _) as [[z st']|]; [|done]. cbn [mbind option_bind].
    destruct (truthy z); [done|]. apply IH. lia.
Qed.

(** One line of the file takes at least one byte, so the fuel [parse_config]
    gives is enough: more changes nothing. *)
Lemma fgets_shorter n f : (length (fgets_line n f).2 <= length f)%nat.
Proof.
  revert f. induction n as [|n IH]; intros [|ch f]; cbn; try lia. destruct (ch =? 10); cbn; [lia|].
  specialize (IH f). destruct (fgets_line n f). cbn in *. lia.
Qed.
Lemma fgets_consumes n ch f : (length (fgets_line (S n) (ch :: f)).2 <= length f)%nat.
Proof.
  cbn [fgets_line]. destruct (ch =? 10); [done|]. pose proof (fgets_shorter n f).
  destruct (fgets_line n f). done.
Qed.
Lemma parse_lines_fuel resolve stack : ∀ fuel fuel' n c f st,
  (length f <= fuel)%nat → (length f <= fuel')%nat →
  parse_lines resolve fuel stack n c f st = parse_lines resolve fuel' stack n c f st.
Proof.
  induction fuel as [|fuel IH]; intros fuel' n c f st Hf Hf'.
  - destruct f; [by destruct fuel'|cbn in Hf; lia].
  - destruct f as [|ch f]; [by destruct fuel'|]. destruct fuel' as [|fuel']; [cbn in Hf'; lia|].
    cbn [parse_lines]. assert (length (fgets_line 1023 (ch :: f)).2 <= length f)%nat as Hl.
    { apply (fgets_consumes 1022). }
    destruct (fgets_line 1023 (ch :: f)) as [line rest]. cbn [snd length] in *.
    destruct (last (cstr line)) as [x|]; [|done]. destruct c; [apply IH; lia|].
    destruct (parse_line _ _ _ _) as [[z st']|]; [|done]. cbn [mbind option_bind].
    destruct (truthy z); [done|]. apply IH; lia.
Qed.

(** ** Valid configurations *)

Definition flag (z : Z) : Prop := z = 0 ∨ z = 1.
Definition fits (s : list Z) : Prop := blen s <= STRLEN.
Definition range_valid (r : iprange) : Prop :=
  ntohl (r_start r) <= ntohl (r_end r) ∧ (r_sense r = SENSE_ALLOW ∨ r_sense r = SENSE_DENY).

Record global_valid (g : global) : Prop := {
  gv_port : 0 <= g_port g; gv_retries : 0 <= g_max_retries g; gv_backoff : 0 <= g_cap_backoff g;
  gv_sarefnum : 0 <= g_sarefnum g; gv_authfile : fits (g_authfile g);
  gv_access : flag (g_accesscontrol g); gv_userspace : flag (g_forceuserspace g); gv_dump : flag (g_packet_dump g);
  gv_avp : flag (g_debug_avp g); gv_network : flag (g_debug_network g); gv_tunnel : flag (g_debug_tunnel g);
  gv_state : flag (g_debug_state g); gv_saref : flag (g_ipsecsaref g) }.

(** A local address and a range of local addresses exclude each other. *)
Record lns_valid (n : lns) : Prop := {
  nv_tun_rws : 1 <= lns_tun_rws n; nv_call_rws : -1 <= lns_call_rws n;
  nv_rx : 1 <= lns_rxspeed n; nv_tx : 1 <= lns_txspeed n;
  nv_local : lns_localaddr n = 0 ∨ lns_localrange n = [];
  nv_lacs : Forall range_valid (lns_lacs n); nv_range : Forall range_valid (lns_range n);
  nv_localrange : Forall range_valid (lns_localrange n);
  nv_authname : fits (lns_authname n); nv_hostname : fits (lns_hostname n); nv_entname : fits (lns_entname n);
  nv_pppoptfile : fits (lns_pppoptfile n);
  nv_exclusive : flag (lns_exclusive n); nv_hbit : flag (lns_hbit n); nv_lbit : flag (lns_lbit n);
  nv_challenge : flag (lns_challenge n); nv_authpeer : flag (lns_authpeer n);
  nv_authself : lns_authself n = -1 ∨ flag (lns_authself n); nv_assign : flag (lns_assign_ip n);
  nv_passwd : flag (lns_passwdauth n); nv_pap : flag (lns_pap_require n); nv_chap : flag (lns_chap_require n);
  nv_nopap : flag (lns_pap_refuse n); nv_nochap : flag (lns_chap_refuse n); nv_debug : flag (lns_debug n);
  nv_pass : flag (lns_pass_peer n); nv_t : lns_t n = None }.

(** The default section is not made by [new_lac]: [lo] is what a window or a
    timeout is at least. *)
Record lac_valid (lo : Z) (l : lac) : Prop := {
  cv_tun_rws : lo <= lac_tun_rws l; cv_rtimeout : lo <= lac_rtimeout l;
  cv_call_rws : -1 <= lac_call_rws l; cv_rmax : 0 <= lac_rmax l;
  cv_rx : 0 <= lac_rxspeed l; cv_tx : 0 <= lac_txspeed l;
  cv_hosts : Forall (λ h, fits h.1) (lac_lns l);
  cv_authname : fits (lac_authname l); cv_hostname : fits (lac_hostname l); cv_entname : fits (lac_entname l);
  cv_pppoptfile : fits (lac_pppoptfile l);
  cv_hbit : flag (lac_hbit l); cv_lbit : flag (lac_lbit l); cv_challenge : flag (lac_challenge l);
  cv_authpeer : flag (lac_authpeer l); cv_authself : lac_authself l = -1 ∨ flag (lac_authself l);
  cv_pap : flag (lac_pap_require l); cv_chap : flag (lac_chap_require l);
  cv_nopap : flag (lac_pap_refuse l); cv_nochap : flag (lac_chap_refuse l);
  cv_autodial : flag (lac_autodial l); cv_route : flag (lac_defaultroute l); cv_redial : flag (lac_redial l);
  cv_pass : flag (lac_pass_peer l); cv_debug : flag (lac_debug l);
  cv_active : lac_active l = 0; cv_rtries : lac_rtries l = 0; cv_rsched : lac_rsched l = None;
  cv_t : lac_t l = None; cv_c : lac_c l = None }.

Definition item_valid (lo : Z) (it : item) : Prop :=
  match it with Iglobal g _ => global_valid g | Ilns n => lns_valid n | Ilac l => lac_valid lo l end.

Record config_valid (cf : config) : Prop := {
  fv_global : global_valid (cf_global cf);
  fv_lnslist : Forall lns_valid (cf_lnslist cf);
  fv_deflns : ∀ n, cf_deflns cf = Some n → lns_valid n;
  fv_laclist : Forall (lac_valid 1) (cf_laclist cf);
  fv_deflac : ∀ l, cf_deflac cf = Some l → lac_valid 0 l }.

Lemma yesno_flag value : yesno value < 0 ∨ flag (yesno value).
Proof. unfold yesno, flag. repeat case_match; lia. Qed.
Lemma fits_strncpy s : fits (strncpy s).
Proof. unfold fits, strncpy, blen, STRLEN. rewrite length_take. lia. Qed.
#[local] Hint Resolve fits_strncpy : core.

(** What every handler keeps; [keeps P f] is the same for one case of its
    [switch]. *)
Definition sound (lo : Z) (h : handler) : Prop := ∀ word value context it it',
  item_valid lo it → h word value context it = Some (0, it') → item_valid lo it'.
Definition keeps {X} (P : X → Prop) (f : option (X → option (Z * X))) : Prop :=
  match f with None => True | Some f => ∀ o o', P o → f o = Some (0, o') → P o' end.

Section Sound.
Context {X : Type} (P : X → Prop) (value : list Z).
Lemma keeps_boolean ptr : (∀ v o, flag v → P o → P (ptr v o)) → keeps P (boolean value ptr).
Proof.
  intros H o o' Ho. unfold set_boolean. destruct (yesno_flag value) as [Hy|Hy].
  - by rewrite (proj2 (Z.ltb_lt _ _) Hy).
  - rewrite (proj2 (Z.ltb_ge _ _)) by (unfold flag in Hy; lia). cbn. intros [= <-]. auto.
Qed.
Lemma set_int_keeps ptr o : (∀ o, 0 <= atoi value → P o → P (ptr (atoi value) o)) → P o → P (set_int value ptr o).2.
Proof. intros H Ho. unfold set_int. destruct (Z.ltb_spec (atoi value) 0); [done|]. by apply H. Qed.
Lemma keeps_integer ptr : (∀ o, 0 <= atoi value → P o → P (ptr (atoi value) o)) → keeps P (integer value ptr).
Proof. intros H o o' Ho [= <-]. by apply set_int_keeps. Qed.
Lemma keeps_text ptr : (∀ v o, fits v → P o → P (ptr v o)) → keeps P (text value ptr).
Proof. intros H o o' Ho [= <-]. auto. Qed.
Lemma keeps_ip resolve ptr o o' : (∀ v o, P o → P (ptr v o)) → P o →
  set_ip resolve value ptr o = (0, o') → P o'.
Proof. intros H Ho. unfold set_ip. destruct (resolve value); [|done]. intros [= <-]. auto. Qed.
End Sound.

Lemma sound_by_context lo context it it' fg fn fc :
  keeps global_valid fg → keeps lns_valid fn → keeps (lac_valid lo) fc →
  item_valid lo it → by_context context it fg fn fc = Some (0, it') → item_valid lo it'.
Proof.
  intros Hg Hn Hc Hi. unfold by_context.
  destruct (_ =? CONTEXT_GLOBAL), (_ =? CONTEXT_LNS), (_ =? CONTEXT_LAC), fg as [f1|], fn as [f2|], fc as [f3|], it as [g r|n|l];
    try done; cbn [item_valid keeps] in *;
    match goal with |- context [?f ?x ≫= _] => destruct (f x) as [[? ?]|] eqn:E; cbn; [|done] end;
    intros [= -> <-]; cbn; eauto.
Qed.

(** Setting a field keeps the others. *)
Ltac valid :=
  repeat match goal with
    | H : global_valid _ |- _ => destruct H | H : lns_valid _ |- _ => destruct H | H : lac_valid _ _ |- _ => destruct H
    end; split; cbn in *; auto; try lia.
Ltac sound_handler h :=
  intros word value context it it' Hi; unfold h;
  try (match goal with |- context [if ?b then Some (-1, _) else _] => destruct b eqn:?; [done|] end);
  apply sound_by_context; try exact I; try exact Hi;
  try (first [apply keeps_boolean|apply keeps_integer|apply keeps_text]; intros; valid).

Section Handlers.
Context (resolve : list Z → option Z) (stack : list Z) (lo : Z) (Hlo : lo <= 1).

Lemma sound_simple : Forall (sound lo)
  [set_port; set_saref_num; set_exclusive; set_autodial; set_redial; set_rtimeout; set_rmax;
   set_accesscontrol; set_userspace; set_debugavp; set_debugnetwork; set_debugpacket; set_debugtunnel;
   set_debugstate; set_assignip; set_defaultroute; set_lbit; set_hbit; set_passwdauth; set_authname; set_hostname;
   set_debug; set_pass_peer; set_pppoptfile; set_challenge; set_maxretries; set_capbackoff].
Proof.
  repeat (apply Forall_cons; split; [match goal with |- sound _ ?h => sound_handler h end|]); constructor.
Qed.
Lemma sound_authfile : sound lo set_authfile.
Proof. sound_handler set_authfile. intros g g' Hg [= <-]. valid. Qed.

Lemma sound_rws : sound lo set_rws.
Proof.
  sound_handler set_rws.
  - intros n n' Hn. cbn beta.
    assert (∀ n, lns_valid n → lns_valid (set_int value (λ v n, { n with lns_call_rws := v }) n).2) as Hc
      by (intros; apply set_int_keeps; [|done]; intros; valid).
    set (n1 := if first_is word 99 then _ else n).
    assert (lns_valid n1) as H1 by (subst n1; destruct (first_is word 99); auto). clearbody n1.
    destruct (first_is word 116); [|by intros [= <-]]. unfold set_int.
    destruct (Z.ltb_spec (atoi value) 0); cbn; (case_match; [done|]); intros [= <-]; valid.
  - intros l l' Hl. cbn beta.
    assert (∀ l, lac_valid lo l → lac_valid lo (set_int value (λ v l, { l with lac_call_rws := v }) l).2) as Hc
      by (intros; apply set_int_keeps; [|done]; intros; valid).
    set (l1 := if first_is word 99 then _ else l).
    assert (lac_valid lo l1) as H1 by (subst l1; destruct (first_is word 99); auto). clearbody l1.
    destruct (first_is word 116); [|by intros [= <-]]. unfold set_int.
    destruct (Z.ltb_spec (atoi value) 0); cbn; (case_match; [done|]); intros [= <-]; valid.
Qed.

Lemma sound_speed : sound lo set_speed.
Proof.
  sound_handler set_speed; intros o o' Ho [= <-]; cbn beta;
    repeat match goal with |- context [if ?b then _ else _] => destruct b end;
    repeat (apply set_int_keeps; [intros; valid|]); done.
Qed.

Lemma sound_flow : sound lo set_flow.
Proof. sound_handler set_flow; intros o o' Ho [= <-]; cbn beta; repeat case_match; try done; valid. Qed.

Lemma sound_papchap : sound lo set_papchap.
Proof.
  intros word value context it it' Hi. unfold set_papchap, set_boolean.
  destruct (yesno_flag value) as [Hy|Hy]; [by rewrite (proj2 (Z.ltb_lt _ _) Hy)|].
  rewrite (proj2 (Z.ltb_ge _ _)) by (unfold flag in Hy; lia). cbn [truthy Z.eqb negb].
  destruct (strchr 32 word) as [[? c]|]; [|done].
  assert (flag (if truthy (yesno value) then 0 else 1)) as Hn by (unfold flag; destruct (truthy _); lia).
  apply sound_by_context; [done| | |done]; intros o o' Ho [= <-]; cbn beta;
    repeat match goal with |- context [if first_is ?a ?b then _ else _] => destruct (first_is a b) end;
    destruct (bool_decide _); valid.
Qed.

(** *** Addresses *)

Lemma set_range_valid word value l l' : Forall range_valid l →
  set_range resolve stack word value l = Some (Some l') → Forall range_valid l'.
Proof.
  intros Hl. unfold set_range. destruct (match strchr 45 value with Some _ => _ | None => _ end) as [v d].
  destruct (_ || _); [done|]. destruct (resolve v) as [start|]; [|done].
  destruct (match d with Some _ => _ | None => _ end) as [[last|]|]; cbn [mbind option_bind]; [|done..].
  destruct (Z.ltb_spec (ntohl last) (ntohl start)); [done|]. intros [= <-].
  apply Forall_app. split; [done|]. apply Forall_singleton. split; cbn; [lia|]. destruct (first_is word 110); auto.
Qed.
Lemma store_range_valid word value get put n n' :
  Forall range_valid (get n) → (∀ l, Forall range_valid l → lns_valid (put l n)) →
  store_range resolve stack word value get put n = Some (0, n') → lns_valid n'.
Proof.
  intros Hg Hp. unfold store_range. destruct (set_range _ _ _ _ _) as [[l|]|] eqn:E; cbn; [|done..].
  intros [= <-]. apply Hp. by eapply set_range_valid.
Qed.

Lemma sound_ranges : Forall (sound lo) [set_iprange resolve stack; set_localiprange resolve stack; set_lac resolve stack].
Proof.
  repeat (apply Forall_cons; split); try constructor; intros word value context it it' Hi;
    (apply sound_by_context; [done| |done|done]); intros n n' Hn.
  - apply store_range_valid; [by apply nv_range|]. intros. valid.
  - destruct (truthy (lns_localaddr n)) eqn:E; [done|].
    apply store_range_valid; [by apply nv_localrange|]. intros. unfold truthy in E.
    destruct (Z.eqb_spec (lns_localaddr n) 0); [|done]. valid.
  - apply store_range_valid; [by apply nv_lacs|]. intros. valid.
Qed.

Lemma sound_addrs : Forall (sound lo) [set_listenaddr resolve; set_localaddr resolve; set_remoteaddr resolve; set_lns].
Proof.
  repeat (apply Forall_cons; split); try constructor; intros word value context it it' Hi;
    (apply sound_by_context; try exact I; try exact Hi).
  - intros g g' Hg. cbn beta. destruct (set_ip _ _ _ _) as [z g1] eqn:E. destruct (truthy z) eqn:Ez; [done|].
    intros [= <-]. assert (z = 0) as -> by (unfold truthy in Ez; destruct (Z.eqb_spec z 0); done).
    eapply (keeps_ip global_valid); [|exact Hg|exact E]. intros. valid.
  - intros n n' Hn. cbn beta. destruct (lns_localrange n) eqn:El; [|done]. intros [= E].
    eapply (keeps_ip (λ n, lns_valid n ∧ lns_localrange n = [])); [|by split|exact E].
    intros v o [Ho Hr]. split; [|done]. valid.
  - intros l l' Hl. cbn beta. intros [= E]. eapply (keeps_ip (lac_valid lo)); [|exact Hl|exact E]. intros. valid.
  - intros l l' Hl. cbn beta. intros [= E]. eapply (keeps_ip (lac_valid lo)); [|exact Hl|exact E]. intros. valid.
  - intros l l' Hl. cbn beta. destruct (strchr 58 value) as [[h d]|]; intros [= <-]; valid;
      apply Forall_app; (split; [done|]); repeat constructor; cbn; auto.
Qed.

Lemma sound_saref : sound lo set_ipsec_saref.
Proof.
  intros word value context it it' Hi. apply sound_by_context; [|done..]. intros g g' Hg. cbn beta.
  unfold set_boolean. destruct (yesno_flag value) as [Hy|Hy]; [by rewrite (proj2 (Z.ltb_lt _ _) Hy)|].
  rewrite (proj2 (Z.ltb_ge _ _)) by (unfold flag in Hy; lia). cbn [truthy Z.eqb negb].
  destruct (_ && _); intros [= <-]; valid. by right.
Qed.
Lemma sound_rand : sound lo set_rand_source.
Proof.
  intros word value context it it' Hi. unfold set_rand_source. destruct (negb _); [done|].
  destruct it as [g r|n|l]; [|done..]. repeat case_match; try done; by intros [= <-].
Qed.
End Handlers.

Section Whole.
Context (resolve : list Z → option Z).

Lemma sound_words lo stack : lo <= 1 → Forall (λ kw, sound lo kw.2) (words resolve stack).
Proof.
  intros Hlo. pose proof (sound_simple lo Hlo) as Hs. pose proof (sound_addrs resolve lo) as Ha.
  pose proof (sound_ranges resolve stack lo) as Hr.
  repeat match goal with H : Forall _ (_ :: _) |- _ => apply Forall_cons in H as [? H] end. unfold words.
  repeat (apply Forall_cons; split; [cbn [snd]; eauto using sound_rand, sound_authfile, sound_saref, sound_rws,
    sound_speed, sound_flow, sound_papchap|]). constructor.
Qed.

Lemma find_keyword_in kws word h : find_keyword kws word = Some h → ∃ kw, (kw, h) ∈ kws ∧ is_word word kw = true.
Proof.
  induction kws as [|[kw h'] kws IH]; cbn; [done|]. destruct (is_word word kw) eqn:E.
  - intros [= ->]. exists kw. split; [by constructor|done].
  - intros (kw' & Hi & Hw)%IH. exists kw'. split; [by constructor|done].
Qed.

Lemma parse_one_option_valid lo stack word value context it it' : lo <= 1 →
  item_valid lo it → parse_one_option resolve stack word value context it = Some (0, it') → item_valid lo it'.
Proof.
  intros Hlo Hi. unfold parse_one_option. destruct (find_keyword _ _) as [h|] eqn:E; [|done].
  apply find_keyword_in in E as (kw & Hin & _).
  pose proof (proj1 (Forall_forall _ _) (sound_words lo stack Hlo) _ Hin) as Hh. cbn in Hh.
  destruct (h word value context it) as [[z it1]|] eqn:Eh; [|done]. cbn.
  destruct (truthy z) eqn:Ez; [done|]. intros [= <-].
  assert (z = 0) as -> by (unfold truthy in Ez; destruct (Z.eqb_spec z 0); done). by eapply Hh.
Qed.

(** Sections. *)
Lemma new_lns_valid : lns_valid new_lns.
Proof. split; first [apply Forall_nil_2|reflexivity|left; reflexivity|right; reflexivity|vm_compute; discriminate|right; left; reflexivity]. Qed.
Lemma new_lac_valid : lac_valid 1 new_lac.
Proof. split; first [apply Forall_nil_2|reflexivity|left; reflexivity|right; reflexivity|vm_compute; discriminate|right; left; reflexivity]. Qed.
Lemma calloc_lac_valid : lac_valid 0 calloc_lac.
Proof. split; first [apply Forall_nil_2|reflexivity|left; reflexivity|right; reflexivity|vm_compute; discriminate|right; left; reflexivity]. Qed.
Lemma lac_valid_le l : lac_valid 1 l → lac_valid 0 l.
Proof. intros H. valid. Qed.

Definition ref_lo (data : ref) : Z := match data with Rdeflac => 0 | _ => 1 end.
Lemma get_item_valid cf data it : config_valid cf → get_item cf data = Some it → item_valid (ref_lo data) it.
Proof.
  intros [Hg Hn Hdn Hl Hdl]. destruct data as [| |i| |i|]; cbn; try done.
  - by intros [= <-].
  - intros (n & H & ->)%fmap_Some. cbn. eapply Forall_lookup_1; [|exact H]. exact Hn || exact Hl.
  - intros (n & H & ->)%fmap_Some. cbn. auto.
  - intros (n & H & ->)%fmap_Some. cbn. eapply Forall_lookup_1; [|exact H]. exact Hn || exact Hl.
  - intros (n & H & ->)%fmap_Some. cbn. auto.
Qed.
Lemma put_item_valid cf data it : config_valid cf → item_valid (ref_lo data) it → config_valid (put_item cf data it).
Proof.
  intros [Hg Hn Hdn Hl Hdl]. destruct data as [| |i| |i|], it as [g r|n|l]; cbn; intros Hi; split; cbn; auto;
    try (by apply Forall_insert); by intros ? [= <-].
Qed.

Lemma enter_section_valid s d st st' : config_valid (p_cf st) → enter_section s d st = Some (0, st') →
  config_valid (p_cf st').
Proof.
  intros Hv. unfold enter_section.
  set (def := match d with Some d => _ | None => 0 end). clearbody def.
  destruct (is_word s "global"); [by intros [= <-]|].
  destruct (is_word s "lns").
  { destruct (truthy def).
    - intros [= <-]. cbn. destruct Hv as [Hg Hn Hdn Hl Hdl]. split; cbn; auto.
      intros n [= <-]. destruct (cf_deflns (p_cf st)); [by apply Hdn|]. pose proof new_lns_valid. valid.
    - destruct (enter_lns d (p_cf st)) as [[data cf]|] eqn:E; [|done]. intros [= <-]. cbn.
      revert E. unfold enter_lns. destruct (match d with Some d => _ | None => _ end) as [found|]; [|done]. cbn.
      destruct Hv as [Hg Hn Hdn Hl Hdl].
      assert (∀ i l, Forall lns_valid l → Forall lns_valid
        match d with Some d => alter (λ n : lns, { n with lns_entname := strncpy d }) i l | None => l end) as Ha.
      { intros i l Hf. destruct d as [d|]; [|done]. apply Forall_alter; [done|]. intros n _ Hn'. valid. }
      destruct found as [i|]; intros [= <- <-]; split; cbn; auto.
      apply (Ha 0%nat (new_lns :: _)). constructor; [apply new_lns_valid|done]. }
  destruct (is_word s "lac"); [|done].
  destruct (truthy def).
  - intros [= <-]. cbn. destruct Hv as [Hg Hn Hdn Hl Hdl]. split; cbn; auto.
    intros l [= <-]. destruct (cf_deflac (p_cf st)); [by apply Hdl|].
    pose proof (lac_valid_le _ new_lac_valid). valid.
  - destruct (enter_lac d (p_cf st)) as [[data cf]|] eqn:E; [|done]. intros [= <-]. cbn.
    revert E. unfold enter_lac. destruct (match d with Some d => _ | None => _ end) as [found|]; [|done]. cbn.
    destruct Hv as [Hg Hn Hdn Hl Hdl].
    assert (∀ i l, Forall (lac_valid 1) l → Forall (lac_valid 1)
      match d with Some d => alter (λ n : lac, { n with lac_entname := strncpy d }) i l | None => l end) as Ha.
    { intros i l Hf. destruct d as [d|]; [|done]. apply Forall_alter; [done|]. intros n _ Hn'. valid. }
    destruct found as [i|]; intros [= <- <-]; split; cbn; auto.
    apply (Ha 0%nat (new_lac :: _)). constructor; [apply new_lac_valid|done].
Qed.

Lemma apply_option_valid stack word value st st' : config_valid (p_cf st) →
  apply_option resolve stack word value st = Some (0, st') → config_valid (p_cf st').
Proof.
  intros Hv. unfold apply_option. destruct (get_item _ _) as [it|] eqn:Eg; [|done]. cbn.
  destruct (parse_one_option _ _ _ _ _ _) as [[z it']|] eqn:E; [|done]. cbn.
  destruct (truthy z) eqn:Ez; [done|]. intros [= <-]. cbn.
  assert (z = 0) as -> by (unfold truthy in Ez; destruct (Z.eqb_spec z 0); done).
  apply put_item_valid; [done|]. eapply parse_one_option_valid; [|by eapply get_item_valid|exact E].
  destruct (p_data st); cbn; lia.
Qed.

Lemma parse_line_valid stack s st st' : config_valid (p_cf st) →
  parse_line resolve stack s st = Some (0, st') → config_valid (p_cf st').
Proof.
  intros Hv H. destruct s as [|ch s]; [cbn in H; by simplify_eq|].
  destruct (decide (ch = 91)) as [->|Hc].
  - cbn [parse_line] in H. destruct (strchr 93 s) as [[s1 ?]|]; [|done].
    destruct (strchr 32 s1) as [[s2 d]|]; by eapply enter_section_valid.
  - rewrite parse_line_option in H by done. destruct (negb _); [done|].
    destruct (strchr 61 (ch :: s)) as [[w v]|]; [|done]. by eapply apply_option_valid.
Qed.

Lemma parse_lines_valid stack fuel : ∀ n c f st st', config_valid (p_cf st) →
  parse_lines resolve fuel stack n c f st = Some (0, st') → config_valid (p_cf st').
Proof.
  induction fuel as [|fuel IH]; intros n c f st st' Hv; [by intros [= <-]|].
  destruct f as [|ch f]; [by intros [= <-]|]. cbn [parse_lines].
  destruct (fgets_line 1023 (ch :: f)) as [line rest]. destruct (last (cstr line)) as [x|]; [|done].
  destruct c; [by apply IH|].
  destruct (parse_line _ _ _ _) as [[z st1]|] eqn:E; [|done]. cbn [mbind option_bind].
  destruct (truthy z) eqn:Ez; [by intros [= -> ->]|].
  assert (z = 0) as -> by (unfold truthy in Ez; destruct (Z.eqb_spec z 0); done).
  apply IH. by eapply parse_line_valid.
Qed.
Lemma parse_config_valid stack f cf cf' : config_valid cf →
  parse_config resolve stack f cf = Some (0, cf') → config_valid cf'.
Proof.
  intros Hv. unfold parse_config. destruct (parse_lines _ _ _ _ _ _ _) as [[z st]|] eqn:E; [|done].
  intros [= -> <-]. by eapply parse_lines_valid in E.
Qed.
End Whole.

(** ** The end of a range *)

Lemma dots_app a b : dots (a ++ b) = dots a + dots b.
Proof. unfold dots. rewrite filter_app, length_app. lia. Qed.
Lemma dots_none s : without 46 s → dots s = 0.
Proof.
  intros H. unfold dots. induction H as [|x s Hx _ IH]; [done|]. by rewrite filter_cons_False.
Qed.
Lemma dots_nonneg s : 0 <= dots s.
Proof. unfold dots. lia. Qed.

(** Going down over a stretch with no more dots than [count]. *)
Lemma last_field_skip a b c count : dots b <= count →
  last_field (length (a ++ b)) (a ++ b ++ c) count = last_field (length a) (a ++ b ++ c) (count - dots b).
Proof.
  revert c count. induction b as [|ch b IH] using rev_ind; intros c count Hd.
  - rewrite app_nil_r. by rewrite Z.sub_0_r.
  - rewrite dots_app in Hd |- *. pose proof (dots_nonneg b). pose proof (dots_nonneg [ch]).
    rewrite <-app_assoc, (app_assoc a b [ch]), (length_app (a ++ b)). cbn [length app].
    rewrite Nat.add_1_r. cbn [last_field].
    replace (bool_decide ((a ++ b ++ ch :: c) !! length (a ++ b) = Some 46)) with (bool_decide (ch = 46)).
    2: { rewrite (app_assoc a b), lookup_app_r, Nat.sub_diag by done. cbn. apply bool_decide_ext. naive_solver. }
    assert (dots [ch] = if bool_decide (ch = 46) then 1 else 0) as Hc.
    { unfold dots. rewrite filter_cons. destruct (decide (ch = 46)); case_bool_decide; done. }
    destruct (bool_decide (ch = 46)); rewrite Hc in *;
      (rewrite (proj2 (Z.ltb_ge _ _)) by lia); rewrite IH by lia; f_equal; lia.
Qed.

(** The shorthand: [hi] replaces as many fields at the end of the start as it
    has itself. *)
Lemma range_end_fields stack q lo hi :
  length stack = 17%nat → without 46 stack → dots lo = dots hi → dots hi < 3 → hi ≠ [] →
  without 0 q → without 0 hi →
  blen (q ++ 46 :: lo) < IP_HI → blen (q ++ 46 :: hi) < IP_HI →
  range_end stack (q ++ 46 :: lo) hi = Some (q ++ 46 :: hi).
Proof.
  intros Hs Hd Hk Hk3 Hn Hq Hz Hlo Hhi. unfold range_end.
  rewrite (proj2 (Z.ltb_lt _ _)) by done. rewrite (proj2 (Z.ltb_ge IP_HI _)) by (unfold IP_HI in *; lia).
  set (value := q ++ 46 :: lo) in *. set (post := drop (length value + 1) stack).
  assert (stn stack 0 (value ++ [0]) = Some (value ++ 0 :: post)) as ->.
  { apply stn_Some. unfold blen, IP_HI in *. rewrite length_app. cbn [length]. repeat split; [lia..|].
    rewrite <-app_assoc. cbn [app]. f_equal. }
  assert (length post = (16 - length value)%nat) as Hpost by (subst post; rewrite length_drop; lia).
  assert (dots post = 0) as Hdp.
  { apply dots_none. subst post. by apply Forall_drop. }
  cbn [mbind option_bind]. unfold blen, IP_HI in *.
  assert (last_field (Z.to_nat 16 + 1) (value ++ 0 :: post) (dots hi) = blen q + 1) as ->.
  { assert (value ++ 0 :: post = (q ++ [46]) ++ (lo ++ 0 :: post) ++ []) as Em
      by (subst value; rewrite app_nil_r, <-!app_assoc; cbn; by rewrite <-?app_assoc).
    replace (Z.to_nat 16 + 1)%nat with (length ((q ++ [46]) ++ (lo ++ 0 :: post))).
    2: { subst value. rewrite !length_app in *. cbn [length] in *. rewrite Hpost. lia. }
    assert (dots (lo ++ 0 :: post) = dots hi) as Hb.
    { rewrite dots_app. change (0 :: post) with ([0] ++ post). rewrite dots_app, Hdp. change (dots [0]) with 0. lia. }
    rewrite Em, last_field_skip by lia. rewrite Hb, Z.sub_diag, length_app, Nat.add_1_r. cbn [last_field].
    rewrite <-!app_assoc, lookup_app_r, Nat.sub_diag by done. cbn. by unfold blen. }
  subst value. rewrite !length_app in *. unfold blen. cbn [length] in *.
  rewrite (proj2 (Z.ltb_lt _ (u64 _))) by (unfold u64; rewrite Z.mod_small; lia).
  rewrite (proj2 (Z.ltb_ge _ 0)), (proj2 (Z.ltb_ge 16 _)) by lia. cbn [orb].
  assert (∃ m, stn ((q ++ 46 :: lo) ++ 0 :: post) (Z.of_nat (length q) + 1) (hi ++ [0]) = Some ((q ++ [46]) ++ (hi ++ [0]) ++ m)) as [m ->].
  { eexists. apply stn_Some. unfold blen. rewrite !length_app. cbn [length]. repeat split; [lia..|]. f_equal.
    replace (Z.to_nat (Z.of_nat (length q) + 1)) with (length (q ++ [46])) by (rewrite length_app; cbn; lia).
    replace ((q ++ 46 :: lo) ++ 0 :: post) with ((q ++ [46]) ++ lo ++ 0 :: post) by (by rewrite <-!app_assoc).
    by rewrite take_app_length. }
  cbn [mbind option_bind]. f_equal. rewrite <-!app_assoc. cbn [app].
  change (q ++ 46 :: hi ++ 0 :: m) with (q ++ (46 :: hi) ++ 0 :: m). rewrite app_assoc.
  replace (q ++ 46 :: hi) with (q ++ (46 :: hi)) by done.
  apply cstr_app. apply Forall_app. split; [done|]. by constructor.
Qed.

(** ** Properties *)

(** A resolver that knows dotted addresses, for the examples. *)
Definition dotted (s : list Z) : option Z :=
  match strchr 46 s with
  | Some (a, s) =>
      match strchr 46 s with
      | Some (b, s) =>
          match strchr 46 s with
          | Some (c, d) => Some (((decimal d 0 * 256 + decimal c 0) * 256 + decimal b 0) * 256 + decimal a 0)
          | None => None
          end
      | None => None
      end
  | None => None
  end.
Definition no_config : config := mkConfig zero_global 0 [] None [] None.
Definition clean_stack (n : nat) : list Z := replicate 17 0.
Definition opt (w v : string) : line := Line [32; 9] (Some (Soption (str w) (str v))) [32] [32] [13] None.
Definition small_file : list line :=
  [Line [] None [] [] [] (Some (str "the server"));
   Line [] (Some (Ssection (str "LNS") (Some (str "default")))) [] [] [32] (Some (str "[x]"));
   opt "ip range" "10.0.0.10 - 20";
   opt "no ip range" "10.0.0.12";
   opt "Local IP" "10.0.0.1";
   opt "length bit" "yes"].

Ltac line_ok_by_compute :=
  split; unfold white, plain; cbn [l_lead l_before l_after l_trail l_stmt l_comment opt];
  [repeat (apply Forall_cons_2; [vm_compute; intuition discriminate|]); apply Forall_nil_2..
  |intros ? [= <-]; vm_compute; repeat split; repeat (constructor; [intuition discriminate|]); try constructor; discriminate
  |intros ? [= <-]; repeat (apply Forall_cons_2; [vm_compute; intuition discriminate|]); apply Forall_nil_2
  |vm_compute; lia].
Lemma small_file_ok : Forall line_ok small_file.
Proof.
  repeat (apply Forall_cons_2; [line_ok_by_compute|]). apply Forall_nil_2.
Qed.

(** C6: the parser implements the language of the file.  Whatever white space and
    comments a file is written with, parsing its text does what its statements
    mean, statement by statement, with the errors at the same line: the text
    processing loses and adds nothing. *)
Theorem config_file_meaning (resolve : list Z → option Z) (stack : nat → list Z) (ls : list line) (cf : config) :
  Forall line_ok ls →
  parse_config resolve stack (print ls) cf =
  ('(z, st) ← interpret resolve stack 0 ls (mkPstate 0 0 Rnull cf); Some (z, p_cf st)).
Proof. intros Hl. unfold parse_config. by rewrite parse_print. Qed.
Lemma config_file_meaning_witness :
  (λ r, (r.1, (λ n, (lns_range n, lns_localaddr n, lns_lbit n)) <$> cf_deflns r.2)) <$>
    parse_config dotted clean_stack (print small_file) no_config =
  Some (0, Some ([IpRange 0x0a00000a 0x1400000a SENSE_ALLOW; IpRange 0x0c00000a 0x0c00000a SENSE_DENY],
                 0x0100000a, 1)).
Proof.
  destruct (config_file_meaning dotted clean_stack small_file no_config small_file_ok). vm_compute. reflexivity.
Defined.

Lemma default_config_valid cf : global_valid (cf_global cf) → cf_deflns cf = None → config_valid (default_config cf).
Proof.
  intros [] Hn. split; [|constructor| |constructor|].
  - split; first [assumption|left; reflexivity|vm_compute; discriminate].
  - intros n. cbn. by rewrite Hn.
  - intros l [= <-]. apply calloc_lac_valid.
Qed.

Lemma set_authfile_valid cf a : config_valid cf →
  config_valid { cf with cf_global := { cf_global cf with g_authfile := strncpy a } }.
Proof. destruct cf as [g r ln dn la da]. intros [Hg ? ? ? ?]. split; cbn in *; auto. destruct Hg. by split; cbn. Qed.

(** C7: a configuration that is accepted is valid.  After [init_config]
    succeeds:
    - the tunnel window of every LNS and of every named LAC is at least 1, and so
      is the redial timeout of every named LAC (in the default LAC section, which
      is cleared memory, both may also be 0, not set); call windows are at least
      -1 (no flow control);
    - the speeds of an LNS are at least 1, those of a LAC at least 0 (0: not set);
      port, retries, redial limit, back-off cap and SAref number are not negative;
    - every address range starts no higher than it ends, and no LNS has both a
      local address and a range of local addresses;
    - every flag is 0 or 1, the one that says whether we authenticate ourselves
      also -1 (not set), and no string is longer than its array;
    - nothing runs yet: no LAC is active or has a tunnel, call or timer. *)
Theorem init_config_valid (resolve : list Z → option Z) (stack : nat → list Z) (file altfile : option (list Z))
    (altauthfile : list Z) (cf cf' : config) :
  global_valid (cf_global cf) → cf_deflns cf = None →
  init_config resolve stack file altfile altauthfile cf = Some (0, cf') → config_valid cf'.
Proof.
  intros Hg Hn. pose proof (default_config_valid cf Hg Hn) as Hv. unfold init_config.
  destruct file as [f|]; [by apply parse_config_valid|]. destruct altfile as [f|]; [|done].
  apply parse_config_valid, set_authfile_valid, Hv.
Qed.
Lemma zero_global_valid : global_valid zero_global.
Proof. split; first [left; reflexivity|vm_compute; discriminate]. Qed.
Lemma init_config_valid_witness :
  match init_config dotted clean_stack (Some (print small_file)) None [] no_config with
  | Some (0, cf') => config_valid cf'
  | _ => False
  end.
Proof.
  pose proof (λ cf', init_config_valid dotted clean_stack (Some (print small_file)) None [] no_config cf'
    zero_global_valid eq_refl) as H.
  destruct (init_config dotted clean_stack (Some (print small_file)) None [] no_config) as [[[|z|z] cf']|] eqn:E;
    [by apply H|exfalso; revert E; vm_compute; discriminate..].
Defined.

(** The shorthand of a range.  [a.b.c.d - e], and [a.b.c.d - e.f] and so on,
    is the range up to the address that takes its missing fields from the
    start, provided the stack frame holds no dot and the addresses fit. *)
Theorem range_shorthand (resolve : list Z → option Z) (stack word q lo hi : list Z) (inr : list iprange)
    (start last : Z) :
  length stack = 17%nat → without 46 stack → dots lo = dots hi → dots hi < 3 →
  trimmed (q ++ 46 :: lo) → trimmed hi → hi ≠ [] → without 45 (q ++ 46 :: lo) → without 0 q → without 0 hi →
  blen (q ++ 46 :: lo) < IP_HI → blen (q ++ 46 :: hi) < IP_HI →
  resolve (q ++ 46 :: lo) = Some start → resolve (q ++ 46 :: hi) = Some last → ntohl start <= ntohl last →
  set_range resolve stack word ((q ++ 46 :: lo) ++ [32; 45; 32] ++ hi) inr =
  Some (Some (inr ++ [IpRange start last (if first_is word 110 then SENSE_DENY else SENSE_ALLOW)])).
Proof.
  intros Hs Hd Hk Hk3 [_ Ht] [Hl _] Hn H45 Hq Hz Hlo Hhi Hrs Hrl Hle. unfold set_range.
  change ([32; 45; 32] ++ hi) with ([32] ++ 45 :: 32 :: hi). rewrite app_assoc, strchr_app.
  2: { apply Forall_app. split; [done|by repeat constructor]. }
  rewrite rstrip_app, Ht by by repeat constructor.
  change (lstrip (32 :: hi)) with (lstrip hi). rewrite Hl.
  rewrite (bool_decide_eq_false_2 (Some hi = Some [])) by congruence.
  replace (blen (q ++ 46 :: lo) =? 0) with false
    by (symmetry; apply Z.eqb_neq; unfold blen; rewrite length_app; cbn; lia).
  cbn [orb]. rewrite Hrs, range_end_fields by done. cbn [mbind option_bind]. rewrite Hrl.
  by rewrite (proj2 (Z.ltb_ge _ _)) by done.
Qed.
Lemma range_shorthand_witness :
  set_range dotted (clean_stack 0) (str "ip range") (str "10.0.0.10 - 20") [] =
  Some (Some [IpRange 0x0a00000a 0x1400000a SENSE_ALLOW]).
Proof.
  exact (range_shorthand dotted (clean_stack 0) (str "ip range") (str "10.0.0") (str "10") (str "20") []
    0x0a00000a 0x1400000a eq_refl ltac:(by repeat constructor) eq_refl eq_refl ltac:(by split) ltac:(by split)
    ltac:(discriminate) ltac:(by repeat constructor) ltac:(by repeat constructor) ltac:(by repeat constructor)
    eq_refl eq_refl eq_refl eq_refl ltac:(vm_compute; discriminate)).
Defined.

(** What an earlier range left on the stack shortens a later one.  When the
    frame still holds [192.168.100.200] from the range before, the range
    [10.0.0.10 - 20] ends at its own start: the loop that looks for the last
    dot starts at the end of the array, not at the end of the address. *)
Theorem stale_stack_range :
  set_range dotted (str "192.168.100.200" ++ [0; 0]) (str "ip range") (str "10.0.0.10 - 20") [] =
  Some (Some [IpRange 0x0a00000a 0x0a00000a SENSE_ALLOW]).
Proof. vm_compute. reflexivity. Qed.

(** *** Capitals *)

Lemma lower_is ch x : lower ch = x → ch = x ∨ (97 <= x <= 122 ∧ ch = x - 32).
Proof. unfold lower. destruct (Z.leb_spec 65 ch), (Z.leb_spec ch 90); cbn [andb]; lia. Qed.
Lemma lower_without x s k : map lower s = k → without x k → lower x = x → without x s.
Proof.
  intros <-. unfold without. rewrite Forall_map. intros H Hx. eapply Forall_impl; [exact H|]. cbn. congruence.
Qed.
Lemma is_word_lower word k s : map lower word = map lower k → without 0 word → without 0 k → is_word word s = is_word k s.
Proof. intros E Hw Hk. unfold is_word, casecmp. by rewrite (cstr_id word), (cstr_id k), E by done. Qed.
(** A keyword is found however it is written. *)
Lemma find_keyword_lower kws word k : map lower word = map lower k → without 0 word → without 0 k →
  find_keyword kws word = find_keyword kws k.
Proof. intros E Hw Hk. induction kws as [|[kw h] kws IH]; cbn [find_keyword]; [done|]. by rewrite (is_word_lower word k), IH. Qed.
Lemma parse_one_option_lower resolve stack word k value context it h :
  map lower word = str k → map lower (str k) = str k → without 0 (str k) → find_keyword (words resolve stack) (str k) = Some h →
  parse_one_option resolve stack word value context it =
  '(z, it) ← h word value context it; Some (if truthy z then -1 else 0, it).
Proof.
  intros E El H0 Hk. unfold parse_one_option. rewrite (find_keyword_lower _ word (str k)), Hk; [done|congruence| |done].
  by eapply lower_without.
Qed.
Lemma set_range_single resolve stack word value inr a : without 45 value → value ≠ [] → resolve value = Some a →
  set_range resolve stack word value inr =
  Some (Some (inr ++ [IpRange a a (if bool_decide (head word = Some 110) then SENSE_DENY else SENSE_ALLOW)])).
Proof.
  intros H45 Hne Hr. unfold set_range. rewrite strchr_none by done.
  replace (blen value =? 0) with false by (symmetry; apply Z.eqb_neq; unfold blen; destruct value; [done|cbn; lia]).
  cbn [orb]. rewrite Hr. cbn. by rewrite Z.ltb_irrefl.
Qed.
(** The letter behind the space. *)
Lemma strchr_lower word a b : map lower word = a ++ 32 :: b → without 32 a →
  ∃ w1 c, word = w1 ++ 32 :: c ∧ map lower w1 = a ∧ map lower c = b ∧ strchr 32 word = Some (w1, c).
Proof.
  intros E Ha. apply map_eq_app in E as (w1 & c0 & -> & E1 & E2). destruct c0 as [|x c]; [done|]. injection E2 as Ex Ec.
  apply lower_is in Ex as [->|?]; [|lia]. exists w1, c. split_and!; [done..|]. apply strchr_app. by eapply lower_without.
Qed.

Lemma by_context_lns n fg f fc : by_context CONTEXT_LNS (Ilns n) fg (Some f) fc = '(z, n) ← f n; Some (z, Ilns n).
Proof. reflexivity. Qed.

(** C38: capitals change the meaning of a keyword.  Keywords are found without
    regard to case, but the handlers look at letters as they are written.  For
    every way to write them, with or without capitals:
    - [no lac] and [no ip range] deny the address only when the first letter is
      a small n, and otherwise allow what they are meant to deny;
    - [require pap] asks for PAP only when the letter behind the space is a
      small p, and otherwise for CHAP;
    - [refuse pap] with a capital F in it requires PAP. *)
Theorem keyword_case (resolve : list Z → option Z) (stack word value yes : list Z) (a v : Z) (n : lns) :
  without 45 value → value ≠ [] → resolve value = Some a → yesno yes = v → 0 <= v →
  let sense := if bool_decide (head word = Some 110) then SENSE_DENY else SENSE_ALLOW in
  (map lower word = str "no lac" →
     parse_one_option resolve stack word value CONTEXT_LNS (Ilns n) =
     Some (0, Ilns { n with lns_lacs := lns_lacs n ++ [IpRange a a sense] })) ∧
  (map lower word = str "no ip range" →
     parse_one_option resolve stack word value CONTEXT_LNS (Ilns n) =
     Some (0, Ilns { n with lns_range := lns_range n ++ [IpRange a a sense] })) ∧
  (map lower word = str "require pap" →
     parse_one_option resolve stack word yes CONTEXT_LNS (Ilns n) =
     Some (0, Ilns (if bool_decide (word !! 8%nat = Some 112) then { n with lns_pap_require := v }
                    else { n with lns_chap_require := v }))) ∧
  (map lower word = str "refuse pap" → word !! 2%nat = Some 70 → word !! 7%nat = Some 112 →
     parse_one_option resolve stack word yes CONTEXT_LNS (Ilns n) = Some (0, Ilns { n with lns_pap_require := v })).
Proof.
  intros H45 Hne Hr Hy Hv sense. subst v.
  assert (∀ it, set_boolean yes (λ v _, v) it = (0, yesno yes)) as Hb.
  { intros it. unfold set_boolean. by rewrite (proj2 (Z.ltb_ge _ _)). }
  split_and!; intros E.
  - rewrite (parse_one_option_lower _ _ _ _ _ _ _ (set_lac resolve stack) E eq_refl) by (first [reflexivity|by repeat constructor]).
    unfold set_lac, store_range. rewrite by_context_lns. by rewrite (set_range_single _ _ _ _ _ a).
  - rewrite (parse_one_option_lower _ _ _ _ _ _ _ (set_iprange resolve stack) E eq_refl) by (first [reflexivity|by repeat constructor]).
    unfold set_iprange, store_range. rewrite by_context_lns. by rewrite (set_range_single _ _ _ _ _ a).
  - rewrite (parse_one_option_lower _ _ _ _ _ _ _ set_papchap E eq_refl) by (first [reflexivity|by repeat constructor]).
    destruct (strchr_lower word (str "require") (str "pap") E) as (w1 & c & -> & E1 & E2 & E3); [by repeat constructor|].
    unfold set_papchap. rewrite Hb, E3. cbn [truthy Z.eqb negb].
    rewrite (bool_decide_eq_false_2 ((w1 ++ 32 :: c) !! 2%nat = Some 102)).
    2: { intros H. apply (f_equal (fmap lower)) in H. rewrite <-list_lookup_fmap in H. change (lower <$> (w1 ++ 32 :: c)) with (map lower (w1 ++ 32 :: c)) in H.
         rewrite E in H. discriminate H. }
    rewrite (lookup_app_r w1) by (rewrite <-(length_map lower w1), E1; cbn; lia). rewrite <-(length_map lower w1), E1.
    change ((32 :: c) !! (8 - length (str "require"))%nat) with (c !! 0%nat). rewrite <-head_lookup.
    rewrite by_context_lns. unfold first_is. destruct c as [|x c]; [done|]. injection E2 as Ex Ec. cbn.
    case_bool_decide; [done|]. rewrite bool_decide_eq_false_2; [done|]. intros [= ->]. done.
  - intros E2 E7. rewrite (parse_one_option_lower _ _ _ _ _ _ _ set_papchap E eq_refl) by (first [reflexivity|by repeat constructor]).
    destruct (strchr_lower word (str "refuse") (str "pap") E) as (w1 & c & -> & E1 & Ec & E3); [by repeat constructor|].
    unfold set_papchap. rewrite Hb, E3, E2. cbn [truthy Z.eqb negb].
    rewrite (lookup_app_r w1) in E7 by (rewrite <-(length_map lower w1), E1; cbn; lia). rewrite <-(length_map lower w1), E1 in E7.
    change ((32 :: c) !! (7 - length (str "refuse"))%nat) with (c !! 0%nat) in E7. rewrite <-head_lookup in E7.
    rewrite by_context_lns. unfold first_is. by rewrite E7.
Qed.
Lemma keyword_case_witness :
  parse_one_option dotted (clean_stack 0) (str "No lac") (str "10.0.0.1") CONTEXT_LNS (Ilns new_lns) =
    Some (0, Ilns { new_lns with lns_lacs := [IpRange 0x0100000a 0x0100000a SENSE_ALLOW] }) ∧
  parse_one_option dotted (clean_stack 0) (str "no lac") (str "10.0.0.1") CONTEXT_LNS (Ilns new_lns) =
    Some (0, Ilns { new_lns with lns_lacs := [IpRange 0x0100000a 0x0100000a SENSE_DENY] }) ∧
  parse_one_option dotted (clean_stack 0) (str "Require PAP") (str "yes") CONTEXT_LNS (Ilns new_lns) =
    Some (0, Ilns { new_lns with lns_chap_require := 1 }).
Proof.
  pose proof (λ word, keyword_case dotted (clean_stack 0) word (str "10.0.0.1") (str "yes") 0x0100000a 1 new_lns
    ltac:(by repeat constructor) ltac:(discriminate) eq_refl eq_refl ltac:(lia)) as H.
  split; [exact (proj1 (H (str "No lac")) eq_refl)|]. split; [exact (proj1 (H (str "no lac")) eq_refl)|].
  exact (proj1 (proj2 (proj2 (H (str "Require PAP")))) eq_refl).
Defined.

(** ** The command line *)

Definition terminated (s : list Z) : Prop := blen s < STRLEN.
Record cmdline_ok (a : cmdline) : Prop := {
  ao_config : terminated (a_configfile a); ao_altconfig : terminated (a_altconfigfile a);
  ao_auth : terminated (a_authfile a); ao_altauth : terminated (a_altauthfile a);
  ao_pid : terminated (a_pidfile a); ao_control : terminated (a_controlfile a);
  ao_tos : terminated (a_controltos a) ∧ 0 <= atoi (a_controltos a) <= 255;
  ao_daemon : flag (a_daemon a); ao_syslog : -1 <= a_syslog a <= 1 }.
Lemma strncpy1_terminated s : terminated (strncpy1 s).
Proof. unfold terminated, strncpy1, blen, STRLEN. rewrite length_take. lia. Qed.

Lemma args_loop_ok n : ∀ argv a a', (length argv <= n)%nat → cmdline_ok a → args_loop a argv = Run a' →
  cmdline_ok a' ∧ 0 <= a_syslog a'.
Proof.
  induction n as [|n IH]; intros [|o rest] a a' Hn Ha; cbn in Hn; try lia.
  1,2: cbn [args_loop]; destruct (Z.ltb_spec (a_syslog a) 0); intros [= <-]; [|done];
    destruct Ha as [? ? ? ? ? ? ? Hd ?]; unfold flag in Hd; (split; [|cbn; lia]); split; cbn; auto; lia.
  cbn [args_loop]. cbv zeta.
  pose proof strncpy1_terminated as Ht. destruct Ha as [? ? ? ? ? ? ? Hd Hl].
  destruct (_ || _); [done|].
  repeat match goal with |- context [if starts ?x ?y then _ else _] => destruct (starts x y) end;
    try done; try (destruct rest as [|v rest]; [done|]; cbn in Hn);
    try (destruct (_ || _) eqn:Eq; [done|]; apply orb_false_iff in Eq as [Eq1 Eq2]);
    (apply IH; [lia|]); split; cbn; auto; try lia; [by left..|].
  split; [apply Ht|]. lia.
Qed.

(** C31: what the command line sets fits.  When the daemon goes on after its
    command line, every file name is terminated inside its array, the type of
    service is between 0 and 255, and whether to detach and where to log is
    decided. *)
Theorem init_args_bounds (argv : list (list Z)) (a : cmdline) :
  init_args argv = Run a → cmdline_ok a ∧ 0 <= a_syslog a.
Proof.
  apply (args_loop_ok (length argv)); [done|]. split; try apply strncpy1_terminated; cbn; unfold flag; try lia.
  split; [unfold terminated, blen, STRLEN; cbn; lia|]. split; vm_compute; discriminate.
Qed.
Lemma init_args_bounds_witness :
  let a := match init_args (map str ["-D"; "-q"; "16"; "-c"; "/tmp/l2tp.conf"]%string) with Run a => a | Quit _ => default_cmdline end in
  a_daemon a = 0 ∧ a_configfile a = str "/tmp/l2tp.conf" ∧ cmdline_ok a ∧ 0 <= a_syslog a.
Proof.
  cbv zeta. split; [reflexivity|]. split; [reflexivity|].
  apply (init_args_bounds (map str ["-D"; "-q"; "16"; "-c"; "/tmp/l2tp.conf"]%string)). reflexivity.
Defined.

End Config.
