(* ===== verification/Calls.v ===== *)
(** * Tunnels and calls: creation, lookup, closing (src/call.c, the tunnel
    parts of src/xl2tpd.c, transmission from src/network.c and src/control.c) *)

From S2P Require Import Prelude.
From S2P Require Import Scheduler.
From S2P Require Import Buffer.
From S2P Require Import AvpSend.
From S2P Require Import State.
From S2P Require Import AddrPool.
From S2P Require Import Auth.
From S2P Require Import Logic.

Module Calls.
Import Scheduler Buffer AvpSend State AddrPool Auth Logic.
Open Scope Z_scope.

(** ** Allocation *)

(** What [malloc] leaves in the fields of a buffer that are not set. *)
Definition junk_buf : buffer := mkBuffer [] 0 0 0 (Sockaddr 0 0) None 0.

Definition Mmalloc (n : Z) : M (option (list Z)) := ask (λ e k, e_malloc e k n).

(** [new_outgoing (t)]; its callers use the result without a check, so that
    running out of memory is an access through NULL. *)
Definition Mnew_outgoing (tp : nat) : M buffer :=
  t ← get_t tp;
  mem ← Mmalloc MAX_RECV_SIZE;
  need (new_outgoing (t_peer t) tp mem junk_buf).

(** A random 16-bit identifier. *)
Definition random_id : M Z :=
  bs ← get_entropy [0; 0] 2;
  need (ld16 bs 0).

Definition new_call (parent : nat) : M (option nat) :=
  mem ← Mmalloc 1;
  match mem with
  | None => mret None
  | Some _ =>
      t ← get_t parent;
      ourcid ← (match t_self t with Some _ => random_id | None => mret 0 end);
      pmem ← Mmalloc MAX_RECV_SIZE;
      p ← alloc;
      let c := mkCall 0 0 0 0 0 0 None 0 0 0 None 0 0
        ourcid 0 (-1) (-1) 0 0 0 0 0 (-1) [] [] [] 0 0
        (Some parent) (-1) (replicate (Z.to_nat MAX_RECV_SIZE) 0) 0 0
        (new_payload (t_peer t) pmem junk_buf)
        0 0 0 (-1) (-1) 0 0 0 0 [] 0 0 0 (-1) (t_lns t) (t_lac t) [] in
      upd (λ w, { w with w_calls := <[p := c]> (w_calls w) });;
      mret (Some p)
  end.

Definition empty_challenge : challenge :=
  mkChallenge 0 [] None 0 (replicate 16 0) (replicate 16 0) VNull 0 STATE_NONE.

Definition new_tunnel : M (option nat) :=
  mem ← Mmalloc 1;
  match mem with
  | None => mret None
  | Some _ =>
      ourtid ← random_id;
      r1 ← ask e_rand;
      r2 ← ask e_rand;
      p ← alloc;
      let t := mkTunnel None None (-1) None (Z.lor ASYNC_FRAMING SYNC_FRAMING) (-1) 0 0
        0 (Z.lor (u64 (r1 * 2 ^ 32)) (u64 r2)) (-1) 0 0 ourtid (-1)
        0 (Sockaddr 0 0) (-1) 0 0 0 0 0 0 (-1) 0 0 0 0 0 0
        None None None 0 [] [] empty_challenge empty_challenge [] in
      upd (λ w, { w with w_tunnels := <[p := t]> (w_tunnels w) });;
      self ← new_call p;
      match self with
      | None =>
          upd (λ w, { w with w_tunnels := delete p (w_tunnels w) });;
          mret None
      | Some s =>
          mod_c s (λ c, { c with c_ourfbit := FBIT });;
          vec ← Mmalloc VECTOR_SIZE;
          let v := match vec with Some bs => VHeap bs | None => VNull end in
          mod_t p (λ t, { t with t_self := Some s; t_ourrws := DEFAULT_RWS_SIZE;
            t_rxspeed := DEFAULT_RX_BPS; t_txspeed := DEFAULT_TX_BPS;
            t_chal_them := { (t_chal_them t) with ch_vector := v } });;
          mret (Some p)
      end
  end.

(** ** Lookup *)

Definition tunnel_fuel : M nat := gets (λ w, S (size (w_tunnels w))).
Definition call_fuel : M nat := gets (λ w, S (size (w_calls w))).

(** The first tunnel of the list that passes a test. *)
Fixpoint find_tunnel (fuel : nat) (test : nat → tunnel → bool) (st : option nat) : M (option nat) :=
  match fuel with
  | O => nofuel
  | S fuel =>
      match st with
      | None => mret None
      | Some p =>
          t ← get_t p;
          if test p t then mret (Some p) else find_tunnel fuel test (t_next t)
      end
  end.
Fixpoint find_call (fuel : nat) (test : call → bool) (sc : option nat) : M (option nat) :=
  match fuel with
  | O => nofuel
  | S fuel =>
      match sc with
      | None => mret None
      | Some p =>
          c ← get_c p;
          if test c then mret (Some p) else find_call fuel test (c_next c)
      end
  end.

Definition get_tunnel (tunnel : Z) : M (option nat) :=
  if truthy tunnel then
    head ← gets w_head;
    fuel ← tunnel_fuel;
    st ← find_tunnel fuel (λ _ t, t_ourtid t =? tunnel) head;
    match st with
    | None => mret None
    | Some p => t ← get_t p; mret (t_self t)
    end
  else mret None.

Definition get_call (tunnel call : Z) (addr port refme refhim : Z) : M (option nat) :=
  if truthy tunnel then
    g ← gets w_gconfig;
    head ← gets w_head;
    fuel ← tunnel_fuel;
    st ← find_tunnel fuel (λ _ t, (t_ourtid t =? tunnel) &&
      ((g_ipsecsaref g =? 0) || ((t_refhim t =? refhim) || (refhim =? 0) || (t_refhim t =? 0)))) head;
    match st with
    | None => mret None
    | Some p =>
        t ← get_t p;
        if truthy call then
          fuel ← call_fuel;
          find_call fuel (λ c, c_ourcid c =? call) (t_call_head t)
        else mret (t_self t)
    end
  else if truthy call then mret None
  else
    st ← new_tunnel;
    match st with
    | None => mret None
    | Some p =>
        head ← gets w_head;
        mod_t p (λ t, { t with t_peer := Sockaddr addr port; t_refme := refme; t_refhim := refhim;
                               t_udp_fd := -1; t_pppox_fd := -1; t_next := head });;
        upd (λ w, { w with w_head := Some p; w_count := w_count w + 1 });;
        t ← get_t p;
        mret (t_self t)
    end.

(** ** Sending *)

Definition add_control_hdr (tp cp : nat) (buf : buffer) : M buffer :=
  t ← get_t tp;
  c ← get_c cp;
  let buf := { buf with b_start := b_start buf - sizeof_control_hdr;
                        b_len := b_len buf + sizeof_control_hdr } in
  buf ← need (
    buf ← buf_st16 buf 0 (htons (Z.lor (Z.lor (Z.lor TBIT LBIT) FBIT) VER_L2TP));
    buf ← buf_st16 buf 2 (htons (u16 (b_len buf)));
    buf ← buf_st16 buf 4 (htons (u16 (t_tid t)));
    buf ← buf_st16 buf 6 (htons (u16 (c_cid c)));
    buf ← buf_st16 buf 8 (htons (t_control_seq_num t));
    buf_st16 buf 10 (htons (t_control_rec_seq_num t)));
  mod_t tp (λ t, { t with t_control_seq_num := u16 (t_control_seq_num t + 1) });;
  mret buf.

(** The datagram given to [sendmsg], to the peer of the buffer and from the
    tunnel's own address. *)
Definition udp_xmit (buf : buffer) (tp : option nat) : M unit :=
  p ← need tp;
  t ← get_t p;
  data ← need (ldn (b_mem buf) (b_start buf) (b_len buf));
  emit (Oudp (b_peer buf) (t_my_addr t) data).

Definition control_zlb (buf : buffer) (tp cp : nat) : M buffer :=
  t ← get_t tp;
  buf ← add_control_hdr tp cp (recycle_outgoing buf (t_peer t));
  mod_t tp (λ t, { t with t_control_seq_num := u16 (t_control_seq_num t - 1) });;
  udp_xmit buf (Some tp);;
  mret buf.

(** ** Closing *)

(** [while (p->next && (p->next != c)) p = p->next], then the unlinking. *)
Fixpoint unlink_call (fuel : nat) (p c : nat) (next : option nat) : M bool :=
  match fuel with
  | O => nofuel
  | S fuel =>
      pc ← get_c p;
      match c_next pc with
      | None => mret false
      | Some q =>
          if Nat.eqb q c then mod_c p (λ p, { p with c_next := next });; mret true
          else unlink_call fuel q c next
      end
  end.
Fixpoint unlink_tunnel (fuel : nat) (p t : nat) (next : option nat) : M bool :=
  match fuel with
  | O => nofuel
  | S fuel =>
      pt ← get_t p;
      match t_next pt with
      | None => mret false
      | Some q =>
          if Nat.eqb q t then mod_t p (λ p, { p with t_next := next });; mret true
          else unlink_tunnel fuel q t next
      end
  end.

(** Another attempt to dial, when the LAC is configured to redial. *)
Definition redial (lp : nat) : M unit :=
  l ← get_lacp lp;
  when (truthy (lac_redial l) && (0 <? lac_rtimeout l) && bool_decide (lac_rsched l = None) &&
        truthy (lac_active l))
    (q ← Mschedule (Tv (lac_rtimeout l) 0) (Jmagic_lac_dial lp);
     mod_lac lp (λ l, { l with lac_rsched := Some q })).

Definition Munreserve (addr : Z) : M unit :=
  upd (λ w, { w with w_uaddr := unreserve_addr (w_uaddr w) addr }).

(** The addresses of a call are given back. *)
Definition release_addrs (c : call) : M unit :=
  when (truthy (c_addr c)) (Munreserve (c_addr c));;
  match c_lns c with
  | None => mret tt
  | Some lp =>
      l ← get_lnsp lp;
      when (negb (bool_decide (lns_localrange l = []))) (Munreserve (lns_localaddr l))
  end.

Definition remove_from_container (cp : nat) (c : call) : M unit :=
  match c_container c with
  | None => mret tt
  | Some tp =>
      t ← get_t tp;
      match t_call_head t with
      | None => mret tt
      | Some p =>
          if Nat.eqb p cp then
            mod_t tp (λ t, { t with t_call_head := c_next c; t_count := t_count t - 1 })
          else
            fuel ← call_fuel;
            found ← unlink_call fuel p cp (c_next c);
            when found (mod_t tp (λ t, { t with t_count := t_count t - 1 }))
      end
  end.

(** What a call holds: its tty, a scheduled acknowledgement, the buffer of
    its packets (tossed: it has to be there), its addresses and its pppd. *)
Definition release_call (cp : nat) (c : call) : M unit :=
  when (0 <? c_fd c) (emit (Oclose (c_fd c));; mod_c cp (λ c, { c with c_fd := -1 }));;
  when (negb (bool_decide (c_zlb_xmit c = None))) (Mdeschedule (c_zlb_xmit c));;
  _ ← need (c_ppp_buf c);
  release_addrs c;;
  when (0 <? c_pppd c) (mod_c cp (λ c, { c with c_pppd := 0 });; emit (Okill (c_pppd c) SIGTERM)).

Definition destroy_call (cp : nat) : M unit :=
  c ← get_c cp;
  release_call cp c;;
  remove_from_container cp c;;
  match c_lac c with
  | None => mret tt
  | Some lp => mod_lac lp (λ l, { l with lac_c := None });; redial lp
  end;;
  upd (λ w, { w with w_calls := delete cp (w_calls w) }).

Fixpoint destroy_calls (fuel : nat) (c : option nat) : M unit :=
  match fuel with
  | O => nofuel
  | S fuel =>
      match c with
      | None => mret tt
      | Some p => c ← get_c p; destroy_call p;; destroy_calls fuel (c_next c)
      end
  end.

Definition remove_from_tunnels (tp : nat) (t : tunnel) : M unit :=
  head ← gets w_head;
  if bool_decide (head = Some tp) then
    upd (λ w, { w with w_head := t_next t; w_count := w_count w - 1 })
  else
    match head with
    | None => mret tt
    | Some p =>
        fuel ← tunnel_fuel;
        found ← unlink_tunnel fuel p tp (t_next t);
        when found (upd (λ w, { w with w_count := w_count w - 1 }))
    end.

Definition destroy_tunnel (tp : nat) : M unit :=
  t ← get_t tp;
  let me := t_self t in
  fuel ← call_fuel;
  destroy_calls fuel (t_call_head t);;
  t ← get_t tp;
  remove_from_tunnels tp t;;
  match t_lac t with
  | None => mret tt
  | Some lp => mod_lac lp (λ l, { l with lac_t := None });; redial lp
  end;;
  match t_lns t with
  | None => mret tt
  | Some lp => mod_lns lp (λ l, { l with lns_t := None })
  end;;
  when (-1 <? t_pppox_fd t) (emit (Oclose (t_pppox_fd t)));;
  when (-1 <? t_udp_fd t) (emit (Oclose (t_udp_fd t)));;
  me ← need me;
  destroy_call me;;
  upd (λ w, { w with w_tunnels := delete tp (w_tunnels w) }).

(** An event that belongs to the tunnel: its Hellos and the packets waiting
    for retransmission.  The comparison also reads the place of
    [buffer.tunnel] in objects that are not buffers; such a word is taken not
    to be the tunnel's address. *)
Definition job_of_tunnel (tp : nat) (j : job) : bool :=
  match j with
  | Jcontrol_xmit b => bool_decide (b_tunnel b = Some tp)
  | Jhello t => Nat.eqb t tp
  | _ => false
  end.
Definition deschedule_tunnel (tp : nat) : M unit :=
  upd (λ w, { w with w_events := List.filter (λ e, negb (job_of_tunnel tp (se_job e))) (w_events w) }).

(** A random vector for the hidden attributes that follow. *)
Definition add_vector (tp : nat) (buf : buffer) : M buffer :=
  t ← get_t tp;
  if truthy (t_hbit t) then
    match ch_vector (t_chal_them t) with
    | VHeap bs =>
        v ← mk_challenge bs VECTOR_SIZE;
        mod_t tp (λ t, { t with t_chal_them := { (t_chal_them t) with ch_vector := VHeap v } });;
        need (add_randvect_avp buf v VECTOR_SIZE)
    | _ => ub
    end
  else mret buf.

(** [if (c->result < 0) c->result = RESULT_CLEAR; if (c->error < 0) c->error = 0;]
    and the result code attribute. *)
Definition add_result (cp : nat) (buf : buffer) : M buffer :=
  mod_c cp (λ c, { c with c_result := if c_result c <? 0 then RESULT_CLEAR else c_result c;
                          c_error := if c_error c <? 0 then 0 else c_error c });;
  c ← get_c cp;
  need (add_result_code_avp buf (u16 (c_result c)) (u16 (c_error c)) (cstr (c_errormsg c))
          (blen (cstr (c_errormsg c)))).

Definition close_notice (tp cp : nat) (tunnel : bool) : M buffer :=
  t ← get_t tp;
  mod_c cp (λ c, { c with c_closeSs := t_control_seq_num t });;
  buf ← Mnew_outgoing tp;
  if tunnel then
    buf ← need (add_message_type_avp buf StopCCN);
    buf ← add_vector tp buf;
    buf ← need (add_tunnelid_avp buf (u16 (t_ourtid t)));
    buf ← add_result cp buf;
    add_control_hdr tp cp buf
  else
    buf ← need (add_message_type_avp buf CDN);
    buf ← add_vector tp buf;
    buf ← add_result cp buf;
    c ← get_c cp;
    buf ← need (add_callid_avp buf (u16 (c_ourcid c)));
    add_control_hdr tp cp buf.

(** [call_close] and [control_xmit] call each other: a packet that cannot be
    delivered closes its tunnel, and closing sends a packet.  The two loops
    below take [call_close] as an argument. *)
Definition xmit (close : option nat → M unit) (buf : buffer) : M unit :=
  let buf := { buf with b_retries := b_retries buf + 1 } in
  ns ← need (buf_ld16 buf 8);
  let ns := ntohs ns in
  acked ← (match b_tunnel buf with
           | Some tp => t ← get_t tp; mret (ns <? t_cLr t)
           | None => mret false
           end);
  if acked : bool then mret tt
  else
    g ← gets w_gconfig;
    if g_max_retries g <? b_retries buf then
      match b_tunnel buf with
      | None => mret tt
      | Some tp =>
          t ← get_t tp;
          self ← need (t_self t);
          s ← get_c self;
          (if truthy (c_needclose s)
           then mod_c self (λ c, { c with c_needclose := 0; c_closing := -1 })
           else mod_c self (λ c, { c with c_errormsg := str "Timeout"; c_needclose := -1 }));;
          close (Some self)
      end
    else
      let shift_by := u32 (b_retries buf - 1) in
      let shift_by := if 31 <? shift_by then 31 else shift_by in
      Mschedule (Tv (2 ^ shift_by) 0) (Jcontrol_xmit buf);;
      udp_xmit buf (b_tunnel buf).

(** The member calls of a tunnel, closed one by one. *)
Fixpoint close_calls (close : option nat → M unit) (fuel : nat) (tmp : option nat) : M unit :=
  match fuel with
  | O => nofuel
  | S fuel =>
      match tmp with
      | None => mret tt
      | Some p =>
          c ← get_c p;
          mod_c p (λ c, { c with c_needclose := 0; c_closing := -1 });;
          close (Some p);;
          close_calls close fuel (c_next c)
      end
  end.

(** The body of [call_close]; [close] is [call_close] itself. *)
Definition close_step (close : option nat → M unit) (c : option nat) : M unit :=
  match c with
  | None => mret tt
  | Some cp =>
      c ← get_c cp;
      match c_container c with
      | None => mret tt
      | Some tp =>
          t ← get_t tp;
          if bool_decide (t_self t = Some cp) then
            deschedule_tunnel tp;;
            if truthy (c_closing c) then destroy_tunnel tp
            else
              buf ← close_notice tp cp true;
              xmit close buf;;
              t ← get_t tp;
              cfuel ← call_fuel;
              close_calls close cfuel (t_call_head t);;
              mod_c cp (λ c, { c with c_closing := -1 })
          else
            when (negb (bool_decide (c_zlb_xmit c = None))) (Mdeschedule (c_zlb_xmit c));;
            if truthy (c_closing c) then destroy_call cp
            else
              buf ← close_notice tp cp false;
              xmit close buf;;
              mod_c cp (λ c, { c with c_closing := -1 })
      end
  end.
Fixpoint call_close (fuel : nat) : option nat → M unit :=
  match fuel with
  | O => λ _, nofuel
  | S fuel => close_step (call_close fuel)
  end.

(** A tunnel closes its calls, and a notice that cannot be sent at all closes
    the tunnel once more: three levels are enough (Closing.v, Termination.v). *)
Definition close_fuel : nat := 8.
Definition Mcall_close (c : option nat) : M unit := call_close close_fuel c.
Definition control_xmit (buf : buffer) : M unit := xmit Mcall_close buf.

(** ** Scheduled jobs *)

Definition hello (tp : nat) : M unit :=
  t ← get_t tp;
  buf ← Mnew_outgoing tp;
  buf ← need (add_message_type_avp buf Hello);
  self ← need (t_self t);
  buf ← add_control_hdr tp self buf;
  control_xmit buf;;
  q ← Mschedule (Tv HELLO_DELAY 0) (Jhello tp);
  mod_t tp (λ t, { t with t_hello := Some q }).

Definition add_payload_hdr (tp cp : nat) (buf : buffer) : M buffer :=
  t ← get_t tp;
  c ← get_c cp;
  let seq := truthy (c_fbit c) || truthy (c_ourfbit c) in
  let len := truthy (c_lbit c) in
  let skip := sizeof_payload_hdr - 2 - (if seq then 0 else 4) - (if len then 0 else 2) in
  let buf := { buf with b_start := b_start buf - skip; b_len := b_len buf + skip } in
  buf ← need (
    buf ← buf_st16 buf 0 (htons (u16 (Z.lor (Z.lor (Z.lor (c_lbit c) (c_fbit c)) (c_ourfbit c)) VER_L2TP)));
    buf ← (if len then buf_st16 buf 2 (htons (u16 (b_len buf))) else Some buf);
    let p := if len then 0 else -2 in
    buf ← buf_st16 buf (p + 4) (htons (u16 (t_tid t)));
    buf ← buf_st16 buf (p + 6) (htons (u16 (c_cid c)));
    if seq then
      buf ← buf_st16 buf (p + 8) (htons (c_data_seq_num c));
      buf_st16 buf (p + 10) (htons (c_data_rec_seq_num c))
    else Some buf);
  mod_c cp (λ c, { c with c_data_seq_num := u16 (c_data_seq_num c + 1) });;
  mret buf.

Definition send_zlb (cp : nat) : M unit :=
  c ← get_c cp;
  match c_container c with
  | None => mret tt
  | Some tp =>
      t ← get_t tp;
      mod_c cp (λ c, { c with c_prx := c_data_rec_seq_num c });;
      mem ← Mmalloc MAX_RECV_SIZE;
      buf ← need (new_payload (t_peer t) mem junk_buf);
      buf ← add_payload_hdr tp cp buf;
      mod_c cp (λ c, { c with c_data_seq_num := u16 (c_data_seq_num c - 1); c_zlb_xmit := None });;
      udp_xmit buf (Some tp)
  end.

(** ** Lookup *)

(** The first pointer of a list whose object passes a test. *)
Fixpoint first {A} (m : gmap nat A) (test : nat → A → bool) (ps : list nat) : option nat :=
  match ps with
  | [] => None
  | p :: ps =>
      match m !! p with
      | Some a => if test p a then Some p else first m test ps
      | None => None
      end
  end.

Lemma find_tunnel_first w test ps : ∀ fuel o,
  tpath w o ps → (length ps < fuel)%nat →
  find_tunnel fuel test o w = Ret (first (w_tunnels w) test ps) w.
Proof.
  induction ps as [|p ps IH]; intros [|fuel] o H Hf; cbn in *; try lia; [by subst|].
  destruct H as (-> & t & Ht & H). unfold mbind, M_bind, get_t. rewrite Ht.
  destruct (test p t); [done|]. apply IH; [done|lia].
Qed.
Lemma find_call_first w test ps : ∀ fuel o,
  cpath w o ps → (length ps < fuel)%nat →
  find_call fuel test o w = Ret (first (w_calls w) (λ _, test) ps) w.
Proof.
  induction ps as [|p ps IH]; intros [|fuel] o H Hf; cbn in *; try lia; [by subst|].
  destruct H as (-> & t & Ht & H). unfold mbind, M_bind, get_c. rewrite Ht.
  destruct (test t); [done|]. apply IH; [done|lia].
Qed.

(** The daemon's lists: [ts] the tunnels, [cs p] the calls of tunnel [p]. *)
Record lists_ok (w : world) (ts : list nat) (cs : nat → list nat) : Prop := {
  lo_tunnels : tpath w (w_head w) ts;
  lo_calls : ∀ p t, p ∈ ts → w_tunnels w !! p = Some t → cpath w (t_call_head t) (cs p) }.

Lemma tunnel_fuel_enough w ts : tpath w (w_head w) ts → (length ts < S (size (w_tunnels w)))%nat.
Proof. intros ?%tpath_size. lia. Qed.
Lemma call_fuel_enough w o cs : cpath w o cs → (length cs < S (size (w_calls w)))%nat.
Proof. intros ?%cpath_size. lia. Qed.

Lemma first_in {A} (m : gmap nat A) test ps p :
  first m test ps = Some p → p ∈ ps ∧ ∃ a, m !! p = Some a ∧ test p a = true.
Proof.
  induction ps as [|q ps IH]; cbn; [done|]. destruct (m !! q) as [a|] eqn:E; [|done].
  destruct (test q a) eqn:Et; [intros [= ->]|intros [? ?]%IH]; set_solver.
Qed.

(** The tunnel a packet belongs to: our number, and the SA it came in on when
    those are tracked. *)
Definition tunnel_matches (w : world) (tid refhim : Z) (t : tunnel) : bool :=
  (t_ourtid t =? tid) &&
  ((g_ipsecsaref (w_gconfig w) =? 0) || ((t_refhim t =? refhim) || (refhim =? 0) || (t_refhim t =? 0))).

(** ** A small daemon for the examples

    Two tunnels, 1 and 2, with their control calls 11 and 21; tunnel 1 has the
    calls 12 and 13. *)
Definition demo_buf : buffer := mkBuffer (replicate 64 0) 14 0 64 zero_sockaddr None 0.
Definition demo_call (ourcid tp : nat) (next : option nat) : call :=
  { zero_call with c_rbuf := []; c_ourcid := Z.of_nat ourcid; c_cid := 3; c_container := Some tp;
                   c_next := next; c_ppp_buf := Some demo_buf; c_fd := 8; c_pppd := 77; c_addr := 0x0201a8c0 }.
Definition demo_tunnel (ourtid self : nat) (head next : option nat) : tunnel :=
  { zero_tunnel with t_ourtid := Z.of_nat ourtid; t_tid := 5; t_self := Some self; t_call_head := head;
                     t_next := next; t_count := 2; t_peer := Sockaddr 0x0100007f 0xa506;
                     t_state := SCCCN; t_sanity := -1; t_control_seq_num := 4; t_control_rec_seq_num := 9;
                     t_cLr := 3 }.
Definition demo_tunnel1 : tunnel := demo_tunnel 70 11 (Some 12%nat) (Some 2%nat).
Definition demo_world : world :=
  { zero_world with
    w_tunnels := {[ 1%nat := demo_tunnel1; 2%nat := demo_tunnel 71 21 None None ]};
    w_calls := {[ 11%nat := demo_call 0 1 None; 21%nat := demo_call 0 2 None;
                  12%nat := demo_call 30 1 (Some 13%nat); 13%nat := demo_call 31 1 None ]};
    w_head := Some 1%nat; w_count := 2; w_uaddr := reserve_addr ∅ 0x0201a8c0 }.
Definition demo_calls (p : nat) : list nat := if Nat.eqb p 1 then [12; 13]%nat else [].

Lemma demo_lists : lists_ok demo_world [1; 2]%nat demo_calls.
Proof.
  split.
  - split; [done|]. eexists. split; [reflexivity|]. split; [done|]. eexists. by split; [reflexivity|].
  - intros p t Hp Ht. apply elem_of_cons in Hp as [->|Hp]; [|apply list_elem_of_singleton in Hp as ->];
      vm_compute in Ht; apply (inj Some) in Ht; subst t; [|done].
    split; [done|]. eexists. split; [reflexivity|]. split; [done|]. eexists. by split; [reflexivity|].
Qed.

(** C20: a packet that names a tunnel is given to the call [get_call] finds,
    without a change of state: in the first tunnel of the list with that
    number (and a matching SA, when those are tracked), the first call with
    the number of the packet, or the tunnel's own control call for number 0;
    NULL when there is none, and when a call is named without a tunnel.  The
    walks over the two linked lists end. *)
Theorem get_call_finds w ts cs tid cid addr port refme refhim :
  lists_ok w ts cs → tid ≠ 0 →
  get_call tid cid addr port refme refhim w =
    Ret (p ← first (w_tunnels w) (λ _, tunnel_matches w tid refhim) ts;
         t ← w_tunnels w !! p;
         if cid =? 0 then t_self t else first (w_calls w) (λ _ c, c_ourcid c =? cid) (cs p)) w ∧
  (cid ≠ 0 → get_call 0 cid addr port refme refhim w = Ret None w).
Proof.
  intros [Ht Hc] Hn. split.
  - unfold get_call. assert (truthy tid = true) as -> by (unfold truthy; lia).
    unfold mbind at 1 2 3 4, M_bind, gets, tunnel_fuel, gets. cbn beta iota.
    erewrite find_tunnel_first by eauto using tunnel_fuel_enough.
    change (first (w_tunnels w) _ ts) with (first (w_tunnels w) (λ _, tunnel_matches w tid refhim) ts).
    destruct (first _ _ _) as [p|] eqn:E; [|done].
    destruct (first_in _ _ _ _ E) as (Hp & t & Htp & _).
    unfold mbind at 1, M_bind, get_t. cbn. rewrite Htp. cbn.
    destruct (Z.eqb_spec cid 0) as [->|Hc0]; [done|].
    assert (truthy cid = true) as -> by (unfold truthy; lia).
    unfold mbind, M_bind, call_fuel, gets. erewrite find_call_first; [done|by eauto|].
    eapply call_fuel_enough; eauto.
  - intros Hc0. unfold get_call. cbn. assert (truthy cid = true) as -> by (unfold truthy; lia). done.
Qed.

Example get_call_finds_witness :
  get_call 70 31 0 0 0 0 demo_world = Ret (Some 13%nat) demo_world ∧
  get_call 71 0 0 0 0 0 demo_world = Ret (Some 21%nat) demo_world ∧
  get_call 0 31 0 0 0 0 demo_world = Ret None demo_world.
Proof.
  split; [|split].
  - etransitivity; [exact (proj1 (get_call_finds demo_world _ _ 70 31 0 0 0 0 demo_lists ltac:(lia)))|].
    vm_compute. reflexivity.
  - etransitivity; [exact (proj1 (get_call_finds demo_world _ _ 71 0 0 0 0 0 demo_lists ltac:(lia)))|].
    vm_compute. reflexivity.
  - exact (proj2 (get_call_finds demo_world _ _ 71 31 0 0 0 0 demo_lists ltac:(lia)) ltac:(lia)).
Defined.

(** ** The control header *)

(** The twelve bytes of a header: flags and version, length, tunnel, call, Ns
    and Nr. *)
Definition control_header (t : tunnel) (c : call) (len : Z) : list Z :=
  be16 0xC802 ++ be16 (u16 len) ++ be16 (u16 (t_tid t)) ++ be16 (u16 (c_cid c)) ++
  be16 (t_control_seq_num t) ++ be16 (t_control_rec_seq_num t).

Definition bump_seq (t : tunnel) : tunnel :=
  { t with t_control_seq_num := u16 (t_control_seq_num t + 1) }.

Lemma header_stores b t c :
  (buf ← buf_st16 b 0 (htons (Z.lor (Z.lor (Z.lor TBIT LBIT) FBIT) VER_L2TP));
   buf ← buf_st16 buf 2 (htons (u16 (b_len buf)));
   buf ← buf_st16 buf 4 (htons (u16 (t_tid t)));
   buf ← buf_st16 buf 6 (htons (u16 (c_cid c)));
   buf ← buf_st16 buf 8 (htons (t_control_seq_num t));
   buf_st16 buf 10 (htons (t_control_rec_seq_num t)))
  = buf_stn b 0 (control_header t c (b_len b)).
Proof.
  unfold control_header.
  rewrite <-(store_next' b 0 2) by done. rewrite buf_st16_htons.
  destruct (buf_stn b 0 _) as [b1|] eqn:E; cbn [mbind option_bind]; [|done].
  rewrite (buf_stn_len _ _ _ _ E).
  rewrite buf_st16_htons, <-(store_next' b1 2 4) by done.
  destruct (buf_stn b1 2 _) as [b2|]; cbn [mbind option_bind]; [|done].
  rewrite buf_st16_htons, <-(store_next' b2 4 6) by done.
  destruct (buf_stn b2 4 _) as [b3|]; cbn [mbind option_bind]; [|done].
  rewrite buf_st16_htons, <-(store_next' b3 6 8) by done.
  destruct (buf_stn b3 6 _) as [b4|]; cbn [mbind option_bind]; [|done].
  rewrite buf_st16_htons, <-(store_next' b4 8 10) by done.
  destruct (buf_stn b4 8 _) as [b5|]; cbn [mbind option_bind]; [|done].
  by rewrite buf_st16_htons.
Qed.

(** What [add_control_hdr] makes of a message: its header and the message;
    the tunnel has used up a sequence number. *)
Lemma add_control_hdr_spec w tp cp t c b :
  w_tunnels w !! tp = Some t → w_calls w !! cp = Some c → buf_wf b → 12 <= b_start b →
  ∃ m, add_control_hdr tp cp b w
    = Ret (prepended b (control_header t c (b_len b + 12)) m) (set_t tp (bump_seq t) w) ∧
    buf_wf (prepended b (control_header t c (b_len b + 12)) m) ∧
    contents (prepended b (control_header t c (b_len b + 12)) m)
      = control_header t c (b_len b + 12) ++ contents b.
Proof.
  intros Ht Hc Hwf Hs. destruct (prepend_spec b (control_header t c (b_len b + 12)) Hwf)
    as (m & Em & Hw & Hcont); [done|].
  exists m. split; [|done]. unfold add_control_hdr, mbind at 1 2, M_bind, get_t, get_c.
  rewrite Ht, Hc. cbn zeta. rewrite header_stores.
  unfold buf_stn, sizeof_control_hdr. cbn -[control_header]. rewrite Z.add_0_r.
  change (blen (control_header t c (b_len b + 12))) with 12 in Em. rewrite Em.
  cbn -[control_header]. unfold mbind, M_bind, mod_t, need. rewrite Ht. done.
Qed.

(** ** Transmission *)

Definition retried (b : buffer) : buffer := { b with b_retries := b_retries b + 1 }.

(** The delay before the next attempt: doubled every time, up to 2^31. *)
Definition backoff (retries : Z) : Z := 2 ^ Z.min 31 retries.

(** The state after a packet was sent and its next attempt put on the queue. *)
Definition sent (w : world) (t : tunnel) (b : buffer) : world :=
  { w with w_clk := S (w_clk w); w_fresh := S (w_fresh w);
           w_events := schedule (e_now (w_env w) (w_clk w)) (w_fresh w) (Tv (backoff (b_retries b)) 0)
                         (Jcontrol_xmit (retried b)) (w_events w);
           w_out := w_out w ++ [Oudp (b_peer b) (t_my_addr t) (contents b)] }.

(** The control call of a tunnel whose packet was sent often enough. *)
Definition given_up (c : call) : call :=
  if truthy (c_needclose c) then { c with c_needclose := 0; c_closing := -1 }
  else { c with c_errormsg := str "Timeout"; c_needclose := -1 }.

Lemma u32_shift r : 0 <= r < 2 ^ 32 →
  2 ^ (if 31 <? u32 r then 31 else u32 r) = backoff r.
Proof.
  intros Hr. rewrite u32_id by (unfold_uint; lia). unfold backoff. f_equal.
  destruct (Z.ltb_spec 31 r); lia.
Qed.

Lemma udp_xmit_eq w b tp t :
  buf_wf b → w_tunnels w !! tp = Some t →
  udp_xmit b (Some tp) w
  = Ret tt { w with w_out := w_out w ++ [Oudp (b_peer b) (t_my_addr t) (contents b)] }.
Proof.
  intros Hwf Ht. unfold udp_xmit, mbind, M_bind, need, get_t. rewrite Ht.
  by rewrite (contents_ldn b Hwf).
Qed.
Lemma retried_wf b : buf_wf b → buf_wf (retried b).
Proof. by intros [? ? ? ?]. Qed.

Lemma xmit_spec close w b tp t ns :
  b_tunnel b = Some tp → w_tunnels w !! tp = Some t → buf_wf b → 0 <= b_retries b < 2 ^ 31 →
  buf_ld16 b 8 = Some ns →
  (ntohs ns < t_cLr t → xmit close b w = Ret tt w) ∧
  (t_cLr t <= ntohs ns → b_retries b < g_max_retries (w_gconfig w) →
     xmit close b w = Ret tt (sent w t b) ∧
     0 <= g_max_retries (w_gconfig w) - b_retries (retried b)
       < g_max_retries (w_gconfig w) - b_retries b) ∧
  (∀ self s, t_cLr t <= ntohs ns → g_max_retries (w_gconfig w) <= b_retries b →
     t_self t = Some self → w_calls w !! self = Some s →
     xmit close b w = close (Some self) (set_c self (given_up s) w)).
Proof.
  intros Htp Ht Hwf Hr Hns. unfold xmit. fold (retried b). cbn zeta.
  change (buf_ld16 (retried b) 8) with (buf_ld16 b 8).
  change (b_tunnel (retried b)) with (b_tunnel b). rewrite Hns, Htp.
  unfold mbind, M_bind, need, get_t, gets, mret, M_ret. rewrite Ht.
  split_and!.
  - intros Hlt. by rewrite (proj2 (Z.ltb_lt _ _) Hlt).
  - intros Hge Hm. rewrite (proj2 (Z.ltb_ge _ _) Hge). cbn. rewrite (proj2 (Z.ltb_ge _ _)) by lia.
    split; [|lia]. replace (b_retries b + 1 - 1) with (b_retries b) by lia. rewrite u32_shift by lia.
    fold (retried b). unfold Mschedule, mbind, M_bind, ask, alloc, upd, mret, M_ret.
    erewrite udp_xmit_eq by eauto using retried_wf. done.
  - intros self s Hge Hm Hself Hs. rewrite (proj2 (Z.ltb_ge _ _) Hge). cbn.
    rewrite (proj2 (Z.ltb_lt _ _)) by lia. unfold need. rewrite Ht, Hself. unfold get_c. rewrite Hs.
    unfold given_up, set_c. destruct (truthy (c_needclose s)); unfold mod_c; rewrite Hs; done.
Qed.

(** C21: [control_xmit] on a packet of a tunnel.  A packet whose Ns is below the
    peer's last Nr, as plain integers, is dropped without any effect.
    Otherwise, while it was sent fewer than [max_retries] times, it is sent to
    the peer unchanged and put back on the timer queue, to be looked at again
    after [backoff]: 1, 2, 4, ... seconds, doubled with every attempt up to 2^31,
    whatever [cap backoff] is set to; the attempts left strictly decrease, so
    that there are at most [max_retries] of them.  After the last one the
    control call of the tunnel is marked (as timed out, or, when a closing
    message could not be delivered, as closing) and closed. *)
Theorem control_xmit_spec w b tp t ns :
  b_tunnel b = Some tp → w_tunnels w !! tp = Some t → buf_wf b → 0 <= b_retries b < 2 ^ 31 →
  buf_ld16 b 8 = Some ns →
  (ntohs ns < t_cLr t → control_xmit b w = Ret tt w) ∧
  (t_cLr t <= ntohs ns → b_retries b < g_max_retries (w_gconfig w) →
     control_xmit b w = Ret tt (sent w t b) ∧
     0 <= g_max_retries (w_gconfig w) - b_retries (retried b)
       < g_max_retries (w_gconfig w) - b_retries b) ∧
  (∀ self s, t_cLr t <= ntohs ns → g_max_retries (w_gconfig w) <= b_retries b →
     t_self t = Some self → w_calls w !! self = Some s →
     control_xmit b w = Mcall_close (Some self) (set_c self (given_up s) w)).
Proof. apply xmit_spec. Qed.

(** A packet with Ns 4 for tunnel 1, sent once before. *)
Definition demo_packet : buffer :=
  mkBuffer (replicate 8 0 ++ be16 4 ++ replicate 22 0) 0 20 32 (Sockaddr 0x0100007f 0xa506) (Some 1%nat) 1.

Example control_xmit_spec_witness :
  control_xmit demo_packet demo_world = Ret tt (sent demo_world demo_tunnel1 demo_packet) ∧
  w_out (sent demo_world demo_tunnel1 demo_packet)
  = [Oudp (Sockaddr 0x0100007f 0xa506) 0 (replicate 8 0 ++ [0; 4] ++ replicate 10 0)].
Proof.
  split; [|vm_compute; reflexivity].
  refine (proj1 (proj1 (proj2 (control_xmit_spec demo_world demo_packet 1 demo_tunnel1 0x400 _ _ _ _ _)) _ _)).
  - reflexivity.
  - vm_compute. reflexivity.
  - constructor; vm_compute; congruence.
  - vm_compute. split; congruence.
  - vm_compute. reflexivity.
  - vm_compute. congruence.
  - vm_compute. reflexivity.
Defined.

(** ** Destroying a call *)

Lemma cpath_ext w w' ps : ∀ o,
  (∀ p, p ∈ ps → c_next <$> w_calls w' !! p = c_next <$> w_calls w !! p) →
  cpath w o ps → cpath w' o ps.
Proof.
  induction ps as [|p ps IH]; intros o He H; [done|].
  destruct H as (-> & c & Hc & H). pose proof (He p ltac:(left)) as Hp. rewrite Hc in Hp.
  destruct (w_calls w' !! p) as [c'|] eqn:E; [|done]. cbn in Hp. injection Hp as Hp.
  split; [done|]. exists c'. split; [done|]. rewrite Hp. apply IH; [|done].
  intros q Hq. apply He. by right.
Qed.

Lemma unlink_call_spec w cp next : ∀ rest fuel p,
  cpath w (Some p) (p :: rest) → cp ∈ rest → p ≠ cp → (length rest < fuel)%nat →
  (∃ c, w_calls w !! cp = Some c ∧ c_next c = next) →
  ∃ q qc, w_calls w !! q = Some qc ∧ q ∈ p :: rest ∧ q ≠ cp ∧
    unlink_call fuel p cp next w = Ret true (set_c q { qc with c_next := next } w) ∧
    cpath (set_c q { qc with c_next := next } w) (Some p) (p :: filter (.≠ cp) rest).
Proof.
  induction rest as [|r rest IH]; intros [|fuel] p Hp Hin Hne Hf Hc; [by apply elem_of_nil in Hin|..];
    cbn in Hf; try lia; [by apply elem_of_nil in Hin|].
  pose proof (cpath_nodup _ _ _ Hp) as Hnd. apply NoDup_cons in Hnd as [Hpr Hnd].
  destruct Hp as (_ & pc & Hpc & Hr). cbn [unlink_call]. unfold mbind, M_bind, get_c. rewrite Hpc.
  pose proof Hr as (Hnext & rc & Hrc & Hrest). rewrite Hnext.
  destruct (Nat.eqb_spec r cp) as [->|Hrne].
  - exists p, pc. split_and!; [done|by left|done|unfold mod_c; by rewrite Hpc|].
    rewrite filter_cons_False by naive_solver. apply NoDup_cons in Hnd as [Hcr _].
    rewrite filter_all by (intros x Hx ->; done).
    split; [done|]. eexists. split; [apply set_c_eq|]. cbn.
    destruct Hc as (c & Hc & Hcn). rewrite Hrc in Hc. injection Hc as ->. rewrite <-Hcn.
    eapply cpath_ext; [|exact Hrest]. intros x Hx. rewrite set_c_ne; [done|]. set_solver.
  - apply elem_of_cons in Hin as [->|Hin]; [done|].
    destruct (IH fuel r) as (q & qc & Hq & Hqi & Hqn & Hu & Hpath); [by rewrite <-Hnext|done|done|lia|done|].
    exists q, qc. split_and!; [done|by right|done|done|].
    rewrite filter_cons_True by done. split; [done|]. exists pc.
    assert (p ≠ q) by set_solver. rewrite set_c_ne by done. split; [done|]. by rewrite Hnext.
Qed.

(** The addresses that are free again. *)
Definition released (w : world) (c : call) (u : table) : table :=
  let u := if truthy (c_addr c) then unreserve_addr u (c_addr c) else u in
  match c_lns c ≫= (w_lnss w !!.) with
  | Some l => if bool_decide (lns_localrange l = []) then u else unreserve_addr u (lns_localaddr l)
  | None => u
  end.

(** The configuration entries a call points to exist. *)
Definition config_ok (w : world) (c : call) : Prop :=
  (∀ p, c_lns c = Some p → is_Some (w_lnss w !! p)) ∧ (∀ p, c_lac c = Some p → is_Some (w_lacs w !! p)).

Definition last_words (c : call) : list output :=
  (if 0 <? c_fd c then [Oclose (c_fd c)] else []) ++
  (if 0 <? c_pppd c then [Okill (c_pppd c) SIGTERM] else []).

(** [release_call] changes nothing but the call itself, the queue, the table
    of addresses and the world outside. *)
Record released_call (w w' : world) (cp : nat) (c : call) : Prop := {
  rc_tunnels : w_tunnels w' = w_tunnels w;
  rc_lacs : w_lacs w' = w_lacs w;
  rc_calls : ∀ q, c_next <$> w_calls w' !! q = c_next <$> w_calls w !! q;
  rc_uaddr : w_uaddr w' = released w c (w_uaddr w);
  rc_out : w_out w' = w_out w ++ last_words c }.

Lemma set_c_next w p c c' q :
  w_calls w !! p = Some c → c_next c' = c_next c →
  c_next <$> w_calls (set_c p c' w) !! q = c_next <$> w_calls w !! q.
Proof.
  intros Hp Hn. destruct (decide (p = q)) as [<-|Hne]; [|by rewrite set_c_ne].
  rewrite set_c_eq, Hp. cbn. by rewrite Hn.
Qed.

Lemma release_addrs_eq w c :
  config_ok w c → release_addrs c w = Ret tt { w with w_uaddr := released w c (w_uaddr w) }.
Proof.
  intros [Hl _]. unfold release_addrs, released, when, mbind, M_bind, Munreserve, upd, get_lnsp.
  destruct (truthy (c_addr c)), (c_lns c) as [lp|] eqn:E; cbn; try (by destruct w);
    destruct (Hl lp eq_refl) as [l ->]; cbn; case_bool_decide; cbn; by destruct w.
Qed.

(** The state [release_call] leaves, step by step. *)
Definition tty_closed (w : world) (cp : nat) (c : call) : world :=
  if 0 <? c_fd c then set_c cp { c with c_fd := -1 } { w with w_out := w_out w ++ [Oclose (c_fd c)] } else w.
Definition ack_dropped (w : world) (c : call) : world :=
  { w with w_events := if bool_decide (c_zlb_xmit c = None) then w_events w
                       else deschedule (c_zlb_xmit c) (w_events w) }.
Definition addrs_released (w : world) (c : call) : world :=
  { w with w_uaddr := released w c (w_uaddr w) }.
Definition pppd_killed (w : world) (cp : nat) (c : call) (pppd : Z) : world :=
  if 0 <? pppd then
    { (set_c cp { c with c_pppd := 0 } w) with w_out := w_out w ++ [Okill pppd SIGTERM] } else w.

Definition call_closed (c : call) : call := if 0 <? c_fd c then { c with c_fd := -1 } else c.
Lemma tty_closed_call w cp c :
  w_calls w !! cp = Some c → w_calls (tty_closed w cp c) !! cp = Some (call_closed c).
Proof. intros Hc. unfold tty_closed, call_closed. destruct (0 <? c_fd c); [apply set_c_eq|done]. Qed.
Lemma tty_closed_lnss w cp c : w_lnss (tty_closed w cp c) = w_lnss w.
Proof. unfold tty_closed. by destruct (0 <? c_fd c). Qed.

Lemma release_call_eq w cp c pb :
  w_calls w !! cp = Some c → c_ppp_buf c = Some pb → config_ok w c →
  release_call cp c w
  = Ret tt (pppd_killed (addrs_released (ack_dropped (tty_closed w cp c) c) c) cp (call_closed c) (c_pppd c)).
Proof.
  intros Hc Hpb Hcf. pose proof (tty_closed_call w cp c Hc) as Hc1. unfold release_call.
  rewrite (bind_eq _ _ _ tt (tty_closed w cp c)).
  2: { unfold tty_closed. destruct (0 <? c_fd c); [|done]. unfold when, mbind, M_bind, mod_c. cbn. by rewrite Hc. }
  rewrite (bind_eq _ _ _ tt (ack_dropped (tty_closed w cp c) c)).
  2: { unfold ack_dropped. case_bool_decide; cbn; [by destruct (tty_closed w cp c)|done]. }
  rewrite Hpb, (bind_eq _ _ _ pb (ack_dropped (tty_closed w cp c) c)) by done.
  rewrite (bind_eq _ _ _ tt (addrs_released (ack_dropped (tty_closed w cp c) c) c)).
  2: { apply release_addrs_eq. unfold config_ok. cbn. rewrite tty_closed_lnss. destruct Hcf. split; [done|].
       unfold tty_closed. by destruct (0 <? c_fd c). }
  unfold pppd_killed, when. destruct (0 <? c_pppd c); [|done].
  rewrite (bind_eq _ _ _ tt (set_c cp { (call_closed c) with c_pppd := 0 }
    (addrs_released (ack_dropped (tty_closed w cp c) c) c))); [done|].
  unfold mod_c. change (w_calls (addrs_released _ _)) with (w_calls (tty_closed w cp c)).
  by rewrite Hc1.
Qed.

Lemma call_closed_next c : c_next (call_closed c) = c_next c.
Proof. unfold call_closed. by destruct (0 <? c_fd c). Qed.
Lemma tty_closed_next w cp c q :
  w_calls w !! cp = Some c →
  c_next <$> w_calls (tty_closed w cp c) !! q = c_next <$> w_calls w !! q.
Proof. intros Hc. unfold tty_closed. destruct (0 <? c_fd c); [|done].
  etransitivity; [eapply (set_c_next _ cp c); done|done]. Qed.

Lemma release_call_spec w cp c :
  w_calls w !! cp = Some c → is_Some (c_ppp_buf c) → config_ok w c →
  ∃ w', release_call cp c w = Ret tt w' ∧ released_call w w' cp c.
Proof.
  intros Hc [pb Hpb] Hcf. eexists. split; [by eapply release_call_eq|].
  set (w3 := addrs_released (ack_dropped (tty_closed w cp c) c) c).
  assert (Hu : w_uaddr w3 = released w c (w_uaddr w)).
  { cbn. unfold released. cbn. rewrite tty_closed_lnss. unfold tty_closed. by destruct (0 <? c_fd c). }
  assert (Ho : w_out w3 = w_out w ++ (if 0 <? c_fd c then [Oclose (c_fd c)] else [])).
  { cbn. unfold tty_closed. destruct (0 <? c_fd c); [done|by rewrite app_nil_r]. }
  assert (Hc3 : w_calls w3 !! cp = Some (call_closed c)) by (by apply (tty_closed_call w)).
  assert (Hn : ∀ q, c_next <$> w_calls w3 !! q = c_next <$> w_calls w !! q)
    by (intros q; by apply (tty_closed_next w)).
  assert (Hf : w_tunnels w3 = w_tunnels w ∧ w_lacs w3 = w_lacs w)
    by (cbn; unfold tty_closed; by destruct (0 <? c_fd c)).
  destruct Hf. unfold pppd_killed. destruct (0 <? c_pppd c) eqn:Ek; split; try done; cbn;
    unfold last_words; rewrite ?Ek.
  - intros q. rewrite <-Hn. by eapply (set_c_next w3).
  - rewrite app_assoc. f_equal. exact Ho.
  - rewrite app_nil_r. exact Ho.
Qed.

(** The list of calls of a tunnel without one of them. *)
Lemma remove_from_container_spec w cp c c1 tp t cs :
  w_calls w !! cp = Some c1 → c_next c1 = c_next c → c_container c = Some tp → w_tunnels w !! tp = Some t →
  cpath w (t_call_head t) cs → cp ∈ cs →
  ∃ w' head, remove_from_container cp c w = Ret tt w' ∧
    w' = set_t tp { t with t_call_head := head; t_count := t_count t - 1 } { w with w_calls := w_calls w' } ∧
    cpath w' head (filter (.≠ cp) cs).
Proof.
  intros Hc Hcn Htp Ht Hcs Hin. destruct cs as [|p cs]; [by apply elem_of_nil in Hin|].
  pose proof Hcs as (Hh & pc & Hpc & Hrest). pose proof (cpath_nodup _ _ _ Hcs) as Hnd.
  apply NoDup_cons in Hnd as [Hp Hnd].
  unfold remove_from_container. rewrite Htp, (bind_eq _ _ _ t w), Hh by (unfold get_t; by rewrite Ht).
  destruct (Nat.eqb_spec p cp) as [->|Hne].
  - rewrite Hc in Hpc. injection Hpc as <-. rewrite Hcn in Hrest. unfold mod_t. rewrite Ht. do 2 eexists.
    split; [done|]. split; [reflexivity|]. rewrite filter_cons_False by naive_solver.
    rewrite filter_all by (intros x Hx ->; done). by eapply cpath_ext; [|exact Hrest].
  - apply elem_of_cons in Hin as [->|Hin]; [done|]. rewrite Hh in Hcs.
    destruct (unlink_call_spec w cp (c_next c) cs (S (size (w_calls w))) p)
      as (q & qc & Hq & Hqi & Hqn & Hu & Hpath); [done..|pose proof (cpath_size _ _ _ Hcs); cbn in *; lia|by eauto|].
    unfold call_fuel. rewrite (bind_eq _ _ _ (S (size (w_calls w))) w) by done.
    rewrite (bind_eq _ _ _ _ _ Hu). unfold when, mod_t.
    change (w_tunnels (set_c q _ w)) with (w_tunnels w). rewrite Ht.
    eexists _, (Some p). split; [done|]. rewrite filter_cons_True by done.
    split; [rewrite <-Hh; by destruct w, t|]. by eapply cpath_ext; [|exact Hpath].
Qed.

Lemma redial_frame w lp :
  is_Some (w_lacs w !! lp) →
  ∃ w', redial lp w = Ret tt w' ∧ w_tunnels w' = w_tunnels w ∧ w_calls w' = w_calls w ∧
    w_out w' = w_out w ∧ w_uaddr w' = w_uaddr w.
Proof.
  intros [l Hl]. unfold redial. rewrite (bind_eq _ _ _ l w) by (unfold get_lacp; by rewrite Hl).
  unfold when. case_match; [|by exists w].
  unfold mbind, M_bind, Mschedule, ask, alloc, upd, mret, M_ret, mod_lac, mbind, M_bind. cbn.
  rewrite Hl. eauto 10.
Qed.

(** C19: [destroy_call] takes a call off its tunnel.  It ends without an
    access outside live objects; afterwards the call is freed, the tunnel's
    list holds the other calls in the order they had and counts one less, and
    no other tunnel has changed; the tty was closed, pppd got its signal, and
    the addresses the call held are free again. *)
Theorem destroy_call_spec w cp c tp t cs :
  w_calls w !! cp = Some c → is_Some (c_ppp_buf c) → config_ok w c →
  c_container c = Some tp → w_tunnels w !! tp = Some t → cpath w (t_call_head t) cs → cp ∈ cs →
  ∃ w' head, destroy_call cp w = Ret tt w' ∧ w_calls w' !! cp = None ∧
    w_tunnels w' = <[tp := { t with t_call_head := head; t_count := t_count t - 1 }]> (w_tunnels w) ∧
    cpath w' head (filter (.≠ cp) cs) ∧
    w_out w' = w_out w ++ last_words c ∧ w_uaddr w' = released w c (w_uaddr w).
Proof.
  intros Hc Hpb Hcf Htp Ht Hcs Hin.
  destruct (release_call_spec w cp c Hc Hpb Hcf) as (w1 & E1 & [R1 R2 R3 R4 R5]).
  pose proof (R3 cp) as Hc1. rewrite Hc in Hc1.
  destruct (w_calls w1 !! cp) as [c1|] eqn:Ec1; [|done]. injection Hc1 as Hc1.
  assert (cpath w1 (t_call_head t) cs) as Hcs1 by (by eapply cpath_ext; [|exact Hcs]).
  destruct (remove_from_container_spec w1 cp c c1 tp t cs) as (w2 & head & E2 & Hw2 & Hp2);
    [done|done|done|by rewrite R1|done|done|].
  assert (w_tunnels w2 = <[tp := { t with t_call_head := head; t_count := t_count t - 1 }]> (w_tunnels w)
    ∧ w_lacs w2 = w_lacs w ∧ w_out w2 = w_out w ++ last_words c ∧ w_uaddr w2 = released w c (w_uaddr w))
    as (T2 & L2 & O2 & U2) by (rewrite Hw2; cbn; by rewrite R1).
  assert (∃ w3, match c_lac c with
      | None => mret tt
      | Some lp => mod_lac lp (λ l, { l with lac_c := None });; redial lp end w2 = Ret tt w3 ∧
      w_tunnels w3 = w_tunnels w2 ∧ w_calls w3 = w_calls w2 ∧ w_out w3 = w_out w2 ∧ w_uaddr w3 = w_uaddr w2)
    as (w3 & E3 & T3 & C3 & O3 & U3).
  { destruct Hcf as [_ Hl]. destruct (c_lac c) as [lp|]; [|by exists w2]. destruct (Hl lp eq_refl) as [l Hlp].
    rewrite <-L2 in Hlp. unfold mod_lac, mbind, M_bind. rewrite Hlp.
    match goal with |- ∃ _, redial _ ?w0 = _ ∧ _ => destruct (redial_frame w0 lp) as (w3 & ? & ? & ? & ? & ?) end;
      [cbn; rewrite lookup_insert_eq; eauto|by exists w3]. }
  eexists _, head. unfold destroy_call. rewrite (bind_eq _ _ _ c w) by (unfold get_c; by rewrite Hc).
  rewrite (bind_eq _ _ _ _ _ E1), (bind_eq _ _ _ _ _ E2), (bind_eq _ _ _ _ _ E3).
  split; [reflexivity|]. cbn. rewrite T3, C3, O3, U3. split_and!; [apply lookup_delete_eq|done| |done..].
  eapply cpath_ext; [|exact Hp2]. intros p [Hne _]%list_elem_of_filter. cbn.
  rewrite lookup_delete_ne by done. by rewrite ?C3.
Qed.

Example destroy_call_spec_witness :
  ∃ w' head, destroy_call 12 demo_world = Ret tt w' ∧ w_calls w' !! 12%nat = None ∧
    w_tunnels w' = <[1%nat := { demo_tunnel1 with t_call_head := head; t_count := 1 }]> (w_tunnels demo_world) ∧
    cpath w' head [13%nat] ∧
    w_out w' = [Oclose 8; Okill 77 SIGTERM] ∧ ip_used (w_uaddr w') 0xc0a80102 = 0.
Proof.
  destruct (destroy_call_spec demo_world 12 (demo_call 30 1 (Some 13%nat)) 1 demo_tunnel1 [12; 13]%nat)
    as (w' & head & H1 & H2 & H3 & H4 & H5 & H6).
  - vm_compute. reflexivity.
  - eexists. reflexivity.
  - split; discriminate.
  - reflexivity.
  - vm_compute. reflexivity.
  - split; [done|]. eexists. split; [reflexivity|]. split; [done|]. eexists. by split; [reflexivity|].
  - by left.
  - exists w', head. split_and!; [exact H1|exact H2|exact H3|exact H4|rewrite H5; reflexivity|].
    rewrite H6. vm_compute. reflexivity.
Defined.

End Calls.
