(* ===== verification/Pppd.v ===== *)
(** * Kernel tunnels and pppd (src/pty.c, [start_pppd] in src/xl2tpd.c,
    [connect_pppol2tp] in src/network.c)

    The code that asks the operating system for descriptors and processes.
    Every system call is a step whose answer the environment chooses
    ([State.sys]); the calls and their answers are recorded in [w_sys], so
    that theorems can say which descriptors are open when a routine returns.
    The code is the one compiled for Linux with kernel support. *)

From S2P Require Import Prelude.
From S2P Require Import Scheduler.
From S2P Require Import Buffer.
From S2P Require Import State.
From S2P Require Import Auth.
From S2P Require Import Logic.
From S2P Require Import Calls.

Module Pppd.
Import Scheduler Buffer State Auth Logic Calls.
Open Scope Z_scope.

Definition PF_INET : Z := 2.
Definition AF_PPPOX : Z := 24.
Definition SOL_SOCKET : Z := 1.
Definition SO_REUSEADDR : Z := 2.
Definition SO_NO_CHECK : Z := 11.
Definition IPPROTO_IP : Z := 0.
Definition IP_TOS : Z := 1.
Definition IP_PKTINFO : Z := 8.
Definition O_CREAT : Z := 64.
Definition O_RDONLY : Z := 0.
Definition O_WRONLY : Z := 1.
Definition O_RDWR : Z := 2.
Definition O_NONBLOCK : Z := 2048.

(** [fcntl] with [F_GETFL] and [F_SETFL], the latter only when the former did
    not fail; the result says whether the descriptor is non-blocking now. *)
Definition set_nonblock (fd : Z) : M bool :=
  flags ← sys (Sgetfl fd);
  if flags =? -1 then mret false
  else r ← sys (Ssetfl fd (Z.lor flags O_NONBLOCK)); mret (negb (r =? -1)).

(** ** Kernel tunnels *)

Definition connect_pppol2tp (tp : nat) : M Z :=
  k ← gets w_kernel_support;
  if negb (truthy k) then mret 0
  else
    g ← gets w_gconfig;
    ufd ← sys (Ssocket PF_INET);
    if ufd <? 0 then mret (- EINVAL)
    else
      sys_ (Ssetsockopt ufd SOL_SOCKET SO_REUSEADDR 1);;
      sys_ (Ssetsockopt ufd SOL_SOCKET SO_NO_CHECK 1);;
      r ← sys (Sbind ufd (Sockaddr (g_listenaddr g) (htons (g_port g))));
      if truthy r then sys_ (Sclose ufd);; mret (- EINVAL)
      else
        t ← get_t tp;
        ok ← set_nonblock ufd;
        if negb ok then mret (- EINVAL)
        else
          r ← sys (Sconnect ufd (t_peer t));
          if r <? 0 then sys_ (Sclose ufd);; mret (- EINVAL)
          else
            mod_t tp (λ t, { t with t_udp_fd := ufd });;
            fd2 ← sys (Ssocket AF_PPPOX);
            if fd2 <? 0 then mret (- EINVAL)
            else
              ok ← set_nonblock fd2;
              if negb ok then sys_ (Sclose fd2);; mret (- EINVAL)
              else
                t ← get_t tp;
                r ← sys (Sconnect_pppox fd2 (Pppol2tp (t_udp_fd t) (t_peer t) (t_ourtid t) 0 (t_tid t) 0));
                if r <? 0 then sys_ (Sclose fd2);; mret (- EINVAL)
                else mod_t tp (λ t, { t with t_pppox_fd := fd2 });; mret 0.

(** ** Pseudo terminals *)

Definition PTY10 : list Z := str "pqrstuvwxyzabcde".
Definition PTY01 : list Z := str "0123456789abcdef".

(** The names tried, in the order of the two loops. *)
Definition pty_names : list (Z * Z) := a ← PTY10; b ← PTY01; [(a, b)].
Fixpoint open_first (names : list (Z * Z)) : M (Z * (Z * Z)) :=
  match names with
  | [] => mret (-1, (0, 0))
  | (a, b) :: names =>
      fd ← sys (Sopen (str "/dev/pty" ++ [a; b]) (Z.lor O_RDWR O_NONBLOCK));
      if 0 <=? fd then mret (fd, (a, b)) else open_first names
  end.
Definition getPtyMaster_pty : M (Z * (Z * Z)) := open_first pty_names.

(** [strncat (ttybuf, tty, ttybuflen)] writes a terminator after at most
    [ttybuflen] bytes. *)
Definition getPtyMaster_ptmx (ttybuflen : Z) : M (Z * list Z) :=
  fd ← sys (Sopen (str "/dev/ptmx") O_RDWR);
  if fd =? -1 then mret (- EINVAL, [])
  else
    r ← sys (Sunlockpt fd);
    if truthy r then sys_ (Sclose fd);; mret (- EINVAL, [])
    else
      tty ← ask e_ptsname;
      match tty with
      | None => sys_ (Sclose fd);; mret (- EINVAL, [])
      | Some tty => if ttybuflen <=? blen tty then ub else mret (fd, tty)
      end.

Definition getPtyMaster (ttybuflen : Z) : M (Z * list Z) :=
  r ← getPtyMaster_ptmx ttybuflen;
  if 0 <=? r.1 then mret r
  else
    r ← getPtyMaster_pty;
    let '(fd, (a, b)) := r : Z * (Z * Z) in
    if 0 <=? fd then mret (fd, take (Z.to_nat (ttybuflen - 1)) (str "/dev/tty" ++ [a; b]))
    else mret (- EINVAL, []).

(** ** pppd *)

Definition PPPD : list Z := str "/usr/sbin/pppd".
(** [snprintf (stropt[pos], 11, "%d", n)] *)
Definition number (n : Z) : list Z := take 10 (dec n).

(** The options that name the socket, and on the side of the LNS the numbers of
    tunnel and call. *)
Definition pppox_args (fd2 : Z) (t : tunnel) (c : call) : list (list Z) :=
  [str "plugin"; str "pppol2tp.so"; str "pppol2tp"; number fd2] ++
  (if bool_decide (t_lns t = None) then [] else
     [str "pppol2tp_lns_mode"; str "pppol2tp_tunnel_id"; number (t_ourtid t);
      str "pppol2tp_session_id"; number (c_ourcid c)]).
(** The socket pppd uses with kernel support; [None] when the call cannot be
    started. *)
Definition pppox_device (cp : nat) : M (option (Z * list (list Z))) :=
  fd2 ← sys (Ssocket AF_PPPOX);
  if fd2 <? 0 then mret None
  else
    ok ← set_nonblock fd2;
    if negb ok then mret None
    else
      c ← get_c cp;
      tp ← need (c_container c);
      t ← get_t tp;
      r ← sys (Sconnect_pppox fd2 (Pppol2tp (t_udp_fd t) (t_peer t) (t_ourtid t) (c_ourcid c) (t_tid t) (c_cid c)));
      if r <? 0 then sys_ (Sclose fd2);; mret None
      else mret (Some (fd2, pppox_args fd2 t c)).

(** The pseudo terminal pppd uses without it.  The allocation of
    [oldptyconf] in [new_call] is taken to have succeeded. *)
Definition tty_device (cp : nat) : M (option (Z * list (list Z))) :=
  r ← getPtyMaster 512;
  let '(fd, tty) := r : Z * list Z in
  mod_c cp (λ c, { c with c_fd := fd });;
  if fd <? 0 then mret None
  else
    sys_ (Snoecho fd);;
    r ← sys (Ssetfl fd O_NONBLOCK);
    if truthy r then mret None
    else
      fd2 ← sys (Sopen tty O_RDWR);
      if fd2 <? 0 then mret None else mret (Some (fd2, [tty])).

(** The child: what it does to the descriptors it inherited.  (A dangling list
    would end the child, not the daemon; here it counts as a fault of both.) *)
Definition close_fd (fd : Z) : list syscall := if fd =? -1 then [] else [Sclose fd].
Fixpoint child_calls (fuel : nat) (sc : option nat) : M (list syscall) :=
  match fuel with
  | O => nofuel
  | S fuel =>
      match sc with
      | None => mret []
      | Some p =>
          c ← get_c p;
          l ← child_calls fuel (c_next c);
          mret (close_fd (c_fd c) ++ l)
      end
  end.
Fixpoint child_tunnels (kernel : bool) (fuel cfuel : nat) (st : option nat) : M (list syscall) :=
  match fuel with
  | O => nofuel
  | S fuel =>
      match st with
      | None => mret []
      | Some p =>
          t ← get_t p;
          l ← (if kernel then mret (close_fd (t_udp_fd t) ++ close_fd (t_pppox_fd t))
               else child_calls cfuel (t_call_head t));
          l' ← child_tunnels kernel fuel cfuel (t_next t);
          mret (l ++ l')
      end
  end.
Definition pppd_child (kernel : bool) (fd2 : Z) : M (list syscall) :=
  head ← gets w_head;
  tfuel ← tunnel_fuel;
  cfuel ← call_fuel;
  l ← child_tunnels kernel tfuel cfuel head;
  server ← gets w_server_socket;
  control ← gets w_control_fd;
  mret ([Sclose 0; Sclose 1] ++ (if kernel then [] else [Sdup2 fd2 0; Sdup2 fd2 1; Sclose fd2]) ++ l ++
        close_fd server ++ close_fd control).

(** The fork: [argv] for the child, whose answer from [fork] would be 0, and
    the parent, which the model follows. *)
Definition fork_pppd (kernel : bool) (cp : nat) (fd2 : Z) (argv : list (list Z)) : M Z :=
  pid ← sys Sfork;
  mod_c cp (λ c, { c with c_pppd := pid });;
  if pid <? 0 then sys_ (Sclose fd2);; mret (- EINVAL)
  else
    child ← pppd_child kernel fd2;
    c ← get_c cp;
    emit (Opppd cp argv child (if nonempty (c_dialing c) then Some (cstr (c_dialing c)) else None));;
    sys_ (Sclose fd2);;
    mret 0.

(** [stropt] has 80 entries, the last one for the end of the list. *)
Definition start_pppd (cp : nat) (opts : list (list Z)) : M Z :=
  c ← get_c cp;
  if 0 <? c_pppd c then mret (- EINVAL)
  else if -1 <? c_fd c then mret (- EINVAL)
  else
    k ← gets w_kernel_support;
    d ← (if truthy k then pppox_device cp else tty_device cp);
    match d with
    | None => mret (- EINVAL)
    | Some (fd2, args) => fork_pppd (truthy k) cp fd2 (take 79 ((PPPD :: args) ++ opts))
    end.

(** ** Descriptors *)

(** The descriptors a sequence of system calls leaves open, latest first. *)
Fixpoint drop_fd (fd : Z) (l : list Z) : list Z :=
  match l with [] => [] | x :: l => if x =? fd then l else x :: drop_fd fd l end.
Definition hold (l : list Z) (c : syscall * Z) : list Z :=
  match c with
  | (Ssocket _, fd) | (Sopen _ _, fd) => if 0 <=? fd then fd :: l else l
  | (Sclose fd, _) => drop_fd fd l
  | _ => l
  end.
Definition held (tr : list (syscall * Z)) : list Z := foldl hold [] tr.

(** The record ends with a failing [fcntl] on [fd]. *)
Definition lost (fd : Z) (tr : list (syscall * Z)) : Prop :=
  ∃ r, last tr = Some r ∧ (r = (Sgetfl fd, -1) ∨ ∃ flags, r = (Ssetfl fd flags, -1)).

(** How [connect_pppol2tp] ends: connected, or with an error after which it
    keeps no descriptor, or keeps the UDP socket of the tunnel, or has lost the
    UDP socket ([fcntl] failed). *)
Inductive connected (t : tunnel) : Z → list (syscall * Z) → tunnel → Prop :=
  | conn_ok ufd fd2 tr :
      0 <= ufd → 0 <= fd2 → held tr = [fd2; ufd] →
      (Sconnect ufd (t_peer t)) ∈ tr.*1 →
      (Sconnect_pppox fd2 (Pppol2tp ufd (t_peer t) (t_ourtid t) 0 (t_tid t) 0)) ∈ tr.*1 →
      connected t 0 tr { t with t_udp_fd := ufd; t_pppox_fd := fd2 }
  | conn_none tr : held tr = [] → connected t (- EINVAL) tr t
  | conn_half ufd tr : 0 <= ufd → held tr = [ufd] → connected t (- EINVAL) tr { t with t_udp_fd := ufd }
  | conn_lost ufd tr : 0 <= ufd → held tr = [ufd] → lost ufd tr → connected t (- EINVAL) tr t.

(** A system call whose answer is named, with the record so far. *)
Lemma wp_sys_trace s (Q : Z → world → Prop) w :
  (∀ r k, Q r (after_calls k (w_sys w ++ [(s, r)]) w)) → wp (sys s) Q w.
Proof. intros HQ. apply HQ. Qed.
Lemma wp_sys__trace s (Q : unit → world → Prop) w :
  (∀ r k, Q tt (after_calls k (w_sys w ++ [(s, r)]) w)) → wp (sys_ s) Q w.
Proof. intros HQ. apply (HQ (e_sys (w_env w) (w_clk w) s)). Qed.
Lemma after_calls_sys k tr w : w_sys (after_calls k tr w) = tr.
Proof. done. Qed.
Lemma after_calls_id w : after_calls (w_clk w) (w_sys w) w = w.
Proof. by destruct w. Qed.
Lemma set_t_sys p t w : w_sys (set_t p t w) = w_sys w.
Proof. done. Qed.
Lemma set_c_sys p c w : w_sys (set_c p c w) = w_sys w.
Proof. done. Qed.
Ltac wtrace :=
  repeat first
    [ match goal with
      | |- wp (sys _) _ _ => apply wp_sys_trace; intros ? ?; rewrite ?after_calls_sys
      | |- wp (sys_ _) _ _ => apply wp_sys__trace; intros ? ?; rewrite ?after_calls_sys
      end; cbv beta
    | wstep
    | match goal with |- wp (if ?b then _ else _) _ _ => destruct b eqn:?; try discriminate end
    | progress rewrite ?set_t_sys, ?set_c_sys, ?after_calls_twice, ?after_calls_set_t, ?after_calls_set_c, ?set_t_twice, ?set_c_twice ].


Lemma drop_fd_head fd l : drop_fd fd (fd :: l) = l.
Proof. cbn. by rewrite Z.eqb_refl. Qed.
(** What a concrete sequence of calls leaves open. *)
Ltac solve_held :=
  unfold held; cbn [foldl hold];
  repeat match goal with
  | H : (?r <? 0) = false |- context [0 <=? ?r] => rewrite (proj2 (Z.leb_le 0 r)) by lia
  | H : (?r <? 0) = true |- context [0 <=? ?r] => rewrite (proj2 (Z.leb_gt 0 r)) by lia
  end; rewrite ?drop_fd_head; reflexivity.

Lemma connect_traced tp t w :
  w_kernel_support w ≠ 0 → w_tunnels w !! tp = Some t →
  wp (connect_pppol2tp tp) (λ r w', ∃ k tr t', w' = set_t tp t' (after_calls k (w_sys w ++ tr) w) ∧ connected t r tr t') w.
Proof.
  intros Hk Ht. unfold connect_pppol2tp, set_nonblock. wstep. wstep.
  assert (truthy (w_kernel_support w) = true) as -> by (unfold truthy; lia). cbn [negb].
  assert (∀ k tr, after_calls k tr w = set_t tp t (after_calls k tr w)) as Hid
    by (intros k tr; symmetry; by apply set_t_id).
  wtrace; rewrite ?set_t_sys, ?after_calls_sys, <-?app_assoc; cbn [app];
    try match goal with |- ∃ _ _ _, after_calls ?k ?tr w = _ ∧ _ => rewrite (Hid k tr) end; (do 3 eexists; split; [reflexivity|]);
    first [ apply conn_none; solve_held | eapply conn_half; [|solve_held]; lia
          | eapply conn_lost; [|solve_held|]; [lia|]; eexists; split; [reflexivity|]; rewrite ?negb_involutive, ?Z.eqb_eq in *; subst; naive_solver
          | apply conn_ok; [lia|lia|solve_held| |]; cbn; set_solver ].
Qed.

(** C28: connecting a tunnel to the kernel keeps track of its descriptors.
    [connect_pppol2tp] returns on every answer of the system.  On success the
    two sockets are open, stored in the tunnel, and connected to the peer with
    the tunnel numbers of both sides; on an error every socket it opened is
    closed or stored in the tunnel, except that the UDP socket is lost when
    [fcntl] on it fails. *)
Theorem connect_descriptors w tp t :
  w_kernel_support w ≠ 0 → w_tunnels w !! tp = Some t →
  ∃ r k tr t', connect_pppol2tp tp w = Ret r (set_t tp t' (after_calls k (w_sys w ++ tr) w)) ∧ connected t r tr t'.
Proof.
  intros Hk Ht. destruct (proj1 (wp_iff _ _ _) (connect_traced tp t w Hk Ht)) as (r & w' & E & k & tr & t' & -> & Hc).
  rewrite E. eauto 10.
Qed.
Definition kernel_world : world := { demo_world with w_kernel_support := -1 }.
Lemma connect_descriptors_witness :
  ∃ r k tr t', connect_pppol2tp 1 kernel_world = Ret r (set_t 1 t' (after_calls k (w_sys kernel_world ++ tr) kernel_world)) ∧
    connected demo_tunnel1 r tr t' ∧ r = 0 ∧ length tr = 11%nat.
Proof.
  destruct (connect_descriptors kernel_world 1 demo_tunnel1) as (r & k & tr & t' & E & H); [vm_compute; discriminate|reflexivity|].
  exists r, k, tr, t'. split; [exact E|]. split; [exact H|].
  assert (match connect_pppol2tp 1 kernel_world with
          | Ret r w => r = 0 ∧ length (w_sys w) = 11%nat | _ => False end) as Hv by (vm_compute; split; reflexivity).
  rewrite E in Hv. exact Hv.
Defined.


(** ** What pppd inherits *)

(** A table of descriptors, and what the child's calls make of it. *)
Definition child_step {A} (tbl : gmap Z A) (s : syscall) : gmap Z A :=
  match s with
  | Sclose fd => delete fd tbl
  | Sdup2 fd to => match tbl !! fd with Some f => <[to := f]> tbl | None => tbl end
  | _ => tbl
  end.
Definition run_child {A} (l : list syscall) (tbl : gmap Z A) : gmap Z A := foldl child_step tbl l.

Lemma run_child_app {A} l l' (tbl : gmap Z A) : run_child (l ++ l') tbl = run_child l' (run_child l tbl).
Proof. apply foldl_app. Qed.
(** Closing only. *)
Lemma run_closes {A} fds : ∀ (tbl : gmap Z A) d,
  run_child (map Sclose fds) tbl !! d = if bool_decide (d ∈ fds) then None else tbl !! d.
Proof.
  induction fds as [|fd fds IH]; intros tbl d; [done|]. cbn [map]. unfold run_child. cbn [foldl child_step].
  fold (run_child (map Sclose fds) (delete fd tbl)). rewrite IH.
  destruct (decide (d = fd)) as [->|Hd].
  - rewrite lookup_delete_eq, (bool_decide_eq_true_2 (fd ∈ fd :: fds)) by set_solver. by destruct (bool_decide _).
  - rewrite lookup_delete_ne by done. by rewrite (bool_decide_ext (d ∈ fds) (d ∈ fd :: fds)) by set_solver.
Qed.

Definition valid_fd (fd : Z) : list Z := if fd =? -1 then [] else [fd].
Lemma close_fd_eq fd : close_fd fd = map Sclose (valid_fd fd).
Proof. unfold close_fd, valid_fd. by destruct (fd =? -1). Qed.
Definition calls_closed (w : world) (ps : list nat) : list Z :=
  ps ≫= λ p, from_option (λ c, valid_fd (c_fd c)) [] (w_calls w !! p).
Definition tunnel_closed (kernel : bool) (w : world) (cs : nat → list nat) (tp : nat) : list Z :=
  from_option (λ t, if kernel then valid_fd (t_udp_fd t) ++ valid_fd (t_pppox_fd t) else calls_closed w (cs tp)) []
    (w_tunnels w !! tp).
(** The descriptors the child closes: those that are not -1. *)
Definition closed_fds (kernel : bool) (w : world) (ts : list nat) (cs : nat → list nat) : list Z :=
  (ts ≫= tunnel_closed kernel w cs) ++ valid_fd (w_server_socket w) ++ valid_fd (w_control_fd w).

Lemma child_calls_eq w ps : ∀ fuel o, cpath w o ps → (length ps < fuel)%nat →
  child_calls fuel o w = Ret (map Sclose (calls_closed w ps)) w.
Proof.
  induction ps as [|p ps IH]; intros [|fuel] o H Hf; cbn in *; try lia; [by subst|].
  destruct H as (-> & c & Hc & H). unfold mbind at 1, M_bind, get_c. rewrite Hc.
  rewrite (bind_eq _ _ _ _ _ (IH fuel _ H ltac:(lia))). cbn. rewrite map_app, close_fd_eq. done.
Qed.
Lemma child_tunnels_eq kernel w cs cfuel ts : ∀ fuel o, tpath w o ts → (length ts < fuel)%nat →
  (∀ p t, p ∈ ts → w_tunnels w !! p = Some t → cpath w (t_call_head t) (cs p)) → (size (w_calls w) < cfuel)%nat →
  child_tunnels kernel fuel cfuel o w = Ret (map Sclose (ts ≫= tunnel_closed kernel w cs)) w.
Proof.
  induction ts as [|p ts IH]; intros [|fuel] o H Hf Hc Hs; cbn [child_tunnels length] in *; try lia; [by cbn in H; subst|].
  destruct H as (-> & t & Ht & H). rewrite (bind_eq _ _ _ t w) by (unfold get_t; by rewrite Ht).
  specialize (IH fuel _ H ltac:(lia) ltac:(set_solver) Hs). cbn [mbind list_bind].
  rewrite map_app. unfold tunnel_closed at 1. rewrite Ht. cbn [from_option]. destruct kernel.
  - rewrite (bind_eq (mret _) _ _ _ w eq_refl), (bind_eq _ _ _ _ _ IH). by rewrite !close_fd_eq, map_app.
  - pose proof (Hc p t ltac:(set_solver) Ht) as Hp. pose proof (cpath_size _ _ _ Hp) as Hz.
    rewrite (bind_eq _ _ _ _ w (child_calls_eq w (cs p) cfuel _ Hp ltac:(lia))).
    by rewrite (bind_eq _ _ _ _ _ IH).
Qed.
Lemma pppd_child_eq kernel fd2 w ts cs : lists_ok w ts cs →
  pppd_child kernel fd2 w =
    Ret ([Sclose 0; Sclose 1] ++ (if kernel then [] else [Sdup2 fd2 0; Sdup2 fd2 1; Sclose fd2]) ++
         map Sclose (closed_fds kernel w ts cs)) w.
Proof.
  intros [Ht Hc]. pose proof (tpath_size _ _ _ Ht). unfold pppd_child, tunnel_fuel, call_fuel. do 3 rewrite (bind_eq (gets _) _ _ _ w eq_refl).
  rewrite (bind_eq _ _ _ _ w (child_tunnels_eq kernel w cs (S (size (w_calls w))) ts (S (size (w_tunnels w))) _ Ht ltac:(lia) Hc ltac:(lia))).
  do 2 rewrite (bind_eq (gets _) _ _ _ w eq_refl). unfold closed_fds. by rewrite !map_app, !close_fd_eq.
Qed.

(** The descriptors the daemon has open: the server socket, the control pipe,
    the sockets of every tunnel and the terminal of every call. *)
Definition open_fd (fd : Z) : list Z := if 0 <=? fd then [fd] else [].
Definition call_open (w : world) (p : nat) : list Z := from_option (λ c, open_fd (c_fd c)) [] (w_calls w !! p).
Definition tunnel_open (w : world) (tp : nat) : list Z :=
  from_option (λ t, open_fd (t_udp_fd t) ++ open_fd (t_pppox_fd t)) [] (w_tunnels w !! tp).
Definition daemon_fds (w : world) (ts : list nat) (cs : nat → list nat) : list Z :=
  open_fd (w_server_socket w) ++ open_fd (w_control_fd w) ++ (ts ≫= tunnel_open w) ++ (ts ≫= λ tp, cs tp ≫= call_open w).
(** With kernel support no call has a terminal, without it no tunnel has
    sockets. *)
Definition fds_of_mode (kernel : bool) (w : world) (ts : list nat) (cs : nat → list nat) : Prop :=
  if kernel then (ts ≫= λ tp, cs tp ≫= call_open w) = [] else (ts ≫= tunnel_open w) = [].

Lemma elem_valid_fd d fd : 0 <= d → d ∈ valid_fd fd ↔ d ∈ open_fd fd.
Proof.
  intros Hd. unfold valid_fd, open_fd. destruct (Z.eqb_spec fd (-1)) as [->|]; [by cbn|].
  destruct (Z.leb_spec 0 fd); [done|]. rewrite list_elem_of_singleton, elem_of_nil. lia.
Qed.
Lemma bind_same (f g : nat → list Z) ps d : (∀ p, p ∈ ps → d ∈ f p ↔ d ∈ g p) → d ∈ (ps ≫= f) ↔ d ∈ (ps ≫= g).
Proof. intros H. rewrite !list_elem_of_bind. split; intros (p & Hd & Hp); exists p; (split; [|done]); by apply (H p Hp). Qed.
(** They are the same. *)
Lemma closed_open kernel w ts cs d : (∀ p, p ∈ ts → is_Some (w_tunnels w !! p)) → fds_of_mode kernel w ts cs → 0 <= d →
  d ∈ closed_fds kernel w ts cs ↔ d ∈ daemon_fds w ts cs.
Proof.
  intros Hts Hm Hd. unfold closed_fds, daemon_fds. rewrite !elem_of_app, !elem_valid_fd by done.
  enough (d ∈ (ts ≫= tunnel_closed kernel w cs) ↔ d ∈ (ts ≫= tunnel_open w) ∨ d ∈ (ts ≫= λ tp, cs tp ≫= call_open w)) by tauto.
  unfold fds_of_mode in Hm. destruct kernel; rewrite Hm, elem_of_nil.
  - enough (d ∈ ts ≫= tunnel_closed true w cs ↔ d ∈ ts ≫= tunnel_open w) by tauto. apply bind_same. intros p _. unfold tunnel_closed, tunnel_open. destruct (w_tunnels w !! p) as [t|]; [|done]. cbn [from_option].
    by rewrite !elem_of_app, !elem_valid_fd.
  - enough (d ∈ ts ≫= tunnel_closed false w cs ↔ d ∈ ts ≫= λ tp, cs tp ≫= call_open w) by tauto. apply bind_same. intros p Hp. unfold tunnel_closed. destruct (Hts p Hp) as [t ->]. cbn [from_option].
    apply bind_same. intros q _. unfold call_open. destruct (w_calls w !! q) as [c|]; [|done]. cbn [from_option]. by rewrite elem_valid_fd.
Qed.
Lemma tpath_live w ts : ∀ o, tpath w o ts → ∀ p, p ∈ ts → is_Some (w_tunnels w !! p).
Proof.
  induction ts as [|q ts IH]; intros o H p Hp; [by apply elem_of_nil in Hp|]. destruct H as (-> & t & Ht & H).
  apply elem_of_cons in Hp as [->|Hp]; [by eexists|by eapply IH].
Qed.

(** The child's calls before it closes the daemon's descriptors. *)
Lemma child_head_lookup {A} (kernel : bool) (fd2 : Z) (tbl : gmap Z A) (f : A) (d : Z) : tbl !! fd2 = Some f → 2 < fd2 →
  run_child ([Sclose 0; Sclose 1] ++ (if kernel then [] else [Sdup2 fd2 0; Sdup2 fd2 1; Sclose fd2])) tbl !! d =
    if bool_decide (d = 0 ∨ d = 1) then (if kernel then None else Some f)
    else if negb kernel && bool_decide (d = fd2) then None
    else tbl !! d.
Proof.
  intros Hf H2. destruct kernel; cbn [negb andb app].
  - change [Sclose 0; Sclose 1] with (map Sclose [0; 1]). rewrite run_closes.
    by rewrite (bool_decide_ext (d ∈ [0; 1]) (d = 0 ∨ d = 1)) by set_solver.
  - unfold run_child. cbn [foldl child_step].
    assert (delete 1 (delete 0 tbl) !! fd2 = Some f) as E by (rewrite !lookup_delete_ne by lia; done).
    rewrite E, lookup_insert_ne, E by lia.
    destruct (decide (d = fd2)) as [->|Hn].
    + rewrite lookup_delete_eq, bool_decide_eq_false_2, bool_decide_eq_true_2 by lia. done.
    + rewrite lookup_delete_ne, (bool_decide_eq_false_2 (d = fd2)) by done.
      destruct (decide (d = 1)) as [->|]; [by rewrite lookup_insert_eq|]. rewrite lookup_insert_ne by done.
      destruct (decide (d = 0)) as [->|]; [by rewrite lookup_insert_eq|]. rewrite lookup_insert_ne by done.
      rewrite !lookup_delete_ne by lia. rewrite bool_decide_eq_false_2 by lia. done.
Qed.




(** ** Starting pppd *)

(** The terminal behind a master the calls opened: what [ptsname] answered for
    the master of /dev/ptmx, or the tty of the same letters as an old-style
    master. *)
Definition terminal (e : env) (tr : list (syscall * Z)) (fd : Z) (tty : list Z) : Prop :=
  ((Sopen (str "/dev/ptmx") O_RDWR, fd) ∈ tr ∧ ∃ k, e_ptsname e k = Some tty) ∨
  (∃ a b, (Sopen (str "/dev/pty" ++ [a; b]) (Z.lor O_RDWR O_NONBLOCK), fd) ∈ tr ∧ tty = str "/dev/tty" ++ [a; b]).
(** A PPPoX socket the calls opened and connected to this call of the tunnel. *)
Definition session (tr : list (syscall * Z)) (fd2 : Z) (t : tunnel) (c : call) : Prop :=
  (Ssocket AF_PPPOX, fd2) ∈ tr ∧
  ∃ r, 0 <= r ∧
    (Sconnect_pppox fd2 (Pppol2tp (t_udp_fd t) (t_peer t) (t_ourtid t) (c_ourcid c) (t_tid t) (c_cid c)), r) ∈ tr.

(** How [start_pppd] ends for a call that has neither a process nor a
    descriptor: pppd runs on the descriptor of the terminal (or the PPPoX
    socket), with its name (or the numbers of socket, tunnel and call) and the
    options, cut to fit [stropt]; or there is an error, after which the
    descriptors still open are stored in the call, but for a PPPoX socket that
    is lost when [fcntl] on it fails. *)
Inductive started (e : env) (kernel : bool) (t : tunnel) (c : call) (opts : list (list Z)) :
  Z → list (syscall * Z) → call → option (Z * list (list Z)) → Prop :=
  | st_tty fd tty fd2 pid tr : kernel = false → 0 <= fd → 0 <= fd2 → 0 <= pid → held tr = [fd] →
      terminal e tr fd tty → (Sopen tty O_RDWR, fd2) ∈ tr →
      started e kernel t c opts 0 tr { c with c_fd := fd; c_pppd := pid } (Some (fd2, take 79 (PPPD :: tty :: opts)))
  | st_kernel fd2 pid tr : kernel = true → 0 <= fd2 → 0 <= pid → held tr = [] → session tr fd2 t c →
      started e kernel t c opts 0 tr { c with c_pppd := pid } (Some (fd2, take 79 (PPPD :: pppox_args fd2 t c ++ opts)))
  | st_fails fd pid tr : (0 <= fd → kernel = false) → pid <= 0 → held tr = (if 0 <=? fd then [fd] else []) →
      started e kernel t c opts (- EINVAL) tr { c with c_fd := fd; c_pppd := pid } None
  | st_lost fd2 tr : kernel = true → 0 <= fd2 → held tr = [fd2] → lost fd2 tr →
      started e kernel t c opts (- EINVAL) tr c None.

Lemma held_app tr tr' : held (tr ++ tr') = foldl hold (held tr) tr'.
Proof. apply foldl_app. Qed.

(** A routine that makes calls and returns a descriptor with a name: on
    success it holds just that descriptor, and the name belongs to it. *)
Definition opens {A} (P : list (syscall * Z) → Z → A → Prop) (m : M (Z * A)) (w : world) : Prop :=
  wp m (λ r w', ∃ k tr, w' = after_calls k (w_sys w ++ tr) w ∧ held tr = (if 0 <=? r.1 then [r.1] else []) ∧
    (0 <= r.1 → P tr r.1 r.2)) w.
Definition opened_pty (tr : list (syscall * Z)) (fd : Z) (ab : Z * Z) : Prop :=
  (Sopen (str "/dev/pty" ++ [ab.1; ab.2]) (Z.lor O_RDWR O_NONBLOCK), fd) ∈ tr.

Lemma open_first_traced l : ∀ w, opens opened_pty (open_first l) w.
Proof.
  unfold opens. induction l as [|[a b] l IH]; intros w; cbn [open_first].
  - wstep. exists (w_clk w), []. rewrite app_nil_r, after_calls_id. split_and!; [done..|cbn; lia].
  - wtrace; cbn [fst snd].
    + eexists _, _. split; [reflexivity|]. split; [unfold held; cbn [foldl hold]; by rewrite Heqb0|].
      intros _. unfold opened_pty. cbn [fst snd]. set_solver.
    + eapply wp_mono; [apply IH|]. cbv beta. intros r' w' (k' & tr & -> & Hh & HP).
      eexists _, _. rewrite after_calls_twice, after_calls_sys, <-app_assoc. split; [reflexivity|].
      split; [rewrite held_app; cbn; by rewrite Heqb0|]. intros Hr. specialize (HP Hr). unfold opened_pty in *. set_solver.
Qed.

(** The name of a pseudo terminal fits the array of [start_pppd]. *)
Definition names_fit (e : env) : Prop := ∀ k tty, e_ptsname e k = Some tty → blen tty < 512.
Lemma wp_ptsname (Q : option (list Z) → world → Prop) w :
  names_fit (w_env w) →
  (∀ r k, (∀ tty, r = Some tty → blen tty < 512 ∧ ∃ j, e_ptsname (w_env w) j = Some tty) → Q r (after_calls k (w_sys w) w)) →
  wp (ask e_ptsname) Q w.
Proof.
  intros He HQ. apply wp_ask. apply (HQ (e_ptsname (w_env w) (w_clk w)) (S (w_clk w))). intros tty E. split; [by eapply He|eauto].
Qed.

Lemma ptmx_traced w : names_fit (w_env w) → opens (terminal (w_env w)) (getPtyMaster_ptmx 512) w.
Proof.
  intros He. unfold opens, getPtyMaster_ptmx. wtrace; cbn [fst].
  1-2: rewrite <-?app_assoc; eexists _, _; split; [reflexivity|]; split; [|cbn; unfold EINVAL; lia];
    unfold held; cbn; try (destruct (0 <=? _); cbn; rewrite ?Z.eqb_refl; done).
  - apply Z.eqb_eq in Heqb as ->. done.
  - apply wp_ptsname; [done|]. intros [tty|] k' Hfit; rewrite ?after_calls_twice, ?after_calls_sys.
    + destruct (Hfit tty eq_refl) as [Hlen Hname]. rewrite (proj2 (Z.leb_gt _ _)) by done. wstep. rewrite <-app_assoc.
      eexists _, _. split; [reflexivity|]. split; [unfold held; cbn; by destruct (0 <=? r)|].
      intros _. left. split; [cbn [fst]; set_solver|exact Hname].
    + wtrace. rewrite ?after_calls_sys, <-!app_assoc. eexists _, _. split; [reflexivity|]. split; [|cbn; unfold EINVAL; lia].
      unfold held. cbn. destruct (0 <=? r); cbn; rewrite ?Z.eqb_refl; done.
Qed.
Lemma terminal_more e tr tr' fd tty : tr ⊆ tr' → terminal e tr fd tty → terminal e tr' fd tty.
Proof. intros Hs [[H1 H2]|(a & b & H1 & H2)]; [left|right; exists a, b]; eauto. Qed.
Lemma pty_traced w : names_fit (w_env w) → opens (terminal (w_env w)) (getPtyMaster 512) w.
Proof.
  intros He. unfold opens, getPtyMaster. wstep. eapply wp_mono; [by apply ptmx_traced|]. cbv beta.
  intros [fd tty] w' (k & tr & -> & Hh & HP). cbn [fst snd] in *. destruct (0 <=? fd) eqn:E.
  - wstep. eexists _, _. split; [reflexivity|]. split; [cbn; by rewrite E|exact HP].
  - wstep. eapply wp_mono; [apply open_first_traced|]. cbv beta.
    intros [fd' [a b]] w' (k' & tr' & -> & Hh' & HP'). cbn [fst snd] in *.
    rewrite after_calls_twice, after_calls_sys, <-app_assoc.
    destruct (0 <=? fd') eqn:E'; wstep; eexists _, _; (split; [reflexivity|]); rewrite held_app, Hh; cbn [fst snd];
      rewrite ?E'; (split; [exact Hh'|]); intros Hr; [|unfold EINVAL in Hr; lia].
    right. exists a, b. split; [|done]. specialize (HP' Hr). unfold opened_pty in HP'. cbn [fst snd] in HP'. set_solver.
Qed.

Lemma tty_traced w cp c : names_fit (w_env w) → w_calls w !! cp = Some c →
  wp (tty_device cp) (λ d w', ∃ k tr fd, w' = set_c cp { c with c_fd := fd } (after_calls k (w_sys w ++ tr) w) ∧
    match d with
    | None => held tr = if 0 <=? fd then [fd] else []
    | Some (fd2, args) => 0 <= fd ∧ 0 <= fd2 ∧ held tr = [fd2; fd] ∧
        ∃ tty, args = [tty] ∧ terminal (w_env w) tr fd tty ∧ (Sopen tty O_RDWR, fd2) ∈ tr
    end) w.
Proof.
  intros He Hc. unfold tty_device. wstep. eapply wp_mono; [by apply pty_traced|]. cbv beta.
  intros [fd tty] w' (k & tr & -> & Hh & HP). cbn [fst snd] in Hh, HP.
  wtrace; rewrite ?set_c_sys, ?after_calls_sys, <-?app_assoc; cbn [app]; (do 3 eexists; split; [reflexivity|]);
    rewrite ?held_app, Hh; cbn [foldl hold].
  - done.
  - done.
  - by rewrite (proj2 (Z.leb_gt 0 _)) by lia.
  - rewrite !(proj2 (Z.leb_le 0 _)) by lia. split_and!; [lia|lia|done|].
    exists tty. split; [done|]. split; [|set_solver]. eapply terminal_more; [|apply HP; lia]. set_solver.
Qed.

Lemma pppox_traced w cp c tp t : w_calls w !! cp = Some c → c_container c = Some tp → w_tunnels w !! tp = Some t →
  wp (pppox_device cp) (λ d w', ∃ k tr, w' = after_calls k (w_sys w ++ tr) w ∧
    match d with
    | None => held tr = [] ∨ ∃ fd2, 0 <= fd2 ∧ held tr = [fd2] ∧ lost fd2 tr
    | Some (fd2, args) => 0 <= fd2 ∧ held tr = [fd2] ∧ args = pppox_args fd2 t c ∧ session tr fd2 t c
    end) w.
Proof.
  intros Hc Htp Ht. unfold pppox_device, set_nonblock.
  wtrace; try (eapply wp_need; [exact Htp|]; wtrace); rewrite ?after_calls_sys, <-?app_assoc; cbn [app];
    (do 2 eexists; split; [reflexivity|]).
  all: first [ left; solve_held
    | right; eexists; split; [|split; [solve_held|]]; [lia|]; eexists; split; [reflexivity|];
      rewrite ?negb_involutive, ?Z.eqb_eq in *; subst; naive_solver
    | split_and!; [lia|solve_held|reflexivity|split; [set_solver|]; eexists; split; [|repeat constructor]; lia] ].
Qed.

(** The lists when calls and tunnels keep their links. *)
Lemma lists_ok_ext w w' ts cs :
  w_tunnels w' = w_tunnels w → w_head w' = w_head w →
  (∀ q, c_next <$> w_calls w' !! q = c_next <$> w_calls w !! q) → lists_ok w ts cs → lists_ok w' ts cs.
Proof.
  intros Et Eh Ec [Ht Hc]. split.
  - rewrite Eh. clear Hc. revert Ht. generalize (w_head w). induction ts as [|p ts IH]; intros o; [done|]. cbn.
    rewrite Et. intros (-> & t & Ht & H). split; [done|]. exists t. split; [done|]. by apply IH.
  - intros p t Hp Htp. rewrite Et in Htp. eapply cpath_ext; [|by eapply Hc]. intros q _. apply Ec.
Qed.
Lemma next_kept (m : gmap nat call) cp c c' q :
  m !! cp = Some c → c_next c' = c_next c → c_next <$> <[cp := c']> m !! q = c_next <$> m !! q.
Proof.
  intros Hc Hn. destruct (decide (cp = q)) as [->|]; [|by rewrite lookup_insert_ne].
  rewrite lookup_insert_eq, Hc. cbn. congruence.
Qed.

Lemma lists_ok_set_c w ts cs cp c c' :
  lists_ok w ts cs → w_calls w !! cp = Some c → c_next c' = c_next c → lists_ok (set_c cp c' w) ts cs.
Proof. intros Hl Hc Hn. apply (lists_ok_ext w); [done|done| |exact Hl]. intros q. by eapply next_kept. Qed.

Section Start.
Context (w : world) (ts : list nat) (cs : nat → list nat) (cp : nat) (c : call) (tp : nat) (t : tunnel).
Context (Hl : lists_ok w ts cs) (He : names_fit (w_env w)).
Context (Hc : w_calls w !! cp = Some c) (Htp : c_container c = Some tp) (Ht : w_tunnels w !! tp = Some t).

Definition caller : option (list Z) := if nonempty (c_dialing c) then Some (cstr (c_dialing c)) else None.

(** What [start_pppd] leaves, for an outcome as above. *)
Definition leaves (opts : list (list Z)) (r : Z) (w' : world) : Prop :=
  ∃ tr c' argv, started (w_env w) (truthy (w_kernel_support w)) t c opts r tr c' argv ∧
    w_calls w' = <[cp := c']> (w_calls w) ∧ w_tunnels w' = w_tunnels w ∧ w_sys w' = w_sys w ++ tr ∧
    match argv with
    | None => w_out w' = w_out w
    | Some (fd2, a) => ∃ child, w_out w' = w_out w ++ [Opppd cp a child caller] ∧
                                pppd_child (truthy (w_kernel_support w)) fd2 w' = Ret child w'
    end.

(** The part after the device is there. *)
Lemma fork_traced opts fd2 args fd k tr :
  let kernel := truthy (w_kernel_support w) in
  0 <= fd2 → (fd < 0 ↔ kernel = true) → held tr = (if kernel then [fd2] else [fd2; fd]) →
  (if kernel then fd = c_fd c ∧ args = pppox_args fd2 t c ∧ session tr fd2 t c
   else ∃ tty, args = [tty] ∧ terminal (w_env w) tr fd tty ∧ (Sopen tty O_RDWR, fd2) ∈ tr) →
  wp (fork_pppd kernel cp fd2 (take 79 ((PPPD :: args) ++ opts))) (leaves opts)
    (set_c cp { c with c_fd := fd } (after_calls k (w_sys w ++ tr) w)).
Proof.
  cbv zeta. intros Hfd2 Hfd Hh Hargs. unfold fork_pppd. wtrace.
  - exists (tr ++ [(Sfork, r); (Sclose fd2, r0)]), { c with c_fd := fd; c_pppd := r }, None.
    split_and!; [| |done|cbn; by rewrite <-!app_assoc|done].
    2: { cbn. by rewrite ?insert_insert_eq. }
    apply st_fails.
    + intros Hp. destruct (truthy _); [|done]. lia.
    + lia.
    + rewrite held_app, Hh. cbn [foldl hold]. destruct (truthy _) eqn:Ek.
      * rewrite drop_fd_head, (proj2 (Z.leb_gt 0 fd)) by tauto. done.
      * rewrite drop_fd_head, (proj2 (Z.leb_le 0 fd)) by (destruct (Z.lt_ge_cases fd 0) as [Hneg|]; [by apply Hfd in Hneg|lia]). done.
  - assert (∀ w', w_tunnels w' = w_tunnels w → w_head w' = w_head w →
      w_calls w' = <[cp := { c with c_fd := fd; c_pppd := r }]> (w_calls w) → lists_ok w' ts cs) as Hl1.
    { intros w' H1 H2 H3. eapply lists_ok_ext; [done|done| |exact Hl]. intros q. rewrite H3. by eapply next_kept. }
    eapply wp_eq; [apply pppd_child_eq, Hl1; try reflexivity; cbn; by rewrite ?insert_insert_eq|].
    wstep. eapply wp_get_c; [apply set_c_eq|]. wtrace.
    exists (tr ++ [(Sfork, r); (Sclose fd2, r0)]), { c with c_fd := fd; c_pppd := r }, (Some (fd2, take 79 ((PPPD :: args) ++ opts))).
    split; [|split; [cbn; by rewrite ?insert_insert_eq|split; [done|split; [cbn; by rewrite <-!app_assoc|]]]].
    2: { eexists. split; [reflexivity|].
      etransitivity; [apply pppd_child_eq, Hl1; try reflexivity; cbn; by rewrite ?insert_insert_eq|reflexivity]. }
    destruct (truthy _) eqn:Ek.
    + destruct Hargs as (-> & -> & Hses).
      assert ({ c with c_fd := c_fd c; c_pppd := r } = { c with c_pppd := r }) as -> by (by destruct c).
      apply (st_kernel _ _ _ _ _ fd2 r); [done|lia|lia| |].
      * rewrite held_app, Hh. cbn [foldl hold]. apply drop_fd_head.
      * destruct Hses as [H1 (r1 & H2 & H3)]. split; [set_solver|]. exists r1. split; [done|set_solver].
    + destruct Hargs as (tty & -> & Hterm & Hopen).
      apply st_tty; [done| |done|lia|rewrite held_app, Hh; cbn [foldl hold]; apply drop_fd_head
        |eapply terminal_more; [|exact Hterm]; set_solver|set_solver].
      destruct (Z.lt_ge_cases fd 0) as [Hneg|]; [|lia]. by apply Hfd in Hneg.
Qed.

Lemma start_traced opts : c_pppd c <= 0 → c_fd c < 0 → wp (start_pppd cp opts) (leaves opts) w.
Proof.
  intros Hp Hf. unfold start_pppd. wsteps. do 2 rewrite (proj2 (Z.ltb_ge _ _)) by lia. wsteps.
  assert (∀ k tr, after_calls k tr w = set_c cp { c with c_fd := c_fd c } (after_calls k tr w)) as Hid.
  { intros k tr. symmetry. apply set_c_id. cbn. rewrite Hc. by destruct c. }
  destruct (truthy (w_kernel_support w)) eqn:Ek.
  - eapply wp_mono; [by eapply pppox_traced|]. intros [[fd2 args]|] w' (k & tr & -> & Hd).
    + destruct Hd as (? & ? & -> & ?). rewrite Hid, <-Ek. apply fork_traced; rewrite ?Ek; [done|split; [done|lia]|done|done].
    + wstep. destruct Hd as [Hd|(fd2 & ? & ? & ?)].
      * exists tr, { c with c_fd := c_fd c; c_pppd := c_pppd c }, None. split; [|by rewrite Hid].
        apply st_fails; [lia|done|]. by rewrite (proj2 (Z.leb_gt 0 _)).
      * exists tr, c, None. rewrite Ek. split; [by eapply st_lost|]. cbn. by rewrite insert_id.
  - eapply wp_mono; [by apply tty_traced|]. intros [[fd2 args]|] w' (k & tr & fd & -> & Hd).
    + destruct Hd as (? & ? & ? & tty & -> & ? & ?). rewrite <-Ek. apply fork_traced; rewrite ?Ek; [done|split; [lia|done]|done|by eexists].
    + wstep. exists tr, { c with c_fd := fd; c_pppd := c_pppd c }, None. split; [|done]. by apply st_fails.
Qed.
End Start.

(** C26: starting pppd for a call that has none.  [start_pppd] returns on every
    answer of the system (with names of terminals that fit their array).  When it
    returns 0 one pppd was started: its argument is the name of the terminal whose
    master the call opened and keeps, and its standard input and output are the
    descriptor opened under that name (or, with kernel support, its arguments are
    the numbers of the tunnel and call and of a PPPoX socket opened for it and
    connected with them); then come the options, as many as fit in [stropt]; its
    process is recorded in the call, and the only descriptor left open is the
    terminal's master, recorded in the call.  When it returns an error no pppd was
    started and no descriptor is left open outside the call, but for a PPPoX socket
    on which [fcntl] failed. *)
Theorem start_pppd_outcome w ts cs cp c tp t opts :
  lists_ok w ts cs → names_fit (w_env w) →
  w_calls w !! cp = Some c → c_container c = Some tp → w_tunnels w !! tp = Some t →
  c_pppd c <= 0 → c_fd c < 0 →
  ∃ r w', start_pppd cp opts w = Ret r w' ∧ leaves w cp c t opts r w'.
Proof. intros Hl He Hc Htp Ht Hp Hf. apply wp_iff. by eapply start_traced. Qed.

Definition idle_call : call := { (demo_call 30 1 (Some 13%nat)) with c_fd := -1; c_pppd := 0 }.
Definition idle_world : world := set_c 12 idle_call demo_world.
Lemma idle_lists : lists_ok idle_world [1; 2]%nat demo_calls.
Proof.
  assert (w_calls demo_world !! 12%nat = Some (demo_call 30 1 (Some 13%nat))) as Hc by (vm_compute; reflexivity).
  exact (lists_ok_set_c demo_world _ _ 12 (demo_call 30 1 (Some 13%nat)) idle_call demo_lists Hc eq_refl).
Qed.
Lemma start_pppd_outcome_witness :
  ∃ r w', start_pppd 12 [str "passive"] idle_world = Ret r w' ∧
    leaves idle_world 12 idle_call demo_tunnel1 [str "passive"] r w' ∧
    r = 0 ∧ map (λ o, match o with Opppd _ argv _ _ => argv | _ => [] end) (w_out w')
            = [[str "/usr/sbin/pppd"; str "/dev/pts/1"; str "passive"]].
Proof.
  destruct (start_pppd_outcome idle_world [1; 2]%nat demo_calls 12 idle_call 1 demo_tunnel1 [str "passive"]) as (r & w' & E & H);
    [apply idle_lists|intros k tty Hk; change (Some (str "/dev/pts/1") = Some tty) in Hk; injection Hk as <-; reflexivity|reflexivity|reflexivity|reflexivity
    |vm_compute; congruence|reflexivity|].
  exists r, w'. split; [exact E|]. split; [exact H|].
  assert (match start_pppd 12 [str "passive"] idle_world with
          | Ret r w' => r = 0 ∧ map (λ o, match o with Opppd _ argv _ _ => argv | _ => [] end) (w_out w')
                        = [[str "/usr/sbin/pppd"; str "/dev/pts/1"; str "passive"]]
          | _ => False end) as Hv by (vm_compute; split; reflexivity).
  rewrite E in Hv. exact Hv.
Defined.


End Pppd.
