(* ===== verification/Messages.v ===== *)
(** * Building and sending a control message

    Rules for the pattern all of control.c follows: [new_outgoing], a
    sequence of attribute writers, [add_control_hdr], [control_xmit].
    [message tp peer l b] says that buffer [b] of tunnel [tp], addressed to
    [peer], holds the encodings of the attributes [l]; each rule extends it by
    one step, and [wp_send_control] gives the datagram that leaves. *)

From S2P Require Import Prelude.
From S2P Require Import Scheduler.
From S2P Require Import Buffer.
From S2P Require Import AvpSend.
From S2P Require Import State.
From S2P Require Import Logic.
From S2P Require Import Auth.
From S2P Require Import Calls.

Module Messages.
Import Scheduler Buffer AvpSend State Logic Auth Calls.
Open Scope Z_scope.

(** Header, ZLB flag and transmission of a finished message. *)
Definition send_control (tp cp : nat) (buf : buffer) : M unit :=
  buf ← add_control_hdr tp cp buf;
  mod_c cp (λ c, { c with c_cnu := 0 });;
  control_xmit buf.

(** Memory is there, with the size asked for. *)
Definition malloc_full (e : env) : Prop :=
  ∀ k n, 0 <= n → ∃ m, e_malloc e k n = Some m ∧ blen m = n.

Definition enc_avps (l : list avp) : list Z := concat (map enc_avp l).

Record message (tp : nat) (peer : sockaddr) (l : list avp) (b : buffer) : Prop := {
  ms_wf : buf_wf b;
  ms_contents : contents b = enc_avps l;
  ms_start : b_start b = 12;
  ms_maxlen : b_maxlen b = MAX_RECV_SIZE;
  ms_peer : b_peer b = peer;
  ms_tunnel : b_tunnel b = Some tp;
  ms_retries : b_retries b = 0 }.

Lemma message_room tp peer l b : message tp peer l b → room b = 4084 - blen (enc_avps l).
Proof.
  intros [Hw Hc Hs Hm _ _ _]. rewrite <-Hc, contents_length by done. unfold room. rewrite Hs, Hm.
  unfold MAX_RECV_SIZE. lia.
Qed.
Lemma enc_avps_app l l' : enc_avps (l ++ l') = enc_avps l ++ enc_avps l'.
Proof. unfold enc_avps. by rewrite map_app, concat_app. Qed.
Lemma enc_avps_one a : enc_avps [a] = enc_avp a.
Proof. apply app_nil_r. Qed.

Definition ticked (w : world) : world := { w with w_clk := S (w_clk w) }.

Lemma wp_new_outgoing tp t w (Q : buffer → world → Prop) :
  w_tunnels w !! tp = Some t → malloc_full (w_env w) →
  (∀ b, message tp (t_peer t) [] b → Q b (ticked w)) → wp (Mnew_outgoing tp) Q w.
Proof.
  intros Ht Hm HQ. unfold Mnew_outgoing. wsteps. unfold Mmalloc.
  destruct (Hm (w_clk w) MAX_RECV_SIZE) as (m & Em & Hl); [done|]. wstep. rewrite Em.
  eapply wp_need; [reflexivity|]. apply HQ. split; done.
Qed.

Lemma wp_write_avp a tp peer l b w (Q : buffer → world → Prop) :
  message tp peer l b → avp_fits a → blen (enc_avps l) + blen (enc_avp a) < 4084 →
  (∀ b', message tp peer (l ++ [a]) b' → Q b' w) → wp (need (write_avp a b)) Q w.
Proof.
  intros Hb Hf Hl HQ. pose proof (message_room _ _ _ _ Hb) as Hr. destruct Hb as [Hw Hc Hs Hm Hp Ht Hret].
  destruct (write_avp_spec a b Hw Hf) as (b' & E & Hw' & Hc' & Hs' & Hm' & _ & Hd1 & Hd2 & Hd3); [lia|].
  eapply wp_need; [exact E|]. apply HQ. split; try congruence.
  by rewrite Hc', Hc, enc_avps_app, enc_avps_one.
Qed.

(** The header in front of a message. *)
Lemma header_ns t c n rest b : buf_wf b → contents b = control_header t c n ++ rest →
  is_u16 (t_control_seq_num t) → buf_ld16 b 8 = Some (htons (t_control_seq_num t)).
Proof.
  intros Hw Hc Hs. destruct (contents_split b Hw) as (pre & post & Hm & Hp).
  unfold buf_ld16. rewrite Hm, Hc, <-Hp. unfold control_header.
  pose proof (ld16_be (pre ++ be16 0xC802 ++ be16 (u16 n) ++ be16 (u16 (t_tid t)) ++ be16 (u16 (c_cid c)))
    (t_control_seq_num t) (be16 (t_control_rec_seq_num t) ++ rest ++ post) Hs) as H.
  rewrite blen_app in H. change (blen (be16 _ ++ _)) with 8 in H. rewrite <-!app_assoc in H |- *. exact H.
Qed.

(** The world after the datagram with these bytes was sent for the first
    time: it waits for its acknowledgement in the queue. *)
Lemma wp_send_control tp cp t c l b w (Q : unit → world → Prop) :
  message tp (t_peer t) l b → w_tunnels w !! tp = Some t → w_calls w !! cp = Some c →
  is_u16 (t_control_seq_num t) → t_cLr t <= t_control_seq_num t → 0 < g_max_retries (w_gconfig w) →
  (∀ b', contents b' = control_header t c (12 + blen (enc_avps l)) ++ enc_avps l →
     b_peer b' = t_peer t → b_tunnel b' = Some tp → b_retries b' = 0 → buf_wf b' →
     Q tt (sent (set_c cp { c with c_cnu := 0 } (set_t tp (bump_seq t) w)) (bump_seq t) b')) →
  wp (send_control tp cp b) Q w.
Proof.
  intros Hb Ht Hc Hseq Hclr Hmax HQ. destruct Hb as [Hw Hcont Hs Hm Hp Htun Hret].
  destruct (add_control_hdr_spec w tp cp t c b Ht Hc Hw) as (m & E & Hw' & Hc'); [lia|].
  set (b' := prepended b _ m) in *.
  assert (Hlen : b_len b + 12 = 12 + blen (enc_avps l)).
  { rewrite <-Hcont, contents_length by done. lia. }
  rewrite Hlen, Hcont in Hc'.
  unfold send_control. wstep. eapply wp_eq; [exact E|]. wsteps.
  destruct (xmit_spec Mcall_close (set_c cp { c with c_cnu := 0 } (set_t tp (bump_seq t) w)) b' tp (bump_seq t)
    (htons (t_control_seq_num t))) as (_ & Hx & _); try done.
  - apply set_t_eq.
  - change (b_retries b') with (b_retries b). rewrite Hret. done.
  - by eapply header_ns.
  - eapply wp_eq; [apply Hx|apply HQ; try done].
    + rewrite htons_ntohs by done. done.
    + change (b_retries b') with (b_retries b). rewrite Hret. done.
Qed.

End Messages.
