(* ===== verification/Closing.v ===== *)
(** * Closing terminates (src/call.c [call_close], src/network.c
    [control_xmit])

    [call_close] sends a notice through [control_xmit], and [control_xmit]
    gives a tunnel up by calling [call_close].  Every such call marks the
    tunnel's control call further, so that the recursion is at most four deep
    and the fuel of [Mcall_close] is enough. *)

From S2P Require Import Prelude.
From S2P Require Import Scheduler.
From S2P Require Import Buffer.
From S2P Require Import AvpSend.
From S2P Require Import State.
From S2P Require Import Auth.
From S2P Require Import Logic.
From S2P Require Import Calls.

Module Closing.
Import Scheduler Buffer AvpSend State Auth Logic Calls.
Open Scope Z_scope.

(** ** What closing looks at *)

(** Container and marks of the calls, control calls of the tunnels. *)
Definition marks (c : call) : option nat * bool * bool := (c_container c, truthy (c_closing c), truthy (c_needclose c)).
Definition shape (w : world) : gmap nat (option nat * bool * bool) * gmap nat (option nat) :=
  (marks <$> w_calls w, t_self <$> w_tunnels w).

(** The control call of a tunnel belongs to it. *)
Definition selfs_ok (w : world) : Prop := ∀ tp t self c,
  w_tunnels w !! tp = Some t → t_self t = Some self → w_calls w !! self = Some c → c_container c = Some tp.

Lemma shape_calls w w' cp : shape w' = shape w → marks <$> w_calls w' !! cp = marks <$> w_calls w !! cp.
Proof. unfold shape. intros [= H _]. by rewrite <-!lookup_fmap, H. Qed.
Lemma shape_tunnels w w' tp : shape w' = shape w → t_self <$> w_tunnels w' !! tp = t_self <$> w_tunnels w !! tp.
Proof. unfold shape. intros [= _ H]. by rewrite <-!lookup_fmap, H. Qed.
Lemma selfs_ok_shape w w' : shape w' = shape w → selfs_ok w → selfs_ok w'.
Proof.
  intros Hs Hw tp t self c Ht Hself Hc.
  pose proof (shape_calls _ _ self Hs) as H1. pose proof (shape_tunnels _ _ tp Hs) as H2. rewrite Hc in H1. rewrite Ht in H2.
  destruct (w_calls w !! self) as [c0|] eqn:Ec; [|done]. destruct (w_tunnels w !! tp) as [t0|] eqn:Et; [|done].
  cbn in H1, H2. injection H1 as H1 _ _. injection H2 as H2. rewrite H1. eapply Hw; [done| |done]. congruence.
Qed.

(** ** Steps that keep the shape *)

Lemma shape_upd s f : (∀ w, shape (f w) = shape w) → pres (λ w, shape w = s) (upd f).
Proof. intros Hf. apply pres_upd. intros w <-. apply Hf. Qed.
Lemma shape_ask s {A} (f : env → nat → A) : pres (λ w, shape w = s) (ask f).
Proof. intros w a w' <-. by intros [= _ <-]. Qed.
Lemma fmap_insert_same {A B} (f : A → B) (m : gmap nat A) p a b :
  m !! p = Some a → f b = f a → f <$> <[p := b]> m = f <$> m.
Proof. intros Hp Hf. rewrite fmap_insert, Hf. apply insert_id. by rewrite lookup_fmap, Hp. Qed.
Lemma shape_mod_t s p f : (∀ t, t_self (f t) = t_self t) → pres (λ w, shape w = s) (mod_t p f).
Proof.
  intros Hf w a w' <-. unfold mod_t. destruct (w_tunnels w !! p) as [t|] eqn:Et; [|done]. intros [= _ <-].
  unfold shape. cbn. by rewrite (fmap_insert_same _ _ _ t).
Qed.
Lemma shape_mod_c s p f : (∀ c, marks (f c) = marks c) → pres (λ w, shape w = s) (mod_c p f).
Proof.
  intros Hf w a w' <-. unfold mod_c. destruct (w_calls w !! p) as [c|] eqn:Ec; [|done]. intros [= _ <-].
  unfold shape. cbn. by rewrite (fmap_insert_same _ _ _ c).
Qed.
#[local] Hint Resolve shape_ask : pres.
#[local] Hint Extern 2 (pres _ (mod_t _ _)) => apply shape_mod_t; done : pres.
#[local] Hint Extern 2 (pres _ (mod_c _ _)) => apply shape_mod_c; done : pres.
#[local] Hint Extern 2 (pres _ (upd _)) => apply shape_upd; done : pres.

Lemma shape_add_control_hdr s tp cp b : pres (λ w, shape w = s) (add_control_hdr tp cp b).
Proof. unfold add_control_hdr. pres. Qed.
Lemma shape_add_vector s tp b : pres (λ w, shape w = s) (add_vector tp b).
Proof. unfold add_vector, mk_challenge, get_entropy. pres. Qed.
Lemma shape_add_result s cp b : pres (λ w, shape w = s) (add_result cp b).
Proof. unfold add_result. pres. Qed.
#[local] Hint Resolve shape_add_control_hdr shape_add_vector shape_add_result : pres.
Lemma shape_close_notice s tp cp b : pres (λ w, shape w = s) (close_notice tp cp b).
Proof. unfold close_notice, Mnew_outgoing, Mmalloc. pres. Qed.
Lemma shape_deschedule_tunnel s tp : pres (λ w, shape w = s) (deschedule_tunnel tp).
Proof. unfold deschedule_tunnel. pres. Qed.
Lemma shape_deschedule s e : pres (λ w, shape w = s) (Mdeschedule e).
Proof. unfold Mdeschedule. pres. Qed.

(** ** The notice is for the tunnel *)

Definition for_tunnel (tp : nat) (b : buffer) : Prop := b_tunnel b = Some tp.
Lemma yields_then {A B} (Q : B → Prop) (P : A → Prop) (m : M B) (k : B → M A) :
  yields Q m → (∀ b, Q b → yields P (k b)) → yields P (m ≫= k).
Proof. intros Hm Hk w a w'. unfold mbind, M_bind. destruct (m w) eqn:E; [|done..]. apply Hk. by eapply Hm. Qed.
Lemma yields_need {A} (P : A → Prop) (o : option A) : (∀ a, o = Some a → P a) → yields P (need o).
Proof. intros Ho w a w'. unfold need. destruct o; [|done]. intros [= <- <-]. by apply Ho. Qed.

Lemma st16_tunnel tp b o v b' : for_tunnel tp b → buf_st16 b o v = Some b' → for_tunnel tp b'.
Proof. unfold buf_st16. intros Hb. destruct (st16 _ _ _); [|done]. cbn. by intros [= <-]. Qed.
Lemma stn_tunnel tp b o v b' : for_tunnel tp b → buf_stn b o v = Some b' → for_tunnel tp b'.
Proof. unfold buf_stn. intros Hb. destruct (stn _ _ _); [|done]. cbn. by intros [= <-]. Qed.
Ltac writer :=
  repeat match goal with
  | |- (mbind _ ?o) = Some _ → _ => let E := fresh "E" in destruct o eqn:E; cbn [mbind option_bind]; [|done]
  | E : buf_st16 _ _ _ = Some _ |- _ => eapply st16_tunnel in E; [|eassumption]
  | E : buf_stn _ _ _ = Some _ |- _ => eapply stn_tunnel in E; [|eassumption]
  end; try (intros [= <-]; assumption).
Lemma header_tunnel tp b l ty b' : for_tunnel tp b → add_header b l ty = Some b' → for_tunnel tp b'.
Proof.
  intros Hb. unfold add_header, add_nonmandatory_header. cbv zeta. writer. intros Hlast. by eapply st16_tunnel in Hlast.
Qed.
Ltac writer' :=
  repeat match goal with
  | |- (mbind _ ?o) = Some _ → _ => let E := fresh "E" in destruct o eqn:E; cbn [mbind option_bind]; [|done]
  | E : add_header _ _ _ = Some _ |- _ => eapply header_tunnel in E; [|eassumption]
  | E : buf_st16 _ _ _ = Some _ |- _ => eapply st16_tunnel in E; [|eassumption]
  | E : buf_stn _ _ _ = Some _ |- _ => eapply stn_tunnel in E; [|eassumption]
  end; intros [= <-]; assumption.

Lemma notice_for_tunnel tp cp k : yields (for_tunnel tp) (close_notice tp cp k).
Proof.
  assert (∀ b, for_tunnel tp b → yields (for_tunnel tp) (add_vector tp b)) as Hv.
  { intros b Hb. unfold add_vector. apply yields_bind. intros t. destruct (truthy _); [|by apply yields_ret].
    destruct (ch_vector _); try (by intros ? ? ?). do 2 (apply yields_bind; intros ?).
    apply yields_need. intros b'. unfold add_randvect_avp. writer'. }
  assert (∀ b, for_tunnel tp b → yields (for_tunnel tp) (add_result cp b)) as Hr.
  { intros b Hb. unfold add_result. do 2 (apply yields_bind; intros ?).
    apply yields_need. intros b'. unfold add_result_code_avp. cbv zeta. writer'. }
  assert (∀ b, for_tunnel tp b → yields (for_tunnel tp) (add_control_hdr tp cp b)) as Hh.
  { intros b Hb. unfold add_control_hdr. apply yields_bind. intros t. apply yields_bind. intros c. cbv zeta.
    apply (yields_then (for_tunnel tp)); [|intros bx Hbx; apply yields_bind; intros ?; by apply yields_ret].
    apply yields_need. intros b'.
    assert (for_tunnel tp { b with b_start := b_start b - sizeof_control_hdr; b_len := b_len b + sizeof_control_hdr })
      as Hb' by exact Hb. revert Hb'. generalize { b with b_start := b_start b - sizeof_control_hdr; b_len := b_len b + sizeof_control_hdr }.
    intros bz Hbz. writer. intros Hlast. by eapply st16_tunnel in Hlast. }
  assert (yields (for_tunnel tp) (Mnew_outgoing tp)) as Hn.
  { unfold Mnew_outgoing. apply yields_bind. intros t. apply yields_bind. intros mem. apply yields_need. intros b. unfold new_outgoing.
    destruct (new_buf _ _ _); [|done]. by intros [= <-]. }
  unfold close_notice. apply yields_bind. intros t. apply yields_bind. intros _. apply (yields_then (for_tunnel tp)); [exact Hn|]. intros b Hb. destruct k.
  - apply (yields_then (for_tunnel tp)); [apply yields_need; intros b1; unfold add_message_type_avp; cbv zeta; writer'|]. intros b1 Hb1.
    apply (yields_then (for_tunnel tp)); [by apply Hv|]. intros b2 Hb2.
    apply (yields_then (for_tunnel tp)); [apply yields_need; intros b3; unfold add_tunnelid_avp; cbv zeta; writer'|]. intros b3 Hb3.
    apply (yields_then (for_tunnel tp)); [by apply Hr|]. intros b4 Hb4. by apply Hh.
  - apply (yields_then (for_tunnel tp)); [apply yields_need; intros b1; unfold add_message_type_avp; cbv zeta; writer'|]. intros b1 Hb1.
    apply (yields_then (for_tunnel tp)); [by apply Hv|]. intros b2 Hb2. apply (yields_then (for_tunnel tp)); [by apply Hr|]. intros b3 Hb3.
    apply yields_bind. intros c.
    apply (yields_then (for_tunnel tp)); [apply yields_need; intros b4; unfold add_callid_avp; cbv zeta; writer'|]. intros b4 Hb4. by apply Hh.
Qed.

(** ** Levels *)

(** The call is marked as closing: closing it destroys it. *)
Definition shut (w : world) (cp : nat) : Prop := ∀ c, w_calls w !! cp = Some c → truthy (c_closing c) = true.
(** The control call of a tunnel that was given up once. *)
Definition asked (w : world) (cp : nat) : Prop := ∀ c, w_calls w !! cp = Some c →
  truthy (c_closing c) = true ∨
  truthy (c_needclose c) = true ∧ ∃ tp t, c_container c = Some tp ∧ w_tunnels w !! tp = Some t ∧ t_self t = Some cp.

Section Agree.
Context (f g : option nat → M unit).

Lemma close_step_shut cp w : shut w cp → close_step f (Some cp) w = close_step g (Some cp) w.
Proof.
  intros Hs. cbn [close_step]. apply bind_agree. apply wlp_get_c. intros c Hc. specialize (Hs c Hc). rewrite Hs.
  by destruct (c_container c).
Qed.

Context (Hshut : ∀ w p, shut w p → f (Some p) w = g (Some p) w).

Lemma close_calls_agree fuel : ∀ o w, close_calls f fuel o w = close_calls g fuel o w.
Proof.
  induction fuel as [|fuel IH]; intros [p|] w; [done..| |done]. cbn [close_calls].
  apply bind_agree. apply wlp_get_c. intros c Hc. apply bind_agree. apply wlp_mod_c. intros c' _.
  rewrite (bind_cong (f (Some p)) (g (Some p))); [apply bind_agree; intros ? ? _; apply IH|].
  apply Hshut. intros d. rewrite set_c_eq. by intros [= <-].
Qed.

Lemma xmit_agree b tp w :
  for_tunnel tp b →
  (∀ t self s, w_tunnels w !! tp = Some t → t_self t = Some self → w_calls w !! self = Some s →
     f (Some self) (set_c self (given_up s) w) = g (Some self) (set_c self (given_up s) w)) →
  xmit f b w = xmit g b w.
Proof.
  intros Hb Ht. unfold xmit. cbv zeta. change (b_tunnel { b with b_retries := b_retries b + 1 }) with (b_tunnel b).
  rewrite Hb. apply bind_agree. apply wlp_need. intros ns _. apply bind_agree. wlps.
  destruct (_ <? _); [done|]. apply bind_agree. wlps. destruct (_ <? _); [|done].
  do 3 (apply bind_agree; wlp1). apply bind_agree.
  assert (∀ w', w' = set_c a (given_up c) w → f (Some a) w' = g (Some a) w') as Ha by (intros ? ->; by eapply Ht).
  unfold given_up in Ha. destruct (truthy (c_needclose c)); wlps; simplify_eq; by apply Ha.
Qed.

Lemma close_step_agree cp w :
  (∀ w1 c tp t self s, shape w1 = shape w → w_calls w !! cp = Some c → c_container c = Some tp →
     truthy (c_closing c) = false → w_tunnels w1 !! tp = Some t → t_self t = Some self → w_calls w1 !! self = Some s →
     f (Some self) (set_c self (given_up s) w1) = g (Some self) (set_c self (given_up s) w1)) →
  close_step f (Some cp) w = close_step g (Some cp) w.
Proof.
  intros Ht. cbn [close_step]. apply bind_agree. apply wlp_get_c. intros c Hc.
  destruct (c_container c) as [tp|] eqn:Etp; [|done]. apply bind_agree. apply wlp_get_t. intros t Et.
  destruct (truthy (c_closing c)) eqn:Ecl; [done|].
  assert (∀ w1 b, shape w1 = shape w → for_tunnel tp b → xmit f b w1 = xmit g b w1) as Hx.
  { intros w1 b Hs Hb. apply xmit_agree with tp; [done|]. intros t1 self s Ht1 Hself Hcs. by eapply Ht. }
  destruct (bool_decide _).
  - apply bind_agree. eapply wlp_mono; [by apply (wlp_pres (λ w1, shape w1 = shape w)), eq_refl; apply shape_deschedule_tunnel|].
    intros [] w1 H1. apply bind_agree. intros b w2 E2.
    pose proof (shape_close_notice _ _ _ _ _ _ _ H1 E2) as H2. pose proof (notice_for_tunnel _ _ _ _ _ _ E2) as Hb.
    rewrite (bind_cong (xmit f b) (xmit g b)) by auto. apply bind_agree. intros [] w3 _.
    apply bind_agree. intros t3 w4 _. apply bind_agree. intros n w5 _.
    apply bind_cong, close_calls_agree.
  - apply bind_agree. apply wlp_mono with (Q := λ _ w1, shape w1 = shape w).
    { apply wlp_when. destruct (negb _); [|done]. by apply (wlp_pres (λ w1, shape w1 = shape w)); [apply shape_deschedule|]. }
    intros [] w1 H1. apply bind_agree. intros b w2 E2.
    pose proof (shape_close_notice _ _ _ _ _ _ _ H1 E2) as H2. pose proof (notice_for_tunnel _ _ _ _ _ _ E2) as Hb.
    apply bind_cong. auto.
Qed.
End Agree.

Lemma close_shut n m cp w : shut w cp → call_close (S n) (Some cp) w = call_close (S m) (Some cp) w.
Proof. apply close_step_shut. Qed.

(** The target of a packet that is given up: the tunnel's control call, marked
    once more. *)
Lemma given_up_container s : c_container (given_up s) = c_container s.
Proof. unfold given_up. by destruct (truthy _). Qed.
Lemma given_up_shut w self s : truthy (c_needclose s) = true → shut (set_c self (given_up s) w) self.
Proof. intros H c. rewrite set_c_eq. unfold given_up. rewrite H. by intros [= <-]. Qed.
Lemma given_up_asked w tp t self s : c_container s = Some tp → w_tunnels w !! tp = Some t → t_self t = Some self →
  asked (set_c self (given_up s) w) self.
Proof.
  intros Hs Ht Hself c. rewrite set_c_eq. intros [= <-]. unfold given_up.
  destruct (truthy (c_needclose s)); [by left|]. right. split; [done|]. exists tp, t. done.
Qed.

Lemma close_asked n m cp w : asked w cp →
  call_close (S (S n)) (Some cp) w = call_close (S (S m)) (Some cp) w.
Proof.
  intros Ha. apply (close_step_agree (call_close (S n)) (call_close (S m)));
    [intros w1 p Hp; exact (close_shut n m p w1 Hp)|].
  intros w1 c tp t self s Hs Hc Htp Hcl Ht Hself Hss.
  destruct (Ha c Hc) as [|(Hn & tp' & t' & Htp' & Ht' & Hself')]; [congruence|].
  assert (tp' = tp) as -> by congruence. pose proof (shape_tunnels _ _ tp Hs) as H1. rewrite Ht, Ht' in H1. cbn in H1. injection H1 as H1.
  assert (self = cp) as -> by congruence.
  pose proof (shape_calls _ _ cp Hs) as H2. rewrite Hss, Hc in H2. cbn in H2. injection H2 as _ _ H2.
  apply (close_shut n m), given_up_shut. congruence.
Qed.

Lemma close_any n m c w : selfs_ok w → call_close (S (S (S n))) c w = call_close (S (S (S m))) c w.
Proof.
  intros Hw. destruct c as [cp|]; [|reflexivity].
  apply (close_step_agree (call_close (S (S n))) (call_close (S (S m))));
    [intros w1 p Hp; exact (close_shut (S n) (S m) p w1 Hp)|].
  intros w1 c tp t self s Hs Hc Htp Hcl Ht Hself Hss.
  apply (close_asked n m). eapply given_up_asked; [|done|done]. by eapply (selfs_ok_shape _ _ Hs Hw).
Qed.

(** [call_close] and [control_xmit] call each other at most three deep: with any
    more fuel than that, closing a call or a tunnel gives the result it has with
    the fuel of [Mcall_close], in every state in which the control call of a
    tunnel belongs to the tunnel.  (That it is a result and not lack of fuel is
    shown in Termination.v.) *)
Lemma call_close_depth (n : nat) (c : option nat) (w : world) :
  selfs_ok w → Mcall_close c w = call_close (3 + n) c w.
Proof. apply (close_any 5 n). Qed.

End Closing.
