(* ===== verification/Avp.v ===== *)
(** * Received attributes (src/avp.c)

    One handler per attribute, and [handle_avps], which walks over the
    attributes of a control message in the receive buffer [w_rx].  A handler
    gets the tunnel, the call, the position of the attribute and its length;
    the header is already in host order.  Loads go through the memory of the
    receive buffer. *)

From S2P Require Import Prelude.
From S2P Require Import Buffer.
From S2P Require Import AvpSend.
From S2P Require Import State.
From S2P Require Import Auth.
From S2P Require Import Logic.
From S2P Require Import Calls.

Module Avp.
Import Buffer AvpSend State Auth Logic Calls.
Open Scope Z_scope.

Definition AVP_MAX : Z := 39.
Definition ENOMEM : Z := 12.
Definition ANALOG_BEARER : Z := 2.
Definition DIGITAL_BEARER : Z := 1.
Definition MAX_VECTOR_SIZE : Z := 1024.

Definition AMBIT (len : Z) : bool := truthy (Z.land len 0x8000).
Definition AHBIT (len : Z) : bool := truthy (Z.land len 0x4000).
Definition AZBITS (len : Z) : bool := truthy (Z.land len 0x3C00).
Definition ALENGTH (len : Z) : Z := Z.land len 0x03FF.

(** [raw[i].s] as it is stored, and in host order. *)
Definition raw (data i : Z) : M Z := rx ← gets w_rx; need (ld16 rx (data + 2 * i)).
Definition nraw (data i : Z) : M Z := v ← raw data i; mret (ntohs v).
(** The string of [size] bytes behind [raw[i]]. *)
Definition raw_string (data i size : Z) : M (list Z) :=
  rx ← gets w_rx;
  bs ← need (ldn rx (data + 2 * i) (Z.min size (MAXSTRLEN - 1)));
  mret (safe_copy bs size).

(** The message types that have a name. *)
Definition msgtype_known (m : Z) : bool :=
  existsb (Z.eqb m) [SCCRQ; SCCRP; SCCCN; StopCCN; Hello; OCRQ; OCRP; OCCN; ICRQ; ICRP; ICCN; CDN; WEN; SLI].

(** A message that prints [msgtypes[c->msgtype]] when debugging is on: the
    index must be inside the array. *)
Definition log_msgtype (tp cp : nat) : M unit :=
  t ← get_t tp;
  c ← get_c cp;
  if (truthy (c_debug c) || truthy (t_debug t)) &&
     negb ((0 <=? c_msgtype c) && (c_msgtype c <=? MAX_MSG)) then ub
  else mret tt.

Definition wrong_length (cp : nat) (field : string) (expected found : Z) (min : bool) : M unit :=
  let msg := str field ++ str (if min then ": expected at least " else ": expected ") ++
    dec expected ++ str ", got " ++ dec found in
  mod_c cp (λ c, { c with c_errormsg := take (Z.to_nat (MAXSTRLEN - 1)) msg; c_error := ERROR_LENGTH;
                          c_result := RESULT_ERROR; c_needclose := -1 }).

(** The [switch] of the sanity checks: [false] when the attribute does not
    belong in the message. *)
Definition appropriate (tp cp : nat) (msgs : list Z) : M bool :=
  c ← get_c cp;
  if existsb (Z.eqb (c_msgtype c)) msgs then mret true
  else log_msgtype tp cp;; mret false.

Definition call_head (tp : nat) : M nat := t ← get_t tp; need (t_call_head t).

(** ** Handlers *)

(** The state machine's verdict on a message type. *)
Definition msgtype_allowed (t : tunnel) (c : call) (is_self : bool) : bool :=
  let m := c_msgtype c in
  if negb is_self && (m <? Hello) then false
  else if m =? SCCRQ then (t_state t =? 0) || (t_state t =? SCCRQ)
  else if m =? SCCRP then t_state t =? SCCRQ
  else if m =? SCCCN then t_state t =? SCCRP
  else if m =? ICRQ then (t_state t =? SCCCN) && is_self
  else if m =? ICRP then (t_state t =? SCCCN) && (c_state c =? ICRQ)
  else if m =? ICCN then c_state c =? ICRP
  else if m =? SLI then c_state c =? ICCN
  else if m =? OCRP then (t_state t =? SCCCN) && (c_state c =? OCRQ)
  else if m =? OCCN then c_state c =? OCRQ
  else (m =? StopCCN) || (m =? CDN) || (m =? Hello).

Definition message_type_avp (tp cp : nat) (data datalen : Z) : M Z :=
  m ← nraw data 3;
  mod_c cp (λ c, { c with c_msgtype := m });;
  if negb (datalen =? 8) then wrong_length cp "Message Type" 8 datalen false;; mret (- EINVAL)
  else if (MAX_MSG <? m) || negb (msgtype_known m) then mret (- EINVAL)
  else
    t ← get_t tp;
    c ← get_c cp;
    if truthy (t_sanity t) && negb (msgtype_allowed t c (bool_decide (t_self t = Some cp)))
    then mret (- EINVAL)
    else if m =? ICRQ then
      tmp ← new_call tp;
      match tmp with
      | None => mret (- EINVAL)
      | Some p =>
          t ← get_t tp;
          mod_c p (λ c, { c with c_next := t_call_head t });;
          mod_t tp (λ t, { t with t_call_head := Some p; t_count := t_count t + 1 });;
          mret 0
      end
    else mret 0.

Definition rand_vector_avp (tp cp : nat) (data datalen : Z) : M Z :=
  r0 ← raw data 0;
  let size := Z.land r0 0x03FF - sizeof_avp_hdr in
  t ← get_t tp;
  if truthy (t_sanity t) && (size <? 0) then
    wrong_length cp "Random Vector" 6 datalen true;; mret (- EINVAL)
  else if truthy (t_sanity t) && (MAX_VECTOR_SIZE <? size) then
    wrong_length cp "Random Vector" 6 datalen true;; mret (- EINVAL)
  else
    mod_t tp (λ t, { t with t_chal_us := { (t_chal_us t) with ch_vector := VPkt (data + 6);
                                                             ch_vector_len := u32 size } });;
    mret 0.

Definition ignore_avp (tp cp : nat) (data datalen : Z) : M Z := mret 0.

Definition seq_reqd_avp (tp cp : nat) (data datalen : Z) : M Z :=
  t ← get_t tp;
  if truthy (t_sanity t) && negb (datalen =? 6) then
    wrong_length cp "Sequencing Required" 6 datalen true;; mret (- EINVAL)
  else
    ok ← (if truthy (t_sanity t) then appropriate tp cp [ICCN] else mret true);
    if negb ok then mret (- EINVAL)
    else mod_c cp (λ c, { c with c_seq_reqd := -1 });; mret 0.

(** The byte order some clients get wrong. *)
Definition fix_code (v : Z) : Z :=
  if (Z.land v 0xFF =? 0) && negb (Z.shiftr v 8 =? 0) then Z.shiftr v 8 else v.

Definition result_code_avp (tp cp : nat) (data datalen : Z) : M Z :=
  t ← get_t tp;
  if truthy (t_sanity t) && (datalen <? 8) then
    wrong_length cp "Result Code" 8 datalen true;; mret (- EINVAL)
  else
    ok ← (if truthy (t_sanity t) then appropriate tp cp [CDN; StopCCN] else mret true);
    if negb ok then mret 0
    else
      r ← nraw data 3;
      let result := fix_code r in
      c ← get_c cp;
      if (c_msgtype c =? StopCCN) && ((7 <? result) || (result <? 1)) then mret 0
      else if (c_msgtype c =? CDN) && ((11 <? result) || (result <? 1)) then mret 0
      else
        error ← (if 10 <=? datalen then e ← nraw data 4; mret (fix_code e) else mret (-1));
        msg ← (if 10 <? datalen then raw_string data 5 (datalen - 10) else mret []);
        mod_c cp (λ c, { c with c_error := error; c_result := result; c_errormsg := msg });;
        mret 0.

Definition protocol_version_avp (tp cp : nat) (data datalen : Z) : M Z :=
  t ← get_t tp;
  if truthy (t_sanity t) && negb (datalen =? 8) then
    wrong_length cp "Protocol Version" 8 datalen true;; mret (- EINVAL)
  else
    ok ← (if truthy (t_sanity t) then appropriate tp cp [SCCRP; SCCRQ] else mret true);
    if negb ok then mret 0 else nraw data 3;; mret 0.

(** The common shape of the other handlers: the message type is checked
    first (a misplaced attribute is ignored), then the length; then [body]. *)
Definition checked (tp cp : nat) (msgs : list Z) (bad : bool) (field : string) (expected datalen : Z)
  (min : bool) (body : M Z) : M Z :=
  t ← get_t tp;
  if truthy (t_sanity t) then
    ok ← appropriate tp cp msgs;
    if negb ok then mret 0
    else if bad then wrong_length cp field expected datalen min;; mret (- EINVAL)
    else body
  else body.

Definition framing_caps_avp (tp cp : nat) (data datalen : Z) : M Z :=
  checked tp cp [SCCRP; SCCRQ] (negb (datalen =? 10)) "Framming Capabilities" 10 datalen false (
    caps ← nraw data 4;
    mod_t tp (λ t, { t with t_fc := Z.land caps (Z.lor ASYNC_FRAMING SYNC_FRAMING) });;
    mret 0).

Definition bearer_caps_avp (tp cp : nat) (data datalen : Z) : M Z :=
  checked tp cp [SCCRP; SCCRQ] (negb (datalen =? 10)) "Bearer Capabilities" 10 datalen false (
    caps ← nraw data 4;
    mod_t tp (λ t, { t with t_bc := Z.land caps (Z.lor ANALOG_BEARER DIGITAL_BEARER) });;
    mret 0).

Definition firmware_rev_avp (tp cp : nat) (data datalen : Z) : M Z :=
  checked tp cp [SCCRP; SCCRQ] (negb (datalen =? 8)) "Firmware Revision" 8 datalen false (
    ver ← nraw data 3;
    mod_t tp (λ t, { t with t_firmware := ver });;
    mret 0).

Definition bearer_type_avp (tp cp : nat) (data datalen : Z) : M Z :=
  checked tp cp [ICRQ; OCRQ] (negb (datalen =? 10)) "Bearer Type" 10 datalen false (
    b ← nraw data 4;
    h ← call_head tp;
    mod_c h (λ c, { c with c_bearer := b });;
    mret 0).

Definition frame_type_avp (tp cp : nat) (data datalen : Z) : M Z :=
  checked tp cp [ICCN; OCRQ; OCCN] (negb (datalen =? 10)) "Frame Type" 10 datalen false (
    b ← nraw data 4;
    mod_c cp (λ c, { c with c_frame := b });;
    mret 0).

(** [size = raw[0].s & 0x03FF; size -= sizeof (struct avp_hdr); ...]: a string
    cut to [MAXSTRLEN - 1] bytes. *)
Definition avp_string (data : Z) : M (list Z) :=
  r0 ← raw data 0;
  let size := Z.land r0 0x03FF - sizeof_avp_hdr in
  let size := if MAXSTRLEN - 1 <? size then MAXSTRLEN - 1 else size in
  raw_string data 3 size.

Definition hostname_avp (tp cp : nat) (data datalen : Z) : M Z :=
  checked tp cp [SCCRP; SCCRQ] (datalen <? 6) "Hostname" 6 datalen true (
    s ← avp_string data;
    mod_t tp (λ t, { t with t_hostname := s });;
    mret 0).

Definition dialing_number_avp (tp cp : nat) (data datalen : Z) : M Z :=
  checked tp cp [ICRQ] (datalen <? 6) "Dialing Number" 6 datalen true (
    s ← avp_string data;
    h ← call_head tp;
    mod_c h (λ c, { c with c_dialing := s });;
    mret 0).

Definition dialed_number_avp (tp cp : nat) (data datalen : Z) : M Z :=
  checked tp cp [OCRQ; ICRQ] (datalen <? 6) "Dialed Number" 6 datalen true (
    s ← avp_string data;
    h ← call_head tp;
    mod_c h (λ c, { c with c_dialed := s });;
    mret 0).

Definition sub_address_avp (tp cp : nat) (data datalen : Z) : M Z :=
  checked tp cp [OCRP; ICRQ] (datalen <? 6) "Sub-address" 6 datalen true (
    s ← avp_string data;
    h ← call_head tp;
    mod_c h (λ c, { c with c_subaddy := s });;
    mret 0).

Definition vendor_avp (tp cp : nat) (data datalen : Z) : M Z :=
  checked tp cp [SCCRP; SCCRQ] (datalen <? 6) "Vendor" 6 datalen true (
    s ← avp_string data;
    mod_t tp (λ t, { t with t_vendor := s });;
    mret 0).

Definition challenge_avp (tp cp : nat) (data datalen : Z) : M Z :=
  checked tp cp [SCCRP; SCCRQ] (datalen <? 6) "challenge" 6 datalen true (
    r0 ← raw data 0;
    let size := Z.land r0 0x03FF - sizeof_avp_hdr in
    mem ← Mmalloc size;
    match mem with
    | None =>
        mod_t tp (λ t, { t with t_chal_us := { (t_chal_us t) with ch_challenge := None } });;
        mret (- ENOMEM)
    | Some _ =>
        rx ← gets w_rx;
        bs ← need (ldn rx (data + 6) size);
        mod_t tp (λ t, { t with t_chal_us := { (t_chal_us t) with ch_challenge := Some bs;
          ch_chal_len := size; ch_state := STATE_CHALLENGED } });;
        mret 0
    end).

Definition chalresp_avp (tp cp : nat) (data datalen : Z) : M Z :=
  checked tp cp [SCCRP; SCCCN] (datalen <? 6) "challenge" 6 datalen true (
    r0 ← raw data 0;
    let size := Z.land r0 0x03FF - sizeof_avp_hdr in
    if negb (size =? MD_SIG_SIZE) then mret (- EINVAL)
    else
      rx ← gets w_rx;
      bs ← need (ldn rx (data + 6) MD_SIG_SIZE);
      mod_t tp (λ t, { t with t_chal_them := { (t_chal_them t) with ch_reply := bs } });;
      mret 0).

Definition assigned_tunnel_avp (tp cp : nat) (data datalen : Z) : M Z :=
  checked tp cp [SCCRP; SCCRQ; StopCCN] (negb (datalen =? 8)) "Assigned Tunnel ID" 8 datalen false (
    v ← nraw data 3;
    c ← get_c cp;
    (if c_msgtype c =? StopCCN then mod_t tp (λ t, { t with t_qtid := v })
     else mod_t tp (λ t, { t with t_tid := v }));;
    mret 0).

Definition assigned_call_avp (tp cp : nat) (data datalen : Z) : M Z :=
  checked tp cp [CDN; ICRP; ICRQ; OCRP] (negb (datalen =? 8)) "Assigned Call ID" 8 datalen false (
    c ← get_c cp;
    if c_msgtype c =? CDN then
      v ← nraw data 3; mod_c cp (λ c, { c with c_qcid := v });; mret 0
    else if c_msgtype c =? ICRQ then
      v ← nraw data 3; h ← call_head tp; mod_c h (λ c, { c with c_cid := v });; mret 0
    else if (c_msgtype c =? ICRP) || (c_msgtype c =? OCRP) then
      v ← nraw data 3; mod_c cp (λ c, { c with c_cid := v });; mret 0
    else mret 0).

Definition packet_delay_avp (tp cp : nat) (data datalen : Z) : M Z :=
  checked tp cp [ICRP; OCRQ; ICCN; OCRP; OCCN] (negb (datalen =? 8)) "Assigned Call ID" 8 datalen false (
    v ← nraw data 3;
    mod_c cp (λ c, { c with c_ppd := v });;
    mret 0).

(** The two halves of a 32-bit value. *)
Definition nraw32 (data : Z) : M Z :=
  hi ← nraw data 3; lo ← nraw data 4; mret (Z.lor (u32 (hi * 2 ^ 16)) lo).

Definition call_serno_avp (tp cp : nat) (data datalen : Z) : M Z :=
  checked tp cp [ICRQ; OCRQ] false "Serial Number" 10 datalen false (
    v ← nraw32 data;
    h ← call_head tp;
    mod_c h (λ c, { c with c_serno := v });;
    mret 0).

Definition rx_speed_avp (tp cp : nat) (data datalen : Z) : M Z :=
  checked tp cp [ICCN; OCCN; OCRP] (negb (datalen =? 10)) "Connect Speed (RX)" 10 datalen false (
    v ← nraw32 data;
    mod_c cp (λ c, { c with c_rxspeed := s32 v });;
    mret 0).

Definition tx_speed_avp (tp cp : nat) (data datalen : Z) : M Z :=
  checked tp cp [ICCN; OCCN; OCRP] (negb (datalen =? 10)) "Connect Speed (tx)" 10 datalen false (
    v ← nraw32 data;
    mod_c cp (λ c, { c with c_txspeed := s32 v });;
    mret 0).

Definition call_physchan_avp (tp cp : nat) (data datalen : Z) : M Z :=
  checked tp cp [ICRQ; OCRQ; OCRP; OCCN] (negb (datalen =? 10)) "Physical Channel" 10 datalen false (
    v ← nraw32 data;
    h ← call_head tp;
    mod_c h (λ c, { c with c_physchan := s32 v });;
    mret 0).

Definition receive_window_size_avp (tp cp : nat) (data datalen : Z) : M Z :=
  checked tp cp [SCCRP; SCCRQ; OCRP; OCCN; StopCCN] (negb (datalen =? 8)) "Receive Window Size" 8 datalen false (
    v ← nraw data 3;
    mod_t tp (λ t, { t with t_rws := v });;
    mret 0).

(** ** The table of handlers *)

Definition avps : list (option (nat → nat → Z → Z → M Z) * string) := [
  (Some message_type_avp, "Message Type");
  (Some result_code_avp, "Result Code");
  (Some protocol_version_avp, "Protocol Version");
  (Some framing_caps_avp, "Framing Capabilities");
  (Some bearer_caps_avp, "Bearer Capabilities");
  (None, "Tie Breaker");
  (Some firmware_rev_avp, "Firmware Revision");
  (Some hostname_avp, "Host Name");
  (Some vendor_avp, "Vendor Name");
  (Some assigned_tunnel_avp, "Assigned Tunnel ID");
  (Some receive_window_size_avp, "Receive Window Size");
  (Some challenge_avp, "Challenge");
  (None, "Q.931 Cause Code");
  (Some chalresp_avp, "Challenge Response");
  (Some assigned_call_avp, "Assigned Call ID");
  (Some call_serno_avp, "Call Serial Number");
  (None, "Minimum BPS");
  (None, "Maximum BPS");
  (Some bearer_type_avp, "Bearer Type");
  (Some frame_type_avp, "Framing Type");
  (Some packet_delay_avp, "Packet Processing Delay");
  (Some dialed_number_avp, "Dialed Number");
  (Some dialing_number_avp, "Dialing Number");
  (Some sub_address_avp, "Sub-Address");
  (Some tx_speed_avp, "Transmit Connect Speed");
  (Some call_physchan_avp, "Physical channel ID");
  (None, "Initial Received LCP Confreq");
  (None, "Last Sent LCP Confreq");
  (None, "Last Received LCP Confreq");
  (Some ignore_avp, "Proxy Authen Type");
  (Some ignore_avp, "Proxy Authen Name");
  (Some ignore_avp, "Proxy Authen Challenge");
  (Some ignore_avp, "Proxy Authen ID");
  (Some ignore_avp, "Proxy Authen Response");
  (None, "Call Errors");
  (Some ignore_avp, "ACCM");
  (Some rand_vector_avp, "Random Vector");
  (None, "Private Group ID");
  (Some rx_speed_avp, "Receive Connect Speed");
  (Some seq_reqd_avp, "Sequencing Required")].

Definition avp_entry (attr : Z) : option (nat → nat → Z → Z → M Z) * string :=
  nth (Z.to_nat attr) avps (None, ""%string).

(** ** The loop over the attributes *)

(** What one attribute does: return, or go to [next] with the word whose
    length is to be skipped. *)
Inductive avp_step := AReturn (r : Z) | ANext (data len skip : Z).

Definition refuse (cp : nat) (error : Z) (msg : list Z) : M avp_step :=
  set_error cp error msg;; mod_c cp (λ c, { c with c_needclose := -1 });; mret (AReturn (- EINVAL)).

(** The handler's part, on the (unhidden) attribute at [data]. *)
Definition dispatch_avp (tp cp : nat) (data len hidlen : Z) : M avp_step :=
  rx ← gets w_rx;
  alen ← need (ld16 rx data);
  attr ← need (ld16 rx (data + 4));
  let '(handler, description) := avp_entry attr in
  match handler with
  | None =>
      if AMBIT alen then
        set_error cp VENDOR_ERROR
          (str "No handler for attr " ++ dec attr ++ str " (" ++ str description ++ [41; 10]);;
        mret (AReturn (- EINVAL))
      else mret (ANext data len (if truthy hidlen && truthy (ALENGTH hidlen) then hidlen else alen))
  | Some h =>
      r ← h tp cp data (ALENGTH alen);
      if truthy r && AMBIT alen then
        mod_c cp (λ c, { c with c_needclose := -1 });; mret (AReturn (- EINVAL))
      else mret (ANext data len (if truthy hidlen && truthy (ALENGTH hidlen) then hidlen else alen))
  end.

Definition one_avp (tp cp : nat) (data len : Z) (firstavp : bool) : M avp_step :=
  rx ← gets w_rx;
  rx ← need (swaps rx data sizeof_avp_hdr);
  upd (λ w, { w with w_rx := rx });;
  alen ← need (ld16 rx data);
  attr ← need (ld16 rx (data + 4));
  if AVP_MAX <? attr then
    if AMBIT alen then
      refuse cp VENDOR_ERROR (str "mandatory attribute " ++ dec attr ++ str " cannot be handled")
    else mret (ANext data len alen)
  else if len <? ALENGTH alen then refuse cp ERROR_LENGTH (str "Invalid AVP length")
  else if truthy attr && firstavp then
    refuse cp VENDOR_ERROR (str "First AVP must be message type")
  else if ALENGTH alen <? sizeof_avp_hdr then refuse cp ERROR_LENGTH (str "AVP too small")
  else if AZBITS alen then
    if AMBIT alen then refuse cp ERROR_RESERVED (str "reserved bits set in AVP")
    else mret (ANext data len alen)
  else if AHBIT alen then
    r ← decrypt_avp data tp;
    if truthy r then
      if AMBIT alen then refuse cp VENDOR_ERROR (str "Invalid Hidden AVP")
      else mret (ANext data len alen)
    else dispatch_avp tp cp (data + 2) (len - 2) (alen - 2)
  else dispatch_avp tp cp data len 0.

Fixpoint avp_loop (fuel : nat) (tp cp : nat) (data len : Z) (firstavp : bool) : M Z :=
  match fuel with
  | O => nofuel
  | S fuel =>
      if 0 <? len then
        s ← one_avp tp cp data len firstavp;
        match s with
        | AReturn r => mret r
        | ANext data len skip =>
            if truthy (ALENGTH skip) then
              avp_loop fuel tp cp (data + ALENGTH skip) (len - ALENGTH skip) false
            else mret (if negb (len =? 0) then - EINVAL else 0)
        end
      else mret (if negb (len =? 0) then - EINVAL else 0)
  end.

(** Every turn but the last takes at least one byte. *)
Definition handle_avps (buf : buffer) (tp cp : nat) : M Z :=
  let len := b_len buf - sizeof_control_hdr in
  avp_loop (S (Z.to_nat len)) tp cp (b_start buf + sizeof_control_hdr) len true.

(** ** Termination *)

Lemma fueled_set_error cp e m : fueled (set_error cp e m).
Proof. apply fueled_mod_c. Qed.
Lemma fueled_wrong_length cp f e n b : fueled (wrong_length cp f e n b).
Proof. apply fueled_mod_c. Qed.
Lemma fueled_raw d i : fueled (raw d i).
Proof. unfold raw. fueled. Qed.
#[export] Hint Resolve fueled_set_error fueled_wrong_length fueled_raw : fueled.
Lemma fueled_nraw d i : fueled (nraw d i).
Proof. unfold nraw. fueled. Qed.
Lemma fueled_raw_string d i n : fueled (raw_string d i n).
Proof. unfold raw_string. fueled. Qed.
Lemma fueled_log_msgtype tp cp : fueled (log_msgtype tp cp).
Proof. unfold log_msgtype. fueled. Qed.
Lemma fueled_call_head tp : fueled (call_head tp).
Proof. unfold call_head. fueled. Qed.
#[export] Hint Resolve fueled_nraw fueled_raw_string fueled_log_msgtype fueled_call_head : fueled.
Lemma fueled_appropriate tp cp l : fueled (appropriate tp cp l).
Proof. unfold appropriate. fueled. Qed.
Lemma fueled_avp_string d : fueled (avp_string d).
Proof. unfold avp_string. fueled. Qed.
Lemma fueled_nraw32 d : fueled (nraw32 d).
Proof. unfold nraw32. fueled. Qed.
Lemma fueled_random_id : fueled random_id.
Proof. unfold random_id, get_entropy. fueled. Qed.
Lemma fueled_alloc : fueled alloc.
Proof. done. Qed.
Lemma fueled_malloc n : fueled (Mmalloc n).
Proof. done. Qed.
#[export] Hint Resolve fueled_appropriate fueled_avp_string fueled_nraw32 fueled_random_id fueled_alloc
  fueled_malloc : fueled.
Lemma fueled_new_call tp : fueled (new_call tp).
Proof. unfold new_call. fueled. Qed.
Lemma fueled_checked tp cp l b f e n m body : fueled body → fueled (checked tp cp l b f e n m body).
Proof. intros Hb. unfold checked. fueled; exact Hb. Qed.
Lemma fueled_decrypt_avp p tp : fueled (decrypt_avp p tp).
Proof. unfold decrypt_avp. fueled. Qed.
#[export] Hint Resolve fueled_new_call fueled_decrypt_avp : fueled.

(** Every handler of the table ends. *)
Definition entry_fueled (e : option (nat → nat → Z → Z → M Z) * string) : Prop :=
  match e.1 with None => True | Some h => ∀ tp cp data n, fueled (h tp cp data n) end.

Lemma avps_fueled : Forall entry_fueled avps.
Proof.
  unfold avps. repeat (apply Forall_cons_2; [|]); try apply Forall_nil_2; try exact I;
    intros tp cp data n; cbn [fst].
  all: first
    [ apply fueled_ret
    | apply fueled_checked; by fueled
    | unfold message_type_avp, result_code_avp, protocol_version_avp, rand_vector_avp, seq_reqd_avp; by fueled ].
Qed.
Lemma entry_fueled_at attr : entry_fueled (avp_entry attr).
Proof.
  unfold avp_entry. destruct (nth_in_or_default (Z.to_nat attr) avps (None, ""%string)) as [Hin| ->]; [|exact I].
  by eapply (proj1 (List.Forall_forall _ _)), Hin; apply avps_fueled.
Qed.

Lemma fueled_dispatch tp cp data len hid : fueled (dispatch_avp tp cp data len hid).
Proof.
  unfold dispatch_avp. do 3 (apply fueled_bind; [by fueled|intro]).
  match goal with |- context [avp_entry ?a] => pose proof (entry_fueled_at a) as H; destruct (avp_entry a) as [[h|] d] end;
    cbn in H; fueled.
Qed.
Lemma fueled_one_avp tp cp data len first : fueled (one_avp tp cp data len first).
Proof. pose proof fueled_dispatch. unfold one_avp, refuse. fueled; auto. Qed.

(** A step of the loop does not go back. *)
Definition goes_on (len : Z) (s : avp_step) : Prop :=
  match s with AReturn _ => True | ANext _ len' _ => len' <= len end.
Lemma dispatch_goes_on tp cp data len hid : yields (goes_on len) (dispatch_avp tp cp data len hid).
Proof. unfold dispatch_avp. yields; cbn; first [done|lia]. Qed.
Lemma one_avp_goes_on tp cp data len first : yields (goes_on len) (one_avp tp cp data len first).
Proof.
  unfold one_avp, refuse. yields; try (cbn; first [done|lia]); intros w s w' Hs%dispatch_goes_on;
    destruct s; cbn in *; first [done|lia].
Qed.

Lemma ALENGTH_pos v : truthy (ALENGTH v) = true → 1 <= ALENGTH v.
Proof.
  unfold truthy, ALENGTH. intros H. assert (0 <= Z.land v 0x03FF) by (apply Z.land_nonneg; lia). lia.
Qed.

Lemma avp_loop_fueled tp cp : ∀ fuel data len first,
  (Z.to_nat len < fuel)%nat → fueled (avp_loop fuel tp cp data len first).
Proof.
  induction fuel as [|fuel IH]; intros data len first Hf; [lia|]. cbn [avp_loop].
  destruct (Z.ltb_spec 0 len) as [Hl|Hl]; [|fueled]. intros w. unfold mbind, M_bind.
  destruct (one_avp tp cp data len first w) as [s w'| |] eqn:E; [|done|by apply fueled_one_avp in E].
  pose proof (one_avp_goes_on _ _ _ _ _ _ _ _ E) as Hg. destruct s as [r|data' len' skip]; [done|].
  destruct (truthy (ALENGTH skip)) eqn:Ea; [|done]. apply ALENGTH_pos in Ea. cbn in Hg.
  apply IH. lia.
Qed.

(** C30: [handle_avps] ends on every packet.  Whatever bytes a peer sends,
    and in whatever state, the loop over the attributes ends after at most as
    many turns as the packet has bytes: every turn but the last consumes some. *)
Theorem handle_avps_terminates buf tp cp w : handle_avps buf tp cp w ≠ NoFuel.
Proof. apply avp_loop_fueled. lia. Qed.

(** ** A remote overrun *)

(** Not mandatory: a Message Type of 65535, which has no name, and then a
    Framing Capabilities attribute. *)
Definition nameless_message : buffer :=
  mkBuffer (replicate 12 0 ++ avp_enc false 0 [0xFF; 0xFF] ++ avp_enc true 3 [0; 0; 0; 3] ++ replicate 14 0)
    0 30 44 zero_sockaddr None 0.
Definition fresh_world : world :=
  { demo_world with w_tunnels := <[1%nat := { demo_tunnel1 with t_debug := -1; t_state := 0 }]> (w_tunnels demo_world);
                    w_rx := b_mem nameless_message }.

(** A peer can make the daemon read outside [msgtypes].  On a tunnel as
    [new_tunnel] makes it (its debug flag is on), the packet above is not
    refused at its nameless message type, since that attribute is not marked
    mandatory; the next attribute does not belong in such a message, and the
    log line about it indexes the table of names with 65535. *)
Theorem nameless_message_overrun : handle_avps nameless_message 1 11 fresh_world = UB.
Proof. vm_compute. reflexivity. Qed.

(** ** Reading what the other side wrote *)

Definition hdr_word (m : bool) (n : Z) : Z := Z.lor n (if m then MBIT else 0).

Lemma hdr_word_check :
  forallb (λ k, let n := Z.of_nat k in forallb (λ m, let h := hdr_word m n in
    Bool.eqb (AMBIT h) m && negb (AHBIT h) && negb (AZBITS h) && (ALENGTH h =? n) && (0 <=? h) && (h <? 65536))
    [true; false]) (seq 0 1024) = true.
Proof. vm_compute. reflexivity. Qed.
Lemma hdr_word_bits m n :
  0 <= n <= 1023 →
  AMBIT (hdr_word m n) = m ∧ AHBIT (hdr_word m n) = false ∧ AZBITS (hdr_word m n) = false ∧
  ALENGTH (hdr_word m n) = n ∧ is_u16 (hdr_word m n).
Proof.
  intros Hn. pose proof (proj1 (forallb_forall _ _) hdr_word_check (Z.to_nat n)) as H.
  rewrite in_seq, Z2Nat.id in H by lia. specialize (H ltac:(lia)).
  pose proof (proj1 (forallb_forall _ _) H m ltac:(destruct m; cbn; auto)) as H'.
  rewrite !andb_true_iff, Z.eqb_eq, Z.leb_le, Z.ltb_lt in H'. destruct H' as (((((H1&H2)&H3)&H4)&H5)&H6).
  apply Bool.eqb_prop in H1. apply negb_true_iff in H2, H3. unfold is_u16. done.
Qed.

(** An attribute in memory once its header has been put in host order. *)
Definition avp_mem (m : bool) (attr : Z) (value : list Z) : list Z :=
  (le16 (hdr_word m (6 + blen value)) ++ le16 VENDOR_ID ++ le16 attr) ++ value.

Lemma avp_enc_swapped pre m attr value post :
  6 + blen value <= 1023 → 0 <= attr <= AVP_MAX →
  swaps (pre ++ avp_enc m attr value ++ post) (blen pre) sizeof_avp_hdr
  = Some (pre ++ avp_mem m attr value ++ post).
Proof.
  intros Hv Ha. pose proof (blen_nonneg value).
  destruct (hdr_word_bits m (6 + blen value)) as (_ & _ & _ & _ & Hu); [lia|].
  pose proof (swaps_words [hdr_word m (6 + blen value); VENDOR_ID; attr] pre (value ++ post)) as Hs.
  cbn [map concat length] in Hs. unfold swaps. change (Z.to_nat (sizeof_avp_hdr / 2)) with 3%nat.
  unfold avp_enc, avp_mem. fold (hdr_word m (6 + blen value)).
  replace (pre ++ (be16 (hdr_word m (6 + blen value)) ++ be16 VENDOR_ID ++ be16 attr ++ value) ++ post)
    with (pre ++ (be16 (hdr_word m (6 + blen value)) ++ be16 VENDOR_ID ++ be16 attr ++ []) ++ value ++ post) by napp.
  rewrite Hs; [f_equal; napp|]. repeat apply Forall_cons_2; [done|done| |constructor].
  unfold AVP_MAX in Ha. unfold_uint. lia.
Qed.

Definition set_rx (w : world) (rx : list Z) : world := { w with w_rx := rx }.

Lemma one_avp_plain tp cp w pre m attr value post len first :
  w_rx w = pre ++ avp_enc m attr value ++ post → 6 + blen value <= 1023 → 6 + blen value <= len →
  0 <= attr <= AVP_MAX → (attr = 0 ∨ first = false) →
  one_avp tp cp (blen pre) len first w
  = dispatch_avp tp cp (blen pre) len 0 (set_rx w (pre ++ avp_mem m attr value ++ post)).
Proof.
  intros Hrx Hv Hl Ha Hf. pose proof (blen_nonneg value).
  destruct (hdr_word_bits m (6 + blen value)) as (_ & HH & HZ & HL & Hu); [lia|].
  unfold one_avp. rewrite (bind_eq _ _ _ (w_rx w) w) by done. rewrite Hrx, avp_enc_swapped by done.
  rewrite (bind_eq _ _ _ (pre ++ avp_mem m attr value ++ post) w) by done.
  rewrite (bind_eq _ _ _ tt (set_rx w (pre ++ avp_mem m attr value ++ post))) by done.
  rewrite (ld16_at _ pre (hdr_word m (6 + blen value)) ((le16 VENDOR_ID ++ le16 attr) ++ value ++ post)
    (blen pre)) by (done || unfold avp_mem; napp).
  rewrite (bind_eq _ _ _ (hdr_word m (6 + blen value)) (set_rx w (pre ++ avp_mem m attr value ++ post))) by done.
  rewrite (ld16_at _ (pre ++ le16 (hdr_word m (6 + blen value)) ++ le16 VENDOR_ID) attr (value ++ post)
    (blen pre + 4)); [|unfold avp_mem; napp|blen|unfold AVP_MAX in Ha; unfold_uint; lia].
  rewrite (bind_eq _ _ _ attr (set_rx w (pre ++ avp_mem m attr value ++ post))) by done.
  rewrite HL, HH, HZ, (proj2 (Z.ltb_ge _ _)) by lia. rewrite (proj2 (Z.ltb_ge _ _)) by lia.
  assert (truthy attr && first = false) as -> by (destruct Hf as [->| ->]; [done|apply andb_false_r]).
  rewrite (proj2 (Z.ltb_ge _ _)) by (unfold sizeof_avp_hdr; lia). done.
Qed.

Lemma dispatch_plain tp cp w w' pre m attr value post len h d :
  w_rx w = pre ++ avp_mem m attr value ++ post → 6 + blen value <= 1023 → 0 <= attr <= AVP_MAX →
  avp_entry attr = (Some h, d) → h tp cp (blen pre) (6 + blen value) w = Ret 0 w' →
  dispatch_avp tp cp (blen pre) len 0 w = Ret (ANext (blen pre) len (hdr_word m (6 + blen value))) w'.
Proof.
  intros Hrx Hv Ha He Hh. pose proof (blen_nonneg value).
  destruct (hdr_word_bits m (6 + blen value)) as (HM & _ & _ & HL & Hu); [lia|].
  unfold dispatch_avp. rewrite (bind_eq _ _ _ (w_rx w) w) by done. rewrite Hrx.
  rewrite (ld16_at _ pre (hdr_word m (6 + blen value)) ((le16 VENDOR_ID ++ le16 attr) ++ value ++ post)
    (blen pre)) by (done || unfold avp_mem; napp).
  rewrite (bind_eq _ _ _ (hdr_word m (6 + blen value)) w) by done.
  rewrite (ld16_at _ (pre ++ le16 (hdr_word m (6 + blen value)) ++ le16 VENDOR_ID) attr (value ++ post)
    (blen pre + 4)); [|unfold avp_mem; napp|blen|unfold AVP_MAX in Ha; unfold_uint; lia].
  rewrite (bind_eq _ _ _ attr w) by done. rewrite He, HL. by rewrite (bind_eq _ _ _ _ _ Hh).
Qed.

(** What an attribute of SCCRQ and SCCRP does to the tunnel that receives it. *)
Definition tunnel_effect (a : avp) : option (tunnel → tunnel) :=
  match a with
  | ProtocolVersion => Some (λ t, t)
  | FramingCaps caps => Some (λ t, { t with t_fc := Z.land caps (Z.lor ASYNC_FRAMING SYNC_FRAMING) })
  | BearerCaps caps => Some (λ t, { t with t_bc := Z.land caps (Z.lor ANALOG_BEARER DIGITAL_BEARER) })
  | FirmwareRev => Some (λ t, { t with t_firmware := FIRMWARE_REV })
  | HostName name => Some (λ t, { t with t_hostname := cstr (take 119 name) })
  | VendorName => Some (λ t, { t with t_vendor := VENDOR_NAME })
  | AssignedTunnel tid => Some (λ t, { t with t_tid := tid })
  | ReceiveWindow rws => Some (λ t, { t with t_rws := rws })
  | Challenge c => Some (λ t, { t with t_chal_us := { (t_chal_us t) with ch_challenge := Some c;
      ch_chal_len := blen c; ch_state := STATE_CHALLENGED } })
  | _ => None
  end.
(** M bit, type and value of these attributes. *)
Definition avp_parts (a : avp) : bool * Z * list Z :=
  match a with
  | ProtocolVersion => (true, 2, be16 0x100)
  | FramingCaps caps => (true, 3, be16 0 ++ be16 caps)
  | BearerCaps caps => (true, 4, be16 0 ++ be16 caps)
  | FirmwareRev => (false, 6, be16 FIRMWARE_REV)
  | HostName name => (true, 7, take 1017 name)
  | VendorName => (false, 8, VENDOR_NAME)
  | AssignedTunnel tid => (true, 9, be16 tid)
  | ReceiveWindow rws => (true, 10, be16 rws)
  | Challenge c => (true, 11, c)
  | _ => (false, 0, [])
  end.
Definition value_ok (a : avp) : Prop :=
  match a with
  | FramingCaps v | BearerCaps v | AssignedTunnel v | ReceiveWindow v => is_u16 v
  | Challenge c => blen c <= 1017
  | _ => True
  end.

Section Effects.
Context (tp cp : nat).

(** Memory is available for a challenge. *)
Definition malloc_some (w : world) : Prop := ∀ k n, is_Some (e_malloc (w_env w) k n).

Lemma nraw_at w a v b data i :
  w_rx w = a ++ be16 v ++ b → data + 2 * i = blen a → is_u16 v → nraw data i w = Ret v w.
Proof.
  intros Hrx Hp Hv. unfold nraw, raw, mbind, M_bind, gets, need. rewrite Hrx, Hp, ld16_be by done.
  by rewrite htons_ntohs.
Qed.

Lemma raw0_at w pre m attr value post :
  w_rx w = pre ++ avp_mem m attr value ++ post → 6 + blen value <= 1023 →
  raw (blen pre) 0 w = Ret (hdr_word m (6 + blen value)) w.
Proof.
  intros Hrx Hv. pose proof (blen_nonneg value).
  destruct (hdr_word_bits m (6 + blen value)) as (_ & _ & _ & _ & Hu); [lia|].
  unfold raw, mbind, M_bind, gets, need. rewrite Hrx.
  rewrite (ld16_at _ pre (hdr_word m (6 + blen value)) ((le16 VENDOR_ID ++ le16 attr) ++ value ++ post));
    [done|unfold avp_mem; napp|lia|done].
Qed.

Lemma ldn_value pre m attr value post n :
  0 <= n <= blen value →
  ldn (pre ++ avp_mem m attr value ++ post) (blen pre + 6) n = Some (take (Z.to_nat n) value).
Proof.
  intros Hn. unfold avp_mem.
  set (h := le16 (hdr_word m (6 + blen value)) ++ le16 VENDOR_ID ++ le16 attr).
  replace (pre ++ (h ++ value) ++ post)
    with ((pre ++ h) ++ take (Z.to_nat n) value ++ drop (Z.to_nat n) value ++ post)
    by (rewrite (app_assoc (take _ _)), take_drop; napp).
  replace (blen pre + 6) with (blen (pre ++ h)) by (unfold h; blen).
  replace n with (blen (take (Z.to_nat n) value)) at 3 by (unfold blen in *; rewrite length_take; lia).
  apply ldn_app_mid.
Qed.

Lemma avp_string_at w pre m attr value post :
  w_rx w = pre ++ avp_mem m attr value ++ post → 6 + blen value <= 1023 →
  avp_string (blen pre) w = Ret (cstr (take 119 value)) w.
Proof.
  intros Hrx Hv. pose proof (blen_nonneg value).
  destruct (hdr_word_bits m (6 + blen value)) as (_ & _ & _ & HL & _); [lia|].
  unfold avp_string. rewrite (bind_eq _ _ _ _ _ (raw0_at w pre m attr value post Hrx Hv)).
  change (Z.land (hdr_word m (6 + blen value)) 0x03FF) with (ALENGTH (hdr_word m (6 + blen value))).
  rewrite HL. unfold sizeof_avp_hdr, MAXSTRLEN. replace (6 + blen value - 6) with (blen value) by lia.
  unfold raw_string, MAXSTRLEN. rewrite (bind_eq _ _ _ (w_rx w) w), Hrx by done. change (2 * 3) with 6.
  set (size := if 120 - 1 <? blen value then 120 - 1 else blen value).
  assert (Hs : size = Z.min 119 (blen value)) by (subst size; destruct (Z.ltb_spec (120 - 1) (blen value)); lia).
  rewrite ldn_value by lia. rewrite (bind_eq _ _ _ (take (Z.to_nat (Z.min size (120 - 1))) value) w) by done.
  unfold safe_copy, MAXSTRLEN. cbv [mret M_ret]. do 2 f_equal. rewrite take_take.
  destruct (Z.le_gt_cases (blen value) 119).
  - rewrite !take_ge by (unfold blen in *; lia). done.
  - f_equal. lia.
Qed.

Lemma checked_ok w t c msgs f e n min body :
  w_tunnels w !! tp = Some t → w_calls w !! cp = Some c →
  existsb (Z.eqb (c_msgtype c)) msgs = true →
  checked tp cp msgs false f e n min body w = body w.
Proof.
  intros Ht Hc Hm. unfold checked. rewrite (bind_eq _ _ _ t w) by (unfold get_t; by rewrite Ht).
  destruct (truthy (t_sanity t)); [|done].
  rewrite (bind_eq _ _ _ true w); [done|]. unfold appropriate, mbind, M_bind, get_c. by rewrite Hc, Hm.
Qed.

Lemma value16_at w pre m attr v post :
  w_rx w = pre ++ avp_mem m attr (be16 v) ++ post → is_u16 v → nraw (blen pre) 3 w = Ret v w.
Proof.
  intros Hrx Hv. apply (nraw_at w (pre ++ le16 (hdr_word m (6 + blen (be16 v))) ++ le16 VENDOR_ID ++ le16 attr)
    v post); [rewrite Hrx; unfold avp_mem; napp|blen|done].
Qed.
Lemma value32_at w pre m attr v post :
  w_rx w = pre ++ avp_mem m attr (be16 0 ++ be16 v) ++ post → is_u16 v → nraw (blen pre) 4 w = Ret v w.
Proof.
  intros Hrx Hv. apply (nraw_at w (pre ++ (le16 (hdr_word m (6 + blen (be16 0 ++ be16 v))) ++ le16 VENDOR_ID ++
    le16 attr) ++ be16 0) v post); [rewrite Hrx; unfold avp_mem; napp|blen|done].
Qed.

(** The effect of one handler on the state. *)
Definition changes_tunnel (w w' : world) (t' : tunnel) : Prop :=
  w_tunnels w' = <[tp := t']> (w_tunnels w) ∧ w_calls w' = w_calls w ∧ w_env w' = w_env w ∧
  w_rx w' = w_rx w.

(** A handler that reads a value and stores it in the tunnel. *)
Lemma store_effect {A} w t (get : M A) (f : A → tunnel → tunnel) a :
  w_tunnels w !! tp = Some t → get w = Ret a w →
  ∃ w', (v ← get; mod_t tp (f v);; mret 0) w = Ret 0 w' ∧ changes_tunnel w w' (f a t).
Proof.
  intros Ht Hg. exists (set_t tp (f a t) w). split; [|done]. rewrite (bind_eq _ _ _ _ _ Hg).
  unfold mbind, M_bind, mod_t. by rewrite Ht.
Qed.

(** The handlers of a message type in which they are appropriate. *)
Section Messages.
Context (w : world) (t : tunnel) (c : call).
Context (Ht : w_tunnels w !! tp = Some t) (Hc : w_calls w !! cp = Some c).
Context (Hm : c_msgtype c = SCCRQ ∨ c_msgtype c = SCCRP) (Hmal : malloc_some w).

Lemma version_effect pre m post :
  w_rx w = pre ++ avp_mem m 2 (be16 0x100) ++ post →
  ∃ w', protocol_version_avp tp cp (blen pre) 8 w = Ret 0 w' ∧ changes_tunnel w w' t.
Proof.
  intros Hrx. exists w. split; [|by repeat split; rewrite ?insert_id].
  unfold protocol_version_avp. rewrite (bind_eq _ _ _ t w) by (unfold get_t; by rewrite Ht).
  rewrite andb_false_r, (bind_eq _ _ _ true w).
  2: { destruct (truthy (t_sanity t)); [|done]. unfold appropriate, mbind, M_bind, get_c. rewrite Hc.
       by destruct Hm as [-> | ->]. }
  cbn [negb]. by rewrite (bind_eq _ _ _ _ _ (value16_at w pre m 2 0x100 post Hrx ltac:(done))).
Qed.

Lemma challenge_effect pre m ch post :
  w_rx w = pre ++ avp_mem m 11 ch ++ post → blen ch <= 1017 →
  ∃ w', challenge_avp tp cp (blen pre) (6 + blen ch) w = Ret 0 w' ∧
    changes_tunnel w w' { t with t_chal_us := { (t_chal_us t) with ch_challenge := Some ch;
      ch_chal_len := blen ch; ch_state := STATE_CHALLENGED } }.
Proof.
  intros Hrx Hl. pose proof (blen_nonneg ch). unfold challenge_avp.
  rewrite (proj2 (Z.ltb_ge _ _)) by lia. rewrite (checked_ok w t c) by (done || by destruct Hm as [-> | ->]).
  rewrite (bind_eq _ _ _ _ _ (raw0_at w pre m 11 ch post Hrx ltac:(lia))).
  change (Z.land ?x 0x03FF) with (ALENGTH x).
  destruct (hdr_word_bits m (6 + blen ch)) as (_ & _ & _ & -> & _); [lia|]. unfold sizeof_avp_hdr.
  replace (6 + blen ch - 6) with (blen ch) by lia.
  destruct (Hmal (w_clk w) (blen ch)) as [mem Hmem].
  rewrite (bind_eq _ _ _ (Some mem) { w with w_clk := S (w_clk w) }) by (unfold Mmalloc, ask; by rewrite Hmem).
  rewrite (bind_eq _ _ _ (w_rx w) { w with w_clk := S (w_clk w) }) by done.
  rewrite Hrx, ldn_value by lia. unfold blen at 2 3. rewrite Nat2Z.id, firstn_all.
  rewrite (bind_eq _ _ _ ch { w with w_clk := S (w_clk w) }) by done.
  eexists. split; [unfold mbind, M_bind, mod_t; cbn; rewrite Ht; reflexivity|]. done.
Qed.

Lemma assigned_tunnel_effect pre m tid post :
  w_rx w = pre ++ avp_mem m 9 (be16 tid) ++ post → is_u16 tid →
  ∃ w', assigned_tunnel_avp tp cp (blen pre) 8 w = Ret 0 w' ∧ changes_tunnel w w' { t with t_tid := tid }.
Proof.
  intros Hrx Hv. exists (set_t tp { t with t_tid := tid } w). split; [|done]. unfold assigned_tunnel_avp.
  change (negb (8 =? 8)) with false. rewrite (checked_ok w t c) by (done || by destruct Hm as [-> | ->]).
  rewrite (bind_eq _ _ _ _ _ (value16_at w pre m 9 tid post Hrx Hv)).
  rewrite (bind_eq _ _ _ c w) by (unfold get_c; by rewrite Hc).
  assert ((c_msgtype c =? StopCCN) = false) as -> by (by destruct Hm as [-> | ->]).
  unfold mbind, M_bind, mod_t. by rewrite Ht.
Qed.

(** An attribute that is checked, read and stored. *)
Lemma stored_effect {A} (h : nat → nat → Z → Z → M Z) d pre n msgs f e min (get : M A) (g : A → tunnel → tunnel) v attr :
  avp_entry attr = (Some h, d) → get w = Ret v w →
  h tp cp (blen pre) n = checked tp cp msgs false f e n min (x ← get; mod_t tp (g x);; mret 0) →
  existsb (Z.eqb SCCRQ) msgs = true → existsb (Z.eqb SCCRP) msgs = true →
  ∃ h d w', avp_entry attr = (Some h, d) ∧ h tp cp (blen pre) n w = Ret 0 w' ∧ changes_tunnel w w' (g v t).
Proof.
  intros He Hg Hh H1 H2. destruct (store_effect w t get g v Ht Hg) as (w' & E & Hch).
  exists h, d, w'. split; [done|]. split; [|done]. rewrite Hh, (checked_ok w t c); [done..|].
  by destruct Hm as [-> | ->].
Qed.

Lemma handler_effect a eff pre post :
  let '(m, attr, value) := avp_parts a in
  tunnel_effect a = Some eff → value_ok a → w_rx w = pre ++ avp_mem m attr value ++ post →
  ∃ h d w', avp_entry attr = (Some h, d) ∧ h tp cp (blen pre) (6 + blen value) w = Ret 0 w' ∧
    changes_tunnel w w' (eff t).
Proof.
  destruct a; cbn [avp_parts]; intros He Hv Hrx; try discriminate; injection He as <-; cbn in Hv.
  - eexists _, _. destruct (version_effect pre _ post Hrx) as (w' & ? & ?). exists w'. split; [reflexivity|]. done.
  - eapply (stored_effect framing_caps_avp _ pre _ _ _ _ _ (nraw (blen pre) 4)
      (λ v t, { t with t_fc := Z.land v (Z.lor ASYNC_FRAMING SYNC_FRAMING) }) caps); [reflexivity|by eapply value32_at|reflexivity..].
  - eapply (stored_effect bearer_caps_avp _ pre _ _ _ _ _ (nraw (blen pre) 4)
      (λ v t, { t with t_bc := Z.land v (Z.lor ANALOG_BEARER DIGITAL_BEARER) }) caps); [reflexivity|by eapply value32_at|reflexivity..].
  - eapply (stored_effect firmware_rev_avp _ pre _ _ _ _ _ (nraw (blen pre) 3)
      (λ v t, { t with t_firmware := v }) FIRMWARE_REV); [reflexivity|by eapply value16_at|reflexivity..].
  - pose proof (blen_take_1017 name) as Hl. assert (blen (take 1017 name) <= 1017) by (case_match; lia).
    pose proof (avp_string_at w pre _ _ _ post Hrx ltac:(lia)) as Hs. rewrite take_take in Hs. cbn [Nat.min] in Hs.
    pose proof (blen_nonneg (take 1017 name)).
    eapply (stored_effect hostname_avp _ pre _ [SCCRP; SCCRQ] "Hostname" 6 true (avp_string (blen pre))
      (λ v t, { t with t_hostname := v }) _); [reflexivity|exact Hs| |reflexivity..]. unfold hostname_avp.
    by rewrite (proj2 (Z.ltb_ge _ _)) by lia.
  - pose proof (avp_string_at w pre _ _ _ post Hrx ltac:(vm_compute; congruence)) as Hs.
    eapply (stored_effect vendor_avp _ pre _ _ _ _ _ (avp_string (blen pre))
      (λ v t, { t with t_vendor := v }) VENDOR_NAME); [reflexivity|exact Hs|reflexivity..].
  - eexists _, _. destruct (assigned_tunnel_effect pre _ _ post Hrx Hv) as (w' & ? & ?).
    exists w'. split; [reflexivity|]. done.
  - eapply (stored_effect receive_window_size_avp _ pre _ _ _ _ _ (nraw (blen pre) 3)
      (λ v t, { t with t_rws := v }) rws); [reflexivity|by eapply value16_at|reflexivity..].
  - eexists _, _. destruct (challenge_effect pre _ _ post Hrx Hv) as (w' & ? & ?).
    exists w'. split; [reflexivity|]. done.
Qed.

End Messages.

(** The tunnel after all attributes of a message. *)
Definition effects (l : list avp) (t : tunnel) : tunnel :=
  foldl (λ t a, match tunnel_effect a with Some eff => eff t | None => t end) t l.
Definition tunnel_avp (a : avp) : Prop := is_Some (tunnel_effect a) ∧ value_ok a.

Lemma avp_parts_enc a :
  tunnel_avp a →
  let '(m, attr, value) := avp_parts a in
  enc_avp a = avp_enc m attr value ∧ 0 <= attr <= AVP_MAX ∧ 6 + blen value <= 1023.
Proof.
  intros [[eff He] Hv]. destruct a; try discriminate; cbn [avp_parts enc_avp]; cbn in Hv; unfold AVP_MAX;
    (split; [reflexivity|split; [lia|]]);
    first [ lia | match goal with |- context [take 1017 ?n] => pose proof (blen_take_1017 n); case_match; lia end
          | vm_compute; congruence | unfold blen; cbn; lia ].
Qed.

Lemma hdr_word_skip m n : 6 <= n <= 1023 → truthy (ALENGTH (hdr_word m n)) = true ∧ ALENGTH (hdr_word m n) = n.
Proof. intros Hn. destruct (hdr_word_bits m n) as (_ & _ & _ & -> & _); [lia|]. unfold truthy. lia. Qed.

(** One turn of the loop over a well-formed attribute. *)
Lemma avp_loop_turn fuel w w' pre m attr value post len first h d :
  w_rx w = pre ++ avp_enc m attr value ++ post → 6 + blen value <= 1023 → 6 + blen value <= len →
  0 <= attr <= AVP_MAX → (attr = 0 ∨ first = false) → avp_entry attr = (Some h, d) →
  h tp cp (blen pre) (6 + blen value) (set_rx w (pre ++ avp_mem m attr value ++ post)) = Ret 0 w' →
  avp_loop (S fuel) tp cp (blen pre) len first w
  = avp_loop fuel tp cp (blen (pre ++ avp_mem m attr value)) (len - (6 + blen value)) false w'.
Proof.
  intros Hrx Hv Hl Ha Hf He Hh. pose proof (blen_nonneg value). cbn [avp_loop].
  rewrite (proj2 (Z.ltb_lt _ _)) by lia.
  assert (Hone : one_avp tp cp (blen pre) len first w
    = Ret (ANext (blen pre) len (hdr_word m (6 + blen value))) w').
  { rewrite (one_avp_plain tp cp w pre m attr value post) by done. by eapply dispatch_plain. }
  rewrite (bind_eq _ _ _ _ _ Hone).
  destruct (hdr_word_skip m (6 + blen value)) as [-> ->]; [lia|].
  replace (blen (pre ++ avp_mem m attr value)) with (blen pre + (6 + blen value)); [done|].
  unfold avp_mem. blen.
Qed.

Lemma avp_loop_effects c post l : ∀ fuel pre w t,
  Forall tunnel_avp l → w_tunnels w !! tp = Some t → w_calls w !! cp = Some c →
  (c_msgtype c = SCCRQ ∨ c_msgtype c = SCCRP) → malloc_some w →
  w_rx w = pre ++ concat (map enc_avp l) ++ post → (length l < fuel)%nat →
  ∃ w', avp_loop fuel tp cp (blen pre) (blen (concat (map enc_avp l))) false w = Ret 0 w' ∧
    w_tunnels w' = <[tp := effects l t]> (w_tunnels w) ∧ w_calls w' = w_calls w.
Proof.
  induction l as [|a l IH]; intros [|fuel] pre w t Hl Ht Hc Hm Hmal Hrx Hf; try (cbn in Hf; lia).
  - exists w. split; [done|]. cbn. by rewrite insert_id.
  - apply Forall_cons in Hl as [Ha Hl]. pose proof (avp_parts_enc a Ha) as Hp. destruct Ha as [[eff He] Hv].
    pose proof (λ w t c Ht Hc Hm Hmal, handler_effect w t c Ht Hc Hm Hmal a eff) as Hh.
    destruct (avp_parts a) as [[m attr] value] eqn:Ep. destruct Hp as (Henc & Hattr & Hlen).
    cbn [map concat] in Hrx |- *. rewrite Henc, <-app_assoc in Hrx.
    set (w1 := set_rx w (pre ++ avp_mem m attr value ++ concat (map enc_avp l) ++ post)).
    destruct (Hh w1 t c Ht Hc Hm Hmal pre (concat (map enc_avp l) ++ post) He Hv eq_refl)
      as (h & d & w2 & Hentry & Hrun & Htun & Hcalls & Henv & Hrx2).
    pose proof (blen_nonneg value). pose proof (blen_nonneg (concat (map enc_avp l))).
    assert (Henc_len : blen (enc_avp a) = 6 + blen value) by (rewrite Henc; unfold avp_enc; blen).
    rewrite blen_app, Henc_len.
    rewrite (avp_loop_turn fuel w w2 pre m attr value (concat (map enc_avp l) ++ post) _ false h d) by (done || lia || by right).
    replace (6 + blen value + blen (concat (map enc_avp l)) - (6 + blen value)) with (blen (concat (map enc_avp l))) by lia.
    destruct (IH fuel (pre ++ avp_mem m attr value) w2 (eff t)) as (w' & E & T & C); try done.
    + rewrite Htun. apply lookup_insert_eq.
    + by rewrite Hcalls.
    + unfold malloc_some. by rewrite Henv.
    + rewrite Hrx2. cbn. napp.
    + cbn in Hf. lia.
    + exists w'. split; [done|]. rewrite T, C, Htun, Hcalls. split; [|done].
      rewrite insert_insert_eq. cbn. by rewrite He.
Qed.

(** ** The message type *)

Lemma message_type_eq w t c data v :
  w_tunnels w !! tp = Some t → w_calls w !! cp = Some c → nraw data 3 w = Ret v w →
  let c1 := { c with c_msgtype := v } in
  let ok := (v <=? MAX_MSG) && msgtype_known v &&
    (negb (truthy (t_sanity t)) || msgtype_allowed t c1 (bool_decide (t_self t = Some cp))) in
  v ≠ ICRQ ∨ ok = false →
  message_type_avp tp cp data 8 w = Ret (if ok then 0 else - EINVAL) (set_c cp c1 w).
Proof.
  intros Ht Hc Hn c1 ok Hq. apply wp_run. unfold message_type_avp. wstep. eapply wp_eq; [exact Hn|].
  wsteps. change (negb (8 =? 8)) with false. cbn iota. subst ok.
  destruct (Z.ltb_spec MAX_MSG v) as [Hv|Hv].
  { cbn [orb]. rewrite (proj2 (Z.leb_gt _ _)) by lia. cbn. by wsteps. }
  rewrite (proj2 (Z.leb_le _ _)) in * by lia. cbn [orb andb] in *.
  destruct (msgtype_known v); cbn [negb andb] in *; [|by wsteps].
  wsteps. fold c1. set (al := msgtype_allowed t c1 _) in *.
  destruct (truthy (t_sanity t)), al; cbn [negb andb orb] in *; try by wsteps.
  all: destruct Hq as [Hq|]; [|done]; rewrite (proj2 (Z.eqb_neq _ _) Hq); by wsteps.
Qed.

Lemma message_type_setup w t c data mt :
  w_tunnels w !! tp = Some t → w_calls w !! cp = Some c → t_self t = Some cp →
  (mt = SCCRQ ∧ (t_state t = 0 ∨ t_state t = SCCRQ)) ∨ (mt = SCCRP ∧ t_state t = SCCRQ) →
  nraw data 3 w = Ret mt w →
  message_type_avp tp cp data 8 w = Ret 0 (set_c cp { c with c_msgtype := mt } w).
Proof.
  intros Ht Hc Hs Hst Hn. rewrite (message_type_eq w t c data mt Ht Hc Hn).
  - rewrite Hs, bool_decide_eq_true_2 by done. f_equal. unfold msgtype_allowed. cbn [c_msgtype].
    destruct Hst as [[-> [-> | ->]]|[-> ->]]; cbn; by rewrite orb_true_r.
  - left. destruct Hst as [[-> _]|[-> _]]; discriminate.
Qed.

End Effects.


(** A tunnel that has not been set up, whose packet announces SCCRQ, the
    tunnel number 5 and a challenge. *)
Definition fresh_tunnel : tunnel := { demo_tunnel1 with t_state := 0; t_tid := 0 }.
Definition hello_avps : list avp := [ProtocolVersion; FramingCaps 3; AssignedTunnel 5; Challenge [7; 8; 9]].
Definition hello_world : world :=
  { demo_world with w_tunnels := {[ 1%nat := fresh_tunnel ]};
                    w_rx := replicate 12 0 ++ concat (map enc_avp (MessageType SCCRQ :: hello_avps)) ++ [] }.
Definition hello_buf : buffer := mkBuffer [] 0 (12 + blen (concat (map enc_avp (MessageType SCCRQ :: hello_avps)))) 0 zero_sockaddr (Some 1%nat) 0.


End Avp.
