(* ===== verification/Finish.v ===== *)
(** * The control connection's state machine (control_finish in
    src/control.c) and what dials it (l2tp_call, lac_call, magic_lac_dial in
    src/xl2tpd.c)

    [control_finish] is called when the attributes of a message have been
    handled, and with message type 0 to open a tunnel or a call.  Each case
    of its [switch] is a definition of its own. *)

From S2P Require Import Prelude.
From S2P Require Import Md5.
From S2P Require Import Scheduler.
From S2P Require Import Buffer.
From S2P Require Import AvpSend.
From S2P Require Import State.
From S2P Require Import AddrPool.
From S2P Require Import Auth.
From S2P Require Import Logic.
From S2P Require Import Calls.
From S2P Require Import Pppd.
From S2P Require Import Messages.

Module Finish.
Import Md5 Scheduler Buffer AvpSend State AddrPool Auth Logic Calls Pppd Messages.
Open Scope Z_scope.

(** ** Helpers *)

Definition Mreserve (addr : Z) : M unit :=
  mem ← Mmalloc 1;
  _ ← need mem;
  upd (λ w, { w with w_uaddr := reserve_addr (w_uaddr w) addr }).
Definition Mget_addr (ipr : list iprange) : M Z :=
  u ← gets w_uaddr;
  match get_addr u ipr with Some a => mret a | None => nofuel end.

(** The message of a case that fails: [set_error] and [return -EINVAL]. *)
Definition fail_call (cp : nat) (error : Z) (msg : string) : M Z :=
  set_error cp error (str msg);; mod_c cp (λ c, { c with c_needclose := -1 });; mret (- EINVAL).

(** The host name a tunnel announces. *)
Definition own_hostname (t : tunnel) : M (list Z) :=
  lac_name ← (match t_lac t with
              | Some p => l ← get_lacp p; mret (lac_hostname l)
              | None => mret []
              end);
  if nonempty lac_name then mret (cstr lac_name)
  else
    lns_name ← (match t_lns t with
                | Some p => l ← get_lnsp p; mret (lns_hostname l)
                | None => mret []
                end);
    if nonempty lns_name then mret (cstr lns_name)
    else hostname ← gets w_hostname; mret (cstr hostname).

(** The attributes SCCRQ and SCCRP begin with. *)
Definition add_tunnel_avps (tp : nat) (buf : buffer) : M buffer :=
  t ← get_t tp;
  buf ← need (add_protocol_avp buf);
  buf ← need (add_frame_caps_avp buf (u16 (t_ourfc t)));
  buf ← need (add_bearer_caps_avp buf (u16 (t_ourbc t)));
  buf ← need (add_firmware_avp buf);
  name ← own_hostname t;
  buf ← need (add_hostname_avp buf name);
  buf ← need (add_vendor_avp buf);
  buf ← need (add_tunnelid_avp buf (u16 (t_ourtid t)));
  if 0 <=? t_ourrws t then need (add_avp_rws buf (u16 (t_ourrws t))) else mret buf.

(** [t->chal_them.challenge = malloc (MD_SIG_SIZE)] filled with entropy; the
    result is false when there is no memory. *)
Definition new_challenge (tp : nat) : M bool :=
  mem ← Mmalloc MD_SIG_SIZE;
  match mem with
  | None =>
      mod_t tp (λ t, { t with t_chal_them := { (t_chal_them t) with ch_challenge := None } });;
      mret false
  | Some bs =>
      bs ← mk_challenge bs MD_SIG_SIZE;
      mod_t tp (λ t, { t with t_chal_them := { (t_chal_them t) with ch_challenge := Some bs;
                                                                    ch_chal_len := MD_SIG_SIZE } });;
      mret true
  end.

Definition add_our_challenge (tp : nat) (buf : buffer) : M buffer :=
  t ← get_t tp;
  c ← need (ch_challenge (t_chal_them t));
  need (add_challenge_avp buf c (ch_chal_len (t_chal_them t))).

Definition schedule_hello (tp : nat) : M unit :=
  q ← Mschedule (Tv HELLO_DELAY 0) (Jhello tp);
  mod_t tp (λ t, { t with t_hello := Some q }).

(** ** pppd and its options *)

(** [add_opt (po, fmt)] with a constant; options are cut to [MAXSTRLEN - 1]
    bytes.  Allocation is taken to succeed. *)
Definition add_opt (po : list (list Z)) (s : list Z) : list (list Z) :=
  po ++ [take (Z.to_nat (MAXSTRLEN - 1)) s].
(** A configured string used as the format: a percent sign would make
    [vsnprintf] read arguments that are not there. *)
Definition add_opt_fmt (po : list (list Z)) (s : list Z) : M (list (list Z)) :=
  if existsb (Z.eqb 37) (cstr s) then ub else mret (add_opt po (cstr s)).

Definition IPADDY (addr : Z) : list Z :=
  dec (u8 addr) ++ [46] ++ dec (u8 (addr / 2 ^ 8)) ++ [46] ++
  dec (u8 (addr / 2 ^ 16)) ++ [46] ++ dec (u8 (addr / 2 ^ 24)).

Definition opt_if (b : bool) (po : list (list Z)) (s : string) : list (list Z) :=
  if b then add_opt po (str s) else po.

(** The authentication options of a LAC. *)
Definition lac_auth_opts (l : lac) (po : list (list Z)) : M (list (list Z)) :=
  let po :=
    if truthy (lac_authself l) then
      opt_if (truthy (lac_chap_refuse l)) (opt_if (truthy (lac_pap_refuse l)) po "refuse-pap") "refuse-chap"
    else add_opt (add_opt po (str "refuse-pap")) (str "refuse-chap") in
  let po :=
    if truthy (lac_authpeer l) then
      opt_if (truthy (lac_chap_require l))
        (opt_if (truthy (lac_pap_require l)) (add_opt po (str "auth")) "require-pap") "require-chap"
    else po in
  po ← (if nonempty (lac_authname l) then add_opt_fmt (add_opt po (str "name")) (lac_authname l)
        else mret po);
  mret (opt_if (truthy (lac_debug l)) po "debug").

Definition lac_addr_opt (l : lac) (po : list (list Z)) : list (list Z) :=
  add_opt po ((if truthy (lac_localaddr l) then IPADDY (lac_localaddr l) else []) ++ [58] ++
              (if truthy (lac_remoteaddr l) then IPADDY (lac_remoteaddr l) else [])).

Definition peer_opt (b : bool) (tp : nat) (po : list (list Z)) : M (list (list Z)) :=
  if b then t ← get_t tp; mret (add_opt (add_opt po (str "ipparam")) (IPADDY (sin_addr (t_peer t))))
  else mret po.

Definition file_opt (name : list Z) (po : list (list Z)) : M (list (list Z)) :=
  if nonempty name then add_opt_fmt (add_opt po (str "file")) name else mret po.

(** ** case 0: opening a tunnel or a call *)

(** The configuration a tunnel takes over. *)
Definition inherit_config (tp : nat) : M unit :=
  t ← get_t tp;
  match t_lns t, t_lac t with
  | Some p, _ =>
      l ← get_lnsp p;
      mod_t tp (λ t, { t with t_ourrws := lns_tun_rws l; t_hbit := lns_hbit l;
                              t_rxspeed := lns_rxspeed l; t_txspeed := lns_txspeed l })
  | None, Some p =>
      l ← get_lacp p;
      mod_t tp (λ t, { t with t_ourrws := lac_tun_rws l; t_hbit := lac_hbit l;
                              t_rxspeed := lac_rxspeed l; t_txspeed := lac_txspeed l })
  | None, None => mret tt
  end.

(** [(t->lac && t->lac->challenge) || (t->lns && t->lns->challenge)] *)
Definition wants_challenge (t : tunnel) : M bool :=
  a ← (match t_lac t with Some p => l ← get_lacp p; mret (truthy (lac_challenge l)) | None => mret false end);
  if a : bool then mret true
  else match t_lns t with Some p => l ← get_lnsp p; mret (truthy (lns_challenge l)) | None => mret false end.

Definition start_sccrq (tp cp : nat) : M Z :=
  inherit_config tp;;
  mod_t tp (λ t, { t with t_state := SCCRQ });;
  buf ← Mnew_outgoing tp;
  buf ← need (add_message_type_avp buf SCCRQ);
  buf ← add_vector tp buf;
  buf ← add_tunnel_avps tp buf;
  t ← get_t tp;
  chal ← wants_challenge t;
  if chal : bool then
    ok ← new_challenge tp;
    if negb ok then mret (- EINVAL)
    else
      buf ← add_our_challenge tp buf;
      mod_t tp (λ t, { t with t_chal_them := { (t_chal_them t) with ch_state := STATE_CHALLENGED } });;
      send_control tp cp buf;; mret 0
  else send_control tp cp buf;; mret 0.

(** [c->serno = global_serno; global_serno++] after the serial number
    attribute. *)
Definition add_serno (cp : nat) (buf : buffer) : M buffer :=
  n ← gets w_global_serno;
  buf ← need (add_serno_avp buf (u32 n));
  mod_c cp (λ c, { c with c_serno := u32 n });;
  upd (λ w, { w with w_global_serno := n + 1 });;
  mret buf.

Definition lbit_of (b : Z) : Z := if truthy b then LBIT else 0.

Definition start_icrq (tp cp : nat) : M Z :=
  mod_c cp (λ c, { c with c_state := ICRQ });;
  c ← get_c cp;
  match c_lns c, c_lac c with
  | Some p, _ => l ← get_lnsp p; mod_c cp (λ c, { c with c_lbit := lbit_of (lns_lbit l) })
  | None, Some p => l ← get_lacp p; mod_c cp (λ c, { c with c_lbit := lbit_of (lac_lbit l) })
  | None, None => mret tt
  end;;
  buf ← Mnew_outgoing tp;
  buf ← need (add_message_type_avp buf ICRQ);
  buf ← add_vector tp buf;
  buf ← need (add_callid_avp buf (u16 (c_ourcid c)));
  buf ← add_serno cp buf;
  buf ← need (add_bearer_avp buf 0);
  send_control tp cp buf;; mret 0.

Definition framing (t : tunnel) : Z :=
  if truthy (Z.land (t_fc t) SYNC_FRAMING) then SYNC_FRAMING else ASYNC_FRAMING.

Definition start_ocrq (tp cp : nat) : M Z :=
  mod_c cp (λ c, { c with c_state := OCRQ });;
  c ← get_c cp;
  match c_lns c with
  | Some p => l ← get_lnsp p; mod_c cp (λ c, { c with c_lbit := lbit_of (lns_lbit l) })
  | None => mret tt
  end;;
  t ← get_t tp;
  mod_c cp (λ c, { c with c_frame := framing t });;
  buf ← Mnew_outgoing tp;
  buf ← need (add_message_type_avp buf OCRQ);
  buf ← need (add_callid_avp buf (u16 (c_ourcid c)));
  buf ← add_serno cp buf;
  buf ← need (add_minbps_avp buf DEFAULT_MIN_BPS);
  buf ← need (add_maxbps_avp buf DEFAULT_MAX_BPS);
  buf ← need (add_bearer_avp buf 0);
  buf ← need (add_frame_avp buf (framing t));
  buf ← need (add_number_avp buf (cstr (c_dial_no c)));
  send_control tp cp buf;; mret 0.

Definition finish_none (tp cp : nat) : M Z :=
  t ← get_t tp;
  if bool_decide (t_self t = Some cp) then start_sccrq tp cp
  else
    io ← gets w_switch_io;
    if truthy io then start_icrq tp cp else start_ocrq tp cp.

(** ** The control connection *)

(** case SCCRQ: a request for a tunnel is answered with SCCRP. *)
Definition finish_sccrq_reply (tp cp lp : nat) : M Z :=
  mod_t tp (λ t, { t with t_state := SCCRP });;
  buf ← Mnew_outgoing tp;
  buf ← need (add_message_type_avp buf SCCRP);
  buf ← add_vector tp buf;
  buf ← add_tunnel_avps tp buf;
  t ← get_t tp;
  buf ← (if truthy (ch_state (t_chal_us t)) then
           mod_t tp (λ t, { t with t_chal_us := { (t_chal_us t) with ch_ss := SCCRP } });;
           handle_challenge tp Chal_us;;
           t ← get_t tp;
           need (add_chalresp_avp buf (ch_response (t_chal_us t)) MD_SIG_SIZE)
         else mret buf);
  l ← get_lnsp lp;
  if truthy (lns_challenge l) then
    ok ← new_challenge tp;
    if negb ok then set_error cp VENDOR_ERROR (str "malloc failed");; mret (- EINVAL)
    else
      mod_t tp (λ t, { t with t_chal_them := { (t_chal_them t) with ch_ss := SCCCN } });;
      r ← handle_challenge tp Chal_them;
      if truthy r then set_error cp VENDOR_ERROR (str "No secret on our side");; mret (- EINVAL)
      else
        buf ← add_our_challenge tp buf;
        send_control tp cp buf;; mret 0
  else send_control tp cp buf;; mret 0.

Definition finish_sccrq (tp cp : nat) : M Z :=
  t ← get_t tp;
  if t_tid t <=? 0 then fail_call cp VENDOR_ERROR "Specify your assigned tunnel ID"
  else
    lns ← get_lns tp;
    mod_t tp (λ t, { t with t_lns := lns });;
    match lns with
    | None => fail_call cp VENDOR_ERROR "No Authorization"
    | Some lp =>
        l ← get_lnsp lp;
        mod_t tp (λ t, { t with t_ourrws := lns_tun_rws l; t_hbit := lns_hbit l });;
        if t_fc t <? 0 then fail_call cp VENDOR_ERROR "Specify framing capability"
        else if negb (nonempty (t_hostname t)) &&
                (truthy (ch_state (t_chal_us t)) || truthy (lns_challenge l))
        then fail_call cp VENDOR_ERROR "Specify your hostname"
        else
          g ← gets w_gconfig;
          head ← gets w_head;
          fuel ← tunnel_fuel;
          y ← find_tunnel fuel (λ yp y, (t_tid y =? t_tid t) &&
                (sin_addr (t_peer y) =? sin_addr (t_peer t)) &&
                ((g_ipsecsaref g =? 0) || (t_refhim y =? t_refhim t)) && negb (Nat.eqb yp tp)) head;
          match y with
          | Some _ => mod_c cp (λ c, { c with c_needclose := 0; c_closing := -1 });; mret 0
          | None => finish_sccrq_reply tp cp lp
          end
    end.

(** [memcmp (t->chal_them.reply, t->chal_them.response, MD_SIG_SIZE)] *)
Definition reply_wrong (t : tunnel) : bool :=
  negb (bool_decide (ch_reply (t_chal_them t) = ch_response (t_chal_them t))).

(** case SCCRP: the peer accepts the tunnel; it is confirmed and up. *)
Definition confirm_tunnel (tp cp : nat) : M unit :=
  mod_t tp (λ t, { t with t_state := SCCCN });;
  buf ← Mnew_outgoing tp;
  buf ← need (add_message_type_avp buf SCCCN);
  buf ← add_vector tp buf;
  t ← get_t tp;
  buf ← (if truthy (ch_state (t_chal_us t))
         then need (add_chalresp_avp buf (ch_response (t_chal_us t)) MD_SIG_SIZE) else mret buf);
  send_control tp cp buf;;
  connect_pppol2tp tp;;
  schedule_hello tp.

(** Then the LAC dials; [dial] is [magic_lac_dial]. *)
Definition finish_sccrp_reply (dial : nat → M unit) (tp cp : nat) : M Z :=
  confirm_tunnel tp cp;;
  t ← get_t tp;
  match t_lac t with None => mret tt | Some lp => dial lp end;;
  mret 0.

(** The peer's answer to our challenge; [None] when it is right. *)
Definition check_their_reply (tp cp : nat) : M (option Z) :=
  t ← get_t tp;
  if truthy (ch_state (t_chal_them t)) then
    mod_t tp (λ t, { t with t_chal_them := { (t_chal_them t) with ch_ss := SCCRP } });;
    r ← handle_challenge tp Chal_them;
    if truthy r then e ← fail_call cp VENDOR_ERROR "No secret key on our side"; mret (Some e)
    else
      t ← get_t tp;
      if reply_wrong t
      then e ← fail_call cp VENDOR_ERROR "Invalid challenge authentication"; mret (Some e)
      else mret None
  else mret None.

Definition answer_challenge (tp cp : nat) : M (option Z) :=
  t ← get_t tp;
  if truthy (ch_state (t_chal_us t)) then
    mod_t tp (λ t, { t with t_chal_us := { (t_chal_us t) with ch_ss := SCCCN } });;
    r ← handle_challenge tp Chal_us;
    if truthy r then e ← fail_call cp VENDOR_ERROR "No secret key on our end"; mret (Some e)
    else mret None
  else mret None.

Definition finish_sccrp (dial : nat → M unit) (tp cp : nat) : M Z :=
  t ← get_t tp;
  if t_fc t <? 0 then fail_call cp VENDOR_ERROR "Specify framing capability"
  else if negb (nonempty (t_hostname t)) &&
          (truthy (ch_state (t_chal_them t)) || truthy (ch_state (t_chal_us t)))
  then fail_call cp VENDOR_ERROR "Specify your hostname"
  else if t_tid t <=? 0 then fail_call cp VENDOR_ERROR "Specify your assigned tunnel ID"
  else
    e ← check_their_reply tp cp;
    match e with
    | Some e => mret e
    | None =>
        e ← answer_challenge tp cp;
        match e with
        | Some e => mret e
        | None => finish_sccrp_reply dial tp cp
        end
    end.

(** case SCCCN; the log line reads [t->lns->entname]. *)
Definition finish_scccn (tp cp : nat) : M Z :=
  t ← get_t tp;
  if truthy (ch_state (t_chal_them t)) && reply_wrong t
  then fail_call cp VENDOR_ERROR "Invalid challenge authentication"
  else
    mod_t tp (λ t, { t with t_state := SCCCN });;
    lp ← need (t_lns t);
    _ ← get_lnsp lp;
    connect_pppol2tp tp;;
    schedule_hello tp;;
    mret 0.

(** The MSL2TP client sends back the identifier it was given. *)
Definition msl2tp (t : tunnel) : bool :=
  (t_firmware t =? 0xff00) &&
  bool_decide (take 27 (cstr (t_vendor t)) = str "Deterministic Networks Inc.").

Definition finish_stopccn (tp cp : nat) : M Z :=
  t ← get_t tp;
  if t_qtid t <? 0 then mret (- EINVAL)
  else
    let tmptid := if msl2tp t then t_ourtid t else t_tid t in
    if negb (t_qtid t =? tmptid) && (0 <? tmptid) then mret (- EINVAL)
    else
      (if t_tid t =? 0 then mod_t tp (λ t, { t with t_tid := t_qtid t }) else mret tt);;
      self ← need (t_self t);
      s ← get_c self;
      if c_result s <? 0 then mret (- EINVAL)
      else mod_c cp (λ c, { c with c_needclose := 0; c_closing := -1 });; mret 0.

(** ** Calls *)

(** An address for the peer, from the range of the tunnel's LNS; the result
    is false when there is none left. *)
Definition assign_addr (tp p : nat) : M bool :=
  t ← get_t tp;
  lp ← need (t_lns t);
  l ← get_lnsp lp;
  if truthy (lns_assign_ip l) then
    a ← Mget_addr (lns_range l);
    mod_c p (λ c, { c with c_addr := a });;
    if a =? 0 then
      set_error p ERROR_NORES (str "No available IP address");;
      Mcall_close (Some p);;
      mret false
    else Mreserve a;; mret true
  else mod_c p (λ c, { c with c_addr := 0 });; mret true.

Definition finish_icrq (tp : nat) : M Z :=
  t ← get_t tp;
  p ← need (t_call_head t);
  c ← get_c p;
  match c_lns c with
  | None =>
      set_error p ERROR_INVALID (str "This tunnel cannot accept calls" ++ [10]);;
      Mcall_close (Some p);; mret (- EINVAL)
  | Some lp =>
      l ← get_lnsp lp;
      mod_c p (λ c, { c with c_lbit := lbit_of (lns_lbit l) });;
      if c_cid c <? 0 then Mcall_close (Some p);; mret (- EINVAL)
      else
        fuel ← call_fuel;
        z ← find_call fuel (λ z, c_cid z =? c_cid c) (c_next c);
        match z with
        | Some _ => mod_c p (λ c, { c with c_needclose := 0; c_closing := -1 });; mret 0
        | None =>
            ok ← assign_addr tp p;
            if negb ok then mret (- EINVAL)
            else
              mod_c p (λ c, { c with c_state := ICRP });;
              buf ← Mnew_outgoing tp;
              buf ← need (add_message_type_avp buf ICRP);
              buf ← add_vector tp buf;
              buf ← need (add_callid_avp buf (u16 (c_ourcid c)));
              send_control tp p buf;; mret 0
        end
  end.

(** The password of a LAC goes to pppd through a pipe, of which the
    environment gives the reading end (negative: it cannot be made or
    written).  [None] is the error return. *)
Definition password_opts (lp : nat) (po : list (list Z)) : M (option (list (list Z) * Z)) :=
  l ← get_lacp lp;
  if nonempty (lac_password l) then
    fd ← ask e_pipe;
    if fd <? 0 then mret None
    else
      (if truthy (lac_redial l) then mret tt else mod_lac lp (λ l, { l with lac_password := [] }));;
      mret (Some (add_opt (add_opt (add_opt (add_opt po (str "plugin")) (str "passwordfd.so"))
                    (str "passwordfd")) (dec fd), fd))
  else mret (Some (po, -1)).

Definition finish_icrp_pppd (tp cp : nat) : M Z :=
  c ← get_c cp;
  let po := add_opt (add_opt [] (str "passive")) (str "nodetach") in
  lp ← need (c_lac c);
  l ← get_lacp lp;
  let po := lac_addr_opt l (opt_if (truthy (lac_defaultroute l)) po "defaultroute") in
  po ← lac_auth_opts l po;
  r ← password_opts lp po;
  match r with
  | None => mret (- EINVAL)
  | Some (po, fd) =>
      po ← file_opt (lac_pppoptfile l) po;
      po ← peer_opt (truthy (lac_pass_peer l)) tp po;
      start_pppd cp po;;
      mod_lac lp (λ l, { l with lac_rtries := 0 });;
      l ← get_lacp lp;
      when (nonempty (lac_password l)) (emit (Oclose fd));;
      mret 0
  end.

Definition finish_icrp (tp cp : nat) : M Z :=
  c ← get_c cp;
  if c_cid c <? 0 then mod_c cp (λ c, { c with c_needclose := -1 });; mret (- EINVAL)
  else
    t ← get_t tp;
    mod_c cp (λ c, { c with c_state := ICCN; c_frame := framing t });;
    buf ← Mnew_outgoing tp;
    buf ← need (add_message_type_avp buf ICCN);
    buf ← add_vector tp buf;
    buf ← need (add_txspeed_avp buf (t_txspeed t));
    buf ← need (add_frame_avp buf (framing t));
    buf ← need (add_rxspeed_avp buf (t_rxspeed t));
    send_control tp cp buf;;
    finish_icrp_pppd tp cp.

(** A local address from the range of the tunnel's LNS, if one is
    configured; the result is not zero when there is none left. *)
Definition get_local_addr (tp cp : nat) : M Z :=
  t ← get_t tp;
  tl ← need (t_lns t);
  l ← get_lnsp tl;
  if bool_decide (lns_localrange l = []) then mret 0
  else
    c ← get_c cp;
    cl ← need (c_lns c);
    a ← Mget_addr (lns_localrange l);
    mod_lns cl (λ l, { l with lns_localaddr := a });;
    if a =? 0 then
      set_error cp ERROR_NORES (str "No available local IP addresses");;
      Mcall_close (Some cp);;
      mret (- EINVAL)
    else Mreserve a;; mret 0.

(** The authentication options of a LNS. *)
Definition lns_auth_opts (l : lns) (po : list (list Z)) : M (list (list Z)) :=
  let po :=
    if truthy (lns_authself l) then
      opt_if (truthy (lns_chap_refuse l)) (opt_if (truthy (lns_pap_refuse l)) po "refuse-pap") "refuse-chap"
    else add_opt (add_opt po (str "refuse-pap")) (str "refuse-chap") in
  let po :=
    if truthy (lns_authpeer l) then
      opt_if (truthy (lns_passwdauth l))
        (opt_if (truthy (lns_chap_require l))
          (opt_if (truthy (lns_pap_require l)) (add_opt po (str "auth")) "require-pap") "require-chap")
        "login"
    else po in
  po ← (if nonempty (lns_authname l) then add_opt_fmt (add_opt po (str "name")) (lns_authname l)
        else mret po);
  mret (opt_if (truthy (lns_debug l)) po "debug").

Definition finish_iccn (tp cp : nat) : M Z :=
  t ← get_t tp;
  if bool_decide (t_self t = Some cp) then mret (- EINVAL)
  else
    mod_c cp (λ c, { c with c_state := ICCN });;
    r ← get_local_addr tp cp;
    if truthy r then mret (- EINVAL)
    else
      c ← get_c cp;
      lp ← need (c_lns c);
      l ← get_lnsp lp;
      let po := add_opt (add_opt [] (str "passive")) (str "nodetach") in
      let po := add_opt po ((if truthy (lns_localaddr l) then IPADDY (lns_localaddr l) else []) ++ [58] ++
                            IPADDY (c_addr c)) in
      po ← lns_auth_opts l po;
      po ← file_opt (lns_pppoptfile l) po;
      po ← peer_opt (truthy (lns_pass_peer l)) tp po;
      start_pppd cp po;;
      mret 0.

(** case OCCN: [dummy_buf] holds 128 bytes. *)
Definition finish_occn (tp cp : nat) : M Z :=
  c ← get_c cp;
  let po := add_opt (add_opt (add_opt [] (str "passive")) (str "nodetach")) (str "file") in
  let name := str "/var/l2tp/" ++ cstr (c_dial_no c) ++ str ".options" in
  _ ← need (guard (blen name < 128));
  po ← add_opt_fmt po name;
  lp ← need (c_lac c);
  l ← get_lacp lp;
  let po := lac_addr_opt l (opt_if (truthy (lac_defaultroute l)) po "defaultroute") in
  po ← lac_auth_opts l po;
  po ← file_opt (lac_pppoptfile l) po;
  po ← peer_opt (truthy (lac_pass_peer l)) tp po;
  start_pppd cp po;;
  mod_lac lp (λ l, { l with lac_rtries := 0 });;
  mret 0.

Definition finish_cdn (tp cp : nat) : M Z :=
  c ← get_c cp;
  if c_qcid c <? 0 then mret (- EINVAL)
  else
    t ← get_t tp;
    p ← (if bool_decide (t_self t = Some cp) then
           fuel ← call_fuel;
           find_call fuel (λ p, c_cid p =? c_qcid c) (t_call_head t)
         else mret (Some cp));
    match p with
    | None => mret (- EINVAL)
    | Some p =>
        pc ← get_c p;
        let tmpcid := if msl2tp t then c_ourcid pc else c_cid pc in
        if negb (c_qcid c =? tmpcid) && (0 <? tmpcid) then mret (- EINVAL)
        else
          mod_c cp (λ c, { c with c_qcid := -1 });;
          if c_result c <? 0 then mret (- EINVAL)
          else mod_c cp (λ c, { c with c_needclose := 0; c_closing := -1 });; mret 0
    end.

(** ** Dialing *)

Section Dial.
(** [control_finish] *)
Context (finish : nat → nat → M Z).

(** [hp] is the answer of [gethostbyname].  When there is none, [lac] is used
    whether it is NULL or not. *)
Definition l2tp_call (port : Z) (lac lns : option nat) : M (option nat) :=
  hp ← ask e_host;
  match hp with
  | None => lp ← need lac; redial lp;; mret None
  | Some addr =>
      tmp ← get_call 0 0 addr (htons (u16 port)) 0 0;
      match tmp with
      | None => mret None
      | Some cp =>
          c ← get_c cp;
          tp ← need (c_container c);
          mod_t tp (λ t, { t with t_tid := 0; t_lac := lac; t_lns := lns });;
          mod_c cp (λ c, { c with c_lac := lac; c_lns := lns });;
          match lac with None => mret tt | Some lp => mod_lac lp (λ l, { l with lac_t := Some tp }) end;;
          match lns with None => mret tt | Some np => mod_lns np (λ n, { n with lns_t := Some tp }) end;;
          finish tp cp;;
          mret (Some tp)
      end
  end.

Definition magic_lac_tunnel (lp : nat) : M unit :=
  l ← get_lacp lp;
  match lac_lns l with
  | (_, port) :: _ => l2tp_call port (Some lp) None;; mret tt
  | [] =>
      deflac ← gets w_deflac;
      match deflac with
      | None => mret tt
      | Some dp =>
          d ← get_lacp dp;
          match lac_lns d with
          | (_, port) :: _ => l2tp_call port (Some lp) None;; mret tt
          | [] => mret tt
          end
      end
  end.

Definition lac_call (tid : Z) (lac lns : option nat) : M (option nat) :=
  head ← gets w_head;
  fuel ← tunnel_fuel;
  t ← find_tunnel fuel (λ _ t, t_ourtid t =? tid) head;
  match t with
  | None => mret None
  | Some tp =>
      tmp ← new_call tp;
      match tmp with
      | None => mret None
      | Some cp =>
          t ← get_t tp;
          dial_no ← gets w_dial_no_tmp;
          mod_c cp (λ c, { c with c_next := t_call_head t });;
          mod_t tp (λ t, { t with t_call_head := Some cp; t_count := t_count t + 1 });;
          mod_c cp (λ c, { c with c_cid := 0; c_lac := lac; c_lns := lns; c_dial_no := cstr dial_no });;
          match lac with
          | None => mret tt
          | Some lp => mod_lac lp (λ l, { l with lac_c := Some cp })
          end;;
          finish tp cp;;
          mret (Some cp)
      end
  end.

Definition magic_lac_dial (lp : nat) : M unit :=
  l ← get_lacp lp;
  if negb (truthy (lac_active l)) then mret tt
  else
    mod_lac lp (λ l, { l with lac_rsched := None; lac_rtries := lac_rtries l + 1 });;
    if truthy (lac_rmax l) && (lac_rmax l <? lac_rtries l + 1) then mret tt
    else
      match lac_t l with
      | None => magic_lac_tunnel lp
      | Some tp => t ← get_t tp; lac_call (t_ourtid t) (Some lp) None;; mret tt
      end.

(** The [switch] on the message type. *)
Definition finish_message (tp cp : nat) : M Z :=
  c ← get_c cp;
  let m := c_msgtype c in
  if m <? 0 then mret (- EINVAL)
  else if m =? 0 then finish_none tp cp
  else if m =? SCCRQ then finish_sccrq tp cp
  else if m =? SCCRP then finish_sccrp magic_lac_dial tp cp
  else if m =? SCCCN then finish_scccn tp cp
  else if m =? StopCCN then finish_stopccn tp cp
  else if m =? ICRQ then finish_icrq tp
  else if m =? ICRP then finish_icrp tp cp
  else if m =? ICCN then finish_iccn tp cp
  else if m =? OCRP then mret 0
  else if m =? OCCN then finish_occn tp cp
  else if m =? CDN then finish_cdn tp cp
  else if (m =? Hello) || (m =? SLI) then mret 0
  else set_error cp VENDOR_ERROR (str "Unimplemented message " ++ dec m ++ [10]);; mret 0.

End Dial.

(** ** control_finish

    It calls itself through [magic_lac_dial], on a call or tunnel made there,
    whose message type is 0: two levels are enough. *)
Fixpoint control_finish_fuel (fuel : nat) : nat → nat → M Z :=
  match fuel with
  | O => λ _ _, nofuel
  | S fuel => finish_message (control_finish_fuel fuel)
  end.
Definition control_finish (tp cp : nat) : M Z := control_finish_fuel 2 tp cp.

(** ** Hanging up *)

(** The call with our identifier, over all tunnels. *)
Fixpoint hangup_loop (fuel : nat) (cid : Z) (t : option nat) : M (option nat) :=
  match fuel with
  | O => nofuel
  | S fuel =>
      match t with
      | None => mret None
      | Some tp =>
          t ← get_t tp;
          cfuel ← call_fuel;
          c ← find_call cfuel (λ c, c_ourcid c =? cid) (t_call_head t);
          match c with Some cp => mret (Some cp) | None => hangup_loop fuel cid (t_next t) end
      end
  end.
Definition lac_hangup (cid : Z) : M unit :=
  head ← gets w_head;
  fuel ← tunnel_fuel;
  c ← hangup_loop fuel cid head;
  match c with
  | None => mret tt
  | Some cp =>
      mod_c cp (λ c, { c with c_errormsg := str "Goodbye!" });;
      c ← get_c cp;
      emit (Okill (c_pppd c) SIGTERM)
  end.

Definition lac_disconnect (tid : Z) : M unit :=
  head ← gets w_head;
  fuel ← tunnel_fuel;
  t ← find_tunnel fuel (λ _ t, t_ourtid t =? tid) head;
  match t with
  | None => mret tt
  | Some tp =>
      t ← get_t tp;
      self ← need (t_self t);
      mod_c self (λ c, { c with c_needclose := -1; c_errormsg := str "Goodbye!" });;
      Mcall_close (Some self)
  end.

(** ** Properties *)

(** [wp] rules for the steps that build a message. *)
Lemma wp_add_vector tp t b w (Q : buffer → world → Prop) :
  w_tunnels w !! tp = Some t → t_hbit t = 0 → Q b w → wp (add_vector tp b) Q w.
Proof. intros Ht Hh HQ. unfold add_vector. wsteps. by rewrite Hh. Qed.

Lemma blen_take_name name : blen (take 1017 name) <= 1017.
Proof. unfold blen. rewrite length_take. lia. Qed.

(** Bounds on the length of what was written so far. *)
Ltac avp_lengths :=
  rewrite ?enc_avps_app, ?enc_avps_one, ?blen_app;
  unfold enc_avp, avp_enc; rewrite ?blen_app;
  repeat match goal with |- context [blen (take 1017 ?n)] =>
    lazymatch goal with H : blen (take 1017 n) <= _ |- _ => fail | _ => pose proof (blen_take_name n) end end;
  repeat first [ progress change (blen (enc_avps [])) with 0 | progress change (blen (be16 _)) with 2
               | progress change (blen (be32 _)) with 4
               | progress change (blen VENDOR_NAME) with 13 | rewrite blen_cons | rewrite blen_nil ]; lia.

(** The next attribute of the message. *)
Ltac wadd a :=
  wsteps; eapply (wp_write_avp a); [eassumption | try exact I | avp_lengths | intros ? ?; cbv beta].

(** What a tunnel calls itself. *)
Definition name_of (name hostname : list Z) : list Z := cstr (if nonempty name then name else hostname).

Definition tunnel_avps (t : tunnel) (name : list Z) : list avp :=
  [ProtocolVersion; FramingCaps (u16 (t_ourfc t)); BearerCaps (u16 (t_ourbc t)); FirmwareRev;
   HostName name; VendorName; AssignedTunnel (u16 (t_ourtid t)); ReceiveWindow (u16 (t_ourrws t))].

Lemma tunnel_avps_length t name : blen (enc_avps (tunnel_avps t name)) <= 1200.
Proof.
  change (tunnel_avps t name) with ([ProtocolVersion] ++ [FramingCaps (u16 (t_ourfc t))] ++
    [BearerCaps (u16 (t_ourbc t))] ++ [FirmwareRev] ++ [HostName name] ++ [VendorName] ++
    [AssignedTunnel (u16 (t_ourtid t))] ++ [ReceiveWindow (u16 (t_ourrws t))]).
  avp_lengths.
Qed.

Lemma wp_add_tunnel_avps tp t l b name w (Q : buffer → world → Prop) :
  w_tunnels w !! tp = Some t → message tp (t_peer t) l b → blen (enc_avps l) <= 100 → 0 <= t_ourrws t →
  own_hostname t w = Ret name w →
  (∀ b', message tp (t_peer t) (l ++ tunnel_avps t name) b' → Q b' w) → wp (add_tunnel_avps tp b) Q w.
Proof.
  intros Ht Hb Hl Hr Hn HQ. unfold add_tunnel_avps. wsteps.
  wadd ProtocolVersion. wadd (FramingCaps (u16 (t_ourfc t))). wadd (BearerCaps (u16 (t_ourbc t))). wadd FirmwareRev.
  wstep. eapply wp_eq; [exact Hn|]. wadd (HostName name). wadd VendorName. wadd (AssignedTunnel (u16 (t_ourtid t))).
  rewrite (proj2 (Z.leb_le _ _)) by done.
  eapply (wp_write_avp (ReceiveWindow (u16 (t_ourrws t)))); [eassumption|exact I|avp_lengths|].
  intros b2 Hb2. apply HQ. rewrite <-!app_assoc in Hb2. exact Hb2.
Qed.
Lemma get_entropy_length bs n : yields (λ r, length r = length bs) (get_entropy bs n).
Proof.
  intros w a w'. unfold get_entropy, mbind, M_bind, ask, mret, M_ret. intros [= <- _].
  rewrite length_app, length_drop, length_take. unfold blen. lia.
Qed.

(** A fresh challenge of 16 bytes. *)
Definition challenge_of (t : tunnel) (ch : list Z) : tunnel :=
  { t with t_chal_them := { (t_chal_them t) with ch_challenge := Some ch; ch_chal_len := MD_SIG_SIZE } }.

Lemma wp_new_challenge tp t w (Q : bool → world → Prop) :
  w_tunnels w !! tp = Some t → malloc_full (w_env w) →
  (∀ ch, blen ch = 16 → Q true (set_t tp (challenge_of t ch) (ticked (ticked w)))) → wp (new_challenge tp) Q w.
Proof.
  intros Ht Hm HQ. unfold new_challenge, Mmalloc. wsteps.
  destruct (Hm (w_clk w) MD_SIG_SIZE) as (bs & -> & Hl); [done|].
  unfold mk_challenge. wstep.
  destruct (get_entropy bs MD_SIG_SIZE (ticked w)) as [ch w'| |] eqn:E.
  2-3: by unfold get_entropy, mbind, M_bind, ask, mret, M_ret in E.
  pose proof (get_entropy_length _ _ _ _ _ E) as Hch. eapply wp_eq; [exact E|].
  assert (w' = ticked (ticked w)) as ->.
  { unfold get_entropy, mbind, M_bind, ask, mret, M_ret in E. by injection E. }
  wsteps. apply HQ. unfold blen in *. unfold MD_SIG_SIZE in Hl. lia.
Qed.

Definition sccrq_avps (t : tunnel) (name : list Z) (chal : option (list Z)) : list avp :=
  MessageType SCCRQ :: tunnel_avps t name ++ match chal with Some ch => [Challenge ch] | None => [] end.

(** The tunnel of a LAC when it asks for the tunnel. *)
Definition asking (t : tunnel) (l : lac) : tunnel :=
  { t with t_ourrws := lac_tun_rws l; t_hbit := lac_hbit l; t_rxspeed := lac_rxspeed l;
           t_txspeed := lac_txspeed l; t_state := SCCRQ }.
Definition challenging (t : tunnel) (chal : option (list Z)) : tunnel :=
  match chal with
  | None => t
  | Some ch => { t with t_chal_them := { (t_chal_them t) with ch_challenge := Some ch; ch_chal_len := MD_SIG_SIZE;
                                                              ch_state := STATE_CHALLENGED } }
  end.




(** A daemon about to open tunnel 1 for its LAC 7. *)
Definition lac_tunnel : tunnel :=
  { demo_tunnel1 with t_state := 0; t_tid := 0; t_lac := Some 7%nat; t_control_seq_num := 0;
                      t_control_rec_seq_num := 0; t_cLr := 0 }.
Definition lac_world (chal : Z) : world :=
  { demo_world with w_tunnels := {[ 1%nat := lac_tunnel ]};
                    w_lacs := {[ 7%nat := { zero_lac with lac_challenge := chal; lac_hostname := [108; 97; 99] } ]} }.

Lemma demo_malloc_full : malloc_full (w_env demo_world).
Proof. intros k n Hn. eexists. split; [reflexivity|]. rewrite blen_replicate. lia. Qed.


(** ** Authentication of the peer *)

Lemma wp_returns {A} (m : M A) a (P : world → Prop) w :
  wp m (λ r w', r = a ∧ P w') w → ∃ w', m w = Ret a w' ∧ P w'.
Proof. intros (r & w' & E & -> & H)%wp_iff. eauto. Qed.

(** A call whose message was refused. *)
Definition refused (c : call) (msg : string) : call :=
  { c with c_error := VENDOR_ERROR; c_result := RESULT_ERROR; c_needclose := -1; c_errormsg := str msg }.

Lemma fail_call_eq w cp c (msg : string) :
  w_calls w !! cp = Some c → (length (str msg) <= 79)%nat → last (str msg) ≠ Some 10 →
  fail_call cp VENDOR_ERROR msg w = Ret (- EINVAL) (set_c cp (refused c msg) w).
Proof.
  intros Hc Hl Hn. apply wp_run. unfold fail_call, set_error. cbv zeta.
  rewrite take_ge by (unfold MAXSTRLEN; lia). rewrite bool_decide_eq_false_2 by done.
  wsteps. split; [reflexivity|]. apply set_c_twice.
Qed.

(** Opening a message's case of [control_finish]. *)
Lemma control_finish_case w tp cp c :
  w_calls w !! cp = Some c →
  control_finish tp cp w =
  (let m := c_msgtype c in
   if m <? 0 then mret (- EINVAL)
   else if m =? 0 then finish_none tp cp
   else if m =? SCCRQ then finish_sccrq tp cp
   else if m =? SCCRP then finish_sccrp (magic_lac_dial (control_finish_fuel 1)) tp cp
   else if m =? SCCCN then finish_scccn tp cp
   else if m =? StopCCN then finish_stopccn tp cp
   else if m =? ICRQ then finish_icrq tp
   else if m =? ICRP then finish_icrp tp cp
   else if m =? ICCN then finish_iccn tp cp
   else if m =? OCRP then mret 0
   else if m =? OCCN then finish_occn tp cp
   else if m =? CDN then finish_cdn tp cp
   else if (m =? Hello) || (m =? SLI) then mret 0
   else set_error cp VENDOR_ERROR (str "Unimplemented message " ++ dec m ++ [10]);; mret 0) w.
Proof.
  intros Hc. unfold control_finish. change (control_finish_fuel 2) with (finish_message (control_finish_fuel 1)).
  unfold finish_message. by rewrite (bind_eq _ _ _ c w) by (unfold get_c; by rewrite Hc).
Qed.

Lemma control_finish_sccrp w tp cp c :
  w_calls w !! cp = Some c → c_msgtype c = SCCRP →
  control_finish tp cp w = finish_sccrp (magic_lac_dial (control_finish_fuel 1)) tp cp w.
Proof. intros Hc Hm. rewrite (control_finish_case w tp cp c Hc), Hm. reflexivity. Qed.
Lemma control_finish_scccn w tp cp c :
  w_calls w !! cp = Some c → c_msgtype c = SCCCN → control_finish tp cp w = finish_scccn tp cp w.
Proof. intros Hc Hm. rewrite (control_finish_case w tp cp c Hc), Hm. reflexivity. Qed.
Lemma control_finish_stopccn w tp cp c :
  w_calls w !! cp = Some c → c_msgtype c = StopCCN → control_finish tp cp w = finish_stopccn tp cp w.
Proof. intros Hc Hm. rewrite (control_finish_case w tp cp c Hc), Hm. reflexivity. Qed.
Lemma control_finish_cdn w tp cp c :
  w_calls w !! cp = Some c → c_msgtype c = CDN → control_finish tp cp w = finish_cdn tp cp w.
Proof. intros Hc Hm. rewrite (control_finish_case w tp cp c Hc), Hm. reflexivity. Qed.

(** The tunnel is up: connected to the kernel if that is supported, with a
    Hello scheduled. *)
Record up (w : world) (tp : nat) (t : tunnel) (w' : world) : Prop := {
  up_state : ∃ ufd pfd, w_tunnels w' = <[tp := { t with t_state := SCCCN; t_hello := Some (w_fresh w);
                                                       t_udp_fd := ufd; t_pppox_fd := pfd }]> (w_tunnels w);
  up_hello : ∃ now, w_events w' = schedule now (w_fresh w) (Tv HELLO_DELAY 0) (Jhello tp) (w_events w);
  up_calls : w_calls w' = w_calls w;
  up_out : w_out w' = w_out w }.

Lemma wp_connect tp t w (Q : Z → world → Prop) :
  w_tunnels w !! tp = Some t →
  (∀ r k tr ufd pfd, Q r (set_t tp { t with t_udp_fd := ufd; t_pppox_fd := pfd } { w with w_clk := k; w_sys := tr })) →
  wp (connect_pppol2tp tp) Q w.
Proof.
  intros Ht HQ.
  assert (∀ r k tr, Q r { w with w_clk := k; w_sys := tr }) as HQ0.
  { intros r k tr. specialize (HQ r k tr (t_udp_fd t) (t_pppox_fd t)). revert HQ. unfold set_t. cbn.
    rewrite insert_id; [done|]. by destruct t. }
  assert (∀ r k tr ufd, Q r (set_t tp { t with t_udp_fd := ufd } { w with w_clk := k; w_sys := tr })) as HQ1.
  { intros r k tr ufd. apply (HQ r k tr ufd (t_pppox_fd t)). }
  unfold connect_pppol2tp, set_nonblock. wany; first [apply HQ0 | apply HQ1 | apply HQ | idtac].
  specialize (HQ0 0 (w_clk w) (w_sys w)). by destruct w.
Qed.

Lemma wp_schedule_hello tp t w (Q : unit → world → Prop) :
  w_tunnels w !! tp = Some t →
  Q tt (set_t tp { t with t_hello := Some (w_fresh w) }
    { w with w_clk := S (w_clk w); w_fresh := S (w_fresh w);
             w_events := schedule (e_now (w_env w) (w_clk w)) (w_fresh w) (Tv HELLO_DELAY 0) (Jhello tp) (w_events w) }) →
  wp (schedule_hello tp) Q w.
Proof.
  intros Ht HQ. unfold schedule_hello, Mschedule. wsteps. unfold alloc.
  eapply wp_eq; [reflexivity|]. wsteps. exact HQ.
Qed.

(** C3: the LNS lets a tunnel come up only for a peer that answered its
    challenge.  On SCCCN, when a challenge is outstanding and the reply is not
    the response computed for it, the tunnel is left as it is, nothing is sent
    and the call is marked to be closed with an error; otherwise the tunnel
    enters the established state with a Hello scheduled. *)
Theorem scccn_authenticates w tp cp t c lp :
  w_tunnels w !! tp = Some t → w_calls w !! cp = Some c → c_msgtype c = SCCCN →
  t_lns t = Some lp → is_Some (w_lnss w !! lp) →
  if truthy (ch_state (t_chal_them t)) && negb (bool_decide (ch_reply (t_chal_them t) = ch_response (t_chal_them t)))
  then control_finish tp cp w = Ret (- EINVAL) (set_c cp (refused c "Invalid challenge authentication") w)
  else ∃ w', control_finish tp cp w = Ret 0 w' ∧ up w tp t w'.
Proof.
  intros Ht Hc Hm Hlns [l Hl]. rewrite (control_finish_scccn w tp cp c Hc Hm).
  unfold finish_scccn. rewrite (bind_eq _ _ _ t w) by (unfold get_t; by rewrite Ht).
  unfold reply_wrong. destruct (truthy _ && _).
  - apply fail_call_eq; [done|vm_compute; lia|by vm_compute].
  - apply wp_returns. wsteps. eapply wp_need; [exact Hlns|]. wsteps.
    eapply wp_connect; [apply set_t_eq|]. intros r k tr ufd pfd. cbv beta. wstep.
    eapply wp_schedule_hello; [apply set_t_eq|]. wsteps. split; [done|].
    split; [|by eexists|done|done]. exists ufd, pfd. cbn. by rewrite !insert_insert_eq.
Qed.

(** A tunnel of LNS 8 that challenged its peer and got the reply given. *)
Definition lns_tunnel (reply : list Z) : tunnel :=
  { demo_tunnel1 with t_state := SCCRP; t_lns := Some 8%nat;
      t_chal_them := { zero_challenge with ch_state := STATE_CHALLENGED; ch_response := replicate 16 5; ch_reply := reply } }.
Definition lns_world (msg : Z) (reply : list Z) : world :=
  { demo_world with w_tunnels := {[ 1%nat := lns_tunnel reply ]};
                    w_calls := {[ 11%nat := { (demo_call 0 1 None) with c_msgtype := msg } ]};
                    w_lnss := {[ 8%nat := zero_lns ]} }.

(** A wrong reply is refused, the right one accepted. *)
Example scccn_authenticates_witness :
  control_finish 1 11 (lns_world SCCCN (replicate 16 6))
  = Ret (- EINVAL) (set_c 11 (refused { (demo_call 0 1 None) with c_msgtype := SCCCN } "Invalid challenge authentication")
      (lns_world SCCCN (replicate 16 6))) ∧
  ∃ w', control_finish 1 11 (lns_world SCCCN (replicate 16 5)) = Ret 0 w' ∧
    up (lns_world SCCCN (replicate 16 5)) 1 (lns_tunnel (replicate 16 5)) w'.
Proof.
  split.
  - refine (scccn_authenticates (lns_world SCCCN (replicate 16 6)) 1 11 (lns_tunnel (replicate 16 6))
      { (demo_call 0 1 None) with c_msgtype := SCCCN } 8 _ _ _ _ _); [reflexivity..|by eexists].
  - refine (scccn_authenticates (lns_world SCCCN (replicate 16 5)) 1 11 (lns_tunnel (replicate 16 5))
      { (demo_call 0 1 None) with c_msgtype := SCCCN } 8 _ _ _ _ _); [reflexivity..|by eexists].
Defined.

(** The tunnel after our challenge was checked: the response expected. *)
Definition checked_reply (t : tunnel) (secret response : list Z) : tunnel :=
  { t with t_chal_them := { (t_chal_them t) with ch_ss := SCCRP; ch_secret := secret; ch_response := response;
                                                 ch_state := STATE_CHALLENGED } }.

(** SCCCN, with the response to the peer's challenge if there was one. *)
Definition scccn_avps (t : tunnel) : list avp :=
  MessageType SCCCN :: if truthy (ch_state (t_chal_us t)) then [ChallengeResponse (ch_response (t_chal_us t))] else [].

(** A tunnel that has been confirmed. *)
Record confirmed (w : world) (tp cp : nat) (t : tunnel) (c : call) (w' : world) : Prop := {
  cf_tunnel : ∃ ufd pfd, w_tunnels w' = <[tp := { (bump_seq t) with t_state := SCCCN; t_hello := Some (S (w_fresh w));
                                                       t_udp_fd := ufd; t_pppox_fd := pfd }]> (w_tunnels w);
  cf_calls : w_calls w' = <[cp := { c with c_cnu := 0 }]> (w_calls w);
  cf_out : w_out w' = w_out w ++ [Oudp (t_peer t) (t_my_addr t)
    (control_header t c (12 + blen (enc_avps (scccn_avps t))) ++ enc_avps (scccn_avps t))] }.

Lemma confirm_tunnel_eq w tp cp t c :
  w_tunnels w !! tp = Some t → w_calls w !! cp = Some c → blen (ch_response (t_chal_us t)) = 16 →
  t_hbit t = 0 → malloc_full (w_env w) → is_u16 (t_control_seq_num t) → t_cLr t <= t_control_seq_num t →
  0 < g_max_retries (w_gconfig w) →
  ∃ w', confirm_tunnel tp cp w = Ret tt w' ∧ confirmed w tp cp t c w'.
Proof.
  intros Ht Hc Hlen Hh Hmal Hseq Hclr Hmax. apply wp_returns. unfold confirm_tunnel. wsteps.
  set (t1 := { t with t_state := SCCCN }). set (w1 := set_t tp t1 w).
  assert (Ht1 : w_tunnels w1 !! tp = Some t1) by apply set_t_eq.
  eapply (wp_new_outgoing tp t1); [done|done|]. intros b0 Hb0. cbv beta.
  wadd (MessageType SCCCN). wstep. eapply wp_add_vector; [exact Ht1|done|]. wsteps.
  assert (∀ Q : buffer → world → Prop, (∀ b2, message tp (t_peer t1) (scccn_avps t1) b2 → Q b2 (ticked w1)) →
    wp (if truthy (ch_state (t_chal_us t1)) then need (add_chalresp_avp b' (ch_response (t_chal_us t1)) MD_SIG_SIZE)
        else mret b') Q (ticked w1)) as Hresp.
  { intros Q HQ. unfold scccn_avps in HQ. destruct (truthy (ch_state (t_chal_us t1))); [|wsteps; by apply HQ].
    change MD_SIG_SIZE with 16. rewrite <-Hlen. change (t_chal_us t1) with (t_chal_us t) in *.
    eapply (wp_write_avp (ChallengeResponse (ch_response (t_chal_us t)))); [eassumption|unfold avp_fits; lia|avp_lengths|exact HQ]. }
  apply Hresp. intros b2 Hb2. wstep.
  eapply (wp_send_control tp cp t1 c); try done.
  intros b4 Hc4 Hp4 _ _ _. cbv beta. wstep.
  eapply (wp_connect tp (bump_seq t1)); [apply set_t_eq|]. intros r k tr ufd pfd. cbv beta.
  eapply wp_schedule_hello; [apply set_t_eq|]. split; [done|].
  split; cbn.
  - exists ufd, pfd. by rewrite !insert_insert_eq.
  - done.
  - by rewrite Hc4, Hp4.
Qed.

Lemma auth_names_frame w t k ch tp t' r :
  auth_names t w = Ret r w → auth_names (set_chal k ch t) (set_t tp t' w) = Ret r (set_t tp t' w).
Proof.
  unfold auth_names, mbind, M_bind, gets, need, get_lnsp, get_lacp, mret, M_ret.
  assert (t_lns (set_chal k ch t) = t_lns t ∧ t_lac (set_chal k ch t) = t_lac t ∧
          t_hostname (set_chal k ch t) = t_hostname t) as (-> & -> & ->) by by destruct k.
  destruct (t_lns t) as [p|].
  - change (w_lnss (set_t tp t' w)) with (w_lnss w). destruct (w_lnss w !! p); [|done]. by intros [= <-].
  - destruct (t_lac t) as [p|]; [|done].
    change (w_lacs (set_t tp t' w)) with (w_lacs w). destruct (w_lacs w !! p); [|done]. by intros [= <-].
Qed.

(** C4: the LAC brings a tunnel up only for a peer that proves the shared
    secret.  On SCCRP, with our challenge outstanding and the secret known:
    a reply that is not MD5 of the message type, the secret and the challenge
    is refused, with nothing sent and the tunnel's state unchanged; the right
    reply is answered with SCCCN, the tunnel enters the established state, a
    Hello is scheduled, and the LAC goes on to dial. *)
Theorem sccrp_authenticates w tp cp t c us them secret challenge :
  w_tunnels w !! tp = Some t → w_calls w !! cp = Some c → c_msgtype c = SCCRP →
  0 <= t_fc t → nonempty (t_hostname t) = true → 0 < t_tid t →
  truthy (ch_state (t_chal_them t)) = true → (t_lns t ≠ None ∨ t_lac t ≠ None) →
  auth_names t w = Ret (us, them) w →
  get_secret (e_stack (w_env w) (w_clk w)) (w_secrets w) us them MAXSTRLEN = Some (Some secret) →
  ptr_bytes (ch_challenge (t_chal_them t)) (ch_chal_len (t_chal_them t)) = Some challenge →
  blen challenge < 2 ^ 32 → blen secret < 2 ^ 32 →
  let expected := rfc_md5 ([SCCRP] ++ cstr secret ++ challenge) in
  let t1 := checked_reply t secret expected in
  let w1 := set_t tp t1 (ticked w) in
  (ch_reply (t_chal_them t) ≠ expected →
     control_finish tp cp w = Ret (- EINVAL) (set_c cp (refused c "Invalid challenge authentication") w1)) ∧
  (ch_reply (t_chal_them t) = expected → truthy (ch_state (t_chal_us t)) = false →
     blen (ch_response (t_chal_us t)) = 16 → t_hbit t = 0 → malloc_full (w_env w) →
     is_u16 (t_control_seq_num t) → t_cLr t <= t_control_seq_num t → 0 < g_max_retries (w_gconfig w) →
     ∃ w2, confirmed w1 tp cp t1 c w2 ∧
       control_finish tp cp w
       = (match t_lac t with None => mret tt | Some lp => magic_lac_dial (control_finish_fuel 1) lp end;; mret 0) w2).
Proof.
  intros Ht Hc Hm Hfc Hname Htid Hch Hl Hn Hs Hcb Hcl Hsl expected t1 w1.
  rewrite (control_finish_sccrp w tp cp c Hc Hm). unfold finish_sccrp.
  rewrite (bind_eq _ _ _ t w) by (unfold get_t; by rewrite Ht).
  rewrite (proj2 (Z.ltb_ge _ _) Hfc), Hname, (proj2 (Z.leb_gt _ _) Htid). cbn [negb andb].
  set (ta := set_chal Chal_them { (t_chal_them t) with ch_ss := SCCRP } t).
  assert (Hhc : handle_challenge tp Chal_them (set_t tp ta w) = Ret 0 w1).
  { rewrite (handle_challenge_eq (set_t tp ta w) tp ta Chal_them us them secret challenge); try done.
    - unfold w1, set_t. cbn. by rewrite insert_insert_eq.
    - apply set_t_eq.
    - by apply auth_names_frame. }
  assert (Ht1 : w_tunnels w1 !! tp = Some t1) by apply set_t_eq.
  assert (Hreply : check_their_reply tp cp w =
    if bool_decide (ch_reply (t_chal_them t) = expected) then Ret None w1
    else Ret (Some (- EINVAL)) (set_c cp (refused c "Invalid challenge authentication") w1)).
  { unfold check_their_reply. rewrite (bind_eq _ _ _ t w) by (unfold get_t; by rewrite Ht). rewrite Hch.
    rewrite (bind_eq _ _ _ tt (set_t tp ta w)) by (unfold mod_t; by rewrite Ht).
    rewrite (bind_eq _ _ _ _ _ Hhc). cbn [truthy Z.eqb negb].
    rewrite (bind_eq _ _ _ t1 w1) by (unfold get_t; by rewrite Ht1).
    unfold reply_wrong. change (ch_reply (t_chal_them t1)) with (ch_reply (t_chal_them t)).
    change (ch_response (t_chal_them t1)) with expected. destruct (bool_decide _); [done|]. cbn [negb].
    erewrite bind_eq; [reflexivity|]. apply fail_call_eq; [done|vm_compute; lia|by vm_compute]. }
  split.
  - intros Hne. rewrite bool_decide_eq_false_2 in Hreply by done. by rewrite (bind_eq _ _ _ _ _ Hreply).
  - intros He Hus Hlen Hh Hmal Hseq Hclr Hmax. rewrite bool_decide_eq_true_2 in Hreply by done.
    rewrite (bind_eq _ _ _ _ _ Hreply). unfold answer_challenge.
    destruct (confirm_tunnel_eq w1 tp cp t1 c) as (w2 & E & Hconf); try done.
    exists w2. split; [done|]. destruct Hconf as [(ufd & pfd & Htun) _ _].
    erewrite bind_eq; [|erewrite bind_eq by (unfold get_t; rewrite Ht1; reflexivity);
      change (t_chal_us t1) with (t_chal_us t); rewrite Hus; reflexivity].
    unfold finish_sccrp_reply. rewrite (bind_eq _ _ _ _ _ E).
    erewrite bind_eq by (unfold get_t; rewrite Htun, lookup_insert_eq; reflexivity). done.
Qed.

(** Tunnel 1 of LAC 7, which challenged its peer "lns" with three bytes and
    got the reply given. *)
Definition challenger (reply : list Z) : tunnel :=
  { lac_tunnel with t_state := SCCRQ; t_tid := 5; t_fc := 3; t_hostname := [108; 110; 115];
      t_chal_them := { zero_challenge with ch_challenge := Some [1; 2; 3]; ch_chal_len := 3;
                                           ch_state := STATE_CHALLENGED; ch_reply := reply } }.
Definition challenger_world (reply : list Z) : world :=
  { (lac_world 1) with w_tunnels := {[ 1%nat := challenger reply ]};
                       w_calls := {[ 11%nat := { (demo_call 0 1 None) with c_msgtype := SCCRP } ]};
                       w_secrets := Some (concat (map fmt two_entries)) }.

Example sccrp_authenticates_witness :
  let right := rfc_md5 ([SCCRP] ++ [115; 51; 99; 114; 101; 116] ++ [1; 2; 3]) in
  (∃ w', control_finish 1 11 (challenger_world (replicate 16 0)) = Ret (- EINVAL) w' ∧ w_out w' = []) ∧
  ∃ w2, control_finish 1 11 (challenger_world right)
    = (magic_lac_dial (control_finish_fuel 1) 7;; mret 0) w2 ∧ length (w_out w2) = 1%nat.
Proof.
  intros right.
  assert (∀ reply, auth_names (challenger reply) (challenger_world reply)
    = Ret ([108; 97; 99], [108; 110; 115]) (challenger_world reply)) as Hn by done.
  assert (∀ reply, get_secret (e_stack (w_env (challenger_world reply)) (w_clk (challenger_world reply)))
    (w_secrets (challenger_world reply)) [108; 97; 99] [108; 110; 115] MAXSTRLEN
    = Some (Some [115; 51; 99; 114; 101; 116])) as Hs by (intros; vm_compute; reflexivity).
  split.
  - destruct (sccrp_authenticates (challenger_world (replicate 16 0)) 1 11 (challenger (replicate 16 0))
      { (demo_call 0 1 None) with c_msgtype := SCCRP } [108; 97; 99] [108; 110; 115] [115; 51; 99; 114; 101; 116]
      [1; 2; 3]) as [H _];
      [reflexivity|reflexivity|reflexivity|by_compute|reflexivity|by_compute|reflexivity|right; discriminate
      |apply Hn|apply Hs|reflexivity|by_compute|by_compute|].
    eexists. split; [apply H; vm_compute; congruence|done].
  - destruct (sccrp_authenticates (challenger_world right) 1 11 (challenger right)
      { (demo_call 0 1 None) with c_msgtype := SCCRP } [108; 97; 99] [108; 110; 115] [115; 51; 99; 114; 101; 116]
      [1; 2; 3]) as [_ H];
      [reflexivity|reflexivity|reflexivity|by_compute|reflexivity|by_compute|reflexivity|right; discriminate
      |apply Hn|apply Hs|reflexivity|by_compute|by_compute|].
    destruct H as (w2 & Hconf & E);
      [reflexivity..|exact demo_malloc_full|by_compute|by_compute|by_compute|].
    exists w2. split; [exact E|]. by rewrite (cf_out _ _ _ _ _ _ Hconf).
Defined.

(** ** Closing on the peer's request *)

(** The identifiers a StopCCN has to name. *)
Definition tunnel_name (t : tunnel) : Z := if msl2tp t then t_ourtid t else t_tid t.
Definition call_name (t : tunnel) (c : call) : Z := if msl2tp t then c_ourcid c else c_cid c.

(** A call that is to be closed without further messages. *)
Definition ended (c : call) : call := { c with c_needclose := 0; c_closing := -1 }.

(** A StopCCN closes the tunnel exactly when it names the tunnel (by the
    peer's number, or by ours for the client known to do so) and carries a
    result code; in every other case it is refused and no call is marked. *)
Theorem stopccn_spec w tp cp t c self s :
  w_tunnels w !! tp = Some t → w_calls w !! cp = Some c → c_msgtype c = StopCCN →
  t_self t = Some self → w_calls w !! self = Some s →
  let named := (0 <=? t_qtid t) && ((t_qtid t =? tunnel_name t) || (tunnel_name t <=? 0)) in
  let w1 := if t_tid t =? 0 then set_t tp { t with t_tid := t_qtid t } w else w in
  control_finish tp cp w =
  if negb named then Ret (- EINVAL) w
  else if c_result s <? 0 then Ret (- EINVAL) w1
  else Ret 0 (set_c cp (ended c) w1).
Proof.
  intros Ht Hc Hm Hself Hs named w1. rewrite (control_finish_stopccn w tp cp c Hc Hm). unfold finish_stopccn.
  rewrite (bind_eq _ _ _ t w) by (unfold get_t; by rewrite Ht).
  fold (tunnel_name t). subst named. rewrite (Z.leb_antisym (t_qtid t) 0).
  destruct (t_qtid t <? 0); [done|]. cbn [negb andb].
  rewrite (Z.ltb_antisym (tunnel_name t) 0), <-negb_orb. destruct (_ || _); [|done]. cbn [negb].
  assert (E1 : (if t_tid t =? 0 then mod_t tp (λ t, { t with t_tid := t_qtid t }) else mret tt) w = Ret tt w1).
  { subst w1. destruct (t_tid t =? 0); [|done]. unfold mod_t. by rewrite Ht. }
  rewrite (bind_eq _ _ _ _ _ E1), Hself. cbn [need].
  assert (Hcalls : w_calls w1 = w_calls w) by (subst w1; by destruct (t_tid t =? 0)).
  rewrite (bind_eq _ _ _ self w1) by done.
  rewrite (bind_eq _ _ _ s w1) by (unfold get_c; by rewrite Hcalls, Hs).
  destruct (c_result s <? 0); [done|]. rewrite <-Hcalls in Hc. unfold mbind, M_bind, mod_c. by rewrite Hc.
Qed.

Example stopccn_spec_witness :
  let t := { (lns_tunnel (replicate 16 5)) with t_qtid := 5 } in
  let w := { (lns_world StopCCN []) with w_tunnels := {[ 1%nat := t ]};
             w_calls := {[ 11%nat := { (demo_call 0 1 None) with c_msgtype := StopCCN; c_result := 1 } ]} } in
  control_finish 1 11 w
  = Ret 0 (set_c 11 (ended { (demo_call 0 1 None) with c_msgtype := StopCCN; c_result := 1 }) w).
Proof.
  intros t w. etransitivity; [refine (stopccn_spec w 1 11 t { (demo_call 0 1 None) with c_msgtype := StopCCN; c_result := 1 }
    11 { (demo_call 0 1 None) with c_msgtype := StopCCN; c_result := 1 } _ _ _ _ _); reflexivity|reflexivity].
Defined.

(** C34: a CDN that arrives on the control connection (call 0 in its header)
    and names one of the tunnel's calls marks the control call, and so the
    whole tunnel, to be closed; the call it names is not touched. *)
Theorem cdn_on_tunnel_closes_tunnel w tp cp t c calls p pc :
  w_tunnels w !! tp = Some t → w_calls w !! cp = Some c → c_msgtype c = CDN → t_self t = Some cp →
  cpath w (t_call_head t) calls → 0 <= c_qcid c → 0 <= c_result c →
  first (w_calls w) (λ _ x, c_cid x =? c_qcid c) calls = Some p → w_calls w !! p = Some pc →
  call_name t pc = c_qcid c → p ≠ cp →
  ∃ w', control_finish tp cp w = Ret 0 w' ∧
    (∃ c', w_calls w' !! cp = Some c' ∧ c_closing c' = -1) ∧ w_calls w' !! p = Some pc.
Proof.
  intros Ht Hc Hm Hself Hpath Hq Hres Hfirst Hp Hname Hne.
  rewrite (control_finish_cdn w tp cp c Hc Hm). apply wp_returns. unfold finish_cdn. wsteps.
  rewrite (proj2 (Z.ltb_ge _ _) Hq). wsteps. rewrite Hself, bool_decide_eq_true_2 by done.
  wstep. eapply wp_eq; [reflexivity|].
  eapply wp_eq; [apply (find_call_first w _ calls); [done|by apply (call_fuel_enough w (t_call_head t))]|].
  rewrite Hfirst. wsteps. fold (call_name t pc). rewrite Hname, Z.eqb_refl. cbn [negb andb]. wsteps.
  rewrite (proj2 (Z.ltb_ge _ _) Hres). wsteps. split; [done|].
  rewrite set_c_twice. split; [|by rewrite set_c_ne].
  eexists. split; [apply set_c_eq|done].
Qed.

(** A CDN for call 13 of tunnel 1, whose peer calls it 6. *)
Definition cdn_call : call := { (demo_call 0 1 None) with c_msgtype := CDN; c_qcid := 6; c_result := 1 }.
Definition cdn_world : world :=
  { demo_world with w_calls := <[11%nat := cdn_call]> (<[13%nat := { (demo_call 31 1 None) with c_cid := 6 }]>
                                 (w_calls demo_world)) }.
Example cdn_on_tunnel_closes_tunnel_witness :
  ∃ w', control_finish 1 11 cdn_world = Ret 0 w' ∧
    (∃ c', w_calls w' !! 11%nat = Some c' ∧ c_closing c' = -1) ∧
    w_calls w' !! 13%nat = Some { (demo_call 31 1 None) with c_cid := 6 }.
Proof.
  apply (cdn_on_tunnel_closes_tunnel cdn_world 1 11 demo_tunnel1 cdn_call [12; 13]%nat 13
    { (demo_call 31 1 None) with c_cid := 6 }); [reflexivity|reflexivity|reflexivity|reflexivity| |by_compute|by_compute
    |reflexivity|reflexivity|reflexivity|discriminate].
  split; [reflexivity|]. eexists. split; [reflexivity|]. split; [reflexivity|]. eexists. split; [reflexivity|done].
Defined.

(** ** The recursion of [control_finish] *)

(** Two versions of [control_finish] that agree on calls without a message. *)
Definition agree_fresh (f g : nat → nat → M Z) : Prop :=
  ∀ tp cp w c, w_calls w !! cp = Some c → c_msgtype c = 0 → f tp cp w = g tp cp w.
Definition fresh_call (w : world) (cp : nat) : Prop := ∃ c, w_calls w !! cp = Some c ∧ c_msgtype c = 0.

Lemma new_call_fresh parent w :
  wlp (new_call parent) (λ r w', ∀ cp, r = Some cp → fresh_call w' cp) w.
Proof.
  unfold new_call, Mmalloc. wlps. destruct (e_malloc _ _ _); wlps; [|done].
  apply wlp_mono with (Q := λ _ _, True); [done|]. intros ourcid w1 _. wlps.
  intros cp [= <-]. eexists. split; [apply lookup_insert_eq|done].
Qed.

Lemma new_tunnel_fresh w :
  wlp new_tunnel (λ r w', ∀ p, r = Some p →
    ∃ t cp, w_tunnels w' !! p = Some t ∧ t_self t = Some cp ∧ fresh_call w' cp) w.
Proof.
  unfold new_tunnel, Mmalloc. wlps. destruct (e_malloc _ _ _); wlps; [|done].
  apply wlp_mono with (Q := λ _ _, True); [done|]. intros ourtid w1 _. wlps.
  eapply wlp_mono; [apply new_call_fresh|]. intros [s|] w2 Hs; wlps; [|done].
  destruct (Hs s eq_refl) as (c1 & Hc1 & Hm1). intros p [= <-].
  eexists _, s. split; [apply lookup_insert_eq|]. split; [done|].
  eexists. split; [apply lookup_insert_eq|]. cbn. congruence.
Qed.

Lemma get_call_fresh w addr port refme refhim :
  wlp (get_call 0 0 addr port refme refhim) (λ r w', ∀ cp, r = Some cp → fresh_call w' cp) w.
Proof.
  unfold get_call. cbn [truthy Z.eqb negb]. wlps. eapply wlp_mono; [apply new_tunnel_fresh|].
  intros [p|] w1 Hp; [|by wlps]. destruct (Hp p eq_refl) as (t & cp & Ht & Hself & Hf).
  wlps. intros cp' Hcp'. cbn in *. rewrite lookup_insert_eq in *. simplify_eq. cbn in Hcp'. by simplify_eq.
Qed.

Section Agree.
Context (f g : nat → nat → M Z) (Hfg : agree_fresh f g).

Lemma finish_agree {A} w tp cp (k : Z → M A) : fresh_call w cp → (f tp cp ≫= k) w = (g tp cp ≫= k) w.
Proof. intros (c & Hc & Hm). by apply bind_cong, (Hfg tp cp w c). Qed.

Lemma fresh_set_c w cp c c' :
  fresh_call w cp → w_calls w !! cp = Some c → c_msgtype c' = c_msgtype c → fresh_call (set_c cp c' w) cp.
Proof. intros (c0 & Hc0 & Hm) Hc Hc'. exists c'. rewrite set_c_eq. split; [done|]. congruence. Qed.

Lemma l2tp_call_agree port lac lns w : l2tp_call f port lac lns w = l2tp_call g port lac lns w.
Proof.
  unfold l2tp_call. apply bind_agree. wlps. destruct (e_host _ _); [|done].
  apply bind_agree. eapply wlp_mono; [apply get_call_fresh|]. intros [cp|] w1 Hf; [|done]. specialize (Hf cp eq_refl).
  do 4 (apply bind_agree; wlp1).
  match goal with |- context [set_c cp ?c' ?w3] => assert (fresh_call (set_c cp c' w3) cp) as Hf'
    by (by eapply (fresh_set_c (set_t _ _ w1))) end.
  destruct lac, lns; do 2 (apply bind_agree; wlp1); apply finish_agree; done.
Qed.

Lemma lac_call_agree tid lac lns w : lac_call f tid lac lns w = lac_call g tid lac lns w.
Proof.
  unfold lac_call, tunnel_fuel. do 2 (apply bind_agree; wlp1). apply bind_agree.
  apply wlp_mono with (Q := λ _ _, True); [done|]. intros [tp|] w1 _; [|done].
  apply bind_agree. eapply wlp_mono; [apply new_call_fresh|]. intros [cp|] w2 Hf; [|done]. specialize (Hf cp eq_refl).
  do 5 (apply bind_agree; wlp1). apply bind_agree.
  match goal with |- wlp _ _ ?w3 => assert (fresh_call w3 cp) as Hf' end.
  { eapply fresh_set_c; [|eassumption|done].
    match goal with H : w_calls (set_t _ _ ?w3) !! cp = _ |- _ => change (fresh_call w3 cp) end.
    by eapply fresh_set_c. }
  destruct lac; wlps; apply finish_agree; done.
Qed.

Lemma magic_lac_dial_agree lp w : magic_lac_dial f lp w = magic_lac_dial g lp w.
Proof.
  unfold magic_lac_dial, magic_lac_tunnel. apply bind_agree. wlps. destruct (negb _); [done|].
  apply bind_agree. wlps. destruct (_ && _); [done|]. destruct (lac_t l).
  - apply bind_agree. wlps. apply bind_cong, lac_call_agree.
  - apply bind_agree. wlps. destruct (State.lac_lns _) as [|[]].
    + apply bind_agree. wlps. destruct (w_deflac _); [|done]. apply bind_agree. wlps.
      destruct (State.lac_lns _) as [|[]]; [done|]. apply bind_cong, l2tp_call_agree.
    + apply bind_cong, l2tp_call_agree.
Qed.
End Agree.

Lemma control_finish_none n tp cp w c :
  w_calls w !! cp = Some c → c_msgtype c = 0 → control_finish_fuel (S n) tp cp w = finish_none tp cp w.
Proof.
  intros Hc Hm. change (control_finish_fuel (S n)) with (finish_message (control_finish_fuel n)).
  unfold finish_message. rewrite (bind_eq _ _ _ c w) by (unfold get_c; by rewrite Hc).
  cbv zeta. rewrite Hm. change (0 <? 0) with false. change (0 =? 0) with true. cbv iota. reflexivity.
Qed.

(** [control_finish] calls itself only once: for a tunnel or a call it has
    just made, on which it opens the tunnel or the call and makes no further
    call.  At any depth of unfolding beyond two it is the [switch] in which the
    recursive call is [finish_none], which does not recurse. *)
Lemma control_finish_depth n tp cp w : control_finish_fuel (2 + n) tp cp w = finish_message finish_none tp cp w.
Proof.
  change (control_finish_fuel (2 + n)) with (finish_message (control_finish_fuel (1 + n))).
  unfold finish_message. apply bind_agree. wlps. cbv zeta.
  do 3 (match goal with |- (if ?b then _ else _) _ = _ => destruct b; [reflexivity|] end).
  destruct (_ =? SCCRP); [|reflexivity]. unfold finish_sccrp, finish_sccrp_reply. apply bind_agree. wlps.
  do 3 (match goal with |- (if ?b then _ else _) _ = _ => destruct b; [reflexivity|] end).
  apply bind_agree. apply wlp_mono with (Q := λ _ _, True); [done|].
  intros [e|] w1 _; [done|]. apply bind_agree. apply wlp_mono with (Q := λ _ _, True); [done|].
  intros [e|] w2 _; [done|]. apply bind_agree. apply wlp_mono with (Q := λ _ _, True); [done|].
  intros _ w3 _. apply bind_agree. wlps. apply bind_cong. case_match; [|done].
  apply magic_lac_dial_agree. intros tp' cp' w' c' Hc Hm. exact (control_finish_none n tp' cp' w' c' Hc Hm).
Qed.

End Finish.
