(* ===== verification/Packet.v ===== *)
(** * Packets in and out (src/network.c and the end of src/control.c)

    A datagram is received into one buffer that is used again for the next
    packet, its header is put in host order, its tunnel and call are looked
    up, and it is handled as a control message or as payload.  The file also
    holds the other inputs of the main loop: the PPP side, the scheduled
    jobs, the sweep that closes calls and tunnels ([build_fdset]) and the
    handlers of SIGCHLD and of the signals that end the program. *)

From S2P Require Import Prelude.
From S2P Require Import Scheduler.
From S2P Require Import Buffer.
From S2P Require Import AvpSend.
From S2P Require Import State.
From S2P Require Import Ppp.
From S2P Require Import AddrPool.
From S2P Require Import Auth.
From S2P Require Import Logic.
From S2P Require Import Config.
From S2P Require Import Calls.
From S2P Require Import Pppd.
From S2P Require Import Avp.
From S2P Require Import Finish.

Module Packet.
Import Scheduler Buffer AvpSend State Ppp AddrPool Auth Config Logic Calls Pppd Avp Finish.
Open Scope Z_scope.

(** ** Headers *)

(** The number of header bytes put in host order. *)
Definition fix_len (raw_ver : Z) : Z :=
  let ver := ntohs raw_ver in
  if CTBIT raw_ver then 12
  else 6 + (if PSBIT ver then 2 else 0) + (if CLBIT ver then 2 else 0) + (if CFBIT ver then 4 else 0).
Definition fix_hdr (buf : buffer) : option buffer :=
  v ← buf_ld16 buf 0;
  m ← swaps (b_mem buf) (b_start buf) (fix_len v);
  Some { buf with b_mem := m }.

(** The numbers of the tunnel and the call. *)
Definition extract (buf : buffer) : option (Z * Z) :=
  ver ← buf_ld16 buf 0;
  if CLBIT ver then
    tid ← buf_ld16 buf 4;
    cid ← buf_ld16 buf 6;
    Some (tid, cid)
  else
    tid ← buf_ld16 buf 2;
    cid ← buf_ld16 buf 4;
    Some (tid, cid).

(** ** Control messages *)

(** The message was received before: [Ns] is behind the number expected. *)
Definition seen_before (ns rec : Z) : bool :=
  ((ns <? rec) && (rec - ns <? 32768)) || ((rec <? ns) && (32768 <? rec - ns)).

Definition bad_version (ver : Z) : bool :=
  negb (CTBIT ver) || negb (CLBIT ver) || negb (CFBIT ver) || negb (CVER ver =? VER_L2TP).

Definition check_control (buf : buffer) (tp cp : nat) : M Z :=
  if b_len buf <? sizeof_control_hdr then mret (- EINVAL)
  else
    length ← need (buf_ld16 buf 2);
    if negb (b_len buf =? length) then mret (- EINVAL)
    else
      ns ← need (buf_ld16 buf 8);
      t ← get_t tp;
      if negb (ns =? t_control_rec_seq_num t) then
        (if seen_before ns (t_control_rec_seq_num t) then
           if negb (b_len buf =? sizeof_control_hdr) then
             zlb ← Mnew_outgoing tp;
             control_zlb zlb tp cp;; mret tt
           else mret tt
         else if (t_control_rec_seq_num t =? 0) && (t_tid t =? -1) then
           mod_c cp (λ c, { c with c_needclose := 0; c_closing := -1 })
         else mret tt);;
        mret (- EINVAL)
      else
        nr ← need (buf_ld16 buf 10);
        mod_t tp (λ t, { t with t_control_rec_seq_num := u16 (t_control_rec_seq_num t + 1) });;
        mod_c cp (λ c, { c with c_cnu := -1 });;
        mod_t tp (λ t, { t with t_cLr := nr });;
        ver ← need (buf_ld16 buf 0);
        mret (if truthy (t_sanity t) && bad_version ver then - EINVAL else 0).

(** A packet for a call the tunnel does not have; the result 1 says that the
    buffer was consumed. *)
Definition handle_special (buf : buffer) (cp : nat) (call : Z) : M Z :=
  c ← get_c cp;
  tp ← need (c_container c);
  ver ← need (buf_ld16 buf 0);
  if negb (CTBIT ver) then mret 0
  else
    mod_c cp (λ c, { c with c_cid := u16 call });;
    r ← check_control buf tp cp;
    if negb (truthy r) then
      if b_len buf =? sizeof_control_hdr then mod_c cp (λ c, { c with c_cid := 0 });; mret 0
      else
        control_zlb buf tp cp;;
        mod_c cp (λ c, { c with c_cid := 0 });;
        mret 1
    else mod_c cp (λ c, { c with c_cid := 0 });; mret 0.

(** [handle_avps] on the memory of the packet. *)
Definition run_avps (buf : buffer) (tp cp : nat) : M (Z * buffer) :=
  upd (λ w, { w with w_rx := b_mem buf });;
  r ← handle_avps buf tp cp;
  rx ← gets w_rx;
  mret (r, { buf with b_mem := rx }).

Definition handle_control (buf : buffer) (tp cp : nat) : M (Z * buffer) :=
  r ← check_control buf tp cp;
  if truthy r then mret (- EINVAL, buf)
  else
    mod_c cp (λ c, { c with c_msgtype := -1 });;
    if b_len buf =? sizeof_control_hdr then
      mod_t tp (λ t, { t with t_control_rec_seq_num := u16 (t_control_rec_seq_num t - 1) });;
      mod_c cp (λ c, { c with c_cnu := 0 });;
      c ← get_c cp;
      when (truthy (c_needclose c) && truthy (c_closing c))
        (p ← need (c_container c);
         t ← get_t p;
         when (c_closeSs c <=? t_cLr t) (mod_c cp (λ c, { c with c_needclose := 0 })));;
      mret (0, buf)
    else
      rb ← run_avps buf tp cp;
      if truthy rb.1 then mret (- EINVAL, rb.2)
      else
        r ← control_finish tp cp;
        mret (r, rb.2).

(** ** Payload *)

Definition check_payload (buf : buffer) (tp : nat) (cp : option nat) : M Z :=
  match cp with
  | None => mret (- EINVAL)
  | Some _ =>
      if b_len buf <? MIN_PAYLOAD_HDR_LEN then mret (- EINVAL)
      else
        t ← get_t tp;
        if truthy (t_sanity t) then
          ver ← need (buf_ld16 buf 0);
          length ← need (buf_ld16 buf 2);
          let ehlen := MIN_PAYLOAD_HDR_LEN + (if CLBIT ver then 2 else 0) +
            (if CFBIT ver then 4 else 0) + (if PSBIT ver then 2 else 0) +
            (if CLBIT ver then length else 0) in
          mret (if CTBIT ver then - EINVAL
                else if negb (CVER ver =? VER_L2TP) then - EINVAL
                else if (b_len buf <? ehlen) && negb (CLBIT ver) then - EINVAL
                else if negb (b_len buf =? length) && CLBIT ver then - EINVAL
                else 0)
        else mret 0
  end.

(** The bytes missing from a compressed header. *)
Definition missing (ver : Z) : Z :=
  (if CLBIT ver then 0 else 2) + (if CFBIT ver then 0 else 4) + (if PSBIT ver then 0 else 2).

(** The header is written [ehlen] bytes before the old one, field by field,
    while [r] walks over the old one: [hdr] and [r] are offsets in the memory
    of the buffer. *)
Definition copy_hdr (m : list Z) (hdr r len ehlen : Z) (c : call) : option (list Z) :=
  ver ← ld16 m r;
  m ← st16 m hdr ver;
  mr ← (if CLBIT ver then
          length ← ld16 m (r + 2);
          m ← st16 m (hdr + 2) length; Some (m, r + 2)
        else m ← st16 m (hdr + 2) (u16 (len + ehlen)); Some (m, r));
  let '(m, r) := mr in
  tid ← ld16 m (r + 2);
  m ← st16 m (hdr + 4) tid;
  cid ← ld16 m (r + 4);
  m ← st16 m (hdr + 6) cid;
  mr ← (if CFBIT ver then
          ns ← ld16 m (r + 6);
          m ← st16 m (hdr + 8) ns;
          nr ← ld16 m (r + 8);
          m ← st16 m (hdr + 10) nr; Some (m, r + 8)
        else
          m ← st16 m (hdr + 10) (c_data_seq_num c);
          m ← st16 m (hdr + 8) (c_data_rec_seq_num c); Some (m, r + 4));
  let '(m, r) := mr in
  if PSBIT ver then o_size ← ld16 m (r + 2); st16 m (hdr + 12) o_size
  else st16 m (hdr + 12) 0.

(** The sequence numbers of a payload packet: [None] drops it. *)
Definition sequence (ns : Z) (c : call) : option call :=
  if negb (ns =? c_data_seq_num c) then
    if seen_before ns (c_data_rec_seq_num c) then None
    else if ns <=? c_data_rec_seq_num c + PAYLOAD_FUDGE
    then Some { c with c_data_rec_seq_num := ns }
    else None
  else Some { c with c_data_rec_seq_num := u16 (c_data_rec_seq_num c + 1); c_pnu := -1 }.

(** Result, buffer and call; a packet that is dropped may have had its header
    expanded. *)
Definition expand_payload (buf : buffer) (c : call) : option (Z * buffer * call) :=
  ver ← buf_ld16 buf 0;
  let ehlen := missing ver in
  let hdr := b_start buf - ehlen in
  if truthy ehlen && (hdr <? 0) then Some (- EINVAL, buf, c)
  else
    m ← (if truthy ehlen then copy_hdr (b_mem buf) hdr (b_start buf) (b_len buf) ehlen c
         else Some (b_mem buf));
    ns ← ld16 m (hdr + 8);
    match sequence ns c with
    | None => Some (- EINVAL, { buf with b_mem := m }, c)
    | Some c =>
        nr ← ld16 m (hdr + 10);
        Some (0, { buf with b_mem := m; b_start := hdr; b_len := b_len buf + ehlen },
              { c with c_pLr := nr })
    end.

Definition Mwrite_packet (buf : buffer) (cp : nat) (convert : Z) : M (Z * buffer) :=
  script ← ask e_write;
  c ← get_c cp;
  match write_packet script buf c convert with
  | Done (r, buf, c', out) =>
      mod_c cp (λ _, c');;
      when (0 <=? c_fd c) (emit (Otty (c_fd c) out));;
      mret (r, buf)
  | Fault => ub
  | Blocked => nofuel
  end.

Definition handle_packet (buf : buffer) (tp cp : nat) : M (Z * buffer) :=
  ver ← need (buf_ld16 buf 0);
  if CTBIT ver then handle_control buf tp cp
  else
    r ← check_payload buf tp (Some cp);
    if truthy r then mret (- EINVAL, buf)
    else
      c ← get_c cp;
      e ← need (expand_payload buf c);
      let '(r, buf, c) := e in
      mod_c cp (λ _, c);;
      if truthy r then mret (- EINVAL, buf)
      else if sizeof_payload_hdr <? b_len buf then Mwrite_packet buf cp SYNC_FRAMING
      else if b_len buf =? sizeof_payload_hdr then
        mod_c cp (λ c, { c with c_data_rec_seq_num := u16 (c_data_rec_seq_num c - 1) });;
        mret (0, buf)
      else mret (- EINVAL, buf).

(** ** One datagram *)

(** What [recvmsg] delivers; it keeps what fits in the buffer. *)
Record datagram := Datagram {
  d_data : list Z; d_from : sockaddr; d_to : Z; d_refme : Z; d_refhim : Z }.

Definition recv_into (buf : buffer) (data : list Z) : option buffer :=
  let buf := recycle_buf buf in
  let buf := { buf with b_start := b_start buf + PAYLOAD_BUF; b_len := b_len buf - PAYLOAD_BUF } in
  let data := take (Z.to_nat (b_len buf)) data in
  buf ← buf_stn buf 0 data;
  Some { buf with b_len := blen data }.

Definition Mnew_buf : M buffer :=
  mem ← Mmalloc MAX_RECV_SIZE;
  need (new_buf MAX_RECV_SIZE mem junk_buf).

(** The call of a packet handles it, and acknowledges it if nothing else
    did. *)
Definition deliver (buf : buffer) (cp : nat) (d : datagram) : M buffer :=
  c ← get_c cp;
  tp ← need (c_container c);
  mod_t tp (λ t, { t with t_my_addr := d_to d;
                          t_chal_us := { (t_chal_us t) with ch_vector := VNull } });;
  rb ← handle_packet { buf with b_peer := d_from d } tp cp;
  c ← get_c cp;
  if truthy (c_cnu c) then
    tp ← need (c_container c);
    buf ← control_zlb rb.2 tp cp;
    mod_c cp (λ c, { c with c_cnu := 0 });;
    mret buf
  else mret rb.2.

Definition receive (buf : buffer) (d : datagram) : M buffer :=
  buf ← need (recv_into buf (d_data d));
  if b_len buf <? MIN_PAYLOAD_HDR_LEN then mret buf
  else
    buf ← need (fix_hdr buf);
    ids ← need (extract buf);
    let '(tunnel, call) := ids : Z * Z in
    c ← get_call tunnel call (sin_addr (d_from d)) (sin_port (d_from d)) (d_refme d) (d_refhim d);
    match c with
    | None =>
        c ← get_tunnel tunnel;
        match c with
        | None => mret buf
        | Some cp =>
            r ← handle_special buf cp call;
            if r =? 1 then Mnew_buf else mret buf
        end
    | Some cp => deliver buf cp d
    end.

(** ** The PPP side *)

(** The type of service of the socket is the one of the packet, read ten bytes
    into the buffer, when the byte at offset eight says it is IP; else the one
    of the command line. *)
Definition get_inner_tos_byte (buf : buffer) : option Z := buf_ld8 buf 10.
Definition get_inner_ppp_type (buf : buffer) : option Z := buf_ld8 buf 8.
Definition set_tos (buf : buffer) : M unit :=
  tosval ← need (get_inner_tos_byte buf);
  typeval ← need (get_inner_ppp_type buf);
  g ← gets w_gconfig;
  server ← gets w_server_socket;
  sys_ (Ssetsockopt server IPPROTO_IP IP_TOS (if typeval =? 33 then tosval else atoi (g_controltos g))).

(** [while ((result = read_packet (sc)) > 0)]: every packet pppd wrote is sent
    to the peer.  [strerror] is the C library's table of messages. *)
Fixpoint ppp_loop (strerror : Z → list Z) (fuel : nat) (script : list rd) (tp cp : nat) : M unit :=
  match fuel with
  | O => nofuel
  | S fuel =>
      c ← get_c cp;
      match read_packet (S fuel) script c with
      | Fault => ub
      | Blocked => nofuel
      | Done (result, c, script) =>
          mod_c cp (λ _, c);;
          if 0 <? result then
            ctp ← need (c_container c);
            buf ← need (c_ppp_buf c);
            buf ← add_payload_hdr ctp cp buf;
            when (negb (bool_decide (c_zlb_xmit c = None))) (Mdeschedule (c_zlb_xmit c));;
            mod_c cp (λ c, { c with c_prx := c_data_rec_seq_num c; c_zlb_xmit := None;
                                    c_tx_bytes := s32 (c_tx_bytes c + b_len buf);
                                    c_tx_pkts := s32 (c_tx_pkts c + 1) });;
            set_tos buf;;
            udp_xmit buf (Some tp);;
            t ← get_t ctp;
            mod_c cp (λ c, { c with c_ppp_buf := Some (recycle_payload buf (t_peer t)) });;
            ppp_loop strerror fuel script tp cp
          else
            (if result =? 0 then mret tt
             else mod_c cp (λ c, { c with c_needclose := -1; c_errormsg := strerror (- result) }))
      end
  end.

(** ** Scheduled jobs *)

Definition run_job (j : job) : M unit :=
  match j with
  | Jcontrol_xmit b => control_xmit b
  | Jhello t => hello t
  | Jsend_zlb c => send_zlb c
  | Jmagic_lac_dial l => magic_lac_dial control_finish l
  end.

(** [process_schedule] on the daemon's state; a job that goes wrong ends it. *)
Definition Mprocess_schedule (fuel : nat) : M (option timeval) := λ w,
  let events_of (r : res unit) := match r with Ret _ w => w_events w | _ => [] end in
  let set (es : list (schedule_entry job)) (r : res unit) :=
    match r with Ret _ w => Ret tt { w with w_events := es } | r => r end in
  let run (j : job) (r : res unit) := match r with Ret _ w => run_job j w | r => r end in
  let clock (r : res unit) :=
    match r with Ret _ w => e_now (w_env w) (w_clk w) | _ => Tv 0 0 end in
  match process_schedule events_of set run clock fuel (Ret tt w) with
  | None => NoFuel
  | Some (Ret _ w, tv) => Ret tv w
  | Some (UB, _) => UB
  | Some (NoFuel, _) => NoFuel
  end.

(** ** Closing what is marked for closing *)

(** [needclose ^ closing] *)
Definition marked (c : call) : bool := truthy (Z.lxor (c_needclose c) (c_closing c)).

(** The calls of a tunnel; the result is the descriptors to watch. *)
Fixpoint sweep_calls (fuel : nat) (tp : nat) (call : option nat) (fds : list Z) : M (list Z) :=
  match fuel with
  | O => nofuel
  | S fuel =>
      match call with
      | None => mret fds
      | Some p =>
          c ← get_c p;
          if marked c then
            Mcall_close (Some p);;
            t ← get_t tp;
            sweep_calls fuel tp (t_call_head t) fds
          else
            let watch := (-1 <? c_fd c) && negb (truthy (c_needclose c)) && negb (truthy (c_closing c)) in
            sweep_calls fuel tp (c_next c) (if watch then fds ++ [c_fd c] else fds)
      end
  end.
Fixpoint sweep_tunnels (fuel cfuel : nat) (tun : option nat) (fds : list Z) : M (list Z) :=
  match fuel with
  | O => nofuel
  | S fuel =>
      match tun with
      | None => mret fds
      | Some tp =>
          t ← get_t tp;
          let fds := if -1 <? t_udp_fd t then fds ++ [t_udp_fd t] else fds in
          fds ← sweep_calls cfuel tp (t_call_head t) fds;
          t ← get_t tp;
          self ← need (t_self t);
          s ← get_c self;
          if marked s then
            Mcall_close (Some self);;
            head ← gets w_head;
            sweep_tunnels fuel cfuel head fds
          else sweep_tunnels fuel cfuel (t_next t) fds
      end
  end.

(** [build_fdset]: the descriptors, without those of the server socket and of
    the control pipe.  A call is visited at most three times for every one of
    the closings the sweep can do, a tunnel likewise. *)
Definition sweep_fuel (n : nat) : nat := (S (2 * n)) * (S (S n)).
Definition build_fdset : M (list Z) :=
  head ← gets w_head;
  nt ← gets (λ w, size (w_tunnels w));
  nc ← gets (λ w, size (w_calls w));
  sweep_tunnels (sweep_fuel nt) (sweep_fuel nc) head [].

(** ** Signals *)

(** [child_handler]: [pids] are the processes [waitpid] reports. *)
Fixpoint find_pppd (fuel : nat) (pid : Z) (t : option nat) : M (option nat) :=
  match fuel with
  | O => nofuel
  | S fuel =>
      match t with
      | None => mret None
      | Some tp =>
          t ← get_t tp;
          cfuel ← call_fuel;
          c ← find_call cfuel (λ c, c_pppd c =? pid) (t_call_head t);
          match c with Some cp => mret (Some cp) | None => find_pppd fuel pid (t_next t) end
      end
  end.
Definition child_died (pid : Z) : M unit :=
  head ← gets w_head;
  fuel ← tunnel_fuel;
  c ← find_pppd fuel pid head;
  match c with
  | None => mret tt
  | Some cp =>
      mod_c cp (λ c, { c with c_pppd := 0; c_needclose := -1 });;
      k ← gets w_kernel_support;
      c ← get_c cp;
      (if truthy k then Mcall_close (Some cp) else emit (Oclose (c_fd c)));;
      mod_c cp (λ c, { c with c_fd := -1 })
  end.
Fixpoint child_handler (pids : list Z) : M unit :=
  match pids with
  | [] => mret tt
  | pid :: pids => child_died pid;; child_handler pids
  end.

(** The tunnels at the end of the program, each closed twice so that a
    StopCCN goes out. *)
Fixpoint close_tunnels (fuel : nat) (st : option nat) : M unit :=
  match fuel with
  | O => nofuel
  | S fuel =>
      match st with
      | None => mret tt
      | Some tp =>
          t ← get_t tp;
          self ← need (t_self t);
          s ← get_c self;
          mod_c self (λ c, { c with c_errormsg := str "Server closing" });;
          match t_lac t with None => mret tt | Some lp => mod_lac lp (λ l, { l with lac_redial := 0 }) end;;
          Mcall_close (Some self);;
          (if truthy (c_closing s) then mret tt
           else mod_c self (λ c, { c with c_closing := -1 });; Mcall_close (Some self));;
          close_tunnels fuel (t_next t)
      end
  end.
(** What [death_handler] does before [exit (1)]. *)
Definition death_handler (signal : Z) : M unit :=
  k ← gets w_kernel_support;
  when (truthy k || negb (signal =? SIGTERM))
    (head ← gets w_head;
     fuel ← tunnel_fuel;
     close_tunnels fuel head);;
  g ← gets w_gconfig;
  server ← gets w_server_socket;
  control ← gets w_control_fd;
  sys_ (Sunlink (g_pidfile g));;
  sys_ (Sunlink (g_controlfile g));;
  sys_ (Sclose server);;
  sys_ (Sclose control).

(** ** Headers on the wire and in memory *)

Lemma recv_into_spec b data :
  blen (b_mem b) = b_maxlen b → 10 + blen data <= b_maxlen b →
  ∃ r, recv_into b data = Some r ∧ buf_wf r ∧ contents r = data ∧ b_start r = 10 ∧
    b_len r = blen data ∧ b_maxlen r = b_maxlen b.
Proof.
  intros Hm Hl. pose proof (blen_nonneg data). 
  unfold recv_into, recycle_buf, PAYLOAD_BUF, buf_stn. cbn -[Z.sub Z.to_nat take].
  rewrite take_ge by (unfold blen in *; lia).
  destruct (stn_ok (b_mem b) 10 data) as [m E]; [lia..|]. change (0 + 10 + 0) with 10. rewrite E. cbn.
  pose proof (stn_length _ _ _ _ E). eexists. split; [done|].
  assert (buf_wf {| b_mem := m; b_start := 10; b_len := blen data; b_maxlen := b_maxlen b;
    b_peer := b_peer b; b_tunnel := b_tunnel b; b_retries := b_retries b |}) as Hwf by (split; cbn; lia).
  split; [exact Hwf|]. split; [|done]. apply (inj Some).
  etransitivity; [symmetry; exact (contents_ldn _ Hwf)|]. by apply ldn_stn_eq in E.
Qed.

(** The fields of a header whose words are in host order. *)
Lemma words_ld16 b ws body v k :
  buf_wf b → contents b = concat (map le16 ws) ++ body → Forall is_u16 ws →
  ws !! k = Some v → buf_ld16 b (2 * Z.of_nat k) = Some v.
Proof.
  intros Hwf Hc Hw Hk. destruct (contents_split b Hwf) as (pre & post & Hm & Hp).
  unfold buf_ld16. rewrite Hm, Hc, <-Hp. apply take_drop_middle in Hk. rewrite <-Hk in Hw |- *.
  rewrite map_app, concat_app. cbn [map concat]. apply Forall_app in Hw as [_ [Hv _]%Forall_cons].
  apply (ld16_at _ (pre ++ concat (map le16 (take k ws))) v
    (concat (map le16 (drop (S k) ws)) ++ body ++ post)); [napp| |done].
  assert (k < length ws)%nat by (apply lookup_lt_Some with v; by rewrite <-Hk, list_lookup_middle
    by (rewrite length_take; apply (f_equal length) in Hk; rewrite length_app, length_take in Hk; cbn in Hk; lia)).
  rewrite blen_app. f_equal. unfold blen.
  assert (∀ l, length (concat (map le16 l)) = (2 * length l)%nat) as ->
    by (intros l; induction l as [|x l IH]; cbn in *; lia).
  rewrite length_take. lia.
Qed.

(** Swapping the words of the header a buffer begins with. *)
Lemma swap_header b ws body :
  buf_wf b → contents b = concat (map be16 ws) ++ body → Forall is_u16 ws →
  ∃ m, swaps (b_mem b) (b_start b) (2 * Z.of_nat (length ws)) = Some m ∧
    buf_wf { b with b_mem := m } ∧ contents { b with b_mem := m } = concat (map le16 ws) ++ body.
Proof.
  intros Hwf Hc Hw. destruct (contents_split b Hwf) as (pre & post & Hm & Hp).
  assert (Hlen : ∀ l, blen (concat (map le16 l)) = blen (concat (map be16 l))).
  { intros l. unfold blen. induction l as [|x l IH]; cbn in *; [done|lia]. }
  pose proof (contents_length b Hwf) as Hl. rewrite Hc in Hl, Hm. destruct Hwf as [H1 H2 H3 H4].
  exists (pre ++ concat (map le16 ws) ++ body ++ post). unfold swaps.
  replace (Z.to_nat _) with (length ws) by (rewrite Z.mul_comm, Z.div_mul by lia; lia).
  rewrite Hm, <-Hp, <-app_assoc, swaps_words by done. split; [done|].
  split; [|by apply (contents_mid pre _ post); cbn; [napp|done|rewrite <-Hl, !blen_app, Hlen]].
  split; cbn; try lia. rewrite <-H1, Hm, !blen_app, Hlen. lia.
Qed.

Lemma fix_len_header b ws body k :
  buf_wf b → contents b = concat (map be16 ws) ++ body → Forall is_u16 ws → ws !! 0%nat = Some k →
  buf_ld16 b 0 = Some (htons k).
Proof.
  intros Hwf Hc Hw Hk. destruct ws as [|v ws]; [done|]. injection Hk as ->.
  apply Forall_cons in Hw as [Hv _]. destruct (contents_split b Hwf) as (pre & post & Hm & Hp).
  unfold buf_ld16. rewrite Z.add_0_r, Hm, Hc, <-Hp. cbn [map concat]. rewrite <-!app_assoc.
  by apply ld16_be.
Qed.

(** [fix_hdr] on a header of which it swaps all the words. *)
Lemma fix_hdr_words b ws body v :
  buf_wf b → contents b = concat (map be16 ws) ++ body → Forall is_u16 ws → ws !! 0%nat = Some v →
  fix_len (htons v) = 2 * Z.of_nat (length ws) →
  ∃ r, fix_hdr b = Some r ∧ buf_wf r ∧ contents r = concat (map le16 ws) ++ body ∧
    b_start r = b_start b ∧ b_len r = b_len b ∧ b_maxlen r = b_maxlen b.
Proof.
  intros Hwf Hc Hw Hv Hl. destruct (swap_header b ws body Hwf Hc Hw) as (m & Hs & Hwf' & Hc').
  unfold fix_hdr. rewrite (fix_len_header b ws body v) by done. cbn -[fix_len]. rewrite Hl, Hs.
  eexists. split; [reflexivity|]. split; [exact Hwf'|]. by split; [exact Hc'|].
Qed.

(** C14: what one daemon sends, the other reads.  A message to which
    [add_control_hdr] has put its header, received into any buffer with room
    for it, has after [fix_hdr] the tunnel and call numbers, length, Ns and Nr
    the sender put there, version and flags that [check_control] accepts, and
    the message behind the header unchanged; the sender has used up one
    sequence number, modulo 2^16. *)
Theorem control_header_roundtrip w tp cp t c b rb :
  w_tunnels w !! tp = Some t → w_calls w !! cp = Some c →
  is_u16 (t_control_seq_num t) → is_u16 (t_control_rec_seq_num t) →
  buf_wf b → 12 <= b_start b → b_len b + 12 < 2 ^ 16 →
  blen (b_mem rb) = b_maxlen rb → 22 + b_len b <= b_maxlen rb →
  ∃ b' w' r, add_control_hdr tp cp b w = Ret b' w' ∧
    w_tunnels w' !! tp = Some (bump_seq t) ∧
    (recv_into rb (contents b') ≫= fix_hdr) = Some r ∧ buf_wf r ∧
    extract r = Some (u16 (t_tid t), u16 (c_cid c)) ∧
    b_len r = b_len b + 12 ∧ buf_ld16 r 2 = Some (b_len r) ∧
    buf_ld16 r 8 = Some (t_control_seq_num t) ∧ buf_ld16 r 10 = Some (t_control_rec_seq_num t) ∧
    (∃ ver, buf_ld16 r 0 = Some ver ∧ bad_version ver = false) ∧
    drop 12 (contents r) = contents b.
Proof.
  intros Ht Hc Hns Hnr Hwf Hs Hlen Hrm Hrl.
  destruct (add_control_hdr_spec w tp cp t c b Ht Hc Hwf Hs) as (m & Ha & Hwf' & Hcont).
  set (b' := prepended b (control_header t c (b_len b + 12)) m) in *.
  assert (Hbl : blen (contents b') = b_len b + 12) by (rewrite contents_length by done; done).
  destruct (recv_into_spec rb (contents b') Hrm) as (r0 & Hr0 & Hwf0 & Hc0 & Hst0 & Hl0 & Hmx0); [lia|].
  pose proof (bw_len b Hwf).
  set (ws := [0xC802; b_len b + 12; u16 (t_tid t); u16 (c_cid c); t_control_seq_num t; t_control_rec_seq_num t]).
  assert (Hws : Forall is_u16 ws).
  { repeat (apply Forall_cons_2; [first [apply u16_range|done|unfold_uint; lia]|]). constructor. }
  destruct (fix_hdr_words r0 ws (contents b) 0xC802) as (r & Hr & Hwfr & Hcr & Hsr & Hlr & _);
    [done| |done|done|done|].
  { rewrite Hc0, Hcont. unfold control_header. rewrite (u16_id (b_len b + 12)) by (unfold_uint; lia). napp. }
  pose proof (λ v k, words_ld16 r ws (contents b) v k Hwfr Hcr Hws) as Hld.
  exists b', (set_t tp (bump_seq t) w), r. split; [done|]. split; [apply set_t_eq|].
  rewrite Hr0. split; [exact Hr|]. split; [done|].
  pose proof (Hld _ 0%nat eq_refl : buf_ld16 r 0 = Some 0xC802) as L0.
  pose proof (Hld _ 2%nat eq_refl : buf_ld16 r 4 = _) as L2.
  pose proof (Hld _ 3%nat eq_refl : buf_ld16 r 6 = _) as L3.
  split; [unfold extract; rewrite L0; cbn; by rewrite L2, L3|].
  split; [lia|]. split; [rewrite Hlr, Hl0, Hbl; exact (Hld _ 1%nat eq_refl)|].
  split; [exact (Hld _ 4%nat eq_refl)|]. split; [exact (Hld _ 5%nat eq_refl)|].
  split; [eexists; by split; [exact L0|]|]. rewrite Hcr. done.
Qed.

(** ** Acknowledgements *)

(** A datagram given to the network, and nothing else. *)
Definition put_out (w : world) (o : output) : world := { w with w_out := w_out w ++ [o] }.
Definition ack (t : tunnel) (c : call) : output :=
  Oudp (t_peer t) (t_my_addr t) (control_header t c 12).

Definition unbump_seq (t : tunnel) : tunnel :=
  { t with t_control_seq_num := u16 (t_control_seq_num t - 1) }.
Lemma unbump_bump t : is_u16 (t_control_seq_num t) → unbump_seq (bump_seq t) = t.
Proof.
  intros Hs. unfold unbump_seq.
  replace (u16 (t_control_seq_num (bump_seq t) - 1)) with (t_control_seq_num t); [by destruct t|].
  change (t_control_seq_num (bump_seq t)) with (u16 (t_control_seq_num t + 1)). uint.
Qed.

(** A ZLB is a header of the current sequence numbers and uses none up. *)
Lemma control_zlb_spec w tp cp t c b :
  w_tunnels w !! tp = Some t → w_calls w !! cp = Some c → is_u16 (t_control_seq_num t) →
  blen (b_mem b) = b_maxlen b → 12 <= b_maxlen b →
  ∃ b', control_zlb b tp cp w = Ret b' (put_out w (ack t c)) ∧
    blen (b_mem b') = b_maxlen b' ∧ b_maxlen b' = b_maxlen b.
Proof.
  intros Ht Hc Hseq Hm Hx. unfold control_zlb. rewrite (bind_eq _ _ _ t w) by (unfold get_t; by rewrite Ht).
  set (z := recycle_outgoing b (t_peer t)).
  assert (buf_wf z) as Hwf by (split; cbn; unfold sizeof_control_hdr; lia).
  destruct (add_control_hdr_spec w tp cp t c z Ht Hc Hwf) as (m & Ha & Hwf' & Hcont); [done|].
  rewrite (bind_eq _ _ _ _ _ Ha).
  set (b' := prepended z _ m) in *.
  rewrite (bind_eq _ _ _ tt w).
  2: { unfold mod_t. rewrite set_t_eq. f_equal. fold (unbump_seq (bump_seq t)). rewrite unbump_bump by done.
       etransitivity; [apply (set_t_twice w)|by apply set_t_id]. }
  rewrite (bind_eq _ _ _ tt (put_out w (ack t c))).
  2: { erewrite udp_xmit_eq by done. rewrite Hcont. unfold put_out, ack. cbn. done. }
  exists b'. split; [done|]. destruct Hwf' as [H1 _ _ _]. split; [done|]. done.
Qed.

(** ** The control channel's sequence numbers *)

(** A tunnel and call after a message with acknowledgement number [nr] was
    taken in. *)
Definition taken (w : world) (tp cp : nat) (t : tunnel) (c : call) (nr : Z) : world :=
  set_c cp { c with c_cnu := -1 }
    (set_t tp { t with t_control_rec_seq_num := u16 (t_control_rec_seq_num t + 1); t_cLr := nr } w).

(** What [malloc] promises. *)
Definition malloc_ok (e : env) : Prop := ∀ k n m, 0 <= n → e_malloc e k n = Some m → blen m = n.

Lemma new_outgoing_spec w tp t m :
  w_tunnels w !! tp = Some t → malloc_ok (w_env w) →
  e_malloc (w_env w) (w_clk w) MAX_RECV_SIZE = Some m →
  ∃ b, Mnew_outgoing tp w = Ret b { w with w_clk := S (w_clk w) } ∧ buf_wf b ∧ contents b = [] ∧
    b_start b = 12 ∧ b_len b = 0 ∧ b_maxlen b = MAX_RECV_SIZE ∧ b_peer b = t_peer t ∧
    b_tunnel b = Some tp ∧ b_retries b = 0.
Proof.
  intros Ht Hok Hm. pose proof (Hok _ MAX_RECV_SIZE _ ltac:(done) Hm) as Hl. unfold Mnew_outgoing.
  rewrite (bind_eq _ _ _ t w) by (unfold get_t; by rewrite Ht).
  unfold Mmalloc. rewrite (bind_eq _ _ _ (Some m) { w with w_clk := S (w_clk w) }) by (cbv [ask]; by rewrite Hm).
  eexists. split; [reflexivity|]. split; [by split|]. done.
Qed.

Lemma check_control_taken w buf tp cp t c nr ver :
  w_tunnels w !! tp = Some t → w_calls w !! cp = Some c → 12 <= b_len buf →
  buf_ld16 buf 2 = Some (b_len buf) → buf_ld16 buf 8 = Some (t_control_rec_seq_num t) →
  buf_ld16 buf 10 = Some nr → buf_ld16 buf 0 = Some ver →
  check_control buf tp cp w
  = Ret (if truthy (t_sanity t) && bad_version ver then - EINVAL else 0) (taken w tp cp t c nr).
Proof.
  intros Ht Hc Hl H2 H8 H10 H0. apply wp_run. unfold check_control, sizeof_control_hdr.
  rewrite (proj2 (Z.ltb_ge _ _)) by lia. rewrite H2. wsteps. rewrite Z.eqb_refl. cbn [negb].
  rewrite H8. wsteps. rewrite Z.eqb_refl. cbn [negb]. rewrite H10. wsteps. rewrite H0. wsteps.
  split; [done|]. rewrite !set_t_set_c, set_t_twice. done.
Qed.

Lemma check_control_refused w buf tp cp t c ns m :
  w_tunnels w !! tp = Some t → w_calls w !! cp = Some c → is_u16 (t_control_seq_num t) →
  malloc_ok (w_env w) → e_malloc (w_env w) (w_clk w) MAX_RECV_SIZE = Some m →
  buf_ld16 buf 8 = Some ns → 12 <= b_len buf → buf_ld16 buf 2 = Some (b_len buf) → ns ≠ t_control_rec_seq_num t →
  check_control buf tp cp w = Ret (- EINVAL)
    (if seen_before ns (t_control_rec_seq_num t)
     then if b_len buf =? 12 then w else put_out { w with w_clk := S (w_clk w) } (ack t c)
     else if (t_control_rec_seq_num t =? 0) && (t_tid t =? -1)
     then set_c cp { c with c_needclose := 0; c_closing := -1 } w else w).
Proof.
  intros Ht Hc Hseq Hok Hm H8 Hl H2 Hne. apply wp_run. unfold check_control, sizeof_control_hdr.
  rewrite (proj2 (Z.ltb_ge _ _)) by lia. rewrite H2. wsteps. rewrite Z.eqb_refl. cbn [negb].
  rewrite H8. wsteps. rewrite (proj2 (Z.eqb_neq _ _)) by done. cbn [negb]. wstep.
  destruct (seen_before _ _); [|case_match; by wsteps].
  destruct (Z.eqb_spec (b_len buf) 12); cbn [negb]; [by wsteps|].
  destruct (new_outgoing_spec w tp t m Ht Hok Hm) as (b & Hb & [Hwf _ _ _] & _ & _ & _ & Hmx & _).
  wstep. eapply wp_eq; [exact Hb|].
  destruct (control_zlb_spec { w with w_clk := S (w_clk w) } tp cp t c b) as (b' & Hz & _);
    [done..|by rewrite Hmx|].
  wstep. eapply wp_eq; [exact Hz|]. by wsteps.
Qed.
Lemma seen_before_spec ns rec :
  is_u16 ns → is_u16 rec → seen_before ns rec = (ns <? rec) && (rec - ns <? 32768).
Proof. unfold_uint. intros. unfold seen_before. lia. Qed.
(** C2: the control channel accepts messages in order, each once.
    [check_control] on a packet whose length field is right:
    - Ns is the number expected: the number expected next goes up by one
      modulo 2^16, the peer's Nr is recorded, an acknowledgement is owed; the
      message is good unless its version or flags are wrong (and checked);
    - Ns is below the number expected, by less than 32768: the message is
      refused, and unless it is itself an acknowledgement (a header and nothing
      else) one acknowledgement with the current numbers is sent at once;
      nothing else changes (the comparison is of plain integers: what it does
      after the numbers have wrapped is [stale_after_wrap_unacked]);
    - any other Ns is refused, and changes nothing, except that the call of a
      tunnel that was made for this very message (nothing received on it, no
      number of the peer's) is marked as closing;
    and a packet that is too short or has the wrong length is refused and
    changes nothing. *)
Theorem check_control_spec w buf tp cp t c ns nr ver m :
  w_tunnels w !! tp = Some t → w_calls w !! cp = Some c → is_u16 (t_control_seq_num t) → is_u16 (t_control_rec_seq_num t) →
  malloc_ok (w_env w) → e_malloc (w_env w) (w_clk w) MAX_RECV_SIZE = Some m →
  buf_ld16 buf 8 = Some ns → is_u16 ns → buf_ld16 buf 10 = Some nr → buf_ld16 buf 0 = Some ver →
  let expected := t_control_rec_seq_num t in
  let old := ns < expected ∧ expected - ns < 32768 in
  (b_len buf < 12 → check_control buf tp cp w = Ret (- EINVAL) w) ∧
  (∀ l, buf_ld16 buf 2 = Some l → l ≠ b_len buf → check_control buf tp cp w = Ret (- EINVAL) w) ∧
  (12 <= b_len buf → buf_ld16 buf 2 = Some (b_len buf) →
    (ns = expected → check_control buf tp cp w =
       Ret (if truthy (t_sanity t) && bad_version ver then - EINVAL else 0) (taken w tp cp t c nr)) ∧
    (old → b_len buf ≠ 12 →
       check_control buf tp cp w = Ret (- EINVAL) (put_out { w with w_clk := S (w_clk w) } (ack t c))) ∧
    (old → b_len buf = 12 → check_control buf tp cp w = Ret (- EINVAL) w) ∧
    (¬ old → ns ≠ expected → expected ≠ 0 ∨ t_tid t ≠ -1 → check_control buf tp cp w = Ret (- EINVAL) w) ∧
    (¬ old → ns ≠ expected → expected = 0 → t_tid t = -1 →
       check_control buf tp cp w = Ret (- EINVAL) (set_c cp { c with c_needclose := 0; c_closing := -1 } w))).
Proof.
  intros Ht Hc Hseq Hrec Hok Hm H8 Hns H10 H0 expected old. split_and!.
  - intros Hl. unfold check_control, sizeof_control_hdr. by rewrite (proj2 (Z.ltb_lt _ _)) by lia.
  - intros l H2 Hne. unfold check_control. case_match; [done|]. rewrite H2.
    unfold mbind, M_bind, need. by rewrite (proj2 (Z.eqb_neq _ _)) by congruence.
  - intros Hl H2. pose proof (check_control_refused w buf tp cp t c ns m Ht Hc Hseq Hok Hm H8 Hl H2) as Href.
    rewrite (seen_before_spec ns _ Hns Hrec) in Href. fold expected in Href.
    assert (old → ns ≠ expected ∧ (ns <? expected) && (expected - ns <? 32768) = true) as Hold by (unfold old; lia).
    assert (¬ old → (ns <? expected) && (expected - ns <? 32768) = false) as Hnew by (unfold old; lia).
    split_and!.
    + intros ->. by apply check_control_taken.
    + intros [Hne E]%Hold Hz. rewrite Href, E, (proj2 (Z.eqb_neq _ _) Hz) by done. done.
    + intros [Hne E]%Hold Hz. rewrite Href, E, Hz by done. done.
    + intros E%Hnew Hne Hx. rewrite Href, E by done. by replace ((expected =? 0) && (t_tid t =? -1)) with false by lia.
    + intros E%Hnew Hne Hx Hy. rewrite Href, E, Hx, Hy by done. done.
Qed.

(** ** Expanding payload headers *)

(** A region cut into 16-bit words. *)
Definition words2 (cs : list (list Z)) : Prop := Forall (λ l, length l = 2%nat) cs.

Lemma words2_length cs : words2 cs → blen (concat cs) = 2 * Z.of_nat (length cs).
Proof.
  induction 1 as [|x cs Hx H IH]; [done|]. cbn [concat length]. rewrite blen_app, IH. unfold blen. lia.
Qed.
Lemma chunk_split (cs : list (list Z)) k x :
  cs !! k = Some x → concat cs = concat (take k cs) ++ x ++ concat (drop (S k) cs).
Proof. intros Hk%take_drop_middle. rewrite <-Hk at 1. by rewrite concat_app. Qed.
Lemma chunk_take_length cs k : words2 cs → (k < length cs)%nat → blen (concat (take k cs)) = 2 * Z.of_nat k.
Proof. intros H Hk. rewrite words2_length by (by apply Forall_take). rewrite length_take. lia. Qed.

Lemma chunk_ld pre cs post k v p :
  words2 cs → cs !! k = Some (le16 v) → is_u16 v → p = blen pre + 2 * Z.of_nat k →
  ld16 (pre ++ concat cs ++ post) p = Some v.
Proof.
  intros Hw Hk Hv ->. pose proof (lookup_lt_Some _ _ _ Hk). rewrite (chunk_split cs k (le16 v) Hk).
  apply (ld16_at _ (pre ++ concat (take k cs)) v (concat (drop (S k) cs) ++ post)); [napp| |done].
  by rewrite blen_app, chunk_take_length.
Qed.
Lemma chunk_st pre cs post k v p :
  words2 cs → (k < length cs)%nat → p = blen pre + 2 * Z.of_nat k →
  st16 (pre ++ concat cs ++ post) p v = Some (pre ++ concat (<[k := le16 v]> cs) ++ post).
Proof.
  intros Hw Hk ->. destruct (lookup_lt_is_Some_2 cs k Hk) as [x Hx].
  assert (length x = 2%nat) by (by eapply Forall_lookup_1 in Hw).
  rewrite (chunk_split cs k x Hx), (chunk_split (<[k := le16 v]> cs) k (le16 v)) by (by rewrite list_lookup_insert_eq).
  rewrite take_insert_ge, drop_insert_lt by lia.
  rewrite (st16_at _ (pre ++ concat (take k cs)) x (concat (drop (S k) cs) ++ post)); [|napp| |done].
  - f_equal. napp.
  - by rewrite blen_app, chunk_take_length.
Qed.

(** The words of a payload header as it is received, and with every field. *)
Record payload_fields := PayloadFields {
  pf_ver : Z; pf_length : Z; pf_tid : Z; pf_cid : Z; pf_ns : Z; pf_nr : Z; pf_offset : Z }.
Definition short_hdr (f : payload_fields) : list Z :=
  [pf_ver f] ++ (if CLBIT (pf_ver f) then [pf_length f] else []) ++ [pf_tid f; pf_cid f] ++
  (if CFBIT (pf_ver f) then [pf_ns f; pf_nr f] else []) ++ (if PSBIT (pf_ver f) then [pf_offset f] else []).
Definition full_hdr (f : payload_fields) : list Z :=
  [pf_ver f; pf_length f; pf_tid f; pf_cid f; pf_ns f; pf_nr f; pf_offset f].

(** What the fields that are not in the packet are taken to be. *)
Definition fill (f : payload_fields) (len : Z) (c : call) : payload_fields :=
  PayloadFields (pf_ver f) (if CLBIT (pf_ver f) then pf_length f else u16 (len + missing (pf_ver f)))
    (pf_tid f) (pf_cid f)
    (if CFBIT (pf_ver f) then pf_ns f else c_data_rec_seq_num c)
    (if CFBIT (pf_ver f) then pf_nr f else c_data_seq_num c)
    (if PSBIT (pf_ver f) then pf_offset f else 0).
Definition fields_ok (f : payload_fields) : Prop := Forall is_u16 (full_hdr f).

(** One load or store, of the word at index [k]. *)
Ltac chunk_at k :=
  match goal with
  | |- context [ld16 (?pre ++ concat ?cs ++ ?post) ?p] =>
      let H := fresh in
      assert (H : p = blen pre + 2 * Z.of_nat k) by lia;
      erewrite (chunk_ld pre cs post k _ p) by first [exact H | reflexivity | eassumption | repeat constructor; done];
      clear H
  | |- context [st16 (?pre ++ concat ?cs ++ ?post) ?p ?v] =>
      let H := fresh in
      assert (H : p = blen pre + 2 * Z.of_nat k) by lia;
      rewrite (chunk_st pre cs post k v p) by first [exact H | cbn; lia | repeat constructor; done];
      clear H
  end; cbn [mbind option_bind insert list_insert].
Ltac chunk :=
  first [chunk_at 0%nat | chunk_at 1%nat | chunk_at 2%nat | chunk_at 3%nat | chunk_at 4%nat | chunk_at 5%nat
        | chunk_at 6%nat | chunk_at 7%nat | chunk_at 8%nat | chunk_at 9%nat].

Lemma copy_hdr_spec pre gap f payload len c :
  words2 gap → 2 * Z.of_nat (length gap) = missing (pf_ver f) → fields_ok f →
  copy_hdr (pre ++ concat (gap ++ map le16 (short_hdr f)) ++ payload) (blen pre)
    (blen pre + missing (pf_ver f)) len (missing (pf_ver f)) c
  = Some (pre ++ concat (map le16 (full_hdr (fill f len c))) ++ payload).
Proof.
  intros Hg Hm Hf. unfold fields_ok, full_hdr in Hf. rewrite !Forall_cons in Hf.
  destruct Hf as (F0 & F1 & F2 & F3 & F4 & F5 & F6 & _).
  unfold copy_hdr, short_hdr, fill, missing, words2 in *.
  destruct (CLBIT (pf_ver f)) eqn:EL, (CFBIT (pf_ver f)) eqn:EF, (PSBIT (pf_ver f)) eqn:ES.
  all: cbn [Z.add Pos.add Pos.succ Pos.add_carry] in *.
  all: destruct gap as [|g1 [|g2 [|g3 [|g4 [|]]]]]; cbn [length] in Hm; try lia.
  all: repeat match goal with H : Forall _ (_ :: _) |- _ => apply Forall_cons in H as [? H] end.
  all: cbn [app map].
  all: repeat first [progress cbn [mbind option_bind] | chunk | rewrite EL | rewrite EF | rewrite ES].
  all: cbn [map full_hdr pf_ver pf_length pf_tid pf_cid pf_ns pf_nr pf_offset]; napp.
Qed.

Lemma chunks_exist n : ∀ l : list Z, length l = (2 * n)%nat → ∃ cs, words2 cs ∧ length cs = n ∧ l = concat cs.
Proof.
  induction n as [|n IH]; intros l Hl.
  - exists []. split; [constructor|]. by destruct l.
  - destruct l as [|x [|y l]]; cbn in Hl; try lia. destruct (IH l) as (cs & Hw & Hn & ->); [lia|].
    exists ([x; y] :: cs). split; [by constructor|]. split; [cbn; lia|done].
Qed.

Lemma missing_even v : ∃ n, missing v = 2 * Z.of_nat n.
Proof.
  unfold missing. exists ((if CLBIT v then 0 else 1) + (if CFBIT v then 0 else 2) + (if PSBIT v then 0 else 1))%nat.
  destruct (CLBIT v), (CFBIT v), (PSBIT v); done.
Qed.
Lemma missing_none f len c : missing (pf_ver f) = 0 → short_hdr f = full_hdr (fill f len c).
Proof.
  unfold missing, short_hdr, fill, full_hdr. cbn.
  destruct (CLBIT (pf_ver f)), (CFBIT (pf_ver f)), (PSBIT (pf_ver f)); cbn; try lia. done.
Qed.
Lemma fill_ok f len c :
  fields_ok f → is_u16 (c_data_seq_num c) → is_u16 (c_data_rec_seq_num c) → fields_ok (fill f len c).
Proof.
  unfold fields_ok, full_hdr. rewrite !Forall_cons. intros (?&?&?&?&?&?&?&?) Hs Hr.
  cbn. split_and!; try done; case_match; try done; apply u16_range.
Qed.

Lemma full_hdr_length f len c :
  blen (concat (map le16 (full_hdr (fill f len c)))) = blen (concat (map le16 (short_hdr f))) + missing (pf_ver f).
Proof.
  assert (∀ l, blen (concat (map le16 l)) = 2 * Z.of_nat (length l)) as Hle
    by (intros l; rewrite words2_length by (by apply Forall_map, Forall_true); by rewrite length_map).
  rewrite !Hle. unfold short_hdr, missing. cbn [length full_hdr].
  destruct (CLBIT (pf_ver f)), (CFBIT (pf_ver f)), (PSBIT (pf_ver f)); cbn; lia.
Qed.

(** The memory after the header was filled in. *)
Lemma expand_mem b c f payload :
  buf_wf b → contents b = concat (map le16 (short_hdr f)) ++ payload → fields_ok f →
  missing (pf_ver f) <= b_start b →
  ∃ m, (if truthy (missing (pf_ver f))
        then copy_hdr (b_mem b) (b_start b - missing (pf_ver f)) (b_start b) (b_len b) (missing (pf_ver f)) c
        else Some (b_mem b)) = Some m ∧
    let b' := { b with b_mem := m; b_start := b_start b - missing (pf_ver f);
                       b_len := b_len b + missing (pf_ver f) } in
    buf_wf b' ∧ contents b' = concat (map le16 (full_hdr (fill f (b_len b) c))) ++ payload.
Proof.
  intros Hwf Hc Hf Hs. destruct (contents_split b Hwf) as (pre0 & post & Hm & Hp).
  pose proof (contents_length b Hwf) as Hl. destruct Hwf as [H1 H2 H3 H4].
  destruct (missing_even (pf_ver f)) as [n Hn].
  destruct (chunks_exist n (drop (Z.to_nat (b_start b - missing (pf_ver f))) pre0)) as (gap & Hg & Hgl & Hge).
  { rewrite length_drop. unfold blen in Hp. lia. }
  set (pre := take (Z.to_nat (b_start b - missing (pf_ver f))) pre0).
  assert (Hpre : blen pre = b_start b - missing (pf_ver f)) by (unfold pre, blen in *; rewrite length_take; lia).
  assert (Hmem : b_mem b = pre ++ concat (gap ++ map le16 (short_hdr f)) ++ payload ++ post).
  { rewrite Hm, Hc, concat_app, <-Hge. unfold pre. rewrite <-!app_assoc, (app_assoc (take _ _)), take_drop. done. }
  set (m := pre ++ concat (map le16 (full_hdr (fill f (b_len b) c))) ++ payload ++ post).
  exists m. assert (Hlen : blen m = blen (b_mem b)).
  { rewrite Hmem. unfold m. rewrite !blen_app, concat_app, blen_app.
    rewrite (words2_length gap), Hgl, <-Hn, full_hdr_length by done. lia. }
  split.
  - destruct (truthy (missing (pf_ver f))) eqn:Et.
    + rewrite Hmem, <-Hpre. replace (b_start b) with (blen pre + missing (pf_ver f)) by lia.
      apply copy_hdr_spec; [done|lia|done].
    + unfold truthy in Et. assert (missing (pf_ver f) = 0) as H0 by lia. rewrite Hmem. unfold m.
      rewrite (missing_none f (b_len b) c H0). destruct gap; [done|cbn in Hgl; lia].
  - cbn zeta. split; [split; cbn; lia|]. apply (contents_mid pre _ post); [cbn; unfold m; napp|cbn; lia|].
    match goal with |- ?x = _ => change x with (b_len b + missing (pf_ver f)) end.
    rewrite blen_app, full_hdr_length, <-Hl, Hc, blen_app. lia.
Qed.

(** [expand_payload] on a packet with any of the optional fields left
    out.  The header is rewritten in place so that the buffer holds, in front
    of the same payload, a header with all seven fields: those of the packet,
    and for the missing ones the length counted, offset 0 and the call's
    sequence numbers.  No access leaves the buffer, and no field is
    overwritten before it is read although old and new header overlap.  Ns is
    then held against the call's sequence numbers: the packet is dropped or
    the call goes on with the new numbers.  Without enough space in front the
    packet is dropped and nothing changes. *)
Theorem expand_payload_spec b c f payload :
  buf_wf b → contents b = concat (map le16 (short_hdr f)) ++ payload → fields_ok f →
  is_u16 (c_data_seq_num c) → is_u16 (c_data_rec_seq_num c) →
  let g := fill f (b_len b) c in
  (b_start b < missing (pf_ver f) → expand_payload b c = Some (- EINVAL, b, c)) ∧
  (missing (pf_ver f) <= b_start b → ∃ b', buf_wf b' ∧
    contents b' = concat (map le16 (full_hdr g)) ++ payload ∧
    b_start b' = b_start b - missing (pf_ver f) ∧
    expand_payload b c =
      match sequence (pf_ns g) c with
      | None => Some (- EINVAL, { b with b_mem := b_mem b' }, c)
      | Some c' => Some (0, b', { c' with c_pLr := pf_nr g })
      end).
Proof.
  intros Hwf Hc Hf Hs Hr g.
  assert (Hv : buf_ld16 b 0 = Some (pf_ver f)).
  { apply (words_ld16 b (short_hdr f) payload _ 0); [done..| |done]. revert Hf.
    unfold fields_ok, full_hdr, short_hdr. rewrite !Forall_cons. intros (?&?&?&?&?&?&?&?).
    destruct (CLBIT (pf_ver f)), (CFBIT (pf_ver f)), (PSBIT (pf_ver f)); cbn [app];
      repeat (apply Forall_cons_2; [done|]); constructor. }
  split; [intros Hlt|intros Hle].
  - unfold expand_payload. rewrite Hv. cbn -[missing].
    assert (0 < b_start b + 1) by (destruct Hwf; lia).
    assert (truthy (missing (pf_ver f)) = true) as -> by (unfold truthy; destruct Hwf; lia).
    by rewrite (proj2 (Z.ltb_lt _ _)) by lia.
  - destruct (expand_mem b c f payload Hwf Hc Hf Hle) as (m & Em & Hwf' & Hc'). fold g in Hc'.
    eexists. split; [exact Hwf'|]. split; [exact Hc'|]. split; [reflexivity|].
    unfold expand_payload. rewrite Hv. cbn [mbind option_bind]. rewrite (proj2 (Z.ltb_ge _ 0)) by lia.
    rewrite andb_false_r, Em. cbn [mbind option_bind].
    pose proof (λ v k, words_ld16 _ _ _ v k Hwf' Hc' (fill_ok f (b_len b) c Hf Hs Hr)) as Hld.
    rewrite (Hld _ 4%nat eq_refl : ld16 m (b_start b - missing (pf_ver f) + 8) = _). cbn [mbind option_bind].
    fold g. destruct (sequence (pf_ns g) c); [|done].
    by rewrite (Hld _ 5%nat eq_refl : ld16 m (b_start b - missing (pf_ver f) + 10) = _).
Qed.

(** ** Sending payload *)

(** The L and F bits a call can be set to. *)
Definition bits_ok (c : call) : Prop :=
  (c_lbit c = 0 ∨ c_lbit c = LBIT) ∧ (c_fbit c = 0 ∨ c_fbit c = FBIT) ∧
  (c_ourfbit c = 0 ∨ c_ourfbit c = FBIT).

Definition payload_ver (c : call) : Z :=
  u16 (Z.lor (Z.lor (Z.lor (c_lbit c) (c_fbit c)) (c_ourfbit c)) VER_L2TP).

Lemma payload_ver_bits c :
  bits_ok c →
  CLBIT (payload_ver c) = truthy (c_lbit c) ∧
  CFBIT (payload_ver c) = truthy (c_fbit c) || truthy (c_ourfbit c) ∧
  PSBIT (payload_ver c) = false ∧ CTBIT (payload_ver c) = false ∧
  CTBIT (htons (payload_ver c)) = false ∧ CVER (payload_ver c) = VER_L2TP.
Proof.
  intros ([Hl|Hl] & [Hf|Hf] & [Ho|Ho]); unfold payload_ver; rewrite Hl, Hf, Ho; vm_compute; done.
Qed.

(** The header of the next packet of a call. *)
Definition next_fields (t : tunnel) (c : call) (len : Z) : payload_fields :=
  PayloadFields (payload_ver c) (u16 len) (u16 (t_tid t)) (u16 (c_cid c))
    (c_data_seq_num c) (c_data_rec_seq_num c) 0.
(** Its size. *)
Definition hdr_size (c : call) : Z := 14 - missing (payload_ver c).

Definition bump_data (c : call) : call := { c with c_data_seq_num := u16 (c_data_seq_num c + 1) }.

Lemma short_hdr_size t c len : bits_ok c → blen (concat (map be16 (short_hdr (next_fields t c len)))) = hdr_size c.
Proof.
  intros (HL & HF & HS & _)%payload_ver_bits. unfold hdr_size, missing, short_hdr, next_fields. cbn [pf_ver].
  rewrite HL, HF, HS. destruct (truthy (c_lbit c)), (truthy (c_fbit c) || truthy (c_ourfbit c)); done.
Qed.

(** Words stored one after the other, in network order. *)
Fixpoint st_words (b : buffer) (o : Z) (ws : list Z) : option buffer :=
  match ws with
  | [] => Some b
  | v :: ws => b1 ← buf_st16 b o (htons v); st_words b1 (o + 2) ws
  end.
Lemma st_words_eq ws : ∀ b o v, st_words b o (v :: ws) = buf_stn b o (concat (map be16 (v :: ws))).
Proof.
  induction ws as [|v' ws IH]; intros b o v.
  - cbn [st_words map concat]. rewrite buf_st16_htons, app_nil_r. by destruct (buf_stn _ _ _).
  - cbn [st_words map concat] in *. rewrite <-(store_next' b o (o + 2)) by done. rewrite buf_st16_htons.
    destruct (buf_stn b o (be16 v)) as [b1|]; [|done]. cbn [mbind option_bind]. by rewrite <-IH.
Qed.

Lemma buf_st16_len b o v b' : buf_st16 b o v = Some b' → b_len b' = b_len b.
Proof. unfold buf_st16. destruct (st16 _ _ _); [|done]. by intros [= <-]. Qed.

Lemma payload_stores b t c :
  bits_ok c →
  (buf ← buf_st16 b 0 (htons (payload_ver c));
   buf ← (if truthy (c_lbit c) then buf_st16 buf 2 (htons (u16 (b_len buf))) else Some buf);
   buf ← buf_st16 buf ((if truthy (c_lbit c) then 0 else -2) + 4) (htons (u16 (t_tid t)));
   buf ← buf_st16 buf ((if truthy (c_lbit c) then 0 else -2) + 6) (htons (u16 (c_cid c)));
   if truthy (c_fbit c) || truthy (c_ourfbit c) then
     buf ← buf_st16 buf ((if truthy (c_lbit c) then 0 else -2) + 8) (htons (c_data_seq_num c));
     buf_st16 buf ((if truthy (c_lbit c) then 0 else -2) + 10) (htons (c_data_rec_seq_num c))
   else Some buf)
  = buf_stn b 0 (concat (map be16 (short_hdr (next_fields t c (b_len b))))).
Proof.
  intros (HL & HF & HS & _)%payload_ver_bits. unfold short_hdr, next_fields.
  cbn [pf_ver pf_length pf_tid pf_cid pf_ns pf_nr pf_offset]. rewrite HL, HF, HS. cbn [app].
  rewrite <-st_words_eq. cbn [st_words]. destruct (buf_st16 b 0 _) as [b1|] eqn:E1; [|done].
  cbn [mbind option_bind]. rewrite (buf_st16_len _ _ _ _ E1).
  destruct (truthy (c_lbit c)), (truthy (c_fbit c) || truthy (c_ourfbit c)); cbn [app st_words].
  all: cbn [mbind option_bind]; repeat (repeat match goal with |- context [buf_st16 _ (?a + ?b) _] =>
      let o := eval vm_compute in (a + b) in change (a + b) with o end;
    match goal with |- context [buf_st16 ?x ?o ?v] =>
      destruct (buf_st16 x o v) as [?b|]; cbn [mbind option_bind] end; try done).
Qed.
Lemma add_payload_hdr_spec w tp cp t c b :
  w_tunnels w !! tp = Some t → w_calls w !! cp = Some c → bits_ok c → buf_wf b → hdr_size c <= b_start b →
  let h := concat (map be16 (short_hdr (next_fields t c (b_len b + hdr_size c)))) in
  ∃ m, add_payload_hdr tp cp b w = Ret (prepended b h m) (set_c cp (bump_data c) w) ∧
    buf_wf (prepended b h m) ∧ contents (prepended b h m) = h ++ contents b.
Proof.
  intros Ht Hc Hb Hwf Hs h. pose proof (short_hdr_size t c (b_len b + hdr_size c) Hb) as Hh. fold h in Hh.
  destruct (prepend_spec b h Hwf) as (m & Em & Hwf' & Hcont); [lia|]. exists m. split; [|done].
  unfold add_payload_hdr. rewrite (bind_eq _ _ _ t w) by (unfold get_t; by rewrite Ht).
  rewrite (bind_eq _ _ _ c w) by (unfold get_c; by rewrite Hc). cbn zeta.
  assert (sizeof_payload_hdr - 2 - (if truthy (c_fbit c) || truthy (c_ourfbit c) then 0 else 4) -
          (if truthy (c_lbit c) then 0 else 2) = hdr_size c) as ->.
  { destruct (payload_ver_bits c Hb) as (HL & HF & HS & _). unfold hdr_size, missing. rewrite HL, HF, HS.
    unfold sizeof_payload_hdr. destruct (truthy (c_lbit c)), (truthy (c_fbit c) || truthy (c_ourfbit c)); lia. }
  rewrite (bind_eq _ _ _ (prepended b h m) w).
  2: { match goal with |- need ?o w = _ => assert (o = Some (prepended b h m)) as ->; [|done] end.
       etransitivity; [apply payload_stores; done|]. unfold buf_stn, prepended. rewrite Hh in Em |- *.
       rewrite Z.add_0_r.
       match goal with |- (?x ≫= _) = _ => change x with (stn (b_mem b) (b_start b - hdr_size c) h) end.
       by rewrite Em. }
  unfold mod_c, mbind, M_bind. rewrite Hc. done.
Qed.

Lemma next_fields_ok t c len :
  is_u16 (c_data_seq_num c) → is_u16 (c_data_rec_seq_num c) → fields_ok (next_fields t c len).
Proof.
  intros. unfold fields_ok, full_hdr, next_fields, payload_ver. cbn [pf_ver pf_length pf_tid pf_cid pf_ns pf_nr pf_offset].
  repeat (apply Forall_cons_2; [first [apply u16_range | done]|]). constructor.
Qed.
Lemma short_hdr_ok f : fields_ok f → Forall is_u16 (short_hdr f).
Proof.
  unfold fields_ok, full_hdr, short_hdr. rewrite !Forall_cons. intros (?&?&?&?&?&?&?&?).
  destruct (CLBIT (pf_ver f)), (CFBIT (pf_ver f)), (PSBIT (pf_ver f)); cbn [app];
    repeat (apply Forall_cons_2; [done|]); constructor.
Qed.

(** [fix_hdr] turns exactly the words of a payload header. *)
Lemma fix_len_payload t c len :
  bits_ok c → fix_len (htons (payload_ver c)) = 2 * Z.of_nat (length (short_hdr (next_fields t c len))).
Proof.
  intros Hb. destruct (payload_ver_bits c Hb) as (HL & HF & HS & _ & HT & _).
  unfold fix_len, short_hdr, next_fields. cbn [pf_ver]. rewrite HT.
  change (ntohs (htons (payload_ver c))) with (bswap16 (bswap16 (payload_ver c))).
  rewrite bswap16_involutive by apply u16_range. rewrite HL, HF, HS.
  destruct (truthy (c_lbit c)), (truthy (c_fbit c) || truthy (c_ourfbit c)); done.
Qed.

(** A header in host order passes [check_payload] and names its call. *)
Lemma payload_hdr_accepted r t c rw rtp rt rcp payload :
  bits_ok c → is_u16 (c_data_seq_num c) → is_u16 (c_data_rec_seq_num c) →
  w_tunnels rw !! rtp = Some rt → buf_wf r → b_len r = blen payload + hdr_size c → b_len r < 2 ^ 16 →
  contents r = concat (map le16 (short_hdr (next_fields t c (b_len r)))) ++ payload →
  extract r = Some (u16 (t_tid t), u16 (c_cid c)) ∧ check_payload r rtp (Some rcp) rw = Ret 0 rw.
Proof.
  intros Hb Hs Hr Ht Hwf Hl Hlt Hc. pose proof (blen_nonneg payload).
  destruct (payload_ver_bits c Hb) as (HL & HF & HS & HT & _ & HV).
  set (f := next_fields t c (b_len r)) in *.
  pose proof (λ v k, words_ld16 r _ _ v k Hwf Hc (short_hdr_ok f (next_fields_ok t c _ Hs Hr))) as Hld.
  pose proof (Hld (payload_ver c) 0%nat eq_refl : buf_ld16 r 0 = _) as L0.
  unfold hdr_size, missing in Hl. rewrite HL, HF, HS in Hl.
  unfold short_hdr in Hld. change (pf_ver f) with (payload_ver c) in Hld. rewrite HL, HF, HS in Hld.
  unfold extract, check_payload, MIN_PAYLOAD_HDR_LEN. rewrite L0. cbn [mbind option_bind]. rewrite HL.
  rewrite (proj2 (Z.ltb_ge (b_len r) 6))
    by (destruct (truthy (c_lbit c)), (truthy (c_fbit c) || truthy (c_ourfbit c)); lia).
  rewrite (bind_eq _ _ _ rt rw) by (unfold get_t; by rewrite Ht).
  destruct (truthy (c_lbit c)) eqn:EL; cbn [app] in Hld.
  - pose proof (Hld _ 1%nat eq_refl : buf_ld16 r 2 = _) as L1.
    pose proof (Hld _ 2%nat eq_refl : buf_ld16 r 4 = _) as L2.
    pose proof (Hld _ 3%nat eq_refl : buf_ld16 r 6 = _) as L3.
    rewrite L2, L3. split; [done|]. destruct (truthy (t_sanity rt)); [|done]. rewrite L1.
    unfold mbind, M_bind, need. rewrite HL, HT, HV. change (pf_length f) with (u16 (b_len r)).
    rewrite (u16_id (b_len r)) by (unfold_uint; destruct Hwf; lia).
    cbn [negb]. rewrite !andb_false_r, !Z.eqb_refl. done.
  - pose proof (Hld _ 1%nat eq_refl : buf_ld16 r 2 = _) as L1.
    pose proof (Hld _ 2%nat eq_refl : buf_ld16 r 4 = _) as L2.
    rewrite L1, L2. split; [done|]. destruct (truthy (t_sanity rt)); [|done].
    unfold mbind, M_bind, need. rewrite HL, HT, HV, HF, HS. cbn [negb]. rewrite !andb_false_r, andb_true_r.
    rewrite (proj2 (Z.ltb_ge _ _)) by (destruct (truthy (c_fbit c) || truthy (c_ourfbit c)); lia). done.
Qed.

(** The state of the receiver's call after a packet numbered [ns]; the code
    compares it with the number the call sends next. *)
Definition data_taken (ns nr : Z) (c : call) : call :=
  { (if ns =? c_data_seq_num c then { c with c_data_rec_seq_num := u16 (c_data_rec_seq_num c + 1); c_pnu := -1 }
     else { c with c_data_rec_seq_num := ns }) with c_pLr := nr }.
Lemma sequence_next ns nr c :
  is_u16 ns → is_u16 (c_data_rec_seq_num c) →
  c_data_rec_seq_num c <= ns <= c_data_rec_seq_num c + PAYLOAD_FUDGE →
  ∃ c', sequence ns c = Some c' ∧ { c' with c_pLr := nr } = data_taken ns nr c.
Proof.
  intros Hns Hrec Hw. unfold sequence, data_taken. rewrite seen_before_spec by done.
  destruct (ns =? c_data_seq_num c); cbn [negb]; [by eexists|].
  rewrite (proj2 (Z.ltb_ge _ _)), (proj2 (Z.leb_le _ _)) by lia. by eexists.
Qed.

(** C8: a payload packet travels from one daemon to the other unchanged.
    With any choice of the L and F bits, the packet [add_payload_hdr] builds
    around a PPP frame is, after [fix_hdr], addressed to the peer's tunnel and
    call numbers and accepted by [check_payload]; when it has no sequence
    numbers, or its number is the one the receiver has reached or one of the
    PAYLOAD_FUDGE numbers after it, [expand_payload] takes it: the frame is
    intact behind a full header, and the receiver's call has recorded the
    packet's number (or, when that equals the number it sends next itself,
    counted one more packet). *)
Theorem payload_roundtrip w tp cp t c b rb rw rtp rt rcp rc :
  w_tunnels w !! tp = Some t → w_calls w !! cp = Some c → bits_ok c →
  is_u16 (c_data_seq_num c) → is_u16 (c_data_rec_seq_num c) →
  buf_wf b → 14 <= b_start b → b_len b + 12 < 2 ^ 16 →
  blen (b_mem rb) = b_maxlen rb → 22 + b_len b <= b_maxlen rb →
  w_tunnels rw !! rtp = Some rt → is_u16 (c_data_seq_num rc) → is_u16 (c_data_rec_seq_num rc) →
  let seq := truthy (c_fbit c) || truthy (c_ourfbit c) in
  (seq = true → c_data_rec_seq_num rc <= c_data_seq_num c <= c_data_rec_seq_num rc + PAYLOAD_FUDGE) →
  ∃ b' r r', add_payload_hdr tp cp b w = Ret b' (set_c cp (bump_data c) w) ∧
    (recv_into rb (contents b') ≫= fix_hdr) = Some r ∧
    extract r = Some (u16 (t_tid t), u16 (c_cid c)) ∧
    check_payload r rtp (Some rcp) rw = Ret 0 rw ∧
    buf_wf r' ∧ drop 14 (contents r') = contents b ∧
    expand_payload r rc =
      Some (0, r', if seq then data_taken (c_data_seq_num c) (c_data_rec_seq_num c) rc
                   else data_taken (c_data_rec_seq_num rc) (c_data_seq_num rc) rc).
Proof.
  intros Ht Hc Hb Hs Hr Hwf Hst Hlen Hrm Hrl Hrt Hrs Hrr seq Hseq.
  pose proof (bw_len b Hwf).
  assert (Hhs : 6 <= hdr_size c <= 12).
  { unfold hdr_size, missing. destruct (payload_ver_bits c Hb) as (-> & -> & -> & _).
    destruct (truthy (c_lbit c)), (truthy (c_fbit c) || truthy (c_ourfbit c)); lia. }
  destruct (add_payload_hdr_spec w tp cp t c b Ht Hc Hb Hwf) as (m & Ha & Hwf' & Hcont); [lia|].
  set (b' := prepended b _ m) in *. set (L := b_len b + hdr_size c) in *.
  assert (Hbl : blen (contents b') = L).
  { rewrite Hcont, blen_app, short_hdr_size, contents_length by done. lia. }
  destruct (recv_into_spec rb (contents b') Hrm) as (r0 & Hr0 & Hwf0 & Hc0 & Hst0 & Hl0 & _); [lia|].
  set (f := next_fields t c L) in *.
  destruct (fix_hdr_words r0 (short_hdr f) (contents b) (payload_ver c)) as (r & Hfix & Hwfr & Hcr & Hsr & Hlr & _);
    [done|by rewrite Hc0, Hcont|by apply short_hdr_ok, next_fields_ok|done|by apply fix_len_payload|].
  assert (Hrl2 : b_len r = L) by lia.
  destruct (payload_hdr_accepted r t c rw rtp rt rcp (contents b)) as [He Hck]; try done;
    [rewrite contents_length by done; lia|lia|by rewrite Hrl2|].
  destruct (expand_payload_spec r rc f (contents b)) as [_ Hx]; [done..|by apply next_fields_ok|done|done|].
  destruct Hx as (r' & Hwfx & Hcx & _ & Hex).
  { change (pf_ver f) with (payload_ver c). unfold hdr_size in Hhs. lia. }
  exists b', r, r'. rewrite Hr0. split_and!; [done|exact Hfix|done|done|done|by rewrite Hcx|].
  rewrite Hex. cbn [pf_ns pf_nr fill]. change (pf_ver f) with (payload_ver c).
  destruct (payload_ver_bits c Hb) as (_ & -> & _). change (truthy (c_fbit c) || truthy (c_ourfbit c)) with seq.
  destruct seq.
  - destruct (sequence_next (c_data_seq_num c) (c_data_rec_seq_num c) rc) as (c' & E & E'); [by auto..|].
    change (pf_ns f) with (c_data_seq_num c). change (pf_nr f) with (c_data_rec_seq_num c). by rewrite E, E'.
  - destruct (sequence_next (c_data_rec_seq_num rc) (c_data_seq_num rc) rc) as (c' & E & E');
      [done|done|unfold PAYLOAD_FUDGE; lia|]. by rewrite E, E'.
Qed.

(** ** Sequence numbers near the wrap-around *)

(** The second half of the test never holds: both numbers are promoted to
    [int], so that the difference is negative there. *)

(** The decision on the Ns of a payload packet.  It is taken when it is
    the number of the next packet to be sent on the call (the expected one
    goes up by one), when it is at most two ahead of the number expected, or
    when it is 32768 or more behind (a wrap-around): then it becomes the
    number expected itself, so that the same packet is taken a second time. *)
Theorem sequence_window ns c :
  is_u16 ns → is_u16 (c_data_rec_seq_num c) →
  let rec := c_data_rec_seq_num c in
  sequence ns c =
    (if ns =? c_data_seq_num c then Some { c with c_data_rec_seq_num := u16 (rec + 1); c_pnu := -1 }
     else if ((rec <=? ns) && (ns <=? rec + 2)) || (32768 <=? rec - ns)
     then Some { c with c_data_rec_seq_num := ns } else None) ∧
  (∀ c', sequence ns c = Some c' → ns ≠ c_data_seq_num c → sequence ns c' = Some c').
Proof.
  intros Hn Hr rec. split.
  - unfold sequence. destruct (ns =? c_data_seq_num c); [done|]. cbn [negb].
    rewrite seen_before_spec by done. fold rec. unfold PAYLOAD_FUDGE.
    destruct (Z.ltb_spec ns rec), (Z.ltb_spec (rec - ns) 32768), (Z.leb_spec ns (rec + 2)),
      (Z.leb_spec rec ns), (Z.leb_spec 32768 (rec - ns)); cbn [andb orb]; first [done | exfalso; lia].
  - subst rec. unfold sequence. intros c' Hc Hne. rewrite (proj2 (Z.eqb_neq _ _) Hne) in Hc. cbn [negb] in Hc.
    destruct (seen_before ns (c_data_rec_seq_num c)); [done|]. destruct (ns <=? _); [|done]. injection Hc as <-.
    cbn. rewrite (proj2 (Z.eqb_neq _ _) Hne). cbn. unfold seen_before, PAYLOAD_FUDGE.
    rewrite Z.ltb_irrefl. cbn. by rewrite (proj2 (Z.leb_le _ _)) by lia.
Qed.

(** C37: across the wrap-around of the control channel's numbers an old
    message is not acknowledged.  When the number expected has wrapped and a
    message from before is received again (it is behind in the serial number
    arithmetic of RFC 1982), [check_control] refuses it without the
    acknowledgement it sends in all other cases: no state changes and nothing
    is sent. *)
Theorem stale_after_wrap_unacked w buf tp cp t c ns :
  w_tunnels w !! tp = Some t → w_calls w !! cp = Some c →
  12 < b_len buf → buf_ld16 buf 2 = Some (b_len buf) → buf_ld16 buf 8 = Some ns →
  is_u16 ns → is_u16 (t_control_rec_seq_num t) → t_tid t ≠ -1 →
  t_control_rec_seq_num t < ns → 0 < (t_control_rec_seq_num t - ns) mod 2 ^ 16 < 2 ^ 15 →
  check_control buf tp cp w = Ret (- EINVAL) w.
Proof.
  intros Ht Hc Hl H2 H8 Hn Hr Hid Hlt Hold. apply wp_run. unfold check_control, sizeof_control_hdr.
  rewrite (proj2 (Z.ltb_ge _ _)) by lia. rewrite H2. wsteps. rewrite Z.eqb_refl. cbn [negb].
  rewrite H8. wsteps. rewrite (proj2 (Z.eqb_neq _ _)) by lia. cbn [negb]. wstep.
  rewrite seen_before_spec by done. rewrite (proj2 (Z.ltb_ge ns _)) by lia. cbn [andb].
  rewrite (proj2 (Z.eqb_neq _ _) Hid), andb_false_r. by wsteps.
Qed.

(** ** Examples *)

Definition demo_msg : buffer :=
  mkBuffer (replicate 14 0 ++ [0x80; 8; 0; 0; 0; 0; 0; 6] ++ replicate 42 0) 14 8 64 zero_sockaddr None 0.
Definition demo_rx : buffer := mkBuffer (replicate 64 0) 0 0 64 zero_sockaddr None 0.
Lemma demo_msg_wf : buf_wf demo_msg.
Proof. constructor; vm_compute; congruence. Qed.

Example control_header_roundtrip_witness :
  ∃ b' w' r, add_control_hdr 1 12 demo_msg demo_world = Ret b' w' ∧
    w_tunnels w' !! 1%nat = Some (bump_seq demo_tunnel1) ∧
    (recv_into demo_rx (contents b') ≫= fix_hdr) = Some r ∧ buf_wf r ∧
    extract r = Some (5, 3) ∧ b_len r = 20 ∧ buf_ld16 r 2 = Some (b_len r) ∧
    buf_ld16 r 8 = Some 4 ∧ buf_ld16 r 10 = Some 9 ∧
    (∃ ver, buf_ld16 r 0 = Some ver ∧ bad_version ver = false) ∧
    drop 12 (contents r) = [0x80; 8; 0; 0; 0; 0; 0; 6].
Proof.
  refine (control_header_roundtrip demo_world 1 12 demo_tunnel1 (demo_call 30 1 (Some 13%nat)) demo_msg demo_rx
    _ _ _ _ demo_msg_wf _ _ _ _); vm_compute; first [reflexivity | split; congruence | congruence].
Defined.

(** A Hello from the peer of tunnel 1, in host order, with the Ns given. *)
Definition hello_packet (ns : Z) : buffer :=
  mkBuffer (concat (map le16 [0xC802; 20; 70; 0; ns; 4]) ++ replicate 20 0) 0 20 32 zero_sockaddr None 0.

Lemma demo_malloc_ok : malloc_ok (w_env demo_world).
Proof. intros k n m Hn. cbn. intros [= <-]. rewrite blen_replicate. lia. Qed.

(** The Hello is taken at Ns 9; at Ns 8 it is old and acknowledged again. *)
Example check_control_spec_witness :
  check_control (hello_packet 9) 1 11 demo_world
    = Ret 0 (taken demo_world 1 11 demo_tunnel1 (demo_call 0 1 None) 4) ∧
  check_control (hello_packet 8) 1 11 demo_world
    = Ret (- EINVAL) (put_out { demo_world with w_clk := 1%nat } (ack demo_tunnel1 (demo_call 0 1 None))).
Proof.
  split.
  - destruct (check_control_spec demo_world (hello_packet 9) 1 11 demo_tunnel1 (demo_call 0 1 None)
      9 4 0xC802 (replicate 4096 0)) as (_ & _ & H);
      [..|refine (proj1 (H _ _) _)]; try exact demo_malloc_ok; vm_compute; first [reflexivity | split; congruence | congruence].
  - destruct (check_control_spec demo_world (hello_packet 8) 1 11 demo_tunnel1 (demo_call 0 1 None)
      8 4 0xC802 (replicate 4096 0)) as (_ & _ & H);
      [..|refine (proj1 (proj2 (H _ _)) _ _)]; try exact demo_malloc_ok; vm_compute; first [reflexivity | split; congruence | split; reflexivity | congruence].
Defined.

(** A packet without length, sequence numbers and offset. *)
Definition short_packet : buffer :=
  mkBuffer (replicate 10 0 ++ concat (map le16 [2; 70; 30]) ++ [0xFF; 3; 1] ++ replicate 13 0) 10 9 32 zero_sockaddr None 0.
Definition short_fields : payload_fields := PayloadFields 2 0 70 30 0 0 0.
Lemma short_packet_wf : buf_wf short_packet.
Proof. constructor; vm_compute; congruence. Qed.

Example expand_payload_spec_witness :
  ∃ b', buf_wf b' ∧ contents b' = concat (map le16 [2; 17; 70; 30; 0; 0; 0]) ++ [0xFF; 3; 1] ∧
    b_start b' = 2 ∧
    expand_payload short_packet (demo_call 30 1 None)
      = Some (0, b', { (demo_call 30 1 None) with c_data_rec_seq_num := 1; c_pnu := -1; c_pLr := 0 }).
Proof.
  destruct (expand_payload_spec short_packet (demo_call 30 1 None) short_fields [0xFF; 3; 1]) as [_ H].
  - exact short_packet_wf.
  - vm_compute. reflexivity.
  - repeat (apply Forall_cons_2; [done|]). constructor.
  - vm_compute. split; congruence.
  - vm_compute. split; congruence.
  - destruct H as (b' & H1 & H2 & H3 & H4); [vm_compute; congruence|].
    exists b'. split_and!; [exact H1|exact H2|exact H3|]. rewrite H4. vm_compute. reflexivity.
Defined.

(** Sent without length and with sequence numbers. *)
Definition seq_call : call := { (demo_call 30 1 (Some 13%nat)) with c_fbit := FBIT; c_data_seq_num := 65535 }.
Definition seq_world : world := set_c 12 seq_call demo_world.

Example payload_roundtrip_witness :
  ∃ b' r r', add_payload_hdr 1 12 demo_msg seq_world = Ret b' (set_c 12 (bump_data seq_call) seq_world) ∧
    (recv_into demo_rx (contents b') ≫= fix_hdr) = Some r ∧ extract r = Some (5, 3) ∧
    check_payload r 2 (Some 21%nat) demo_world = Ret 0 demo_world ∧
    buf_wf r' ∧ drop 14 (contents r') = [0x80; 8; 0; 0; 0; 0; 0; 6] ∧
    expand_payload r { (demo_call 0 2 None) with c_data_rec_seq_num := 65535 }
      = Some (0, r', { (demo_call 0 2 None) with c_data_rec_seq_num := 65535; c_pLr := 0 }).
Proof.
  destruct (payload_roundtrip seq_world 1 12 demo_tunnel1 seq_call demo_msg demo_rx demo_world 2
    (demo_tunnel 71 21 None None) 21 { (demo_call 0 2 None) with c_data_rec_seq_num := 65535 }) as (b' & r & r' & H1 & H2 & H3 & H4 & H5 & H6 & H7).
  - vm_compute. reflexivity.
  - vm_compute. reflexivity.
  - split; [left|split; [right|left]]; reflexivity.
  - vm_compute. split; congruence.
  - vm_compute. split; congruence.
  - exact demo_msg_wf.
  - vm_compute. congruence.
  - vm_compute. reflexivity.
  - vm_compute. reflexivity.
  - vm_compute. congruence.
  - vm_compute. reflexivity.
  - vm_compute. split; congruence.
  - vm_compute. split; congruence.
  - intros _. vm_compute. split; congruence.
  - exists b', r, r'. split_and!; [exact H1|exact H2| |exact H4|exact H5| |].
    + rewrite H3. vm_compute. reflexivity.
    + rewrite H6. vm_compute. reflexivity.
    + rewrite H7. vm_compute. reflexivity.
Defined.

Example sequence_window_witness :
  sequence 1 (demo_call 30 1 None) = Some { (demo_call 30 1 None) with c_data_rec_seq_num := 1 } ∧
  sequence 1 { (demo_call 30 1 None) with c_data_rec_seq_num := 1 }
    = Some { (demo_call 30 1 None) with c_data_rec_seq_num := 1 }.
Proof.
  destruct (sequence_window 1 (demo_call 30 1 None)) as [H1 H2]; [vm_compute; split; congruence..|].
  split; [exact H1|]. apply H2; [exact H1|discriminate].
Defined.

(** Message 65535 is sent again while message 2 is expected. *)
Example stale_after_wrap_unacked_witness :
  let w := set_t 1 { demo_tunnel1 with t_control_rec_seq_num := 2 } demo_world in
  check_control (hello_packet 65535) 1 11 w = Ret (- EINVAL) w.
Proof.
  refine (stale_after_wrap_unacked _ _ _ _ { demo_tunnel1 with t_control_rec_seq_num := 2 } (demo_call 0 1 None) 65535
    _ _ _ _ _ _ _ _ _ _).
  - apply set_t_eq.
  - vm_compute. reflexivity.
  - vm_compute. reflexivity.
  - vm_compute. reflexivity.
  - vm_compute. reflexivity.
  - vm_compute. split; congruence.
  - vm_compute. split; congruence.
  - discriminate.
  - vm_compute. reflexivity.
  - vm_compute. split; reflexivity.
Defined.

(** ** The retransmissions of a packet *)

(** [process_schedule] is called at the time [now]; it looks at the queue at
    most twice here: for the entry that is due and for the one that is not. *)
Definition at_time (now : timeval) (w : world) : world := { w with w_env := { w_env w with e_now := λ _, now } }.
Definition tick (now : timeval) : M unit := λ w, (Mprocess_schedule 2;; mret tt) (at_time now w).
Fixpoint ticks (ts : list timeval) : M unit :=
  match ts with [] => mret tt | now :: ts => tick now;; ticks ts end.
(** A packet sent at [now] for the [k+1]st time is looked at again after [2^k]
    seconds, and so on. *)
Fixpoint spaced (k : Z) (now : timeval) (ts : list timeval) : Prop :=
  match ts with
  | [] => True
  | t :: ts => tv_clock t ∧ TVLESSEQ (Tv (tv_sec now + backoff k) (tv_usec now)) t = true ∧ spaced (k + 1) t ts
  end.

Lemma schedule_secs now n : tv_clock now → schedule_time now (Tv n 0) = Tv (tv_sec now + n) (tv_usec now).
Proof. unfold tv_clock, schedule_time. intros H. cbn. rewrite Z.add_0_r. by case_match; [lia|]. Qed.
Lemma backoff_later now k : 0 <= k → TVLESSEQ (Tv (tv_sec now + backoff k) (tv_usec now)) now = false.
Proof.
  intros Hk. rewrite TVLESSEQ_negb. apply negb_false_iff, TVLESS_spec. left. cbn. unfold backoff.
  pose proof (Z.pow_pos_nonneg 2 (Z.min 31 k)). lia.
Qed.

(** A packet that was not acknowledged, and is the only thing on the queue. *)
Record awaiting (w : world) (b : buffer) (tp : nat) (t : tunnel) (ns : Z) (due : timeval) : Prop := {
  pd_tunnel : b_tunnel b = Some tp; pd_t : w_tunnels w !! tp = Some t; pd_wf : buf_wf b;
  pd_ns : buf_ld16 b 8 = Some ns; pd_unacked : t_cLr t <= ntohs ns;
  pd_retries : 0 <= b_retries b; pd_max : g_max_retries (w_gconfig w) < 2 ^ 31;
  pd_queue : ∃ p, w_events w = [Entry p due (Jcontrol_xmit b)] }.

(** It is sent once more, and the next time is put on the queue. *)
Definition resent (now : timeval) (t : tunnel) (b : buffer) (w : world) : world :=
  sent (at_time now { w with w_events := [] }) t b.
Lemma resent_awaiting now w b tp t ns due : tv_clock now →
  awaiting w b tp t ns due → b_retries b < g_max_retries (w_gconfig w) →
  awaiting (resent now t b w) (retried b) tp t ns (Tv (tv_sec now + backoff (b_retries b)) (tv_usec now)).
Proof.
  intros Hnow [H1 H2 H3 H4 H5 H6 H7 H8] Hr. split; try done; [by apply retried_wf|cbn; lia|].
  exists (w_fresh w). cbn. unfold schedule. by rewrite schedule_secs.
Qed.
Lemma tick_sends now w b tp t ns due : tv_clock now →
  awaiting w b tp t ns due → TVLESSEQ due now = true → b_retries b < g_max_retries (w_gconfig w) →
  tick now w = Ret tt (resent now t b w).
Proof.
  intros Hnow Hp Hdue Hr. pose proof (resent_awaiting now w b tp t ns due Hnow Hp Hr) as [_ _ _ _ _ _ _ [p' Hq']].
  destruct Hp as [H1 H2 H3 H4 H5 H6 H7 [p Hq]].
  destruct (xmit_spec Mcall_close (at_time now { w with w_events := [] }) b tp t ns) as (_ & Hsend & _); [done|done|done|lia|done|].
  destruct (Hsend H5 Hr) as [E _]. fold (control_xmit b) in E.
  unfold tick, Mprocess_schedule, process_schedule, mbind, M_bind. cbn [process_loop].
  change (w_events (at_time now w)) with (w_events w). rewrite Hq. cbn [se_tv se_job].
  change (e_now (w_env (at_time now w)) (w_clk (at_time now w))) with now. rewrite Hdue. cbn [run_job].
  change { (at_time now w) with w_events := [] } with (at_time now { w with w_events := [] }). rewrite E.
  fold (resent now t b w). rewrite Hq'. cbn [se_tv].
  change (e_now (w_env (resent now t b w)) (w_clk (resent now t b w))) with now. rewrite backoff_later by done.
  by rewrite Hq'.
Qed.
Lemma last_default {A} (l : list A) : ∀ x y, List.last (x :: l) y = List.last l x.
Proof. induction l as [|z l IH]; intros x y; [done|]. change (List.last (z :: l) y = List.last (z :: l) x). by rewrite !IH. Qed.
Lemma ticks_send ts : ∀ now w b tp t ns,
  awaiting w b tp t ns (Tv (tv_sec now + backoff (b_retries b - 1)) (tv_usec now)) →
  spaced (b_retries b - 1) now ts → b_retries b + Z.of_nat (length ts) <= g_max_retries (w_gconfig w) →
  ∃ w' b', ticks ts w = Ret tt w' ∧
    w_out w' = w_out w ++ replicate (length ts) (Oudp (b_peer b) (t_my_addr t) (contents b)) ∧
    w_calls w' = w_calls w ∧ w_gconfig w' = w_gconfig w ∧
    b_retries b' = b_retries b + Z.of_nat (length ts) ∧ b' = { b with b_retries := b_retries b' } ∧
    let last := List.last ts now in
    awaiting w' b' tp t ns (Tv (tv_sec last + backoff (b_retries b' - 1)) (tv_usec last)).
Proof.
  induction ts as [|t1 ts IH]; intros now w b tp t ns Hp Hs Hm.
  { exists w, b. cbn. rewrite app_nil_r, Z.add_0_r. split_and!; try done. by destruct b. }
  destruct Hs as (Hc & Hdue & Hs). cbn [length] in Hm.
  pose proof (tick_sends t1 w b tp t ns _ Hc Hp Hdue ltac:(lia)) as E.
  pose proof (resent_awaiting t1 w b tp t ns _ Hc Hp ltac:(lia)) as Hp1.
  replace (b_retries b) with (b_retries (retried b) - 1) in Hp1 at 1 by (cbn; lia).
  destruct (IH t1 (resent t1 t b w) (retried b) tp t ns) as (w' & b' & E' & Ho & Ec & Eg & Er & Eb & Hp');
    [exact Hp1|by replace (b_retries (retried b) - 1) with (b_retries b - 1 + 1) by (cbn; lia)|cbn; lia|].
  exists w', b'. split; [cbn [ticks]; by rewrite (bind_eq _ _ _ _ _ E)|]. split_and!.
  - rewrite Ho. cbn. by rewrite <-app_assoc.
  - by rewrite Ec.
  - by rewrite Eg.
  - rewrite Er. change (b_retries (retried b)) with (b_retries b + 1). cbn [length]. lia.
  - rewrite Eb at 1. done.
  - cbv zeta in *. by rewrite last_default.
Qed.

(** C22: a peer that never answers is given up.  A packet is sent while nothing
    else is on the timer queue, and the peer does not acknowledge it.  Whenever
    [process_schedule] is called when 1, 2, 4, ... seconds have passed since the
    packet was sent last, it is sent again, unchanged: [max_retries] times in
    all, at any such times.  The only entry of the queue is then due another
    [2^(max_retries - 1)] seconds later (no wait is longer than [2^31]), and when
    it runs, the tunnel's control call is marked as timed out and closed. *)
Theorem unanswered_packet w b tp t ns self s t0 ts :
  b_tunnel b = Some tp → w_tunnels w !! tp = Some t → buf_wf b → b_retries b = 0 →
  buf_ld16 b 8 = Some ns → t_cLr t <= ntohs ns → w_events w = [] →
  t_self t = Some self → w_calls w !! self = Some s →
  tv_clock t0 → spaced 0 t0 ts →
  let max := g_max_retries (w_gconfig w) in
  1 <= max < 2 ^ 31 → Z.of_nat (length ts) = max - 1 →
  ∃ w' p b', (control_xmit b;; ticks ts) (at_time t0 w) = Ret tt w' ∧
    w_out w' = w_out w ++ replicate (Z.to_nat max) (Oudp (b_peer b) (t_my_addr t) (contents b)) ∧
    (let last := List.last ts t0 in
     w_events w' = [Entry p (Tv (tv_sec last + backoff (max - 1)) (tv_usec last)) (Jcontrol_xmit b')]) ∧
    ∀ now, let w2 := at_time now { w' with w_events := [] } in
      run_job (Jcontrol_xmit b') w2 = Mcall_close (Some self) (set_c self (given_up s) w2).
Proof.
  intros Htp Ht Hwf Hr Hns Hc Hq Hself Hs H0 Hsp max Hmax Hlen.
  destruct (xmit_spec Mcall_close (at_time t0 w) b tp t ns) as (_ & Hsend & _); [done|done|done|lia|done|].
  destruct (Hsend Hc ltac:(cbn; lia)) as [E _]. fold (control_xmit b) in E.
  assert (awaiting (sent (at_time t0 w) t b) (retried b) tp t ns
    (Tv (tv_sec t0 + backoff (b_retries (retried b) - 1)) (tv_usec t0))) as Hp.
  { split; try done; [by apply retried_wf|cbn; lia|cbn; lia|]. exists (w_fresh w). cbn. rewrite Hq. unfold schedule.
    rewrite schedule_secs by done. by replace (b_retries b + 1 - 1) with (b_retries b) by lia. }
  destruct (ticks_send ts t0 (sent (at_time t0 w) t b) (retried b) tp t ns Hp) as (w' & b' & E' & Ho & Ec & Eg & Er & Eb & Hp');
    [cbn; by rewrite Hr|cbn; lia|].
  cbv zeta in Hp'. destruct Hp' as [P1 P2 P3 P4 P5 P6 P7 [p Hp']]. change (b_retries (retried b)) with (b_retries b + 1) in Er.
  exists w', p, b'. split; [by rewrite (bind_eq _ _ _ _ _ E)|]. split_and!.
  - rewrite Ho. cbn. rewrite <-app_assoc. do 2 f_equal. replace (Z.to_nat max) with (S (length ts)) by lia. done.
  - cbv zeta. rewrite Hp'. by replace (b_retries b' - 1) with (max - 1) by lia.
  - intros now w2. cbn [run_job].
    destruct (xmit_spec Mcall_close w2 b' tp t ns) as (_ & _ & Hclose); [done|done|done|cbn in Hmax; lia|done|].
    apply Hclose; [done|cbn; rewrite Eg; cbn; lia|done|cbn; by rewrite Ec].
Qed.

(** Sent at second 100, and again when 101, 103, 107 and 115 have come. *)
Definition unanswered : buffer := { demo_packet with b_retries := 0 }.
Definition at_seconds : list timeval := map (λ n, Tv n 5) [101; 103; 108; 120].
Example unanswered_packet_witness :
  ∃ w' p b' s, (control_xmit unanswered;; ticks at_seconds) (at_time (Tv 100 0) { demo_world with w_events := [] }) = Ret tt w' ∧
    length (w_out w') = 5%nat ∧ w_events w' = [Entry p (Tv 136 5) (Jcontrol_xmit b')] ∧
    ∀ now, let w2 := at_time now { w' with w_events := [] } in
      run_job (Jcontrol_xmit b') w2 = Mcall_close (Some 11%nat) (set_c 11 (given_up s) w2).
Proof.
  destruct (unanswered_packet { demo_world with w_events := [] } unanswered 1 demo_tunnel1 0x400 11
    (default zero_call (w_calls demo_world !! 11%nat)) (Tv 100 0) at_seconds) as (w' & p & b' & E & Ho & Hq & Hc).
  - reflexivity.
  - vm_compute. reflexivity.
  - constructor; vm_compute; congruence.
  - reflexivity.
  - vm_compute. reflexivity.
  - vm_compute. congruence.
  - reflexivity.
  - vm_compute. reflexivity.
  - vm_compute. reflexivity.
  - vm_compute. split; congruence.
  - repeat split; vm_compute; congruence.
  - vm_compute. split; congruence.
  - vm_compute. reflexivity.
  - exists w', p, b'. eexists. split; [exact E|]. split; [rewrite Ho; reflexivity|]. split; [rewrite Hq; reflexivity|exact Hc].
Defined.

End Packet.
