(* ===== verification/Heap.v ===== *)
(** * The shape of the heap

    [heap_ok] says that the linked lists of the daemon are well formed: the
    list of tunnels ends, the list of calls of every tunnel ends and holds calls
    of that tunnel only, the control call of a tunnel belongs to it, every call
    belongs to a tunnel, and the addresses in use are below the next one to be
    allocated.  It mentions only the maps of tunnels and calls, the head of the
    list and the allocator, so that an assignment to anything else keeps it by
    conversion. *)

From S2P Require Import Prelude.
From S2P Require Import Scheduler.
From S2P Require Import Buffer.
From S2P Require Import State.
From S2P Require Import Logic.
From S2P Require Import Calls.

Module Heap.
Import Scheduler Buffer State Logic Calls.

(** ** Linked lists in a map *)

Section Path.
Context {A : Type} (next : A → option nat).
Implicit Types (m : gmap nat A) (o : option nat) (ps : list nat) (a : A).

(** The nodes reached from [o], in order, up to the end of the list. *)
Fixpoint path m o ps : Prop :=
  match ps with
  | [] => o = None
  | p :: ps => o = Some p ∧ ∃ a, m !! p = Some a ∧ path m (next a) ps
  end.

Lemma path_det m ps : ∀ o ps', path m o ps → path m o ps' → ps = ps'.
Proof. induction ps as [|p ps IH]; intros o [|p' ps'] H1 H2; cbn in *; naive_solver congruence. Qed.
Lemma path_dom m ps : ∀ o, path m o ps → ∀ p, p ∈ ps → is_Some (m !! p).
Proof.
  induction ps as [|p ps IH]; intros o H q; [by intros ?%elem_of_nil|].
  destruct H as (_ & a & Ha & H). intros [->|?]%elem_of_cons; eauto.
Qed.
(** The nodes of the list are what it depends on. *)
Lemma path_ext m m' ps : ∀ o, (∀ p, p ∈ ps → next <$> m' !! p = next <$> m !! p) → path m o ps → path m' o ps.
Proof.
  induction ps as [|p ps IH]; intros o He H; [done|]. destruct H as (-> & a & Ha & H).
  pose proof (He p ltac:(left)) as Hp. rewrite Ha in Hp. destruct (m' !! p) as [a'|] eqn:E; [|done].
  cbn in Hp. injection Hp as Hp. split; [done|]. exists a'. split; [done|]. rewrite Hp. apply IH; [|done].
  intros q Hq. apply He. by right.
Qed.
Lemma path_insert_out m o ps p a : path m o ps → p ∉ ps → path (<[p := a]> m) o ps.
Proof. intros H Hp. eapply path_ext; [|exact H]. intros q Hq. rewrite lookup_insert_ne; [done|]. congruence. Qed.
Lemma path_insert_same m o ps p a b : path m o ps → m !! p = Some a → next b = next a → path (<[p := b]> m) o ps.
Proof.
  intros H Hp Hn. eapply path_ext; [|exact H]. intros q _. destruct (decide (p = q)) as [->|].
  - rewrite lookup_insert_eq, Hp. cbn. congruence.
  - by rewrite lookup_insert_ne.
Qed.
Lemma path_delete m o ps p : path m o ps → p ∉ ps → path (delete p m) o ps.
Proof. intros H Hp. eapply path_ext; [|exact H]. intros q Hq. rewrite lookup_delete_ne; [done|]. congruence. Qed.
Lemma path_back m m' o ps : (∀ p, next <$> m' !! p = next <$> m !! p) → path m' o ps → path m o ps.
Proof. intros He. apply path_ext. intros p _. by rewrite He. Qed.
Lemma path_nodup m o ps : path m o ps → NoDup ps.
Proof.
  revert o. assert (∀ l p l2 o, path m o (l ++ p :: l2) → path m (Some p) (p :: l2)) as Hsuf.
  { induction l as [|x l IH]; intros p l2 o H; [by destruct H as (-> & H)|]. destruct H as (_ & a & _ & H). eauto. }
  induction ps as [|p ps IH]; intros o H; [constructor|].
  pose proof H as (-> & a & Ha & Hn). constructor; [|by eapply IH].
  intros (l1 & l2 & ->)%list_elem_of_split. pose proof (path_det _ _ _ _ H (Hsuf (p :: l1) _ _ _ H)) as Hl.
  apply (f_equal length) in Hl. revert Hl. cbn. rewrite length_app. cbn. lia.
Qed.
(** A node is passed over. *)
Lemma path_unlink m p a q b : m !! p = Some a → next b = next a → ∀ l1 o l2,
  path m o (l1 ++ q :: p :: l2) → path (<[q := b]> m) o (l1 ++ q :: l2).
Proof.
  intros Hp Hb l1 o l2 H. pose proof (path_nodup _ _ _ H) as Hnd. revert o H Hnd.
  induction l1 as [|x l1 IH]; intros o H Hnd; cbn in *.
  - destruct H as (-> & a' & Ha' & Hn & a'' & Hp' & H). split; [done|]. exists b. split; [apply lookup_insert_eq|].
    simplify_eq. rewrite Hb. apply path_insert_out; [done|]. apply NoDup_cons in Hnd as [? _]. set_solver.
  - destruct H as (-> & a' & Ha' & H). apply NoDup_cons in Hnd as [Hx Hnd]. split; [done|]. exists a'.
    rewrite lookup_insert_ne by set_solver. split; [done|]. auto.
Qed.
End Path.

Lemma tpath_path w ps : ∀ o, tpath w o ps ↔ path t_next (w_tunnels w) o ps.
Proof. induction ps as [|p ps IH]; intros o; cbn; [done|]. by setoid_rewrite IH. Qed.
Lemma cpath_path w ps : ∀ o, cpath w o ps ↔ path c_next (w_calls w) o ps.
Proof. induction ps as [|p ps IH]; intros o; cbn; [done|]. by setoid_rewrite IH. Qed.

(** ** Well-formed heaps *)

(** The list of calls of a tunnel. *)
Definition calls_of (cm : gmap nat call) (tp : nat) (t : tunnel) (cs : list nat) : Prop :=
  path c_next cm (t_call_head t) cs ∧ ∀ p c, p ∈ cs → cm !! p = Some c → c_container c = Some tp.

Record heap_ok (head : option nat) (fresh : nat) (tm : gmap nat tunnel) (cm : gmap nat call) : Prop := {
  hp_tfresh : ∀ p, is_Some (tm !! p) → (p < fresh)%nat;
  hp_cfresh : ∀ p, is_Some (cm !! p) → (p < fresh)%nat;
  hp_sfresh : ∀ tp t s, tm !! tp = Some t → t_self t = Some s → (s < fresh)%nat;
  hp_tunnels : ∃ ts, path t_next tm head ts;
  hp_calls : ∀ tp t, tm !! tp = Some t → ∃ cs, calls_of cm tp t cs;
  hp_self : ∀ tp t s c, tm !! tp = Some t → t_self t = Some s → cm !! s = Some c → c_container c = Some tp;
  hp_cont : ∀ p c, cm !! p = Some c → is_Some (c_container c) }.

Lemma heap_empty fresh : heap_ok None fresh ∅ ∅.
Proof. by split; [intros p [? ?]|intros p [? ?]|intros ???|exists []|intros ??|intros ????|intros ??]. Qed.

(** Nothing links to a tunnel or to a call. *)
Definition t_unlinked (head : option nat) (tm : gmap nat tunnel) (tp : nat) : Prop :=
  ∀ ts, path t_next tm head ts → tp ∉ ts.
Definition c_unlinked (tm : gmap nat tunnel) (cm : gmap nat call) (cp : nat) : Prop :=
  ∀ tp t cs, tm !! tp = Some t → calls_of cm tp t cs → cp ∉ cs.

(** What an assignment has to keep. *)
Definition tlinks (t : tunnel) := (t_next t, t_call_head t, t_self t).
Definition clinks (c : call) := (c_next c, c_container c).

(** A call is on no list but that of its tunnel. *)
Lemma c_unlinked_own tm cm cp c : cm !! cp = Some c →
  (∀ tp t cs, c_container c = Some tp → tm !! tp = Some t → calls_of cm tp t cs → cp ∉ cs) → c_unlinked tm cm cp.
Proof. intros Hc Hown tp t cs Ht Hcs Hin. eapply Hown; [|exact Ht|exact Hcs|exact Hin]. by eapply Hcs. Qed.

Lemma c_unlinked_set_t tm cm p t t' cp :
  tm !! p = Some t → t_call_head t' = t_call_head t → c_unlinked tm cm cp → c_unlinked (<[p := t']> tm) cm cp.
Proof.
  intros Hp Hn Hu tp x cs [[<- <-]|[_ Hx]]%lookup_insert_Some Hcs; [|by eapply Hu].
  apply (Hu p t); [done|]. unfold calls_of in *. by rewrite <-Hn.
Qed.
Lemma t_unlinked_set head tm p t t' q :
  tm !! p = Some t → t_next t' = t_next t → t_unlinked head tm q → t_unlinked head (<[p := t']> tm) q.
Proof.
  intros Hp Hn Hu ts Hts. apply Hu. eapply path_back; [|exact Hts]. intros x. destruct (decide (p = x)) as [->|].
  - rewrite lookup_insert_eq, Hp. cbn. congruence.
  - by rewrite lookup_insert_ne.
Qed.

Lemma t_unlinked_ring head tm tm' p : t_next <$> tm' = t_next <$> tm → t_unlinked head tm p → t_unlinked head tm' p.
Proof.
  intros E Hu ts Hts. apply Hu. eapply path_back; [|exact Hts]. intros x. by rewrite <-!lookup_fmap, E.
Qed.

Section Steps.
Context (head : option nat) (fresh : nat) (tm : gmap nat tunnel) (cm : gmap nat call).
Context (Hok : heap_ok head fresh tm cm).

Lemma heap_alloc : heap_ok head (S fresh) tm cm.
Proof.
  destruct Hok as [Ht Hc Hs ? ? ? Hcont0]. split; try done.
  - intros p Hp%Ht. lia.
  - intros p Hp%Hc. lia.
  - intros tp t s H1 H2. pose proof (Hs tp t s H1 H2). lia.
Qed.

Lemma heap_set_t p t t' : tm !! p = Some t → tlinks t' = tlinks t → heap_ok head fresh (<[p := t']> tm) cm.
Proof.
  intros Hp [= E1 E2 E3]. destruct Hok as [Ht ? Hsf [ts Hts] Hcs Hs Hcont0]. split; try done.
  - intros q [x [[-> _]|[_ Hq]]%lookup_insert_Some]; apply Ht; eauto.
  - intros tp x s [[-> <-]|[_ Hq]]%lookup_insert_Some; [|by eauto]. rewrite E3. by eapply Hsf.
  - exists ts. by eapply path_insert_same.
  - intros tp x [[-> <-]|[_ Hq]]%lookup_insert_Some; [|by eauto]. unfold calls_of. rewrite E2. by apply Hcs.
  - intros tp x s c [[-> <-]|[_ Hq]]%lookup_insert_Some; [|by eauto]. rewrite E3. by apply Hs.
Qed.
Lemma calls_of_set_c p c c' tp t cs : cm !! p = Some c → clinks c' = clinks c →
  calls_of cm tp t cs → calls_of (<[p := c']> cm) tp t cs.
Proof.
  intros Hp [= E1 E2] [Hpath Hcont]. split; [by eapply path_insert_same|].
  intros q d Hq [[-> <-]|[_ Hd]]%lookup_insert_Some; [|by eauto]. rewrite E2. by eapply Hcont.
Qed.
Lemma heap_set_c p c c' : cm !! p = Some c → clinks c' = clinks c → heap_ok head fresh tm (<[p := c']> cm).
Proof.
  intros Hp E. pose proof E as [= _ E2]. destruct Hok as [? Hc ? ? Hcs Hs Hcont0]. split; try done.
  - intros q [x [[-> _]|[_ Hq]]%lookup_insert_Some]; apply Hc; eauto.
  - intros tp t Ht. destruct (Hcs tp t Ht) as [cs Hcall]. exists cs. by eapply calls_of_set_c.
  - intros tp t s d Ht Hself [[-> <-]|[_ Hd]]%lookup_insert_Some; [|by eauto]. rewrite E2. by eapply Hs.
  - intros q d [[-> <-]|[_ Hd]]%lookup_insert_Some; [|by eauto]. rewrite E2. by eapply Hcont0.
Qed.

(** A new call. *)
Lemma calls_of_add_c p c tp t cs : cm !! p = None → calls_of cm tp t cs → calls_of (<[p := c]> cm) tp t cs ∧ p ∉ cs.
Proof.
  intros Hp [Hpath Hcont].
  assert (p ∉ cs) as Hout by (intros Hin; destruct (path_dom _ _ _ _ Hpath p Hin); congruence).
  split; [|done]. split; [by apply path_insert_out|]. intros q d Hq. rewrite lookup_insert_ne; [by apply Hcont|congruence].
Qed.
Lemma heap_add_c c : is_Some (c_container c) →
  heap_ok head (S fresh) tm (<[fresh := c]> cm) ∧ c_unlinked tm (<[fresh := c]> cm) fresh.
Proof.
  intros Hsome. assert (cm !! fresh = None) as Hp.
  { apply eq_None_not_Some. intros H%(hp_cfresh _ _ _ _ Hok). lia. }
  destruct heap_alloc as [? Hc Hsf' ? Hcs Hs Hcont0]. split; [split; try done|].
  - intros q [x [[<- _]|[_ Hq]]%lookup_insert_Some]; [lia|]. apply Hc. eauto.
  - intros tp t Ht. destruct (Hcs tp t Ht) as [cs Hcall]. exists cs. by apply calls_of_add_c.
  - intros tp t s d Ht Ht' [[-> <-]|[_ Hd]]%lookup_insert_Some; [|by eauto].
    pose proof (hp_sfresh _ _ _ _ Hok tp t s Ht Ht'). lia.
  - intros q d [[-> <-]|[_ Hd]]%lookup_insert_Some; [done|by eauto].
  - intros tp t cs Ht [Hpath _]. destruct (Hcs tp t Ht) as [cs' Hcall].
    destruct (calls_of_add_c fresh c tp t cs' Hp Hcall) as [[Hpath' _] Hout].
    by rewrite (path_det _ _ _ _ _ Hpath Hpath').
Qed.
(** Freeing a call nothing links to. *)
Lemma heap_del_c p : c_unlinked tm cm p → heap_ok head fresh tm (delete p cm).
Proof.
  intros Hu. destruct Hok as [? Hc ? ? Hcs Hs Hcont0]. split; try done.
  - intros q [x [_ Hq]%lookup_delete_Some]. apply Hc. eauto.
  - intros tp t Ht. destruct (Hcs tp t Ht) as [cs Hcall]. exists cs. pose proof (Hu tp t cs Ht Hcall) as Hout.
    destruct Hcall as [Hpath Hcont]. split; [by apply path_delete|]. intros q d Hq [_ Hd]%lookup_delete_Some. eauto.
  - intros tp t s d Ht Hself [_ Hd]%lookup_delete_Some. eauto.
  - intros q d [_ Hd]%lookup_delete_Some. eauto.
Qed.
(** A new tunnel, and freeing one nothing links to. *)
Lemma heap_add_t t : t_call_head t = None → t_self t = None →
  heap_ok head (S fresh) (<[fresh := t]> tm) cm ∧ t_unlinked head (<[fresh := t]> tm) fresh.
Proof.
  intros Hh Hself. assert (tm !! fresh = None) as Hp.
  { apply eq_None_not_Some. intros H%(hp_tfresh _ _ _ _ Hok). lia. }
  destruct heap_alloc as [Ht ? Hsf [ts Hts] Hcs Hs Hcont0].
  assert (fresh ∉ ts) as Hout by (intros Hin; destruct (path_dom _ _ _ _ Hts fresh Hin); congruence).
  assert (path t_next (<[fresh := t]> tm) head ts) as Hts' by (by apply path_insert_out).
  split; [split; try done|].
  - intros q [x [[<- _]|[_ Hq]]%lookup_insert_Some]; [lia|]. apply Ht. eauto.
  - intros tp x s [[-> <-]|[_ Hq]]%lookup_insert_Some; [congruence|by eauto].
  - by exists ts.
  - intros tp x [[-> <-]|[_ Hq]]%lookup_insert_Some; [|by eauto]. exists []. split; [done|]. by intros q c ?%elem_of_nil.
  - intros tp x s c [[-> <-]|[_ Hq]]%lookup_insert_Some; [|by eauto]. congruence.
  - intros ts' H'. by rewrite (path_det _ _ _ _ _ H' Hts').
Qed.
Lemma heap_del_t p : t_unlinked head tm p → heap_ok head fresh (delete p tm) cm.
Proof.
  intros Hu. destruct Hok as [Ht ? Hsf [ts Hts] Hcs Hs Hcont0]. split; try done.
  - intros q [x [_ Hq]%lookup_delete_Some]. apply Ht. eauto.
  - intros tp x s [_ Hq]%lookup_delete_Some. eauto.
  - exists ts. apply path_delete; [done|]. by apply Hu.
  - intros tp x [_ Hq]%lookup_delete_Some. eauto.
  - intros tp x s c [_ Hq]%lookup_delete_Some. eauto.
Qed.
(** The control call of a new tunnel. *)
Lemma heap_set_self p t t' s c : tm !! p = Some t → (t_next t', t_call_head t', t_self t') = (t_next t, t_call_head t, Some s) →
  cm !! s = Some c → c_container c = Some p → heap_ok head fresh (<[p := t']> tm) cm.
Proof.
  intros Hp [= E1 E2 E3] Hc Hcont. destruct Hok as [Ht Hcf Hsf [ts Hts] Hcs Hs Hcont0]. split; try done.
  - intros q [x [[-> _]|[_ Hq]]%lookup_insert_Some]; apply Ht; eauto.
  - intros tp x s' [[-> <-]|[_ Hq]]%lookup_insert_Some; [|by eauto]. rewrite E3. intros [= <-]. apply Hcf. eauto.
  - exists ts. by eapply path_insert_same.
  - intros tp x [[-> <-]|[_ Hq]]%lookup_insert_Some; [|by eauto]. unfold calls_of. rewrite E2. by apply Hcs.
  - intros tp x s' d [[-> <-]|[_ Hq]]%lookup_insert_Some; [|by eauto]. rewrite E3. intros [= <-] ?. by simplify_eq.
Qed.
(** Linking a tunnel at the head of the list. *)
Lemma heap_link_t p t t' : tm !! p = Some t → t_unlinked head tm p →
  (t_next t', t_call_head t', t_self t') = (head, t_call_head t, t_self t) → heap_ok (Some p) fresh (<[p := t']> tm) cm.
Proof.
  intros Hp Hu [= E1 E2 E3]. destruct Hok as [Ht ? Hsf [ts Hts] Hcs Hs Hcont0]. split; try done.
  - intros q [x [[-> _]|[_ Hq]]%lookup_insert_Some]; apply Ht; eauto.
  - intros tp x s [[-> <-]|[_ Hq]]%lookup_insert_Some; [|by eauto]. rewrite E3. by eapply Hsf.
  - exists (p :: ts). split; [done|]. exists t'. split; [apply lookup_insert_eq|]. rewrite E1. apply path_insert_out; auto.
  - intros tp x [[-> <-]|[_ Hq]]%lookup_insert_Some; [|by eauto]. unfold calls_of. rewrite E2. by apply Hcs.
  - intros tp x s c [[-> <-]|[_ Hq]]%lookup_insert_Some; [|by eauto]. rewrite E3. by apply Hs.
Qed.
(** Linking a call at the head of the list of its tunnel. *)
Lemma heap_link_c cp c c' tp t t' :
  cm !! cp = Some c → c_unlinked tm cm cp → tm !! tp = Some t → c_container c = Some tp →
  (c_next c', c_container c') = (t_call_head t, c_container c) →
  (t_next t', t_call_head t', t_self t') = (t_next t, Some cp, t_self t) →
  heap_ok head fresh (<[tp := t']> tm) (<[cp := c']> cm).
Proof.
  intros Hc Hu Htp Hcont [= C1 C2] [= T1 T2 T3]. destruct Hok as [Ht Hcf Hsf [ts Hts] Hcs Hs Hcont0].
  assert (∀ tp x cs, tm !! tp = Some x → calls_of cm tp x cs → calls_of (<[cp := c']> cm) tp x cs) as Hkeep.
  { intros tp' x cs Hx Hcall. pose proof (Hu _ _ _ Hx Hcall) as Hout. destruct Hcall as [Hp Hq].
    split; [by apply path_insert_out|]. intros q d Hin. rewrite lookup_insert_ne; [by apply Hq|congruence]. }
  split.
  - intros q [x [[-> _]|[_ Hq]]%lookup_insert_Some]; apply Ht; eauto.
  - intros q [x [[-> _]|[_ Hq]]%lookup_insert_Some]; apply Hcf; eauto.
  - intros tp' x s [[-> <-]|[_ Hx]]%lookup_insert_Some; [|by eauto]. rewrite T3. by eapply Hsf.
  - exists ts. by eapply path_insert_same.
  - intros tp' x [[<- <-]|[_ Hx]]%lookup_insert_Some.
    + destruct (Hcs tp t Htp) as [cs Hcall]. destruct (Hkeep tp t cs Htp Hcall) as [Hp Hq]. exists (cp :: cs). split.
      * split; [done|]. exists c'. split; [apply lookup_insert_eq|]. by rewrite C1.
      * intros q d [->|Hin]%elem_of_cons; [|by apply Hq]. rewrite lookup_insert_eq. intros [= <-]. congruence.
    + destruct (Hcs tp' x Hx) as [cs Hcall]. exists cs. by eapply Hkeep.
  - intros tp' x s d Hx Hself Hd.
    assert (∃ x', tm !! tp' = Some x' ∧ t_self x' = Some s) as (x' & Hx' & Hself').
    { apply lookup_insert_Some in Hx as [[-> <-]|[_ Hx]]; [|by eauto]. exists t. split; [done|]. congruence. }
    apply lookup_insert_Some in Hd as [[-> <-]|[_ Hd]]; [|by eapply Hs]. rewrite C2. by eapply Hs.
  - intros q d [[-> <-]|[_ Hd]]%lookup_insert_Some; [|by eauto]. rewrite C2. by eapply Hcont0.
Qed.
(** Unlinking a call, the first one of the list or a later one. *)
Lemma heap_first_c cp c tp t t' : tm !! tp = Some t → t_call_head t = Some cp → cm !! cp = Some c →
  (t_next t', t_call_head t', t_self t') = (t_next t, c_next c, t_self t) →
  heap_ok head fresh (<[tp := t']> tm) cm ∧ c_unlinked (<[tp := t']> tm) cm cp.
Proof.
  intros Htp Hh Hc [= T1 T2 T3]. destruct Hok as [Ht Hcf Hsf [ts Hts] Hcs Hs Hcont0].
  destruct (Hcs tp t Htp) as [cs [Hp Hcont]]. rewrite Hh in Hp. pose proof (path_nodup _ _ _ _ Hp) as Hnd.
  destruct cs as [|x cs]; [done|]. destruct Hp as ([= <-] & c' & Hc' & Hp). simplify_eq.
  apply NoDup_cons in Hnd as [Hout _].
  assert (calls_of cm tp t' cs) as Hcall.
  { split; [by rewrite T2|]. intros q d Hq. apply Hcont. by right. }
  split; [split; try done|].
  - intros q [x [[-> _]|[_ Hq]]%lookup_insert_Some]; apply Ht; eauto.
  - intros tp' x s [[-> <-]|[_ Hx]]%lookup_insert_Some; [|by eauto]. rewrite T3. by eapply Hsf.
  - exists ts. by eapply path_insert_same.
  - intros tp' x [[<- <-]|[_ Hx]]%lookup_insert_Some; [|by eauto]. by exists cs.
  - intros tp' x s d [[-> <-]|[_ Hx]]%lookup_insert_Some; [|by eauto]. rewrite T3. by apply Hs.
  - apply (c_unlinked_own _ _ _ c Hc). intros tp' x cs' Hcp.
    rewrite (Hcont cp c ltac:(left) Hc) in Hcp. injection Hcp as <-. rewrite lookup_insert_eq. intros [= <-] [Hp' _].
    destruct Hcall as [Hp'' _]. by rewrite (path_det _ _ _ _ _ Hp' Hp'').
Qed.
Lemma heap_later_c cp c q d d' tp t l1 l2 : tm !! tp = Some t → calls_of cm tp t (l1 ++ q :: cp :: l2) →
  cm !! cp = Some c → cm !! q = Some d → (c_next d', c_container d') = (c_next c, c_container d) →
  heap_ok head fresh tm (<[q := d']> cm) ∧ c_unlinked tm (<[q := d']> cm) cp.
Proof.
  intros Htp [Hp Hcont] Hc Hd [= C1 C2]. destruct Hok as [Ht Hcf Hsf Hts Hcs Hs Hcont0].
  pose proof (path_nodup _ _ _ _ Hp) as Hnd.
  assert (q ≠ cp ∧ cp ∉ l1 ++ q :: l2) as [Hne Hout].
  { clear -Hnd. apply NoDup_app in Hnd as (_ & H1 & H2). do 2 apply NoDup_cons in H2 as [? H2]. set_solver. }
  assert (calls_of (<[q := d']> cm) tp t (l1 ++ q :: l2)) as Hcall.
  { split; [exact (path_unlink _ _ _ _ _ _ Hc C1 _ _ _ Hp)|]. intros x e Hx [[-> <-]|[_ He]]%lookup_insert_Some.
    - rewrite C2. eapply Hcont; [|exact Hd]. set_solver.
    - eapply Hcont; [|exact He]. set_solver. }
  assert (c_container d = Some tp) as Hdc by (eapply Hcont; [|exact Hd]; set_solver).
  split; [split; try done|].
  - intros x [e [[-> _]|[_ Hx]]%lookup_insert_Some]; apply Hcf; eauto.
  - intros tp' x Hx. destruct (decide (tp' = tp)) as [->|Htne]; [simplify_eq; by eexists|].
    destruct (Hcs tp' x Hx) as [cs [Hp' Hcont']]. exists cs.
    assert (q ∉ cs) by (intros Hin; pose proof (Hcont' q d Hin Hd); congruence).
    split; [by apply path_insert_out|]. intros y e Hy. rewrite lookup_insert_ne; [by apply Hcont'|congruence].
  - intros tp' x s e Hx Hself [[-> <-]|[_ He]]%lookup_insert_Some; [|by eauto]. rewrite C2. by eapply Hs.
  - intros x e [[-> <-]|[_ He]]%lookup_insert_Some; [|by eauto]. rewrite C2. by eapply Hcont0.
  - apply (c_unlinked_own _ _ _ c); [by rewrite lookup_insert_ne|]. intros tp' x cs' Hcp.
    rewrite (Hcont cp c) in Hcp; [|set_solver|done]. injection Hcp as <-. intros Hx [Hp' _].
    simplify_eq. destruct Hcall as [Hp'' _]. by rewrite (path_det _ _ _ _ _ Hp' Hp'').
Qed.
(** Unlinking a tunnel. *)
Lemma heap_first_t tp t : head = Some tp → tm !! tp = Some t →
  heap_ok (t_next t) fresh tm cm ∧ t_unlinked (t_next t) tm tp.
Proof.
  intros -> Htp. destruct Hok as [Ht Hcf Hsf [ts Hts] Hcs Hs Hcont0]. pose proof (path_nodup _ _ _ _ Hts) as Hnd.
  destruct ts as [|x ts]; [done|]. destruct Hts as ([= <-] & t' & Ht' & Hts). simplify_eq.
  apply NoDup_cons in Hnd as [Hout _]. split; [by split; eauto|]. intros ts' H'. by rewrite (path_det _ _ _ _ _ H' Hts).
Qed.
Lemma heap_later_t tp t q u u' l1 l2 : path t_next tm head (l1 ++ q :: tp :: l2) → tm !! tp = Some t → tm !! q = Some u →
  (t_next u', t_call_head u', t_self u') = (t_next t, t_call_head u, t_self u) →
  heap_ok head fresh (<[q := u']> tm) cm ∧ t_unlinked head (<[q := u']> tm) tp.
Proof.
  intros Hp Htp Hq [= T1 T2 T3]. destruct Hok as [Ht Hcf Hsf _ Hcs Hs Hcont0]. pose proof (path_nodup _ _ _ _ Hp) as Hnd.
  assert (path t_next (<[q := u']> tm) head (l1 ++ q :: l2)) as Hts
    by exact (path_unlink _ _ _ _ _ _ Htp T1 _ _ _ Hp).
  split; [split; try done|].
  - intros x [e [[-> _]|[_ Hx]]%lookup_insert_Some]; apply Ht; eauto.
  - intros tp' x s [[-> <-]|[_ Hx]]%lookup_insert_Some; [|by eauto]. rewrite T3. by eapply Hsf.
  - by eexists.
  - intros tp' x [[-> <-]|[_ Hx]]%lookup_insert_Some; [|by eauto]. unfold calls_of. rewrite T2. by apply Hcs.
  - intros tp' x s d [[-> <-]|[_ Hx]]%lookup_insert_Some; [|by eauto]. rewrite T3. by apply Hs.
  - intros ts' H'. rewrite (path_det _ _ _ _ _ H' Hts). clear -Hnd.
    apply NoDup_app in Hnd as (_ & H1 & H2). do 2 apply NoDup_cons in H2 as [? H2]. set_solver.
Qed.
End Steps.

(** ** The lists of a state *)

Fixpoint nodes {A} (next : A → option nat) (m : gmap nat A) (fuel : nat) (o : option nat) : list nat :=
  match fuel, o with
  | S fuel, Some p => match m !! p with Some a => p :: nodes next m fuel (next a) | None => [] end
  | _, _ => []
  end.
Lemma nodes_path {A} (next : A → option nat) m ps : ∀ fuel o,
  path next m o ps → (length ps <= fuel)%nat → nodes next m fuel o = ps.
Proof.
  induction ps as [|p ps IH]; intros [|fuel] o Hp Hf; cbn in *; try lia; [done|by rewrite Hp|].
  destruct Hp as (-> & a & -> & Hp). f_equal. apply IH; [done|lia].
Qed.
(** The tunnels, and the calls of a tunnel. *)
Definition tunnel_list (w : world) : list nat := nodes t_next (w_tunnels w) (size (w_tunnels w)) (w_head w).
Definition call_list (w : world) (p : nat) : list nat :=
  match w_tunnels w !! p with
  | Some t => nodes c_next (w_calls w) (size (w_calls w)) (t_call_head t)
  | None => []
  end.
Lemma path_size {A} (next : A → option nat) m o ps : path next m o ps → (length ps <= size m)%nat.
Proof. intros H. apply keys_le_size; [by eapply path_nodup|by eapply path_dom]. Qed.

Section Lists.
Context (w : world) (Hok : heap_ok (w_head w) (w_fresh w) (w_tunnels w) (w_calls w)).
Lemma tunnel_list_path : path t_next (w_tunnels w) (w_head w) (tunnel_list w).
Proof.
  destruct (hp_tunnels _ _ _ _ Hok) as [ts Hts]. pose proof (path_size _ _ _ _ Hts).
  unfold tunnel_list. by rewrite (nodes_path _ _ ts).
Qed.
Lemma call_list_of p t : w_tunnels w !! p = Some t → calls_of (w_calls w) p t (call_list w p).
Proof.
  intros Ht. destruct (hp_calls _ _ _ _ Hok p t Ht) as [cs [Hp Hcs]]. pose proof (path_size _ _ _ _ Hp).
  unfold call_list. rewrite Ht, (nodes_path _ _ cs) by done. done.
Qed.
Lemma heap_lists_ok : lists_ok w (tunnel_list w) (call_list w).
Proof.
  split; [apply tpath_path, tunnel_list_path|]. intros p t _ Ht. apply cpath_path. by apply call_list_of.
Qed.
Lemma call_list_nodup p : NoDup (call_list w p).
Proof.
  destruct (w_tunnels w !! p) as [t|] eqn:Ht; [|unfold call_list; rewrite Ht; constructor].
  destruct (call_list_of p t Ht) as [Hp _]. by eapply path_nodup.
Qed.
Lemma call_list_container p q : q ∈ call_list w p → ∃ c, w_calls w !! q = Some c ∧ c_container c = Some p.
Proof.
  intros Hq. destruct (w_tunnels w !! p) as [t|] eqn:Ht.
  - destruct (call_list_of p t Ht) as [Hp Hc]. destruct (path_dom _ _ _ _ Hp q Hq) as [c Hcq]. eauto.
  - revert Hq. unfold call_list. rewrite Ht. by intros ?%elem_of_nil.
Qed.
End Lists.

(** ** The loops that unlink *)

Lemma unlink_call_wlp w cp next fuel : ∀ p rest, path c_next (w_calls w) (Some p) (p :: rest) →
  wlp (unlink_call fuel p cp next) (λ (found : bool) w', if found
    then ∃ l1 q qc l2, p :: rest = l1 ++ q :: cp :: l2 ∧ w_calls w !! q = Some qc ∧
           w' = set_c q { qc with c_next := next } w
    else w' = w ∧ cp ∉ rest) w.
Proof.
  induction fuel as [|fuel IH]; intros p rest Hp; cbn [unlink_call]; wlp1.
  destruct Hp as (_ & pc & Hpc & Hr). wlps. simplify_eq. destruct (c_next pc) as [q|] eqn:En.
  - destruct rest as [|r rest]; [done|]. pose proof Hr as ([= <-] & _).
    destruct (Nat.eqb_spec q cp) as [->|Hne].
    + wlps. exists [], p, pc, rest. simplify_eq. done.
    + eapply wlp_mono; [apply (IH q rest Hr)|]. intros [|] w'; cbn.
      * intros (l1 & q' & qc & l2 & -> & ? & ->). by exists (p :: l1), q', qc, l2.
      * set_solver.
  - destruct rest as [|r rest]; [|by destruct Hr]. wlps. split; [done|]. by intros ?%elem_of_nil.
Qed.
Lemma unlink_tunnel_wlp w tp next fuel : ∀ p rest, path t_next (w_tunnels w) (Some p) (p :: rest) →
  wlp (unlink_tunnel fuel p tp next) (λ (found : bool) w', if found
    then ∃ l1 q qt l2, p :: rest = l1 ++ q :: tp :: l2 ∧ w_tunnels w !! q = Some qt ∧
           w' = set_t q { qt with t_next := next } w
    else w' = w ∧ tp ∉ rest) w.
Proof.
  induction fuel as [|fuel IH]; intros p rest Hp; cbn [unlink_tunnel]; wlp1.
  destruct Hp as (_ & pc & Hpc & Hr). wlps. simplify_eq. destruct (t_next pc) as [q|] eqn:En.
  - destruct rest as [|r rest]; [done|]. pose proof Hr as ([= <-] & _).
    destruct (Nat.eqb_spec q tp) as [->|Hne].
    + wlps. exists [], p, pc, rest. simplify_eq. done.
    + eapply wlp_mono; [apply (IH q rest Hr)|]. intros [|] w'; cbn.
      * intros (l1 & q' & qc & l2 & -> & ? & ->). by exists (p :: l1), q', qc, l2.
      * set_solver.
  - destruct rest as [|r rest]; [|by destruct Hr]. wlps. split; [done|]. by intros ?%elem_of_nil.
Qed.

End Heap.
