(* ===== verification/Invariant.v ===== *)
(** * An invariant of the whole daemon

    [world_ok] relates the parts of the daemon's state: the event queue is
    ordered and its entries are distinct, the table of reserved addresses is
    well formed, the sequence numbers of the control connections are 16-bit
    numbers, the lists of tunnels and calls are well formed (Heap.v); in its
    strict form, [world_ok true], no LNS has a range of local addresses, and
    every address a call holds is reserved and held by no other call.
    Every operation of the other files keeps both forms ([pres]); the operations
    that break the strict one in the middle ([destroy_call], which gives an
    address back before it frees the call, and [assign_addr]) are treated with
    the weaker [world_ok sm (Some cp)], which says nothing of the address of
    call [cp]. *)

From S2P Require Import Prelude.
From S2P Require Import Scheduler.
From S2P Require Import Buffer.
From S2P Require Import AvpSend.
From S2P Require Import State.
From S2P Require Import Ppp.
From S2P Require Import AddrPool.
From S2P Require Import Auth.
From S2P Require Import Logic.
From S2P Require Import Calls.
From S2P Require Import Pppd.
From S2P Require Import Messages.
From S2P Require Import Avp.
From S2P Require Import Finish.
From S2P Require Import Packet.
From S2P Require Import Heap.
From stdpp Require Import sorting.

Module Invariant.
Import Scheduler Buffer AvpSend State Ppp AddrPool Auth Logic Calls Pppd Messages Avp Finish Packet Heap.
Open Scope Z_scope.

Definition seq_ok (t : tunnel) : Prop := is_u16 (t_control_seq_num t) ∧ is_u16 (t_control_rec_seq_num t).

Record world_ok (sm : bool) (ex : option nat) (w : world) : Prop := {
  wk_clock : ∀ k, tv_clock (e_now (w_env w) k);
  wk_queue : queue_ok (w_events w);
  wk_fresh : Forall (λ e, (se_ptr e < w_fresh w)%nat) (w_events w);
  wk_table : table_ok (w_uaddr w);
  wk_ranges : sm = true → ∀ p l, w_lnss w !! p = Some l → lns_localrange l = [];
  wk_held : sm = true → ∀ p c, w_calls w !! p = Some c → Some p ≠ ex → c_addr c ≠ 0 → in_use (w_uaddr w) (ntohl (c_addr c));
  wk_apart : sm = true → ∀ p q c d, w_calls w !! p = Some c → w_calls w !! q = Some d → p ≠ q →
    c_addr c ≠ 0 → c_addr d ≠ 0 → ntohl (c_addr c) ≠ ntohl (c_addr d);
  wk_seq : ∀ p t, w_tunnels w !! p = Some t → seq_ok t;
  wk_heap : heap_ok (w_head w) (w_fresh w) (w_tunnels w) (w_calls w) }.

(** ** The primitives *)

(** Assignments to parts of the state the invariant does not mention. *)
Ltac frame := intros [? ? ? ? ? ? ? ? ?]; by split.

Lemma lookup_insert_Some_case {A} (m : gmap nat A) i j a b :
  <[i := a]> m !! j = Some b → (i = j ∧ a = b) ∨ (i ≠ j ∧ m !! j = Some b).
Proof. apply lookup_insert_Some. Qed.

Section Primitives.
Context {sm : bool} (ex : option nat).

Lemma wok_links_t p t' w : world_ok sm ex w → seq_ok t' →
  heap_ok (w_head w) (w_fresh w) (<[p := t']> (w_tunnels w)) (w_calls w) → world_ok sm ex (set_t p t' w).
Proof.
  intros [? ? ? ? ? ? ? Hs _] Hseq Hheap. split; try done; cbn.
  intros q t1 [[-> <-]|[_ Hq]]%lookup_insert_Some_case; eauto.
Qed.
Lemma wok_mod_t p f : (∀ t, seq_ok t → seq_ok (f t)) → (∀ t, tlinks (f t) = tlinks t) → pres (world_ok sm ex) (mod_t p f).
Proof.
  intros Hf Hl w a w' Hw. unfold mod_t. destruct (w_tunnels w !! p) as [t|] eqn:Et; [|done].
  intros [= _ <-]. apply wok_links_t; [done|by eapply Hf, wk_seq|].
  eapply heap_set_t; [by eapply wk_heap|done|apply Hl].
Qed.

(** A call is replaced by one with the same address and links. *)
Definition ckeys (c : call) := (c_addr c, clinks c).
Lemma apart_set_c p c c' w : world_ok sm ex w → w_calls w !! p = Some c → c_addr c' = c_addr c → sm = true → ∀ q r d e,
  w_calls (set_c p c' w) !! q = Some d → w_calls (set_c p c' w) !! r = Some e → q ≠ r →
  c_addr d ≠ 0 → c_addr e ≠ 0 → ntohl (c_addr d) ≠ ntohl (c_addr e).
Proof.
  intros [? ? ? ? ? _ Ha ? _] Hc E Hsm. cbn. specialize (Ha Hsm).
  intros q r d e [[-> <-]|[? Hq]]%lookup_insert_Some_case [[-> <-]|[? Hr]]%lookup_insert_Some_case;
    rewrite ?E; eauto; congruence.
Qed.
Lemma wok_links_c p c c' w : world_ok sm ex w → w_calls w !! p = Some c → c_addr c' = c_addr c →
  heap_ok (w_head w) (w_fresh w) (w_tunnels w) (<[p := c']> (w_calls w)) → world_ok sm ex (set_c p c' w).
Proof.
  intros Hw Hc E Hheap. pose proof (apart_set_c p c c' w Hw Hc E) as Hap.
  destruct Hw as [? ? ? ? ? Hh Ha ? _]. split; try done; cbn.
  intros Hsm q d [[-> <-]|[_ Hq]]%lookup_insert_Some_case; [|by eauto]. rewrite E. by apply Hh.
Qed.
Lemma wok_set_c p c c' w :
  world_ok sm ex w → w_calls w !! p = Some c → ckeys c' = ckeys c → world_ok sm ex (set_c p c' w).
Proof.
  intros Hw Hc [= E E1 E2]. eapply wok_links_c; [done..|]. eapply heap_set_c; [by eapply wk_heap|done|].
  unfold clinks. congruence.
Qed.
Lemma wok_mod_c p f : (∀ c, ckeys (f c) = ckeys c) → pres (world_ok sm ex) (mod_c p f).
Proof.
  intros Hf w a w' Hw. unfold mod_c. destruct (w_calls w !! p) as [c|] eqn:Ec; [|done].
  intros [= _ <-]. by eapply wok_set_c.
Qed.

(** A new call holds no address and is on no list. *)
Lemma wok_add_c c w : world_ok sm ex w → c_addr c = 0 → is_Some (c_container c) →
  world_ok sm ex { w with w_fresh := S (w_fresh w); w_calls := <[w_fresh w := c]> (w_calls w) } ∧
  c_unlinked (w_tunnels w) (<[w_fresh w := c]> (w_calls w)) (w_fresh w).
Proof.
  intros [? ? Hf ? ? Hh Ha ? Hheap] E Hsome. destruct (heap_add_c _ _ _ _ Hheap c Hsome) as [Hheap' Hu].
  split; [|done]. split; try done; cbn.
  - eapply Forall_impl; [exact Hf|]. cbn. lia.
  - intros Hsm q d [[<- <-]|[_ Hq]]%lookup_insert_Some_case; [|by eauto]. congruence.
  - intros Hsm q r d e [[<- <-]|[? Hq]]%lookup_insert_Some_case [[<- <-]|[? Hr]]%lookup_insert_Some_case; eauto; congruence.
Qed.
(** A new tunnel is on no list and has no calls. *)
Lemma wok_add_t t w : world_ok sm ex w → seq_ok t → t_call_head t = None → t_self t = None →
  world_ok sm ex { w with w_fresh := S (w_fresh w); w_tunnels := <[w_fresh w := t]> (w_tunnels w) } ∧
  t_unlinked (w_head w) (<[w_fresh w := t]> (w_tunnels w)) (w_fresh w).
Proof.
  intros [? ? Hf ? ? ? ? Hs Hheap] Ht H1 H2. destruct (heap_add_t _ _ _ _ Hheap t H1 H2) as [Hheap' Hu].
  split; [|done]. split; try done; cbn.
  - eapply Forall_impl; [exact Hf|]. cbn. lia.
  - intros q t' [[<- <-]|[_ Hq]]%lookup_insert_Some_case; eauto.
Qed.
Lemma wok_del_t (p : nat) (w : world) : t_unlinked (w_head w) (w_tunnels w) p →
  world_ok sm ex w → world_ok sm ex { w with w_tunnels := delete p (w_tunnels w) }.
Proof.
  intros Hu [? ? ? ? ? ? ? Hs Hheap]. split; try done; cbn; [|by apply heap_del_t].
  intros q t' [_ Hq]%lookup_delete_Some. eauto.
Qed.

(** A call on no list, of tunnel [tp]. *)
Definition fresh_call (tp p : nat) (w : world) : Prop :=
  c_unlinked (w_tunnels w) (w_calls w) p ∧ ∃ c, w_calls w !! p = Some c ∧ c_container c = Some tp.
(** It is put on the list of its tunnel. *)
Lemma wok_link_c cp c c' tp t t' w :
  world_ok sm ex w → fresh_call tp cp w → w_calls w !! cp = Some c → w_tunnels w !! tp = Some t →
  (c_addr c', c_next c', c_container c') = (c_addr c, t_call_head t, c_container c) →
  (t_next t', t_call_head t', t_self t') = (t_next t, Some cp, t_self t) → seq_ok t' →
  world_ok sm ex (set_t tp t' (set_c cp c' w)).
Proof.
  intros Hw [Hu (c1 & Hc1 & Hcont)] Hc Ht [= C1 C2 C3] Et Hseq. assert (c1 = c) as -> by congruence.
  pose proof (apart_set_c cp c c' w Hw Hc C1) as Hap. destruct Hw as [? ? ? ? ? Hh Ha Hs Hheap]. split; try done; cbn.
  - intros Hsm q d [[-> <-]|[_ Hq]]%lookup_insert_Some_case; [|by eauto]. rewrite C1. by apply Hh.
  - intros q t1 [[-> <-]|[_ Hq]]%lookup_insert_Some_case; eauto.
  - eapply heap_link_c; eauto. congruence.
Qed.

(** The control call of a tunnel. *)
Lemma wok_set_self p t t' s c w :
  world_ok sm ex w → w_tunnels w !! p = Some t → w_calls w !! s = Some c → c_container c = Some p →
  (t_next t', t_call_head t', t_self t') = (t_next t, t_call_head t, Some s) → seq_ok t' → world_ok sm ex (set_t p t' w).
Proof.
  intros Hw Ht Hc Hcont Hl Hseq. apply wok_links_t; [done..|]. eapply heap_set_self; [by eapply wk_heap|done..].
Qed.

Lemma wok_mod_lns p f : (∀ l, lns_localrange (f l) = lns_localrange l) → pres (world_ok sm ex) (mod_lns p f).
Proof.
  intros Hf w a w' Hw. unfold mod_lns. destruct (w_lnss w !! p) as [l|] eqn:El; [|done].
  intros [= _ <-]. destruct Hw as [? ? ? ? Hr ? ? ? ?]. split; try done. cbn.
  intros Hsm q l' [[-> <-]|[_ Hq]]%lookup_insert_Some_case; [|by eauto]. rewrite Hf. eauto.
Qed.
Lemma wok_mod_lac p f : pres (world_ok sm ex) (mod_lac p f).
Proof.
  intros w a w' Hw. unfold mod_lac. destruct (w_lacs w !! p); [|done]. intros [= _ <-]. revert Hw. frame.
Qed.

Lemma wok_ask {A} (f : env → nat → A) : pres (world_ok sm ex) (ask f).
Proof. intros w a w' Hw. unfold ask. intros [= _ <-]. revert Hw. frame. Qed.
Lemma wok_alloc : pres (world_ok sm ex) alloc.
Proof.
  intros w a w' [? ? Hf ? ? ? ? ? ?]. unfold alloc. intros [= _ <-]. split; try done; cbn; [|by apply heap_alloc].
  eapply Forall_impl; [exact Hf|]. cbn. lia.
Qed.
Lemma wok_sys s : pres (world_ok sm ex) (sys s).
Proof. intros w a w' Hw. intros [= _ <-]. revert Hw. frame. Qed.
Lemma wok_sys_ s : pres (world_ok sm ex) (sys_ s).
Proof. intros w a w' Hw. intros [= _ <-]. revert Hw. frame. Qed.
Lemma wok_emit o : pres (world_ok sm ex) (emit o).
Proof. apply pres_upd. intros w. frame. Qed.

(** ** The queue *)

Lemma sublist_sorted {job} (l1 l2 : list (schedule_entry job)) :
  sublist l1 l2 → StronglySorted before l2 → StronglySorted before l1.
Proof.
  induction 1 as [|e l1 l2 Hsub IH|e l1 l2 Hsub IH]; intros Hs; [done| |].
  - inversion_clear Hs as [|? ? Hs' Hall]. constructor; [by apply IH|].
    rewrite Forall_forall in Hall |- *. intros y Hy. apply Hall. by eapply sublist_subseteq.
  - inversion_clear Hs. by apply IH.
Qed.
Lemma Forall_sublist {A} (P : A → Prop) l1 l2 : Forall P l2 → sublist l1 l2 → Forall P l1.
Proof. rewrite !Forall_forall. intros H Hs y Hy. apply H. by eapply sublist_subseteq. Qed.
Lemma wok_sublist es (w : world) : sublist es (w_events w) → world_ok sm ex w → world_ok sm ex { w with w_events := es }.
Proof.
  intros Hsub [? [Hs Hr Hp] Hf ? ? ? ? ? Hheap]. split; try done; cbn.
  - split; [by eapply sublist_sorted| |].
    + eapply Forall_sublist; [exact Hr|done].
    + eapply sublist_NoDup; [exact Hp|]. by apply fmap_sublist.
  - eapply Forall_sublist; [exact Hf|done].
Qed.

Lemma remove_entry_sublist s (es : list (schedule_entry job)) : sublist (remove_entry s es) es.
Proof. induction es as [|e es IH]; cbn; [constructor|]. case_match; by constructor. Qed.
Lemma filter_sublist {A} (f : A → bool) (es : list A) : sublist (List.filter f es) es.
Proof. induction es as [|e es IH]; cbn; [constructor|]. destruct (f e); by constructor. Qed.

Lemma wok_deschedule s : pres (world_ok sm ex) (Mdeschedule s).
Proof.
  apply pres_upd. intros w Hw. apply wok_sublist; [|done].
  destruct s; [apply remove_entry_sublist|reflexivity].
Qed.
Lemma wok_deschedule_tunnel tp : pres (world_ok sm ex) (deschedule_tunnel tp).
Proof. apply pres_upd. intros w. apply wok_sublist, filter_sublist. Qed.

Lemma insert_entry_Forall {job} (P : schedule_entry job → Prop) e es :
  P e → Forall P es → Forall P (insert_entry e es).
Proof.
  intros He. induction 1 as [|a es Ha Hes IH]; cbn; [by constructor|]. case_match; by repeat constructor.
Qed.
Lemma wok_schedule s j : pres (world_ok sm ex) (Mschedule (Tv s 0) j).
Proof.
  intros w a w' [Hc Hq Hf ? ? ? ? ? Hheap]. unfold Mschedule, mbind, M_bind, ask, alloc, upd, mret, M_ret. cbn.
  intros [= _ <-]. split; try done; cbn.
  - apply insert_entry_ok; [done|by apply schedule_time_ok|]. cbn. intros (e & He & Hin)%list_elem_of_fmap.
    rewrite Forall_forall in Hf. apply Hf in Hin. lia.
  - apply insert_entry_Forall; cbn; [lia|]. eapply Forall_impl; [exact Hf|]. cbn. lia.
  - by apply heap_alloc.
Qed.

End Primitives.
#[export] Hint Resolve wok_mod_lac wok_sys wok_sys_ wok_ask wok_alloc wok_emit wok_deschedule wok_deschedule_tunnel wok_schedule : pres.
Ltac keeps_seq := intros ? [? ?]; split; cbn; auto with l2tp.
#[export] Hint Extern 1 (pres (world_ok _ _) (mod_t _ _)) => apply wok_mod_t; [solve [keeps_seq]|intros; reflexivity] : pres.
#[export] Hint Extern 1 (pres (world_ok _ _) (mod_c _ _)) => apply wok_mod_c; solve [intros; reflexivity] : pres.
#[export] Hint Extern 1 (pres (world_ok _ _) (mod_lns _ _)) => apply wok_mod_lns; solve [intros; reflexivity] : pres.
#[export] Hint Extern 1 (pres (world_ok _ _) (upd _)) => apply pres_upd; intro; solve [frame] : pres.

(** ** Operations that leave the addresses alone *)

Section Operations.
Context {sm : bool} (ex : option nat).

Lemma wok_set_error cp e m : pres (world_ok sm ex) (set_error cp e m).
Proof. unfold set_error. pres. Qed.
Lemma wok_malloc n : pres (world_ok sm ex) (Mmalloc n).
Proof. unfold Mmalloc. pres. Qed.
Lemma wok_get_entropy b n : pres (world_ok sm ex) (get_entropy b n).
Proof. unfold get_entropy. pres. Qed.
#[local] Hint Resolve wok_set_error wok_malloc wok_get_entropy : pres.
Lemma wok_new_outgoing tp : pres (world_ok sm ex) (Mnew_outgoing tp).
Proof. unfold Mnew_outgoing. pres. Qed.
Lemma wok_random_id : pres (world_ok sm ex) random_id.
Proof. unfold random_id. pres. Qed.
#[local] Hint Resolve wok_new_outgoing wok_random_id : pres.
(** An answer of the environment that does not matter. *)
Definition after_asks (k : nat) (w : world) : world := { w with w_clk := k }.
Lemma wlp_ask_any {A} (f : env → nat → A) (Q : A → world → Prop) w : (∀ a k, Q a (after_asks k w)) → wlp (ask f) Q w.
Proof. intros HQ. apply wlp_ask, HQ. Qed.
Lemma wlp_ask_again {A} (f : env → nat → A) (Q : A → world → Prop) k w :
  (∀ a k, Q a (after_asks k w)) → wlp (ask f) Q (after_asks k w).
Proof. intros HQ. apply wlp_ask, HQ. Qed.
Ltac wlp_any := repeat first [apply wlp_ask_again; intros ? ? | apply wlp_ask_any; intros ? ? | wlp1]; cbv beta.
Lemma wok_after_asks k w : world_ok sm ex w → world_ok sm ex (after_asks k w).
Proof. frame. Qed.

Lemma new_call_wlp tp w : world_ok sm ex w →
  wlp (new_call tp) (λ o w', world_ok sm ex w' ∧ w_tunnels w' = w_tunnels w ∧ w_head w' = w_head w ∧
    ∀ p, o = Some p → fresh_call tp p w') w.
Proof.
  intros Hw. unfold new_call, Mmalloc. wlp_any. destruct a; wlp_any; [|split_and!; [by apply wok_after_asks|done..]].
  apply wlp_mono with (Q := λ _ w1, ∃ k, w1 = after_asks k w).
  { destruct (t_self _); unfold random_id, get_entropy; wlp_any; by eexists. }
  intros ourcid w1 [k1 ->]. wlp_any. cbv zeta. wlp_any.
  match goal with |- context [<[_ := ?c]> _] => destruct (wok_add_c (sm := sm) ex c (after_asks k0 w)) as [Hw1 Hu] end;
    [by apply wok_after_asks|done|by eexists|].
  split_and!; [exact Hw1|done|done|]. intros p [= <-]. split; [exact Hu|]. eexists. split; [apply lookup_insert_eq|done].
Qed.
Lemma wok_new_call tp : pres (world_ok sm ex) (new_call tp).
Proof. intros w r w' Hw E. by apply (new_call_wlp tp w Hw) in E as (? & _). Qed.
#[local] Hint Resolve wok_new_call : pres.
Lemma new_tunnel_wlp w : world_ok sm ex w →
  wlp new_tunnel (λ o w', world_ok sm ex w' ∧ ∀ p, o = Some p → t_unlinked (w_head w') (w_tunnels w') p) w.
Proof.
  intros Hw. unfold new_tunnel, Mmalloc, random_id, get_entropy. wlp_any.
  destruct a; wlp_any; [|split; [by apply wok_after_asks|done]].
  match goal with |- context [<[_ := ?t0]> _] =>
    assert (seq_ok t0 ∧ t_call_head t0 = None ∧ t_self t0 = None) as (Ht1 & Ht2 & Ht3) by done;
    revert Ht1 Ht2 Ht3; generalize t0 end.
  intros t Ht1 Ht2 Ht3. destruct (wok_add_t (sm := sm) ex t (after_asks k2 w)) as [Hw1 Hu]; [by apply wok_after_asks|done..|].
  eapply wlp_mono; [apply new_call_wlp, Hw1|]. intros [s|] w2 (Hw2 & Et & Eh & Hs).
  - destruct (Hs s eq_refl) as [_ (c & Hc & Hcont)]. clear Hs. wlp_any.
    cbn in H1. rewrite Et in H1. cbn in H1. rewrite lookup_insert_eq in H1. injection H1 as <-.
    set (p := w_fresh w) in *. assert (w_tunnels w2 !! p = Some t) as Ht by (rewrite Et; apply lookup_insert_eq).
    assert (c0 = c) as -> by congruence. split.
    + eapply wok_set_self; [|exact Ht|apply set_c_eq|exact Hcont|done|exact Ht1].
      apply wok_after_asks. by eapply wok_set_c; [|exact Hc|].
    + intros p' [= <-]. eapply t_unlinked_set; [exact Ht|done|]. cbn. rewrite Et, Eh. exact Hu.
  - wlps. split; [|done]. apply wok_del_t; [|done]. rewrite Et, Eh. exact Hu.
Qed.
Lemma wok_new_tunnel : pres (world_ok sm ex) new_tunnel.
Proof. intros w r w' Hw E. by apply (new_tunnel_wlp w Hw) in E as (? & _). Qed.
#[local] Hint Resolve wok_new_tunnel : pres.
Lemma wok_find_tunnel fuel test : ∀ o, pres (world_ok sm ex) (find_tunnel fuel test o).
Proof. induction fuel as [|fuel IH]; intros o; cbn; pres. Qed.
Lemma wok_find_call fuel test : ∀ o, pres (world_ok sm ex) (find_call fuel test o).
Proof. induction fuel as [|fuel IH]; intros o; cbn; pres. Qed.
#[local] Hint Resolve wok_find_tunnel wok_find_call : pres.
Lemma wok_get_tunnel tid : pres (world_ok sm ex) (get_tunnel tid).
Proof. unfold get_tunnel, tunnel_fuel. pres. Qed.
Lemma wok_get_call t c a p m h : pres (world_ok sm ex) (get_call t c a p m h).
Proof.
  unfold get_call, tunnel_fuel, call_fuel. destruct (truthy t); [by pres|]. destruct (truthy c); [by pres|].
  apply pres_wlp. intros w Hw. wlp1. eapply wlp_mono; [apply new_tunnel_wlp, Hw|].
  intros [q|] w1 [Hw1 Hu]; wlps; [|done]. specialize (Hu q eq_refl).
  destruct Hw1 as [? ? ? ? ? ? ? Hs Hheap]. split; try done; cbn.
  - intros q' x [[<- <-]|[_ Hq]]%lookup_insert_Some_case; [|by eauto].
    match goal with H : w_tunnels w1 !! q = Some ?t0 |- _ => exact (Hs q t0 H) end.
  - by eapply heap_link_t.
Qed.
Lemma wok_add_control_hdr tp cp b : pres (world_ok sm ex) (add_control_hdr tp cp b).
Proof. unfold add_control_hdr. pres. Qed.
Lemma wok_udp_xmit b tp : pres (world_ok sm ex) (udp_xmit b tp).
Proof. unfold udp_xmit. pres. Qed.
#[local] Hint Resolve wok_get_tunnel wok_get_call wok_add_control_hdr wok_udp_xmit : pres.
Lemma wok_control_zlb b tp cp : pres (world_ok sm ex) (control_zlb b tp cp).
Proof. unfold control_zlb. pres. Qed.
Lemma wok_redial lp : pres (world_ok sm ex) (redial lp).
Proof. unfold redial. pres. Qed.
#[local] Hint Resolve wok_control_zlb wok_redial : pres.
(** Afterwards the call is on no list. *)
Lemma remove_from_container_wlp cp c c1 w : world_ok sm ex w → w_calls w !! cp = Some c1 → clinks c1 = clinks c →
  wlp (remove_from_container cp c) (λ _ w', world_ok sm ex w' ∧ c_unlinked (w_tunnels w') (w_calls w') cp) w.
Proof.
  intros Hw Hc1 [= E1 E2]. unfold remove_from_container, call_fuel.
  destruct (c_container c) as [tp|] eqn:Econ; wlps.
  2:{ split; [done|]. apply (c_unlinked_own _ _ _ c1 Hc1). congruence. }
  destruct (hp_calls _ _ _ _ (wk_heap sm ex w Hw) tp t H) as [cs Hcs].
  assert (cp ∉ cs → c_unlinked (w_tunnels w) (w_calls w) cp) as Hout.
  { intros Hout. apply (c_unlinked_own _ _ _ c1 Hc1). intros tp' t' cs' Hcp Ht' [Hp' _].
    assert (tp' = tp) as -> by congruence. assert (t' = t) as -> by congruence.
    destruct Hcs as [Hp _]. by rewrite (path_det _ _ _ _ _ Hp' Hp). }
  pose proof Hcs as [Hp _]. destruct (t_call_head t) as [p|] eqn:Eh; wlps.
  2:{ destruct cs as [|x cs]; [|by destruct Hp]. split; [done|]. apply Hout. by intros ?%elem_of_nil. }
  destruct (Nat.eqb_spec p cp) as [->|Hne]; wlps.
  - assert (t0 = t) as -> by congruence.
    destruct (heap_first_c _ _ _ _ (wk_heap sm ex w Hw) cp c1 tp t
      { t with t_call_head := c_next c; t_count := t_count t - 1 }) as [Hheap Hu]; [done..|cbn; congruence|].
    split; [|exact Hu]. apply wok_links_t; [done|exact (wk_seq sm ex w Hw tp t H)|done].
  - destruct cs as [|x cs]; [done|]. pose proof Hp as ([= <-] & _).
    eapply wlp_mono; [exact (unlink_call_wlp w cp (c_next c) _ p cs Hp)|]. intros [|] w1; cbn [when].
    + intros (l1 & q & qc & l2 & El & Hq & ->). wlps. cbn in H0. assert (t0 = t) as -> by congruence.
      rewrite El in Hcs. destruct (heap_later_c _ _ _ _ (wk_heap sm ex w Hw) cp c1 q qc
        { qc with c_next := c_next c } tp t l1 l2) as [Hheap Hu]; [done..|cbn; congruence|].
      split; [|by eapply c_unlinked_set_t]. apply wok_links_t; [by eapply wok_links_c|exact (wk_seq sm ex w Hw tp t H)|].
      by eapply heap_set_t.
    + intros [-> Hnin]. wlps. split; [done|]. apply Hout. set_solver.
Qed.
Lemma remove_from_tunnels_wlp tp t w : world_ok sm ex w → w_tunnels w !! tp = Some t →
  wlp (remove_from_tunnels tp t) (λ _ w', world_ok sm ex w' ∧ t_unlinked (w_head w') (w_tunnels w') tp) w.
Proof.
  intros Hw Ht. unfold remove_from_tunnels, tunnel_fuel. wlps. case_bool_decide as Eh; wlps.
  - destruct (heap_first_t _ _ _ _ (wk_heap sm ex w Hw) tp t Eh Ht) as [Hheap Hu]. split; [|exact Hu].
    destruct Hw. by split.
  - destruct (hp_tunnels _ _ _ _ (wk_heap sm ex w Hw)) as [ts Hts].
    assert (tp ∉ ts → t_unlinked (w_head w) (w_tunnels w) tp) as Hout.
    { intros Hout ts' H'. by rewrite (path_det _ _ _ _ _ H' Hts). }
    destruct (w_head w) as [p|] eqn:Ehead; wlps.
    2:{ destruct ts as [|x ts]; [|by destruct Hts]. rewrite Ehead. split; [done|]. apply Hout. by intros ?%elem_of_nil. }
    destruct ts as [|x ts]; [done|]. pose proof Hts as ([= <-] & _).
    eapply wlp_mono; [exact (unlink_tunnel_wlp w tp (t_next t) _ p ts Hts)|]. intros [|] w1; cbn [when].
    + intros (l1 & q & qt & l2 & El & Hq & ->). wlps. rewrite El, <-Ehead in Hts.
      destruct (heap_later_t _ _ _ _ (wk_heap sm ex w Hw) tp t q qt { qt with t_next := t_next t } l1 l2)
        as [Hheap Hu]; [done..|]. split; [|exact Hu].
      assert (world_ok sm ex (set_t q { qt with t_next := t_next t } w)) as Hw1
        by (apply wok_links_t; [done|exact (wk_seq sm ex w Hw q qt Hq)|done]).
      revert Hw1. frame.
    + intros [-> Hnin]. wlps. rewrite Ehead. split; [done|]. apply Hout. set_solver.
Qed.
Lemma wok_add_vector tp b : pres (world_ok sm ex) (add_vector tp b).
Proof. unfold add_vector, mk_challenge. pres. Qed.
Lemma wok_add_result cp b : pres (world_ok sm ex) (add_result cp b).
Proof. unfold add_result. pres. Qed.
#[local] Hint Resolve wok_add_vector wok_add_result : pres.
Lemma wok_close_notice tp cp b : pres (world_ok sm ex) (close_notice tp cp b).
Proof. unfold close_notice. pres. Qed.
Lemma wok_add_payload_hdr tp cp b : pres (world_ok sm ex) (add_payload_hdr tp cp b).
Proof. unfold add_payload_hdr. pres. Qed.
#[local] Hint Resolve wok_add_payload_hdr : pres.
Lemma wok_send_zlb cp : pres (world_ok sm ex) (send_zlb cp).
Proof. unfold send_zlb. pres. Qed.
End Operations.
#[export] Hint Resolve wok_set_error wok_malloc wok_get_entropy wok_new_outgoing wok_random_id wok_new_call
  wok_new_tunnel wok_find_tunnel wok_find_call wok_get_tunnel wok_get_call wok_add_control_hdr wok_udp_xmit
  wok_control_zlb wok_redial wok_add_vector wok_add_result
  wok_close_notice wok_add_payload_hdr wok_send_zlb : pres.

(** ** Freeing a call *)

(** The address and the links of a call in hand do not change. *)
Definition keys_are (cp : nat) (k : Z * (option nat * option nat)) (w : world) : Prop :=
  ∃ c, w_calls w !! cp = Some c ∧ ckeys c = k.
Lemma keys_upd cp k f : (∀ w, w_calls (f w) = w_calls w) → pres (keys_are cp k) (upd f).
Proof. intros Hf. apply pres_upd. intros w. unfold keys_are. by rewrite Hf. Qed.
Lemma keys_mod_c cp k p f : (∀ c, ckeys (f c) = ckeys c) → pres (keys_are cp k) (mod_c p f).
Proof.
  intros Hf. apply pres_wlp. intros w (c & Hc & Hk). wlps. unfold keys_are. cbn. destruct (decide (p = cp)) as [->|].
  - simplify_eq. rewrite lookup_insert_eq. eexists. split; [done|]. apply Hf.
  - rewrite lookup_insert_ne by done. eauto.
Qed.
Lemma keys_release cp k p c : pres (keys_are cp k) (release_call p c).
Proof.
  unfold release_call, release_addrs, Munreserve, Mdeschedule, emit.
  pres; first [by apply keys_upd|by apply keys_mod_c].
Qed.

(** Its address is given back while the call still has it. *)
Lemma wok_unreserve {sm} cp c w :
  world_ok sm None w → w_calls w !! cp = Some c → c_addr c ≠ 0 →
  world_ok sm (Some cp) { w with w_uaddr := unreserve_addr (w_uaddr w) (c_addr c) }.
Proof.
  intros [? ? ? ? ? Hh Ha ? Hheap] Hc Hn. split; try done; cbn; [by apply unreserve_addr_ok|].
  intros Hsm q d Hq Hne Hd. rewrite unreserve_addr_use. split; [by eapply Hh|].
  eapply (Ha Hsm q cp); try done. congruence.
Qed.
Lemma wok_except {sm} cp w : world_ok sm None w → world_ok sm (Some cp) w.
Proof. intros [? ? ? ? ? Hh ? ? Hheap]. split; try done. intros Hsm q c Hq _. by eapply Hh. Qed.
(** The call is gone. *)
Lemma wok_freed {sm} cp w : c_unlinked (w_tunnels w) (w_calls w) cp →
  world_ok sm (Some cp) w → world_ok sm None { w with w_calls := delete cp (w_calls w) }.
Proof.
  intros Hu [? ? ? ? ? Hh Ha ? Hheap]. split; try done; cbn; [| |by apply heap_del_c].
  - intros Hsm q d [Hne Hq]%lookup_delete_Some _. eapply Hh; [done..|]. congruence.
  - intros Hsm q r d e [_ Hq]%lookup_delete_Some [_ Hr]%lookup_delete_Some. by apply Ha.
Qed.

(** Without the claims on addresses the table may change freely. *)
Lemma wok_table {sm} ex u w : world_ok sm ex w → sm = false → table_ok u → world_ok sm ex { w with w_uaddr := u }.
Proof. intros [? ? ? ? ? ? ? ? ?] -> Hu. by split. Qed.
Lemma wok_release_addrs {sm} cp c w :
  world_ok sm None w → keys_are cp (ckeys c) w → wlp (release_addrs c) (λ _, world_ok sm (Some cp)) w.
Proof.
  intros Hw (c' & Hc & [= Ha _ _]). unfold release_addrs, Munreserve. wlps.
  assert (∀ w1, world_ok sm (Some cp) w1 → wlp
    (match c_lns c with
     | None => mret tt
     | Some lp =>
         l ← get_lnsp lp;
         when (negb (bool_decide (lns_localrange l = []))) (upd (λ w, { w with w_uaddr := unreserve_addr (w_uaddr w) (lns_localaddr l) }))
     end) (λ _, world_ok sm (Some cp)) w1) as Hrest.
  { intros w1 Hw1. destruct (c_lns c) as [lp|]; wlps; [|done]. case_bool_decide as El; [done|]. destruct sm.
    - destruct El. by eapply wk_ranges.
    - cbn [negb]. wlps. apply wok_table; [done|done|]. by apply unreserve_addr_ok, wk_table with (sm := false) (ex := Some cp). }
  destruct (truthy (c_addr c)) eqn:E.
  - wlps. apply Hrest. rewrite <-Ha. apply wok_unreserve; [done|done|]. rewrite Ha. unfold truthy in E. lia.
  - apply Hrest. by apply wok_except.
Qed.

Lemma wok_release_call {sm} cp c w :
  world_ok sm None w → w_calls w !! cp = Some c → wlp (release_call cp c) (λ _, world_ok sm (Some cp)) w.
Proof.
  intros Hw Hc. unfold release_call. wlp1.
  apply wlp_mono with (Q := λ _ w1, world_ok sm None w1 ∧ keys_are cp (ckeys c) w1).
  { wlps. destruct (0 <? c_fd c); [|by split; [|exists c]]. wlps. cbn in *. simplify_eq.
    split; [|by eexists; split; [apply set_c_eq|]].
    eapply wok_set_c; [|exact Hc|done]. revert Hw. frame. }
  intros _ w1 [Hw1 Ha1]. wlp1.
  apply wlp_mono with (Q := λ _ w2, world_ok sm None w2 ∧ keys_are cp (ckeys c) w2).
  { wlps. destruct (negb _); [|done]. unfold Mdeschedule. wlps. split; [|done].
    by apply (wok_deschedule None (c_zlb_xmit c) w1 tt). }
  intros _ w2 [Hw2 Ha2]. wlp1. wlps. eapply wlp_mono; [by apply (wok_release_addrs (sm := sm))|].
  intros [] w3 Hw3. apply wlp_pres; [|exact Hw3]. pres.
Qed.

(** Dialing again leaves tunnels and calls alone. *)
Lemma redial_lists lp x : pres (λ w, (w_head w, w_tunnels w, w_calls w) = x) (redial lp).
Proof.
  unfold redial, Mschedule. pres; try (apply pres_upd; by intros w <-); intros w r w' <-.
  all: unfold ask, alloc, mod_lac; try case_match; by intros [= _ <-].
Qed.
Lemma forget_lac_lists (o : option nat) f x : pres (λ w, (w_head w, w_tunnels w, w_calls w) = x)
  (match o with None => mret tt | Some lp => mod_lac lp f;; redial lp end).
Proof.
  pres; [|apply redial_lists]. intros w r w' <-. unfold mod_lac. case_match; [|done]. by intros [= _ <-].
Qed.

Lemma wok_destroy_call {sm} cp : pres (world_ok sm None) (destroy_call cp).
Proof.
  apply pres_wlp. intros w Hw. unfold destroy_call. wlps.
  eapply wlp_mono; [apply wlp_and; [by apply (wok_release_call (sm := sm))|apply wlp_pres; [apply (keys_release cp (ckeys c))|by eexists]]|].
  intros [] w1 [Hw1 (c1 & Hc1 & [= _ E1 E2])]. wlp1.
  eapply wlp_mono; [eapply remove_from_container_wlp; [done..|unfold clinks; congruence]|].
  intros [] w2 [Hw2 Hu]. wlp1.
  eapply wlp_mono; [apply wlp_and; [apply wlp_pres, Hw2; by pres|by apply wlp_pres; [apply forget_lac_lists|]]|].
  intros [] w3 [Hw3 [= E3 E4 E5]]. wlps. apply wok_freed; [|done]. by rewrite E4, E5.
Qed.
#[export] Hint Resolve wok_destroy_call : pres.

(** ** Closing *)

Lemma wok_destroy_calls {sm} fuel : ∀ o, pres (world_ok sm None) (destroy_calls fuel o).
Proof. induction fuel as [|fuel IH]; intros o; cbn; pres. Qed.
#[export] Hint Resolve wok_destroy_calls : pres.
(** Freeing a call leaves the list of tunnels alone. *)
Definition ring (w : world) : option nat * gmap nat (option nat) := (w_head w, t_next <$> w_tunnels w).
Lemma ring_upd x f : (∀ w, ring (f w) = ring w) → pres (λ w, ring w = x) (upd f).
Proof. intros Hf. apply pres_upd. intros w <-. apply Hf. Qed.
Lemma ring_mod_c x p f : pres (λ w, ring w = x) (mod_c p f).
Proof. intros w r w' <-. unfold mod_c. case_match; [|done]. by intros [= _ <-]. Qed.
Lemma ring_mod_t x p f : (∀ t, t_next (f t) = t_next t) → pres (λ w, ring w = x) (mod_t p f).
Proof.
  intros Hf. apply pres_wlp. intros w <-. wlps. unfold ring. cbn. f_equal. rewrite fmap_insert, Hf.
  apply insert_id. rewrite lookup_fmap. by simplify_option_eq.
Qed.
Lemma ring_lists {A} (m : M A) x :
  (∀ x, pres (λ w, (w_head w, w_tunnels w, w_calls w) = x) m) → pres (λ w, ring w = x) m.
Proof. intros Hm w r w' <- E. apply (Hm _ w r w' eq_refl) in E as [= E1 E2 E3]. unfold ring. by rewrite E1, E2. Qed.
Lemma ring_destroy_call x cp : pres (λ w, ring w = x) (destroy_call cp).
Proof.
  assert (∀ fuel p c next, pres (λ w, ring w = x) (unlink_call fuel p c next)) as Hunlink.
  { induction fuel as [|fuel IH]; intros p c next; cbn [unlink_call]; pres; apply ring_mod_c. }
  unfold destroy_call, remove_from_container, call_fuel, release_call, release_addrs, Munreserve, Mdeschedule, emit.
  pres1; [by pres|]. cbv beta. pres1.
  { pres; first [by apply ring_upd|apply ring_mod_c]. }
  pres1. { pres; first [by apply ring_mod_t|apply Hunlink]. }
  pres1; [apply ring_lists; intros; apply forget_lac_lists|]. by apply ring_upd.
Qed.
(** A tunnel off the list is freed. *)
Lemma wok_free_tunnel {sm} me tp w : world_ok sm None w → t_unlinked (w_head w) (w_tunnels w) tp →
  wlp (destroy_call me;; upd (λ w, { w with w_tunnels := delete tp (w_tunnels w) })) (λ _, world_ok sm None) w.
Proof.
  intros Hw Hu. wlp1.
  eapply wlp_mono; [apply wlp_and; [by apply wlp_pres; [apply (wok_destroy_call (sm := sm))|]|by apply wlp_pres; [apply ring_destroy_call|]]|].
  intros [] w1 [Hw1 [= E1 E2]]. wlps. apply wok_del_t; [|done]. rewrite E1. by eapply t_unlinked_ring.
Qed.
(** A step that leaves the lists alone on the way there. *)
Lemma wok_unlinked_then {sm} tp (m k : M unit) :
  pres (world_ok sm None) m → (∀ x, pres (λ w, (w_head w, w_tunnels w, w_calls w) = x) m) →
  (∀ w, world_ok sm None w → t_unlinked (w_head w) (w_tunnels w) tp → wlp k (λ _, world_ok sm None) w) →
  ∀ w, world_ok sm None w → t_unlinked (w_head w) (w_tunnels w) tp → wlp (m;; k) (λ _, world_ok sm None) w.
Proof.
  intros H1 H2 H3 w Hw Hu. wlp1.
  eapply wlp_mono; [apply wlp_and; [by apply wlp_pres|by apply wlp_pres; [apply H2|]]|].
  intros [] w1 [Hw1 [= E1 E2 E3]]. apply H3; [done|]. by rewrite E1, E2.
Qed.
Lemma wok_destroy_tunnel {sm} tp : pres (world_ok sm None) (destroy_tunnel tp).
Proof.
  unfold destroy_tunnel, call_fuel. do 3 (pres1; [by pres|]; cbv beta zeta). apply pres_wlp. intros w Hw.
  wlp1. wlp1. wlp1. eapply wlp_mono; [by apply (remove_from_tunnels_wlp (sm := sm))|]. intros [] w1 [Hw1 Hu1].
  revert w1 Hw1 Hu1. apply wok_unlinked_then; [by pres|apply forget_lac_lists|]. apply wok_unlinked_then; [by pres| |].
  { intros x. pres. intros w1 r w2 <-. unfold mod_lns. case_match; [|done]. by intros [= _ <-]. }
  do 2 (apply wok_unlinked_then; [by pres|intros x; unfold emit; pres; by apply pres_upd|]).
  intros w1 Hw1 Hu1. wlp1. wlp1. by apply wok_free_tunnel.
Qed.
#[export] Hint Resolve wok_destroy_tunnel : pres.
Lemma wok_xmit {sm} close b : (∀ o, pres (world_ok sm None) (close o)) → pres (world_ok sm None) (xmit close b).
Proof. intros Hc. unfold xmit. pres. Qed.
Lemma wok_close_calls {sm} close fuel : (∀ o, pres (world_ok sm None) (close o)) →
  ∀ o, pres (world_ok sm None) (close_calls close fuel o).
Proof. intros Hc. induction fuel as [|fuel IH]; intros o; cbn; pres. Qed.
#[export] Hint Resolve wok_xmit wok_close_calls : pres.
Lemma wok_call_close {sm} fuel : ∀ o, pres (world_ok sm None) (call_close fuel o).
Proof. induction fuel as [|fuel IH]; intros o; cbn [call_close]; unfold close_step, call_fuel; pres. Qed.
Lemma wok_Mcall_close {sm} o : pres (world_ok sm None) (Mcall_close o).
Proof. apply wok_call_close. Qed.
#[export] Hint Resolve wok_Mcall_close : pres.
Lemma wok_control_xmit {sm} b : pres (world_ok sm None) (control_xmit b).
Proof. unfold control_xmit. auto with pres. Qed.
#[export] Hint Resolve wok_control_xmit : pres.
Lemma wok_hello {sm} tp : pres (world_ok sm None) (hello tp).
Proof. unfold hello. pres. Qed.
Lemma wok_send_control {sm} tp cp b : pres (world_ok sm None) (send_control tp cp b).
Proof. unfold send_control. pres. Qed.
#[export] Hint Resolve wok_hello wok_send_control : pres.

(** ** Attributes *)

Lemma wok_wrong_length {sm} ex cp f e n b : pres (world_ok sm ex) (wrong_length cp f e n b).
Proof. unfold wrong_length. pres. Qed.
Lemma wok_raw {sm} ex d i : pres (world_ok sm ex) (raw d i).
Proof. unfold raw. pres. Qed.
#[export] Hint Resolve wok_wrong_length wok_raw : pres.
Lemma wok_nraw {sm} ex d i : pres (world_ok sm ex) (nraw d i).
Proof. unfold nraw. pres. Qed.
Lemma wok_raw_string {sm} ex d i n : pres (world_ok sm ex) (raw_string d i n).
Proof. unfold raw_string. pres. Qed.
Lemma wok_log_msgtype {sm} ex tp cp : pres (world_ok sm ex) (log_msgtype tp cp).
Proof. unfold log_msgtype. pres. Qed.
Lemma wok_call_head {sm} ex tp : pres (world_ok sm ex) (call_head tp).
Proof. unfold call_head. pres. Qed.
#[export] Hint Resolve wok_nraw wok_raw_string wok_log_msgtype wok_call_head : pres.
Lemma wok_appropriate {sm} ex tp cp l : pres (world_ok sm ex) (appropriate tp cp l).
Proof. unfold appropriate. pres. Qed.
Lemma wok_avp_string {sm} ex d : pres (world_ok sm ex) (avp_string d).
Proof. unfold avp_string. pres. Qed.
Lemma wok_nraw32 {sm} ex d : pres (world_ok sm ex) (nraw32 d).
Proof. unfold nraw32. pres. Qed.
#[export] Hint Resolve wok_appropriate wok_avp_string wok_nraw32 : pres.
Lemma wok_checked {sm} ex tp cp l b f e n m body :
  pres (world_ok sm ex) body → pres (world_ok sm ex) (checked tp cp l b f e n m body).
Proof. intros Hb. unfold checked. pres. Qed.
Lemma wok_decrypt_avp {sm} ex p tp : pres (world_ok sm ex) (decrypt_avp p tp).
Proof. unfold decrypt_avp. pres. Qed.
Lemma wok_handle_challenge {sm} ex tp k : pres (world_ok sm ex) (handle_challenge tp k).
Proof. unfold handle_challenge, auth_names. pres. apply wok_mod_t; [intros t [? ?]|intros t]; by destruct k. Qed.
#[export] Hint Resolve wok_decrypt_avp wok_handle_challenge : pres.

(** A new call put on the list of its tunnel, and what follows. *)
Lemma wok_linked {sm A} tp p t (k : M A) w :
  world_ok sm None w → fresh_call tp p w → w_tunnels w !! tp = Some t → pres (world_ok sm None) k →
  wlp (mod_c p (λ c, { c with c_next := t_call_head t });;
       mod_t tp (λ t, { t with t_call_head := Some p; t_count := t_count t + 1 });;
       k) (λ _, world_ok sm None) w.
Proof.
  intros Hw Hp Ht Hk. wlp1. wlp1. wlp1. wlp1. cbn in *. assert (t0 = t) as -> by congruence.
  apply wlp_pres; [done|]. eapply wok_link_c; [done..|]. exact (wk_seq sm None w Hw tp t Ht).
Qed.
Lemma wok_message_type {sm} tp cp data n : pres (world_ok sm None) (message_type_avp tp cp data n).
Proof.
  unfold message_type_avp. pres1; [by pres|]. pres1; [by pres|]. cbv beta. do 2 (case_match; [by pres|]).
  do 2 (pres1; [by pres|]; cbv beta). case_match; [by pres|]. case_match; [|by pres].
  apply pres_wlp. intros w Hw. wlp1. eapply wlp_mono; [apply (new_call_wlp (sm := sm)), Hw|].
  intros [p|] w1 (Hw1 & _ & _ & Hp); [|by wlps]. wlp1. wlp1. apply wok_linked; [done|by apply Hp|done|apply pres_ret].
Qed.
Definition entry_wok {sm} (e : option (nat → nat → Z → Z → M Z) * string) : Prop :=
  match e.1 with None => True | Some h => ∀ tp cp data n, pres (world_ok sm None) (h tp cp data n) end.
Lemma avps_wok {sm} : Forall (entry_wok (sm := sm)) avps.
Proof.
  unfold avps. repeat (apply Forall_cons_2; [|]); try apply Forall_nil_2; try exact I;
    intros tp cp data n; cbn [fst].
  all: first
    [ apply pres_ret
    | apply wok_message_type
    | apply wok_checked; by pres
    | unfold result_code_avp, protocol_version_avp, rand_vector_avp, seq_reqd_avp; by pres ].
Qed.
Lemma entry_wok_at {sm} attr : entry_wok (sm := sm) (avp_entry attr).
Proof.
  unfold avp_entry. destruct (nth_in_or_default (Z.to_nat attr) avps (None, ""%string)) as [Hin| ->]; [|exact I].
  by eapply (proj1 (List.Forall_forall _ _)), Hin; apply avps_wok.
Qed.
Lemma wok_dispatch {sm} tp cp data len hid : pres (world_ok sm None) (dispatch_avp tp cp data len hid).
Proof.
  unfold dispatch_avp. do 3 (apply pres_bind; [by pres|intro]).
  match goal with |- context [avp_entry ?a] => pose proof (entry_wok_at (sm := sm) a) as H; destruct (avp_entry a) as [[h|] d] end;
    cbn in H; pres.
Qed.
#[export] Hint Resolve wok_dispatch : pres.
Lemma wok_one_avp {sm} tp cp data len first : pres (world_ok sm None) (one_avp tp cp data len first).
Proof. unfold one_avp, refuse. pres. Qed.
#[export] Hint Resolve wok_one_avp : pres.
Lemma wok_avp_loop {sm} tp cp fuel : ∀ data len first, pres (world_ok sm None) (avp_loop fuel tp cp data len first).
Proof. induction fuel as [|fuel IH]; intros data len first; cbn; pres. Qed.
Lemma wok_handle_avps {sm} b tp cp : pres (world_ok sm None) (handle_avps b tp cp).
Proof. apply wok_avp_loop. Qed.
#[export] Hint Resolve wok_handle_avps : pres.

(** ** The state machine *)

Lemma addr_loop_free u fuel e next : ∀ y a, is_u32 y →
  addr_loop fuel u y e next = Some (Some a) → ¬ in_use u (ntohl a).
Proof.
  induction fuel as [|fuel IH]; intros y a Hy; cbn [addr_loop]; [done|]. destruct (y <=? e); [|done].
  destruct (_ && _) eqn:E; [|apply IH; auto with l2tp]. intros [= <-].
  apply andb_true_iff in E as [E _]. rewrite htonl_ntohl by done. rewrite <-ip_used_spec.
  by destruct (truthy _).
Qed.
(** An address [get_addr] finds is not reserved. *)
Lemma get_addr_free u ipr : ∀ a, get_addr u ipr = Some a → a ≠ 0 → ¬ in_use u (ntohl a).
Proof.
  induction ipr as [|r ipr IH]; cbn [get_addr]; intros a; [congruence|].
  destruct (r_sense r =? SENSE_ALLOW); [|apply IH].
  destruct (addr_loop _ _ _ _ _) as [[b|]|] eqn:E; [|apply IH|done]. intros [= <-] _.
  eapply addr_loop_free; [|exact E]. apply bswap32_range.
Qed.

(** A free address is given to a call and then reserved. *)
Lemma wok_give {sm} p c a w :
  world_ok sm None w → w_calls w !! p = Some c → (a ≠ 0 → ¬ in_use (w_uaddr w) (ntohl a)) →
  world_ok sm (Some p) (set_c p { c with c_addr := a } w) ∧
  (a = 0 → world_ok sm None (set_c p { c with c_addr := a } w)).
Proof.
  intros Hw Hc Ha. assert (Hok : world_ok sm (Some p) (set_c p { c with c_addr := a } w)).
  { destruct Hw as [? ? ? ? ? Hh Hap ? Hheap]. split; try done; cbn.
    - intros Hsm q d [[-> <-]|[Hne Hq]]%lookup_insert_Some_case Hx; [congruence|]. by eapply Hh.
    - intros Hsm q r d e [[-> <-]|[Hq Hd]]%lookup_insert_Some_case [[-> <-]|[Hr He]]%lookup_insert_Some_case Hne Hd0 He0;
        cbn in *; [congruence| | |by eapply (Hap Hsm q r)].
      + intros Heq. apply (Ha Hd0). rewrite Heq. by eapply Hh.
      + intros Heq. apply (Ha He0). rewrite <-Heq. by eapply Hh.
    - by eapply heap_set_c. }
  split; [done|]. intros ->. destruct Hok as [? ? ? ? ? Hh ? ? Hheap]. split; try done.
  intros Hsm q d Hq _ Hd. revert Hq. cbn. intros [[-> <-]|[Hne Hq]]%lookup_insert_Some_case; [done|].
  apply (Hh Hsm q d); [|congruence|done]. cbn. by rewrite lookup_insert_ne.
Qed.
Lemma wok_reserve {sm} p c a w :
  world_ok sm (Some p) w → w_calls w !! p = Some c → c_addr c = a →
  world_ok sm None { w with w_uaddr := reserve_addr (w_uaddr w) a }.
Proof.
  intros [? ? ? ? ? Hh ? ? Hheap] Hc Ha. split; try done; cbn; [by apply reserve_addr_ok|].
  intros Hsm q d Hq _ Hd. rewrite reserve_addr_use. destruct (decide (q = p)) as [->|Hne].
  - right. congruence.
  - left. eapply Hh; [done|done| |done]. congruence.
Qed.
Lemma wok_assign_addr {sm} tp p : pres (world_ok sm None) (assign_addr tp p).
Proof.
  apply pres_wlp. intros w Hw.
  unfold assign_addr, Mget_addr. wlps. destruct (truthy _).
  - wlps. destruct (get_addr (w_uaddr w) _) as [a'|] eqn:Eg; wlps.
    destruct (wok_give p c a' w Hw) as [Hg Hg0]; [done|intros; by eapply get_addr_free|].
    destruct (Z.eqb_spec a' 0) as [->|Hne].
    + apply wlp_pres; [|by apply Hg0]. pres.
    + unfold Mreserve. do 2 wlp1.
      apply wlp_mono with (Q := λ _ w1, world_ok sm (Some p) w1 ∧ w_calls w1 !! p = Some { c with c_addr := a' }).
      { unfold Mmalloc. wlps. split; [revert Hg; frame|apply set_c_eq]. }
      intros m w1 [Hw1 Hc1]. wlps. by apply (wok_reserve p { c with c_addr := a' } a' w1).
  - apply wlp_pres; [|done]. pres. apply pres_wlp. intros w1 Hw1. wlps.
    by destruct (wok_give p c 0 w1 Hw1) as [_ Hz]; [done..|apply Hz].
Qed.
#[export] Hint Resolve wok_assign_addr : pres.

(** The routine does nothing when the LNS has no local range. *)
Lemma wok_get_local_addr {sm} tp cp : pres (world_ok sm None) (get_local_addr tp cp).
Proof.
  apply pres_wlp. intros w Hw.
  unfold get_local_addr. wlps. case_bool_decide as El; [by wlps|]. destruct sm; [by destruct El; eapply wk_ranges|].
  apply wlp_pres, Hw. unfold Mget_addr, Mreserve. pres.
  apply pres_upd. intros w1 Hw1. apply wok_table; [done..|]. by apply reserve_addr_ok, wk_table with (sm := false) (ex := None).
Qed.
#[export] Hint Resolve wok_get_local_addr : pres.

Lemma wok_fail_call {sm} cp e m : pres (world_ok sm None) (fail_call cp e m).
Proof. unfold fail_call. pres. Qed.
Lemma wok_own_hostname {sm} t : pres (world_ok sm None) (own_hostname t).
Proof. unfold own_hostname. pres. Qed.
#[export] Hint Resolve wok_fail_call wok_own_hostname : pres.
Lemma wok_add_tunnel_avps {sm} tp b : pres (world_ok sm None) (add_tunnel_avps tp b).
Proof. unfold add_tunnel_avps. pres. Qed.
Lemma wok_new_challenge {sm} tp : pres (world_ok sm None) (new_challenge tp).
Proof. unfold new_challenge, mk_challenge. pres. Qed.
Lemma wok_add_our_challenge {sm} tp b : pres (world_ok sm None) (add_our_challenge tp b).
Proof. unfold add_our_challenge. pres. Qed.
Lemma wok_schedule_hello {sm} tp : pres (world_ok sm None) (schedule_hello tp).
Proof. unfold schedule_hello. pres. Qed.
Lemma wok_set_nonblock {sm} fd : pres (world_ok sm None) (set_nonblock fd).
Proof. unfold set_nonblock. pres. Qed.
Lemma wok_open_first {sm} l : pres (world_ok sm None) (open_first l).
Proof. induction l as [|[a b] l IH]; cbn [open_first]; pres. Qed.
#[export] Hint Resolve wok_set_nonblock wok_open_first : pres.
Lemma wok_connect {sm} tp : pres (world_ok sm None) (connect_pppol2tp tp).
Proof. unfold connect_pppol2tp. pres. Qed.
Lemma wok_getPtyMaster {sm} n : pres (world_ok sm None) (getPtyMaster n).
Proof. unfold getPtyMaster, getPtyMaster_ptmx, getPtyMaster_pty. pres. Qed.
Lemma wok_child_calls {sm} fuel : ∀ o, pres (world_ok sm None) (child_calls fuel o).
Proof. induction fuel as [|fuel IH]; intros o; cbn [child_calls]; pres. Qed.
#[export] Hint Resolve wok_getPtyMaster wok_child_calls : pres.
Lemma wok_child_tunnels {sm} k fuel cfuel : ∀ o, pres (world_ok sm None) (child_tunnels k fuel cfuel o).
Proof. induction fuel as [|fuel IH]; intros o; cbn [child_tunnels]; pres. Qed.
#[export] Hint Resolve wok_child_tunnels : pres.
Lemma wok_pppd_child {sm} k fd2 : pres (world_ok sm None) (pppd_child k fd2).
Proof. unfold pppd_child, tunnel_fuel, call_fuel. pres. Qed.
#[export] Hint Resolve wok_pppd_child : pres.
Lemma wok_add_opt_fmt {sm} po s : pres (world_ok sm None) (add_opt_fmt po s).
Proof. unfold add_opt_fmt. pres. Qed.
Lemma wok_start_pppd {sm} cp o : pres (world_ok sm None) (start_pppd cp o).
Proof. unfold start_pppd, fork_pppd, pppox_device, tty_device. pres. Qed.
#[export] Hint Resolve wok_add_tunnel_avps wok_new_challenge wok_add_our_challenge wok_schedule_hello wok_connect
  wok_add_opt_fmt wok_start_pppd : pres.
Lemma wok_lac_auth_opts {sm} l po : pres (world_ok sm None) (lac_auth_opts l po).
Proof. unfold lac_auth_opts. pres. Qed.
Lemma wok_lns_auth_opts {sm} l po : pres (world_ok sm None) (lns_auth_opts l po).
Proof. unfold lns_auth_opts. pres. Qed.
Lemma wok_peer_opt {sm} b tp po : pres (world_ok sm None) (peer_opt b tp po).
Proof. unfold peer_opt. pres. Qed.
Lemma wok_file_opt {sm} n po : pres (world_ok sm None) (file_opt n po).
Proof. unfold file_opt. pres. Qed.
Lemma wok_password_opts {sm} lp po : pres (world_ok sm None) (password_opts lp po).
Proof. unfold password_opts. pres. Qed.
Lemma wok_inherit_config {sm} tp : pres (world_ok sm None) (inherit_config tp).
Proof. unfold inherit_config. pres. Qed.
Lemma wok_wants_challenge {sm} t : pres (world_ok sm None) (wants_challenge t).
Proof. unfold wants_challenge. pres. Qed.
Lemma wok_add_serno {sm} cp b : pres (world_ok sm None) (add_serno cp b).
Proof. unfold add_serno. pres. Qed.
#[export] Hint Resolve wok_lac_auth_opts wok_lns_auth_opts wok_peer_opt wok_file_opt wok_password_opts
  wok_inherit_config wok_wants_challenge wok_add_serno : pres.
Lemma wok_finish_none {sm} tp cp : pres (world_ok sm None) (finish_none tp cp).
Proof. unfold finish_none, start_sccrq, start_icrq, start_ocrq. pres. Qed.
Lemma wok_lns_loop {sm} addr l : ∀ allow, pres (world_ok sm None) (lns_loop addr allow l).
Proof. induction l as [|p l IH]; intros allow; cbn; pres. Qed.
#[export] Hint Resolve wok_finish_none wok_lns_loop : pres.
Lemma wok_get_lns {sm} tp : pres (world_ok sm None) (get_lns tp).
Proof. unfold get_lns. pres. Qed.
#[export] Hint Resolve wok_get_lns : pres.
Lemma wok_finish_sccrq {sm} tp cp : pres (world_ok sm None) (finish_sccrq tp cp).
Proof. unfold finish_sccrq, finish_sccrq_reply, tunnel_fuel. pres. Qed.
Lemma wok_check_their_reply {sm} tp cp : pres (world_ok sm None) (check_their_reply tp cp).
Proof. unfold check_their_reply. pres. Qed.
Lemma wok_answer_challenge {sm} tp cp : pres (world_ok sm None) (answer_challenge tp cp).
Proof. unfold answer_challenge. pres. Qed.
Lemma wok_confirm_tunnel {sm} tp cp : pres (world_ok sm None) (confirm_tunnel tp cp).
Proof. unfold confirm_tunnel. pres. Qed.
#[export] Hint Resolve wok_finish_sccrq wok_check_their_reply wok_answer_challenge wok_confirm_tunnel : pres.
Lemma wok_finish_sccrp {sm} dial tp cp :
  (∀ lp, pres (world_ok sm None) (dial lp)) → pres (world_ok sm None) (finish_sccrp dial tp cp).
Proof. intros Hd. unfold finish_sccrp, finish_sccrp_reply. pres. Qed.
Lemma wok_finish_scccn {sm} tp cp : pres (world_ok sm None) (finish_scccn tp cp).
Proof. unfold finish_scccn. pres. Qed.
Lemma wok_finish_stopccn {sm} tp cp : pres (world_ok sm None) (finish_stopccn tp cp).
Proof. unfold finish_stopccn. pres. Qed.
Lemma wok_finish_icrq {sm} tp : pres (world_ok sm None) (finish_icrq tp).
Proof. unfold finish_icrq, call_fuel. pres. Qed.
Lemma wok_finish_icrp {sm} tp cp : pres (world_ok sm None) (finish_icrp tp cp).
Proof. unfold finish_icrp, finish_icrp_pppd. pres. Qed.
Lemma wok_finish_iccn {sm} tp cp : pres (world_ok sm None) (finish_iccn tp cp).
Proof. unfold finish_iccn. pres. Qed.
Lemma wok_finish_occn {sm} tp cp : pres (world_ok sm None) (finish_occn tp cp).
Proof. unfold finish_occn. pres. Qed.
Lemma wok_finish_cdn {sm} tp cp : pres (world_ok sm None) (finish_cdn tp cp).
Proof. unfold finish_cdn, call_fuel. pres. Qed.
#[export] Hint Resolve wok_finish_sccrp wok_finish_scccn wok_finish_stopccn wok_finish_icrq wok_finish_icrp
  wok_finish_iccn wok_finish_occn wok_finish_cdn : pres.

Section Dial.
Context {sm : bool} (finish : nat → nat → M Z) (Hfinish : ∀ tp cp, pres (world_ok sm None) (finish tp cp)).
Lemma wok_l2tp_call port lac lns : pres (world_ok sm None) (l2tp_call finish port lac lns).
Proof. unfold l2tp_call. pres. Qed.
Lemma wok_lac_call tid lac lns : pres (world_ok sm None) (lac_call finish tid lac lns).
Proof.
  unfold lac_call, tunnel_fuel. do 3 (pres1; [by pres|]; cbv beta). destruct b1 as [tp|]; [|by pres].
  apply pres_wlp. intros w Hw. wlp1. eapply wlp_mono; [apply (new_call_wlp (sm := sm)), Hw|].
  intros [p|] w1 (Hw1 & _ & _ & Hp); [|by wlps]. wlp1. wlp1. wlp1. wlp1.
  apply wok_linked; [done|by apply Hp|done|pres].
Qed.
#[local] Hint Resolve wok_l2tp_call wok_lac_call : pres.
Lemma wok_magic_lac_dial lp : pres (world_ok sm None) (magic_lac_dial finish lp).
Proof. unfold magic_lac_dial, magic_lac_tunnel. pres. Qed.
#[local] Hint Resolve wok_magic_lac_dial : pres.
Lemma wok_finish_message tp cp : pres (world_ok sm None) (finish_message finish tp cp).
Proof. unfold finish_message. pres. Qed.
End Dial.
Lemma wok_control_finish_fuel {sm} n : ∀ tp cp, pres (world_ok sm None) (control_finish_fuel n tp cp).
Proof. induction n as [|n IH]; intros tp cp; [apply pres_nofuel|by apply wok_finish_message]. Qed.
Lemma wok_control_finish {sm} tp cp : pres (world_ok sm None) (control_finish tp cp).
Proof. apply wok_control_finish_fuel. Qed.
#[export] Hint Resolve wok_control_finish : pres.
Lemma wok_dial {sm} lp : pres (world_ok sm None) (magic_lac_dial control_finish lp).
Proof. apply wok_magic_lac_dial. intros. apply wok_control_finish. Qed.
#[export] Hint Resolve wok_dial : pres.

(** ** Packets *)

Lemma wok_check_control {sm} b tp cp : pres (world_ok sm None) (check_control b tp cp).
Proof. unfold check_control. pres. Qed.
#[export] Hint Resolve wok_check_control : pres.
Lemma wok_handle_special {sm} b cp n : pres (world_ok sm None) (handle_special b cp n).
Proof. unfold handle_special. pres. Qed.
Lemma wok_handle_control {sm} b tp cp : pres (world_ok sm None) (handle_control b tp cp).
Proof. unfold handle_control, run_avps. pres. Qed.
Lemma wok_check_payload {sm} b tp cp : pres (world_ok sm None) (check_payload b tp cp).
Proof. unfold check_payload. pres. Qed.
#[export] Hint Resolve wok_handle_special wok_handle_control wok_check_payload : pres.

(** The payload routines work on a copy of the call and store it back. *)
Lemma wok_store_c {sm} cp c c' w :
  world_ok sm None w → w_calls w !! cp = Some c → ckeys c' = ckeys c →
  wlp (mod_c cp (λ _, c')) (λ _, world_ok sm None) w.
Proof. intros Hw Hc Ha. wlps. by apply (wok_set_c None cp c c' w). Qed.

Lemma sequence_keys ns c c' : sequence ns c = Some c' → ckeys c' = ckeys c.
Proof. unfold sequence. by repeat case_match; intros [= <-]. Qed.
Lemma expand_payload_keys b c r b' c' : expand_payload b c = Some (r, b', c') → ckeys c' = ckeys c.
Proof.
  unfold expand_payload. intros (ver & _ & H)%bind_Some. revert H. cbv zeta. case_match; [by intros [= _ _ <-]|].
  intros (m & _ & (ns & _ & H2)%bind_Some)%bind_Some. revert H2.
  destruct (sequence ns c) as [c1|] eqn:E; [|by intros [= _ _ <-]].
  intros (nr & _ & [= _ _ <-])%bind_Some. by apply sequence_keys in E.
Qed.
Lemma write_packet_keys s b c k r b' c' out : write_packet s b c k = Done (r, b', c', out) → ckeys c' = ckeys c.
Proof. unfold write_packet. intros H. repeat (case_match; simplify_eq; try done). Qed.
Lemma read_loop_keys fuel : ∀ s c b e n r c' s', read_loop fuel s c b e n = Done (r, c', s') → ckeys c' = ckeys c.
Proof.
  induction fuel as [|fuel IH]; intros s c b e n r c' s'; cbn [read_loop]; [done|]. cbv zeta.
  match goal with |- match ?fill with _ => _ end = _ → _ => destruct fill as [[[[[res c1] rr] s1]|]|] eqn:E; [|done..] end.
  assert (ckeys c1 = ckeys c) as <-.
  { revert E. destruct (_ <=? _); [|by intros [= _ <-]]. destruct s as [|r1 s]; [done|].
    destruct (refill r1 c) as [[res' c2]|] eqn:Er; [|done]. intros [= _ <- _ _]. revert Er. unfold refill.
    destruct r1; [|by intros [= _ <-]]. destruct (_ <=? _); [|done]. by intros (m & _ & [= _ <-])%bind_Some. }
  destruct (ld8 _ _) as [ch|]; [|done]. destruct (res <? 1).
  - destruct rr as [[bs|err]|]; [by intros [= _ <- _]| |by intros [= _ <- _]].
    destruct (soft_error err); [by intros [= _ <- _]|]. destruct (_ <? _); [by intros [= _ <- _]|].
    intros H. by apply IH in H.
  - destruct (read_char ch e b) as [[b1 e1|r1 b1 reset]|]; [intros H; by apply IH in H| |done].
    intros [= _ <- _]. by destruct reset.
Qed.
Lemma read_packet_keys fuel s c r c' s' : read_packet fuel s c = Done (r, c', s') → ckeys c' = ckeys c.
Proof. unfold read_packet. destruct (c_ppp_buf c); [apply read_loop_keys|done]. Qed.

Lemma wok_write_packet {sm} b cp k : pres (world_ok sm None) (Mwrite_packet b cp k).
Proof.
  apply pres_wlp. intros w Hw.
  unfold Mwrite_packet. wlp1. apply wlp_ask. wlps. destruct (write_packet _ _ _ _) as [[[[r b'] c'] out]| |] eqn:E; wlp1.
  apply write_packet_keys in E. eapply wlp_mono; [eapply wok_store_c; [|eassumption|eassumption]|].
  - revert Hw. frame.
  - intros [] w1 Hw1. apply wlp_pres; [|exact Hw1]. pres.
Qed.
#[export] Hint Resolve wok_write_packet : pres.
Lemma wok_handle_packet {sm} b tp cp : pres (world_ok sm None) (handle_packet b tp cp).
Proof.
  unfold handle_packet. apply pres_bind; [by pres|]. intros ver. destruct (CTBIT ver); [by pres|].
  apply pres_bind; [by pres|]. intros r. destruct (truthy r); [by pres|].
  apply pres_wlp. intros w Hw.
  wlps. match goal with H : expand_payload b _ = Some ?e |- _ => destruct e as [[r2 b2] c2]; apply expand_payload_keys in H end.
  wlp1. eapply wlp_mono; [eapply wok_store_c; eassumption|]. intros [] w1 Hw1. apply wlp_pres; [|exact Hw1]. pres.
Qed.
#[export] Hint Resolve wok_handle_packet : pres.
Lemma wok_deliver {sm} b cp d : pres (world_ok sm None) (deliver b cp d).
Proof. unfold deliver. pres. Qed.
#[export] Hint Resolve wok_deliver : pres.
Lemma wok_receive {sm} b d : pres (world_ok sm None) (receive b d).
Proof. unfold receive, Mnew_buf. pres. Qed.
Lemma wok_set_tos {sm} b : pres (world_ok sm None) (set_tos b).
Proof. unfold set_tos. pres. Qed.
#[export] Hint Resolve wok_set_tos : pres.
Lemma wok_ppp_loop {sm} se fuel tp cp : ∀ script, pres (world_ok sm None) (ppp_loop se fuel script tp cp).
Proof.
  induction fuel as [|fuel IH]; intros script; [apply pres_nofuel|]. cbn [ppp_loop].
  apply pres_wlp. intros w Hw.
  wlps. destruct (read_packet _ _ _) as [[[res c'] s']| |] eqn:E; wlp1. apply read_packet_keys in E.
  eapply wlp_mono; [eapply wok_store_c; eassumption|]. intros [] w1 Hw1. apply wlp_pres; [|exact Hw1]. pres.
Qed.

#[export] Hint Resolve wok_receive wok_ppp_loop : pres.

(** ** Jobs, the sweep, signals *)

Lemma wok_run_job {sm} j : pres (world_ok sm None) (run_job j).
Proof. destruct j; cbn; pres. Qed.

(** A property that popping an entry and running a job keep holds after the
    loop. *)
Lemma process_loop_inv {job W} (get : W → list (schedule_entry job)) set run clock (P : W → Prop) :
  (∀ w p rest, P w → get w = p :: rest → P (run (se_job p) (set rest w))) →
  ∀ fuel w last r, P w → process_loop get set run clock fuel w last = Some r → P r.1.
Proof.
  intros Hstep. induction fuel as [|fuel IH]; intros w last r Hw; cbn [process_loop];
    destruct (get w) as [|p rest] eqn:E; try done; try (by intros [= <-]).
  case_match; [|by intros [= <-]]. apply IH. by apply Hstep.
Qed.

Lemma wok_process_schedule {sm} fuel : pres (world_ok sm None) (Mprocess_schedule fuel).
Proof.
  intros w tv w' Hw. unfold Mprocess_schedule. cbv zeta.
  set (get := λ r : res unit, match r with Ret _ w => w_events w | _ => [] end).
  set (set := λ es (r : res unit), match r with Ret _ w => Ret tt { w with w_events := es } | r => r end).
  set (run := λ j (r : res unit), match r with Ret _ w => run_job j w | r => r end).
  set (clock := λ r : res unit, match r with Ret _ w => e_now (w_env w) (w_clk w) | _ => Tv 0 0 end).
  pose proof (process_loop_inv get set run clock
    (λ r, match r with Ret _ w => world_ok sm None w | _ => True end)) as Hinv.
  unfold process_schedule. destruct (process_loop get set run clock fuel (Ret tt w) None) as [[r last]|] eqn:E; [|done].
  apply Hinv in E; [|clear|done].
  - destruct r as [u w1| |]; cbn in E; [|destruct last; cbn; done..].
    cbn. destruct (w_events w1), last; by intros [= _ <-].
  - intros [u w1| |] p rest Hw1; cbn; [|done..]. intros Hev.
    assert (Hw2 : world_ok sm None { w1 with w_events := rest }).
    { apply wok_sublist; [|done]. rewrite Hev. by constructor. }
    destruct (run_job (se_job p) _) eqn:Er; [|done..]. by eapply wok_run_job.
Qed.

Lemma wok_sweep_calls {sm} fuel tp : ∀ o fds, pres (world_ok sm None) (sweep_calls fuel tp o fds).
Proof. induction fuel as [|fuel IH]; intros o fds; [apply pres_nofuel|]. cbn [sweep_calls sweep_tunnels]. pres. Qed.
#[export] Hint Resolve wok_sweep_calls : pres.
Lemma wok_sweep_tunnels {sm} fuel cfuel : ∀ o fds, pres (world_ok sm None) (sweep_tunnels fuel cfuel o fds).
Proof. induction fuel as [|fuel IH]; intros o fds; [apply pres_nofuel|]. cbn [sweep_calls sweep_tunnels]. pres. Qed.
#[export] Hint Resolve wok_sweep_tunnels : pres.
Lemma wok_build_fdset {sm} : pres (world_ok sm None) build_fdset.
Proof. unfold build_fdset. pres. Qed.
Lemma wok_find_pppd {sm} fuel pid : ∀ o, pres (world_ok sm None) (find_pppd fuel pid o).
Proof. induction fuel as [|fuel IH]; intros o; cbn; unfold call_fuel; pres. Qed.
#[export] Hint Resolve wok_find_pppd : pres.
Lemma wok_child_handler {sm} pids : pres (world_ok sm None) (child_handler pids).
Proof. induction pids as [|pid pids IH]; cbn [child_handler]; unfold child_died, tunnel_fuel; pres. Qed.
Lemma wok_close_tunnels {sm} fuel : ∀ o, pres (world_ok sm None) (close_tunnels fuel o).
Proof. induction fuel as [|fuel IH]; intros o; cbn [close_tunnels]; pres. Qed.
#[export] Hint Resolve wok_close_tunnels : pres.
Lemma wok_death_handler {sm} s : pres (world_ok sm None) (death_handler s).
Proof. unfold death_handler, tunnel_fuel. pres. Qed.
Lemma wok_lac_hangup {sm} cid : pres (world_ok sm None) (lac_hangup cid).
Proof.
  assert (∀ fuel o, pres (world_ok sm None) (hangup_loop fuel cid o)).
  { induction fuel as [|fuel IH]; intros o; cbn; unfold call_fuel; pres. }
  unfold lac_hangup, tunnel_fuel. pres.
Qed.
Lemma wok_lac_disconnect {sm} tid : pres (world_ok sm None) (lac_disconnect tid).
Proof. unfold lac_disconnect, tunnel_fuel. pres. Qed.
#[export] Hint Resolve wok_process_schedule wok_build_fdset wok_child_handler wok_death_handler wok_lac_hangup
  wok_lac_disconnect : pres.

End Invariant.
