(* ===== verification/Termination.v ===== *)
(** * Every loop of the control side ends

    The loops of the model run with fuel; [NoFuel] is the outcome of a loop that
    does not end within it.  [ends m] says that this does not happen from a
    state that satisfies the invariant [world_ok]: [m] returns or faults.  The
    lists end because the heap is well formed (Heap.v), also while calls and
    tunnels are freed in the middle of a walk; [call_close] and [control_xmit],
    and [control_finish] and [magic_lac_dial], call each other a bounded number
    of times; every closing of the sweep leaves less to close; and a timer's job
    schedules nothing that is due before a second has passed. *)

From S2P Require Import Prelude.
From S2P Require Import Scheduler.
From S2P Require Import Buffer.
From S2P Require Import AvpSend.
From S2P Require Import State.
From S2P Require Import Ppp.
From S2P Require Import AddrPool.
From S2P Require Import Auth.
From S2P Require Import Logic.
From S2P Require Import Calls.
From S2P Require Import Pppd.
From S2P Require Import Messages.
From S2P Require Import Closing.
From S2P Require Import Avp.
From S2P Require Import Finish.
From S2P Require Import Packet.
From S2P Require Import Heap.
From S2P Require Import Invariant.

Module Termination.
Import Scheduler Buffer AvpSend State Ppp AddrPool Auth Logic Calls Pppd Messages Closing Avp Finish Packet Heap Invariant.
Open Scope Z_scope.

(** ** Rules *)

Definition ends {A} (m : M A) : Prop := ∀ w, world_ok false None w → m w ≠ NoFuel.

(** The second half is looked at only where the first one can end. *)
Lemma at_bind {A B} (m : M B) (k : B → M A) w :
  m w ≠ NoFuel → wlp m (λ b w', k b w' ≠ NoFuel) w → (m ≫= k) w ≠ NoFuel.
Proof. unfold wlp, mbind, M_bind. intros Hm Hk. destruct (m w) eqn:E; [by eapply Hk|done..]. Qed.
Lemma ends_bind {A B} (m : M B) (k : B → M A) :
  ends m → pres (world_ok false None) m → (∀ b, ends (k b)) → ends (m ≫= k).
Proof. intros Hm Hp Hk w Hw. apply at_bind; [by apply Hm|]. intros b w' E. eapply Hk, Hp; eauto. Qed.
Lemma fueled_ends {A} (m : M A) : fueled m → ends m.
Proof. intros Hm w _. apply Hm. Qed.
Lemma ends_when (b : bool) m : ends m → ends (when b m).
Proof. by destruct b. Qed.

Lemma fueled_emit o : fueled (emit o).
Proof. done. Qed.
Lemma fueled_sys_ s : fueled (sys_ s).
Proof. done. Qed.
Lemma fueled_mod_lac p f : fueled (mod_lac p f).
Proof. intros w. unfold mod_lac. by case_match. Qed.
Lemma fueled_mod_lns p f : fueled (mod_lns p f).
Proof. intros w. unfold mod_lns. by case_match. Qed.
Lemma fueled_get_lacp p : fueled (get_lacp p).
Proof. intros w. unfold get_lacp. by case_match. Qed.
Lemma fueled_get_lnsp p : fueled (get_lnsp p).
Proof. intros w. unfold get_lnsp. by case_match. Qed.
Lemma fueled_get_entropy b n : fueled (get_entropy b n).
Proof. unfold get_entropy. fueled. Qed.
Lemma fueled_schedule tv j : fueled (Mschedule tv j).
Proof. unfold Mschedule. fueled. Qed.
Lemma fueled_deschedule s : fueled (Mdeschedule s).
Proof. done. Qed.
Lemma fueled_deschedule_tunnel tp : fueled (deschedule_tunnel tp).
Proof. done. Qed.
#[export] Hint Resolve fueled_emit fueled_sys_ fueled_mod_lac fueled_mod_lns fueled_get_lacp fueled_get_lnsp
  fueled_get_entropy fueled_schedule fueled_deschedule fueled_deschedule_tunnel : fueled.

Create HintDb ends.
Ltac ends1 :=
  match goal with
  | |- ends (mbind _ _) => apply ends_bind; [|solve [pres]|intro]
  | |- ends (let _ := _ in _) => cbv zeta
  | |- ends (when _ _) => apply ends_when
  | |- ends (match ?x with _ => _ end) => destruct x
  | |- ends _ => solve [eauto 2 with ends]
  | |- ends _ => apply fueled_ends; solve [fueled]
  end.
Ltac ends := intros; repeat (ends1; cbv beta).
(** At a single state: a program without loops, and one all of whose loops end. *)
Ltac noloop := match goal with |- ?m _ ≠ NoFuel => let H := fresh in assert (fueled m) as H; [fueled|apply H] end.
Ltac rest := match goal with |- ?m _ ≠ NoFuel => let H := fresh in assert (ends m) as H; [ends|apply H; assumption] end.

(** ** Operations without loops over lists *)

Lemma fueled_new_outgoing tp : fueled (Mnew_outgoing tp).
Proof. unfold Mnew_outgoing. fueled. Qed.
Lemma fueled_new_tunnel : fueled new_tunnel.
Proof. unfold new_tunnel. fueled. Qed.
Lemma fueled_add_control_hdr tp cp b : fueled (add_control_hdr tp cp b).
Proof. unfold add_control_hdr. fueled. Qed.
Lemma fueled_udp_xmit b tp : fueled (udp_xmit b tp).
Proof. unfold udp_xmit. fueled. Qed.
#[export] Hint Resolve fueled_new_outgoing fueled_new_tunnel fueled_add_control_hdr fueled_udp_xmit : fueled.
Lemma fueled_control_zlb b tp cp : fueled (control_zlb b tp cp).
Proof. unfold control_zlb. fueled. Qed.
Lemma fueled_redial lp : fueled (redial lp).
Proof. unfold redial. fueled. Qed.
Lemma fueled_add_vector tp b : fueled (add_vector tp b).
Proof. unfold add_vector, mk_challenge. fueled. Qed.
Lemma fueled_add_result cp b : fueled (add_result cp b).
Proof. unfold add_result. fueled. Qed.
#[export] Hint Resolve fueled_control_zlb fueled_redial fueled_add_vector fueled_add_result : fueled.
Lemma fueled_close_notice tp cp b : fueled (close_notice tp cp b).
Proof. unfold close_notice. fueled. Qed.
Lemma fueled_add_payload_hdr tp cp b : fueled (add_payload_hdr tp cp b).
Proof. unfold add_payload_hdr. fueled. Qed.
#[export] Hint Resolve fueled_close_notice fueled_add_payload_hdr : fueled.
Lemma fueled_send_zlb cp : fueled (send_zlb cp).
Proof. unfold send_zlb. fueled. Qed.
Lemma fueled_release_call cp c : fueled (release_call cp c).
Proof. unfold release_call, release_addrs, Munreserve. fueled. Qed.
#[export] Hint Resolve fueled_send_zlb fueled_release_call : fueled.

(** ** Walks that end

    At most [n] live nodes are reached from [o]; the walk ends at the end of
    the list or at a node that is gone. *)
Section Within.
Context {A : Type} (next : A → option nat).
Fixpoint within (n : nat) (m : gmap nat A) (o : option nat) : Prop :=
  match o with
  | None => True
  | Some p =>
      match m !! p with
      | None => True
      | Some a => match n with O => False | S n => within n m (next a) end
      end
  end.
Lemma within_S n m : ∀ o, within n m o → within (S n) m o.
Proof.
  induction n as [|n IH]; intros [p|] H; try done; cbn in *; destruct (m !! p) as [a|]; try done.
  specialize (IH (next a) H). destruct (next a); exact IH.
Qed.
Lemma within_path m ps : ∀ o, path next m o ps → within (length ps) m o.
Proof.
  induction ps as [|p ps IH]; intros o Hp; cbn in *; [by subst|]. destruct Hp as (-> & a & Ha & Hp). cbn. rewrite Ha. auto.
Qed.
(** Nodes may go, keep what follows them, or pass over one node. *)
Lemma within_shrink m m' n : (∀ p a', m' !! p = Some a' → ∃ a, m !! p = Some a ∧
    (next a' = next a ∨ ∃ q b, next a = Some q ∧ m !! q = Some b ∧ next a' = next b)) →
  ∀ o, within n m o → within n m' o.
Proof.
  intros Hm. induction n as [|n IH]; intros [p|] H; try done; cbn in *; destruct (m' !! p) as [a'|] eqn:Ea; try done;
    destruct (Hm p a' Ea) as (a & Ha & Hn); rewrite Ha in H; [done|].
  destruct Hn as [->|(q & b & Hq & Hb & ->)]; [by apply IH|]. apply IH.
  rewrite Hq in H. destruct n; cbn in H; rewrite Hb in H; [done|]. by apply within_S in H.
Qed.
Lemma within_delete m n p o : within n m o → within n (delete p m) o.
Proof. apply within_shrink. intros q a [_ Hq]%lookup_delete_Some. eauto. Qed.
Lemma within_same m n p a b o : m !! p = Some a → next b = next a → within n m o → within n (<[p := b]> m) o.
Proof.
  intros Hp Hb. apply within_shrink. intros q a' [[-> <-]|[_ Hq]]%lookup_insert_Some; [|by eauto]. exists a. eauto.
Qed.
Lemma within_unlink m n p a q b o : m !! p = Some a → next a = Some q → m !! q = Some b → 
  ∀ a', next a' = next b → within n m o → within n (<[p := a']> m) o.
Proof.
  intros Hp Ha Hq a' Hn. apply within_shrink. intros x c [[-> <-]|[_ Hx]]%lookup_insert_Some; [|by eauto].
  exists a. split; [done|]. right. eauto.
Qed.
End Within.

Lemma within_calls ex w p t : world_ok false ex w → w_tunnels w !! p = Some t →
  within c_next (size (w_calls w)) (w_calls w) (t_call_head t).
Proof.
  intros Hw Ht. destruct (hp_calls _ _ _ _ (wk_heap _ _ _ Hw) p t Ht) as [cs [Hp _]].
  pose proof (path_size _ _ _ _ Hp) as Hs. apply within_path in Hp. revert Hs Hp. generalize (length cs).
  intros n Hs. induction Hs; [done|]. intros H. by apply within_S, IHHs.
Qed.
Lemma within_tunnels ex w : world_ok false ex w → within t_next (size (w_tunnels w)) (w_tunnels w) (w_head w).
Proof.
  intros Hw. destruct (hp_tunnels _ _ _ _ (wk_heap _ _ _ Hw)) as [ts Hp].
  pose proof (path_size _ _ _ _ Hp) as Hs. apply within_path in Hp. revert Hs Hp. generalize (length ts).
  intros n Hs. induction Hs; [done|]. intros H. by apply within_S, IHHs.
Qed.

(** The loops that look for something. *)
Lemma find_tunnel_ends w test n : ∀ o, within t_next n (w_tunnels w) o → find_tunnel (S n) test o w ≠ NoFuel.
Proof.
  induction n as [|n IH]; intros [p|] H; try done; (apply at_bind; [apply fueled_get_t|]); apply wlp_get_t;
    intros t Ht; cbn in H; rewrite Ht in H; [done|]. destruct (test p t); [done|by apply IH].
Qed.
Lemma find_call_ends w test n : ∀ o, within c_next n (w_calls w) o → find_call (S n) test o w ≠ NoFuel.
Proof.
  induction n as [|n IH]; intros [p|] H; try done; (apply at_bind; [apply fueled_get_c|]); apply wlp_get_c;
    intros t Ht; cbn in H; rewrite Ht in H; [done|]. destruct (test t); [done|by apply IH].
Qed.
Lemma unlink_call_ends w cp next n : ∀ p, within c_next n (w_calls w) (Some p) → unlink_call (S n) p cp next w ≠ NoFuel.
Proof.
  induction n as [|n IH]; intros p H; (apply at_bind; [apply fueled_get_c|]); apply wlp_get_c;
    intros c Hc; cbn in H; rewrite Hc in H; [done|]. destruct (c_next c) as [q|]; [|done].
  destruct (Nat.eqb q cp); [|by apply IH]. apply at_bind; [apply fueled_mod_c|]. by intros.
Qed.
Lemma unlink_tunnel_ends w tp next n : ∀ p,
  within t_next n (w_tunnels w) (Some p) → unlink_tunnel (S n) p tp next w ≠ NoFuel.
Proof.
  induction n as [|n IH]; intros p H; (apply at_bind; [apply fueled_get_t|]); apply wlp_get_t;
    intros c Hc; cbn in H; rewrite Hc in H; [done|]. destruct (t_next c) as [q|]; [|done].
  destruct (Nat.eqb q tp); [|by apply IH]. apply at_bind; [apply fueled_mod_t|]. by intros.
Qed.

(** ** Walks while calls and tunnels are freed *)

(** A walk over calls and one over tunnels. *)
Definition walks (n : nat) (o : option nat) (k : nat) (u : option nat) (w : world) : Prop :=
  within c_next n (w_calls w) o ∧ within t_next k (w_tunnels w) u.

Section Walks.
Context (n : nat) (o : option nat) (k : nat) (u : option nat).
Lemma walks_upd f : (∀ w, w_calls (f w) = w_calls w) → (∀ w, w_tunnels (f w) = w_tunnels w) → pres (walks n o k u) (upd f).
Proof. intros H1 H2. apply pres_upd. intros w. unfold walks. by rewrite H1, H2. Qed.
Lemma walks_ask {A} (f : env → nat → A) : pres (walks n o k u) (ask f).
Proof. intros w a w' Hw. by intros [= _ <-]. Qed.
Lemma walks_alloc : pres (walks n o k u) alloc.
Proof. intros w a w' Hw. by intros [= _ <-]. Qed.
Lemma walks_mod_c p f : (∀ c, c_next (f c) = c_next c) → pres (walks n o k u) (mod_c p f).
Proof. intros Hf. apply pres_wlp. intros w [H1 H2]. wlps. split; [|done]. by eapply within_same. Qed.
Lemma walks_mod_t p f : (∀ t, t_next (f t) = t_next t) → pres (walks n o k u) (mod_t p f).
Proof. intros Hf. apply pres_wlp. intros w [H1 H2]. wlps. split; [done|]. by eapply within_same. Qed.
Lemma walks_mod_lac p f : pres (walks n o k u) (mod_lac p f).
Proof. apply pres_wlp. intros w H. by wlps. Qed.
Lemma walks_mod_lns p f : pres (walks n o k u) (mod_lns p f).
Proof. apply pres_wlp. intros w H. by wlps. Qed.
Lemma walks_emit x : pres (walks n o k u) (emit x).
Proof. by apply walks_upd. Qed.
#[local] Hint Resolve walks_ask walks_alloc walks_mod_lac walks_mod_lns walks_emit : pres.
#[local] Hint Extern 2 (pres _ (mod_t _ _)) => apply walks_mod_t; done : pres.
#[local] Hint Extern 2 (pres _ (mod_c _ _)) => apply walks_mod_c; done : pres.
#[local] Hint Extern 2 (pres _ (upd _)) => apply walks_upd; done : pres.

Lemma walks_redial lp : pres (walks n o k u) (redial lp).
Proof. unfold redial, Mschedule. pres. Qed.
Lemma walks_release cp c : pres (walks n o k u) (release_call cp c).
Proof. unfold release_call, release_addrs, Munreserve, Mdeschedule. pres. Qed.
#[local] Hint Resolve walks_redial walks_release : pres.

Lemma walks_unlink_call cp c fuel : ∀ p w, w_calls w !! cp = Some c → walks n o k u w →
  wlp (unlink_call fuel p cp (c_next c)) (λ _, walks n o k u) w.
Proof.
  induction fuel as [|fuel IH]; intros p w Hc Hw; cbn [unlink_call]; [wlp1|]. wlp1. apply wlp_get_c. intros pc Hpc.
  destruct (c_next pc) as [q|] eqn:Eq; [|by wlps]. destruct (Nat.eqb_spec q cp) as [->|]; [|by apply IH].
  wlps. simplify_eq. destruct Hw as [H1 H2]. split; [|done]. eapply within_unlink; [done|exact Eq|done|done|done].
Qed.
Lemma walks_remove cp c w : (∃ c1, w_calls w !! cp = Some c1 ∧ c_next c1 = c_next c) → walks n o k u w →
  wlp (remove_from_container cp c) (λ _, walks n o k u) w.
Proof.
  intros (c1 & Hc1 & E) Hw. unfold remove_from_container, call_fuel. rewrite <-E. destruct (c_container c); wlps; [|done].
  destruct (t_call_head _); wlps; [|done]. destruct (Nat.eqb _ _).
  - apply wlp_pres; [|done]. pres.
  - wlps. eapply wlp_mono; [by apply walks_unlink_call|]. intros b w1 Hw1. apply wlp_pres; [|done]. pres.
Qed.
Lemma walks_destroy_call cp : pres (walks n o k u) (destroy_call cp).
Proof.
  apply pres_wlp. intros w Hw. unfold destroy_call. wlp1. wlp1. wlp1.
  eapply wlp_mono; [apply wlp_and; [apply wlp_pres, Hw; apply walks_release|apply wlp_pres; [apply (keys_release cp (ckeys c))|by eexists]]|].
  intros [] w1 [Hw1 (c1 & Hc1 & [= _ E1 _])]. wlp1.
  eapply wlp_mono; [apply walks_remove; [by eauto|done]|]. intros [] w2 Hw2. wlp1.
  eapply wlp_mono; [apply wlp_pres, Hw2; by pres|]. intros [] w3 [H1 H2]. wlps. split; [|done]. by apply within_delete.
Qed.
#[local] Hint Resolve walks_destroy_call : pres.
Lemma walks_destroy_calls fuel : ∀ c, pres (walks n o k u) (destroy_calls fuel c).
Proof. induction fuel as [|fuel IH]; intros c; cbn [destroy_calls]; pres. Qed.
#[local] Hint Resolve walks_destroy_calls : pres.
Lemma walks_unlink_tunnel tp t fuel : ∀ p w, w_tunnels w !! tp = Some t → walks n o k u w →
  wlp (unlink_tunnel fuel p tp (t_next t)) (λ _, walks n o k u) w.
Proof.
  induction fuel as [|fuel IH]; intros p w Ht Hw; cbn [unlink_tunnel]; [wlp1|]. wlp1. apply wlp_get_t. intros pt Hpt.
  destruct (t_next pt) as [q|] eqn:Eq; [|by wlps]. destruct (Nat.eqb_spec q tp) as [->|]; [|by apply IH].
  wlps. simplify_eq. destruct Hw as [H1 H2]. split; [done|]. eapply within_unlink; [done|exact Eq|done|done|done].
Qed.
Lemma walks_destroy_tunnel tp : pres (walks n o k u) (destroy_tunnel tp).
Proof.
  unfold destroy_tunnel, call_fuel. do 3 (pres1; [by pres|]; cbv beta zeta). apply pres_wlp. intros w Hw. wlp1. wlp1. wlp1.
  unfold remove_from_tunnels, tunnel_fuel. wlp1. wlp1.
  apply wlp_mono with (Q := λ _, walks n o k u).
  { case_bool_decide; [by wlps|]. destruct (w_head w); [|by wlps]. wlps.
    eapply wlp_mono; [by apply walks_unlink_tunnel|]. intros b' w1 Hw1. apply wlp_pres; [|done]. pres. }
  intros [] w1 Hw1. apply wlp_pres; [|done]. pres. apply pres_upd. intros w2 [H1 H2]. split; [done|]. by apply within_delete.
Qed.
#[local] Hint Resolve walks_destroy_tunnel : pres.
Lemma walks_close_notice tp cp b : pres (walks n o k u) (close_notice tp cp b).
Proof. unfold close_notice, Mnew_outgoing, Mmalloc, add_vector, mk_challenge, get_entropy, add_result, add_control_hdr. pres. Qed.
#[local] Hint Resolve walks_close_notice : pres.
Lemma walks_xmit close b : (∀ c, pres (walks n o k u) (close c)) → pres (walks n o k u) (xmit close b).
Proof. intros Hc. unfold xmit, Mschedule, udp_xmit. pres. Qed.
Lemma walks_close_calls close fuel : (∀ c, pres (walks n o k u) (close c)) → ∀ c, pres (walks n o k u) (close_calls close fuel c).
Proof. intros Hc. induction fuel as [|fuel IH]; intros c; cbn [close_calls]; pres. Qed.
#[local] Hint Resolve walks_xmit walks_close_calls : pres.
Lemma walks_call_close fuel : ∀ c, pres (walks n o k u) (call_close fuel c).
Proof.
  induction fuel as [|fuel IH]; intros c; cbn [call_close]; unfold close_step, call_fuel, deschedule_tunnel, Mdeschedule; pres.
Qed.
End Walks.
#[export] Hint Resolve walks_mod_lac walks_call_close : pres.
#[export] Hint Extern 2 (pres (walks _ _ _ _) (mod_c _ _)) => apply walks_mod_c; done : pres.

(** ** Freeing *)

Lemma remove_from_container_ends ex cp c w : world_ok false ex w → remove_from_container cp c w ≠ NoFuel.
Proof.
  intros Hw. unfold remove_from_container, call_fuel. destruct (c_container c) as [tp|]; [|done].
  apply at_bind; [apply fueled_get_t|]. wlps. destruct (t_call_head t) as [p|] eqn:Eh; [|done].
  destruct (Nat.eqb p cp); [apply fueled_mod_t|]. apply at_bind; [done|]. wlps.
  apply at_bind; [|intros [] w1 _; [apply fueled_mod_t|done]].
  apply unlink_call_ends. rewrite <-Eh. by eapply within_calls.
Qed.
Lemma remove_from_tunnels_ends ex tp t w : world_ok false ex w → remove_from_tunnels tp t w ≠ NoFuel.
Proof.
  intros Hw. unfold remove_from_tunnels, tunnel_fuel. apply at_bind; [done|]. wlps. case_bool_decide; [done|].
  destruct (w_head w) as [p|] eqn:Eh; [|done]. apply at_bind; [done|]. wlps.
  apply at_bind; [|by intros [] w1 _]. apply unlink_tunnel_ends. rewrite <-Eh. by eapply within_tunnels.
Qed.
Lemma destroy_call_ends cp : ends (destroy_call cp).
Proof.
  intros w Hw. unfold destroy_call. apply at_bind; [apply fueled_get_c|]. apply wlp_get_c. intros c Hc.
  apply at_bind; [apply fueled_release_call|]. eapply wlp_mono; [by apply (wok_release_call (sm := false))|]. intros [] w1 Hw1.
  apply at_bind; [by eapply remove_from_container_ends|]. intros [] w2 _.
  noloop.
Qed.
#[export] Hint Resolve destroy_call_ends : ends.
Lemma destroy_calls_ends n : ∀ o w, world_ok false None w → within c_next n (w_calls w) o → destroy_calls (S n) o w ≠ NoFuel.
Proof.
  induction n as [|n IH]; intros [p|] w Hw H; try done; (apply at_bind; [apply fueled_get_c|]); apply wlp_get_c;
    intros c Hc; cbn in H; rewrite Hc in H; [done|].
  apply at_bind; [by apply destroy_call_ends|]. intros [] w1 E. apply IH; [by eapply wok_destroy_call|].
  by eapply (walks_destroy_call n (c_next c) 0 None p).
Qed.
Lemma destroy_tunnel_ends tp : ends (destroy_tunnel tp).
Proof.
  intros w Hw. unfold destroy_tunnel, call_fuel. apply at_bind; [apply fueled_get_t|]. apply wlp_get_t. intros t Ht. cbv zeta.
  apply at_bind; [done|]. wlps. apply at_bind; [apply destroy_calls_ends; [done|by eapply within_calls]|]. intros [] w1 E.
  apply (wok_destroy_calls (sm := false)) in E; [|done]. apply at_bind; [apply fueled_get_t|]. apply wlp_get_t. intros t1 Ht1.
  apply at_bind; [by eapply remove_from_tunnels_ends|]. eapply wlp_mono; [by apply (remove_from_tunnels_wlp (sm := false))|].
  intros [] w2 [Hw2 _]. match goal with |- ?m w2 ≠ NoFuel => assert (ends m) as H end; [|by apply H].
  repeat (apply ends_bind; [by ends|by pres|intro]). apply fueled_ends. fueled.
Qed.
#[export] Hint Resolve destroy_tunnel_ends : ends.

(** ** Closing *)

Lemma close_step_shut_ends f cp w : world_ok false None w → shut w cp → close_step f (Some cp) w ≠ NoFuel.
Proof.
  intros Hw Hs. cbn [close_step]. apply at_bind; [apply fueled_get_c|]. apply wlp_get_c. intros c Hc. rewrite (Hs c Hc).
  destruct (c_container c) as [tp|]; [|done]. rest.
Qed.

Section Close.
Context (f : option nat → M unit).
Context (Hok : ∀ c, pres (world_ok false None) (f c)) (Hwalk : ∀ n o c, pres (walks n o 0 None) (f c)).
Context (Hshut : ∀ w p, world_ok false None w → shut w p → f (Some p) w ≠ NoFuel).

Lemma close_calls_ends n : ∀ o w, world_ok false None w → within c_next n (w_calls w) o → close_calls f (S n) o w ≠ NoFuel.
Proof using Hok Hwalk Hshut.
  induction n as [|n IH]; intros [p|] w Hw H; try done; (apply at_bind; [apply fueled_get_c|]); apply wlp_get_c;
    intros c Hc; cbn in H; rewrite Hc in H; [done|].
  apply at_bind; [apply fueled_mod_c|]. apply wlp_mod_c. intros c' Hc'. assert (c' = c) as -> by congruence.
  match goal with |- _ ?w1 ≠ _ => assert (world_ok false None w1) as Hw1 by (by eapply wok_set_c; [|exact Hc|]) end.
  apply at_bind.
  { apply Hshut; [done|]. intros d. rewrite set_c_eq. by intros [= <-]. }
  intros [] w2 E. apply IH; [by eapply Hok|]. eapply (Hwalk n (c_next c)); [|exact E]. split; [|done].
  by eapply within_same.
Qed.

Lemma xmit_ends b tp w :
  for_tunnel tp b →
  (∀ t self s, w_tunnels w !! tp = Some t → t_self t = Some self → w_calls w !! self = Some s →
     f (Some self) (set_c self (given_up s) w) ≠ NoFuel) →
  xmit f b w ≠ NoFuel.
Proof using.
  intros Hb Ht. unfold xmit. cbv zeta. change (b_tunnel { b with b_retries := b_retries b + 1 }) with (b_tunnel b).
  rewrite Hb. apply at_bind; [apply fueled_need|]. apply wlp_need. intros ns _. 
  apply at_bind; [noloop|]. wlps.
  destruct (_ <? _); [done|]. apply at_bind; [done|]. wlps.
  destruct (_ <? _); [|noloop].
  apply at_bind; [apply fueled_get_t|]. wlp1. apply at_bind; [apply fueled_need|]. wlp1. apply at_bind; [apply fueled_get_c|]. wlp1.
  assert (∀ w', w' = set_c a (given_up c) w → f (Some a) w' ≠ NoFuel) as Ha by (intros ? ->; by eapply Ht).
  unfold given_up in Ha. apply at_bind; [case_match; apply fueled_mod_c|].
  destruct (truthy (c_needclose c)); wlps; simplify_eq; by apply Ha.
Qed.

Lemma close_step_ends cp w :
  world_ok false None w →
  (∀ w1 c tp t self s, shape w1 = shape w → world_ok false None w1 → w_calls w !! cp = Some c → c_container c = Some tp →
     truthy (c_closing c) = false → w_tunnels w1 !! tp = Some t → t_self t = Some self → w_calls w1 !! self = Some s →
     f (Some self) (set_c self (given_up s) w1) ≠ NoFuel) →
  close_step f (Some cp) w ≠ NoFuel.
Proof using Hok Hwalk Hshut.
  intros Hw Ht. destruct (w_calls w !! cp) as [c|] eqn:Hc; [|cbn [close_step]; unfold mbind, M_bind, get_c; by rewrite Hc].
  destruct (truthy (c_closing c)) eqn:Ecl.
  { apply close_step_shut_ends; [done|]. intros c'. rewrite Hc. by intros [= <-]. }
  cbn [close_step]. apply at_bind; [apply fueled_get_c|]. apply wlp_get_c. intros c0 Hc0. assert (c0 = c) as -> by congruence.
  destruct (c_container c) as [tp|] eqn:Etp; [|done]. apply at_bind; [apply fueled_get_t|]. apply wlp_get_t. intros t Et.
  rewrite Ecl.
  assert (∀ w1 b, shape w1 = shape w → world_ok false None w1 → for_tunnel tp b → xmit f b w1 ≠ NoFuel) as Hx.
  { intros w1 b Hs Hw1 Hb. apply xmit_ends with tp; [done|]. intros t1 self s Ht1 Hself Hcs. by eapply Ht. }
  destruct (bool_decide _).
  - apply at_bind; [done|]. intros [] w1 E1. pose proof (wok_deschedule_tunnel None tp w tt w1 Hw E1) as Hw1.
    pose proof (shape_deschedule_tunnel _ tp w tt w1 eq_refl E1) as H1.
    apply at_bind; [apply fueled_close_notice|]. intros b w2 E2.
    pose proof (shape_close_notice _ _ _ _ _ _ _ H1 E2) as H2. pose proof (notice_for_tunnel _ _ _ _ _ _ E2) as Hb.
    pose proof (wok_close_notice None _ _ _ _ _ _ Hw1 E2) as Hw2.
    apply at_bind; [by apply Hx|]. intros [] w3 E3. apply (wok_xmit (sm := false) f b Hok) in E3; [|done].
    apply at_bind; [apply fueled_get_t|]. apply wlp_get_t. intros t3 Ht3. unfold call_fuel. apply at_bind; [done|]. apply wlp_gets.
    apply at_bind; [|intros [] w4 _; apply fueled_mod_c]. apply close_calls_ends; [done|by eapply within_calls].
  - apply at_bind; [apply fueled_when, fueled_deschedule|]. intros [] w1 E1.
    assert (world_ok false None w1 ∧ shape w1 = shape w) as [Hw1 H1].
    { destruct (negb _); cbn [when] in E1; [|by injection E1 as <-]. split.
      - by eapply (wok_deschedule None).
      - by eapply (shape_deschedule (shape w) (c_zlb_xmit c)). }
    apply at_bind; [apply fueled_close_notice|]. intros b w2 E2.
    pose proof (shape_close_notice _ _ _ _ _ _ _ H1 E2) as H2. pose proof (notice_for_tunnel _ _ _ _ _ _ E2) as Hb.
    pose proof (wok_close_notice None _ _ _ _ _ _ Hw1 E2) as Hw2.
    apply at_bind; [by apply Hx|]. intros [] w3 _. apply fueled_mod_c.
Qed.
End Close.

Lemma close_shut_ends n cp w : world_ok false None w → shut w cp → call_close (S n) (Some cp) w ≠ NoFuel.
Proof. apply close_step_shut_ends. Qed.
Lemma close_asked_ends n cp w : world_ok false None w → Closing.asked w cp → call_close (S (S n)) (Some cp) w ≠ NoFuel.
Proof.
  intros Hw Ha. apply (close_step_ends (call_close (S n))); [apply wok_call_close|intros; apply walks_call_close
    |intros w1 p Hw1 Hp; exact (close_shut_ends n p w1 Hw1 Hp)|done|].
  intros w1 c tp t self s Hs Hw1 Hc Htp Hcl Ht Hself Hss.
  destruct (Ha c Hc) as [|(Hn & tp' & t' & Htp' & Ht' & Hself')]; [congruence|].
  assert (tp' = tp) as -> by congruence. pose proof (shape_tunnels _ _ tp Hs) as H1. rewrite Ht, Ht' in H1. cbn in H1. injection H1 as H1.
  assert (self = cp) as -> by congruence.
  pose proof (shape_calls _ _ cp Hs) as H2. rewrite Hss, Hc in H2. cbn in H2. injection H2 as _ _ H2.
  apply close_shut_ends; [|by apply given_up_shut; congruence]. eapply wok_set_c; [done..|]. unfold given_up. by case_match.
Qed.
Lemma call_close_ends n c : ends (call_close (S (S (S n))) c).
Proof.
  intros w Hw. destruct c as [cp|]; [|done].
  apply (close_step_ends (call_close (S (S n)))); [apply wok_call_close|intros; apply walks_call_close
    |intros w1 p Hw1 Hp; exact (close_shut_ends (S n) p w1 Hw1 Hp)|done|].
  intros w1 c tp t self s Hs Hw1 Hc Htp Hcl Ht Hself Hss. apply close_asked_ends.
  - eapply wok_set_c; [done..|]. unfold given_up. by case_match.
  - eapply given_up_asked; [|done|done]. by eapply (hp_self _ _ _ _ (wk_heap _ _ _ Hw1)).
Qed.
Lemma Mcall_close_ends c : ends (Mcall_close c).
Proof. apply call_close_ends. Qed.
#[export] Hint Resolve Mcall_close_ends : ends.
Lemma control_xmit_ends b : ends (control_xmit b).
Proof. unfold control_xmit, xmit. ends. Qed.
#[export] Hint Resolve control_xmit_ends : ends.
Lemma hello_ends tp : ends (hello tp).
Proof. unfold hello. ends. Qed.
Lemma send_control_ends tp cp b : ends (send_control tp cp b).
Proof. unfold send_control. ends. Qed.
#[export] Hint Resolve hello_ends send_control_ends : ends.

(** ** Lookup *)

Lemma find_head_ends test w : world_ok false None w → find_tunnel (S (size (w_tunnels w))) test (w_head w) w ≠ NoFuel.
Proof. intros Hw. apply find_tunnel_ends. by eapply within_tunnels. Qed.
Lemma find_calls_ends test tp t w : world_ok false None w → w_tunnels w !! tp = Some t →
  find_call (S (size (w_calls w))) test (t_call_head t) w ≠ NoFuel.
Proof. intros Hw Ht. apply find_call_ends. by eapply within_calls. Qed.
Lemma get_tunnel_ends tid : ends (get_tunnel tid).
Proof.
  intros w Hw. unfold get_tunnel, tunnel_fuel. destruct (truthy tid); [|done]. do 2 (apply at_bind; [done|]; apply wlp_gets).
  apply at_bind; [by apply find_head_ends|]. intros st w1 E. apply (wok_find_tunnel (sm := false) None) in E; [|done]. rest.
Qed.
Lemma get_call_ends t c a p m h : ends (get_call t c a p m h).
Proof.
  intros w Hw. unfold get_call, tunnel_fuel, call_fuel. destruct (truthy t); [|destruct (truthy c); [done|]].
  - do 3 (apply at_bind; [done|]; apply wlp_gets). apply at_bind; [by apply find_head_ends|].
    intros [tp|] w1 E; [|done]. apply (wok_find_tunnel (sm := false) None) in E; [|done]. apply at_bind; [apply fueled_get_t|].
    apply wlp_get_t. intros t1 Ht1. destruct (truthy c); [|done]. apply at_bind; [done|]. apply wlp_gets.
    by eapply find_calls_ends.
  - noloop.
Qed.
#[export] Hint Resolve get_tunnel_ends get_call_ends : ends.

(** ** Starting pppd *)

Lemma child_calls_ends w n : ∀ o, within c_next n (w_calls w) o → child_calls (S n) o w ≠ NoFuel.
Proof.
  induction n as [|n IH]; intros [p|] H; try done; (apply at_bind; [apply fueled_get_c|]); apply wlp_get_c;
    intros c Hc; cbn in H; rewrite Hc in H; [done|]. apply at_bind; [by apply IH|]. by intros.
Qed.
Lemma child_calls_keeps w n : ∀ o, wlp (child_calls n o) (λ _ w', w' = w) w.
Proof.
  induction n as [|n IH]; intros [p|]; cbn [child_calls]; wlps; try done. eapply wlp_mono; [apply IH|]. intros l w' ->. by wlps.
Qed.
Lemma child_tunnels_ends kernel w n : world_ok false None w → ∀ o, within t_next n (w_tunnels w) o →
  child_tunnels kernel (S n) (S (size (w_calls w))) o w ≠ NoFuel.
Proof.
  intros Hw. induction n as [|n IH]; intros [p|] H; try done; (apply at_bind; [apply fueled_get_t|]); apply wlp_get_t;
    intros t Ht; cbn in H; rewrite Ht in H; [done|].
  apply at_bind; [destruct kernel; [done|apply child_calls_ends; by eapply within_calls]|].
  apply wlp_mono with (Q := λ _ w', w' = w); [destruct kernel; [by wlps|apply child_calls_keeps]|]. intros l w' ->.
  apply at_bind; [by apply IH|]. by intros.
Qed.
Lemma pppd_child_ends kernel fd2 : ends (pppd_child kernel fd2).
Proof.
  intros w Hw. unfold pppd_child, tunnel_fuel, call_fuel. do 3 (apply at_bind; [done|]; apply wlp_gets).
  apply at_bind; [apply child_tunnels_ends; [done|by eapply within_tunnels]|]. by intros.
Qed.
#[export] Hint Resolve pppd_child_ends : ends.
Lemma fueled_set_nonblock fd : fueled (set_nonblock fd).
Proof. unfold set_nonblock. fueled. Qed.
Lemma fueled_open_first l : fueled (open_first l).
Proof. induction l as [|[a b] l IH]; cbn [open_first]; fueled. Qed.
#[export] Hint Resolve fueled_set_nonblock fueled_open_first : fueled.
Lemma fueled_connect tp : fueled (connect_pppol2tp tp).
Proof. unfold connect_pppol2tp. fueled. Qed.
Lemma fueled_getPtyMaster n : fueled (getPtyMaster n).
Proof. unfold getPtyMaster, getPtyMaster_ptmx, getPtyMaster_pty. fueled. Qed.
#[export] Hint Resolve fueled_connect fueled_getPtyMaster : fueled.
Lemma start_pppd_ends cp o : ends (start_pppd cp o).
Proof. unfold start_pppd, fork_pppd, pppox_device, tty_device. ends. Qed.
#[export] Hint Resolve start_pppd_ends : ends.

(** A tunnel is looked for in the list. *)
Lemma search_ends {A} test (k : option nat → M A) : (∀ y, ends (k y)) →
  ends (head ← gets w_head; fuel ← tunnel_fuel; y ← find_tunnel fuel test head; k y).
Proof.
  intros Hk w Hw. unfold tunnel_fuel. do 2 (apply at_bind; [done|]; apply wlp_gets).
  apply at_bind; [by apply find_head_ends|]. intros st w1 E. apply Hk. by eapply (wok_find_tunnel None).
Qed.

(** ** The state machine *)

Lemma fueled_fail_call cp e m : fueled (fail_call cp e m).
Proof. unfold fail_call. fueled. Qed.
Lemma fueled_own_hostname t : fueled (own_hostname t).
Proof. unfold own_hostname. fueled. Qed.
#[export] Hint Resolve fueled_fail_call fueled_own_hostname : fueled.
Lemma fueled_add_tunnel_avps tp b : fueled (add_tunnel_avps tp b).
Proof. unfold add_tunnel_avps. fueled. Qed.
Lemma fueled_new_challenge tp : fueled (new_challenge tp).
Proof. unfold new_challenge, mk_challenge. fueled. Qed.
Lemma fueled_add_our_challenge tp b : fueled (add_our_challenge tp b).
Proof. unfold add_our_challenge. fueled. Qed.
Lemma fueled_schedule_hello tp : fueled (schedule_hello tp).
Proof. unfold schedule_hello. fueled. Qed.
Lemma fueled_handle_challenge tp k : fueled (handle_challenge tp k).
Proof. unfold handle_challenge, auth_names. fueled. Qed.
Lemma fueled_inherit_config tp : fueled (inherit_config tp).
Proof. unfold inherit_config. fueled. Qed.
Lemma fueled_wants_challenge t : fueled (wants_challenge t).
Proof. unfold wants_challenge. fueled. Qed.
Lemma fueled_add_serno cp b : fueled (add_serno cp b).
Proof. unfold add_serno. fueled. Qed.
Lemma fueled_add_opt_fmt po s : fueled (add_opt_fmt po s).
Proof. unfold add_opt_fmt. fueled. Qed.
#[export] Hint Resolve fueled_add_tunnel_avps fueled_new_challenge fueled_add_our_challenge fueled_schedule_hello
  fueled_handle_challenge fueled_inherit_config fueled_wants_challenge fueled_add_serno fueled_add_opt_fmt : fueled.
Lemma fueled_lac_auth_opts l po : fueled (lac_auth_opts l po).
Proof. unfold lac_auth_opts. fueled. Qed.
Lemma fueled_lns_auth_opts l po : fueled (lns_auth_opts l po).
Proof. unfold lns_auth_opts. fueled. Qed.
Lemma fueled_peer_opt b tp po : fueled (peer_opt b tp po).
Proof. unfold peer_opt. fueled. Qed.
Lemma fueled_file_opt n po : fueled (file_opt n po).
Proof. unfold file_opt. fueled. Qed.
Lemma fueled_password_opts lp po : fueled (password_opts lp po).
Proof. unfold password_opts. fueled. Qed.
Lemma fueled_lns_loop addr l : ∀ allow, fueled (lns_loop addr allow l).
Proof. induction l as [|p l IH]; intros allow; cbn; fueled. Qed.
#[export] Hint Resolve fueled_lac_auth_opts fueled_lns_auth_opts fueled_peer_opt fueled_file_opt fueled_password_opts
  fueled_lns_loop : fueled.
Lemma fueled_get_lns tp : fueled (get_lns tp).
Proof. unfold get_lns. fueled. Qed.
#[export] Hint Resolve fueled_get_lns : fueled.
Lemma finish_none_ends tp cp : ends (finish_none tp cp).
Proof. unfold finish_none, start_sccrq, start_icrq, start_ocrq. ends. Qed.
Lemma finish_sccrq_reply_ends tp cp lp : ends (finish_sccrq_reply tp cp lp).
Proof. unfold finish_sccrq_reply. ends. Qed.
#[export] Hint Resolve finish_none_ends finish_sccrq_reply_ends : ends.
Lemma finish_sccrq_ends tp cp : ends (finish_sccrq tp cp).
Proof.
  unfold finish_sccrq. ends1; [by ends|]. cbv beta. case_match; [by ends|]. ends1; [by ends|]. ends1; [by ends|]. cbv beta.
  case_match; [|by ends]. do 2 (ends1; [by ends|]). cbv beta. do 2 (case_match; [by ends|]). ends1; [by ends|].
  apply search_ends. ends.
Qed.
Lemma check_their_reply_ends tp cp : ends (check_their_reply tp cp).
Proof. unfold check_their_reply. ends. Qed.
Lemma answer_challenge_ends tp cp : ends (answer_challenge tp cp).
Proof. unfold answer_challenge. ends. Qed.
Lemma confirm_tunnel_ends tp cp : ends (confirm_tunnel tp cp).
Proof. unfold confirm_tunnel. ends. Qed.
#[export] Hint Resolve finish_sccrq_ends check_their_reply_ends answer_challenge_ends confirm_tunnel_ends : ends.
Lemma finish_sccrp_ends dial tp cp : (∀ lp, pres (world_ok false None) (dial lp)) → (∀ lp, ends (dial lp)) → ends (finish_sccrp dial tp cp).
Proof. intros Hp Hd. unfold finish_sccrp, finish_sccrp_reply. ends. Qed.
Lemma finish_scccn_ends tp cp : ends (finish_scccn tp cp).
Proof. unfold finish_scccn. ends. Qed.
Lemma finish_stopccn_ends tp cp : ends (finish_stopccn tp cp).
Proof. unfold finish_stopccn. ends. Qed.
Lemma finish_icrp_ends tp cp : ends (finish_icrp tp cp).
Proof. unfold finish_icrp, finish_icrp_pppd. ends. Qed.
Lemma finish_occn_ends tp cp : ends (finish_occn tp cp).
Proof. unfold finish_occn. ends. Qed.
Lemma finish_cdn_ends tp cp : ends (finish_cdn tp cp).
Proof.
  intros w Hw. unfold finish_cdn, call_fuel. apply at_bind; [apply fueled_get_c|]. wlp1. case_match; [done|].
  apply at_bind; [apply fueled_get_t|]. wlp1. apply at_bind.
  { case_match; [|done]. apply at_bind; [done|]. apply wlp_gets. by eapply find_calls_ends. }
  intros p w1 _. noloop.
Qed.
#[export] Hint Resolve finish_scccn_ends finish_stopccn_ends finish_icrp_ends finish_occn_ends finish_cdn_ends : ends.

(** An address for a call: the ranges must not end at 255.255.255.255, where
    the search does not end. *)
Definition ranges_fit (w : world) : Prop :=
  ∀ p l, w_lnss w !! p = Some l → Forall range_ok (lns_range l) ∧ Forall range_ok (lns_localrange l).
Lemma ranges_fit_lnss w w' : w_lnss w' = w_lnss w → ranges_fit w → ranges_fit w'.
Proof. unfold ranges_fit. by intros ->. Qed.
(** The search returns, and what follows is run in the same state. *)
Lemma Mget_addr_then {A} ipr (k : Z → M A) w : Forall range_ok ipr → (∀ a, k a w ≠ NoFuel) → (Mget_addr ipr ≫= k) w ≠ NoFuel.
Proof.
  intros Hr Hk. assert (∃ a, get_addr (w_uaddr w) ipr = Some a) as [a Ha].
  { destruct (get_addr_spec (w_uaddr w) ipr Hr) as [(x & ? & _)|[? _]]; eauto. }
  unfold Mget_addr. apply at_bind; [apply at_bind; [done|]; apply wlp_gets; by rewrite Ha|]. wlps. rewrite Ha. wlps. apply Hk.
Qed.
Lemma assign_addr_ends tp p w : world_ok false None w → ranges_fit w → assign_addr tp p w ≠ NoFuel.
Proof.
  intros Hw Hr. unfold assign_addr. apply at_bind; [apply fueled_get_t|]. wlp1. apply at_bind; [apply fueled_need|]. wlp1.
  apply at_bind; [apply fueled_get_lnsp|]. apply wlp_get_lnsp. intros l Hl. destruct (truthy _).
  - apply Mget_addr_then; [by apply (Hr _ l Hl)|]. intros a'. apply at_bind; [apply fueled_mod_c|]. wlps.
    destruct (Z.eqb_spec a' 0) as [->|Hne].
    + destruct (wok_give p c 0 w Hw) as [_ Hz]; [done..|]. specialize (Hz eq_refl). rest.
    + unfold Mreserve. noloop.
  - noloop.
Qed.
Lemma get_local_addr_ends tp cp w : world_ok false None w → ranges_fit w → get_local_addr tp cp w ≠ NoFuel.
Proof.
  intros Hw Hr. unfold get_local_addr. apply at_bind; [apply fueled_get_t|]. wlp1. apply at_bind; [apply fueled_need|]. wlp1.
  apply at_bind; [apply fueled_get_lnsp|]. apply wlp_get_lnsp. intros l Hl. case_bool_decide; [done|].
  apply at_bind; [apply fueled_get_c|]. wlp1. apply at_bind; [apply fueled_need|]. wlp1.
  apply Mget_addr_then; [by apply (Hr _ l Hl)|]. intros a'. unfold Mreserve. rest.
Qed.
Lemma finish_iccn_ends tp cp w : world_ok false None w → ranges_fit w → finish_iccn tp cp w ≠ NoFuel.
Proof.
  intros Hw Hr. unfold finish_iccn. apply at_bind; [apply fueled_get_t|]. wlp1. case_bool_decide; [done|].
  apply at_bind; [apply fueled_mod_c|]. apply wlp_mod_c. intros c Hc.
  match goal with |- _ ?w1 ≠ _ => assert (world_ok false None w1) as Hw1 by (by eapply wok_set_c; [|exact Hc|]);
    assert (ranges_fit w1) as Hr1 by (by eapply ranges_fit_lnss; [|exact Hr]); generalize dependent w1 end. intros w1 Hw1 Hr1.
  apply at_bind; [by apply get_local_addr_ends|]. intros r w2 E2. apply (wok_get_local_addr (sm := false)) in E2; [|done]. rest.
Qed.
Lemma finish_icrq_ends tp w : world_ok false None w → ranges_fit w → finish_icrq tp w ≠ NoFuel.
Proof.
  intros Hw Hr. unfold finish_icrq, call_fuel. apply at_bind; [apply fueled_get_t|]. apply wlp_get_t. intros t Ht.
  apply at_bind; [apply fueled_need|]. apply wlp_need. intros p Hp. apply at_bind; [apply fueled_get_c|]. apply wlp_get_c. intros c Hc.
  destruct (c_lns c) as [lp|]; [|rest]. apply at_bind; [apply fueled_get_lnsp|]. apply wlp_get_lnsp. intros l Hl.
  apply at_bind; [apply fueled_mod_c|]. apply wlp_mod_c. intros c' Hc'. assert (c' = c) as -> by congruence.
  match goal with |- _ ?w1 ≠ _ => assert (world_ok false None w1) as Hw1 by (by eapply wok_set_c; [|exact Hc|]);
    assert (ranges_fit w1) as Hr1 by (by eapply ranges_fit_lnss; [|exact Hr]);
    assert (within c_next (size (w_calls w1)) (w_calls w1) (c_next c)) as Hin; [|generalize dependent w1] end.
  { pose proof (within_calls _ _ _ _ Hw1 Ht) as H. rewrite Hp in H. revert H. generalize (size (w_calls (set_c p { c with c_lbit := lbit_of (lns_lbit l) } w))).
    intros [|n]; cbn; rewrite lookup_insert_eq; [done|]. cbn. intros H. apply within_S in H. exact H. }
  intros w1 Hw1 Hr1 Hin. case_match; [rest|]. apply at_bind; [done|]. apply wlp_gets.
  apply at_bind; [by apply find_call_ends|]. apply wlp_mono with (Q := λ _ w', world_ok false None w' ∧ ranges_fit w').
  { apply wlp_and; [by apply wlp_pres; [apply (wok_find_call (sm := false))|]|].
    assert (∀ fuel test o, pres ranges_fit (find_call fuel test o)) as Hfind; [|by apply wlp_pres; [apply Hfind|]].
    induction fuel as [|fuel IH]; intros test o; cbn [find_call]; pres. }
  intros [z|] w2 [Hw2 Hr2]; [rest|]. apply at_bind; [by apply assign_addr_ends|]. intros ok w3 E. apply (wok_assign_addr (sm := false)) in E; [|done]. rest.
Qed.

(** Dialing calls [control_finish] on what it has just made. *)
Section Dial.
Context (finish : nat → nat → M Z) (Hok : ∀ tp cp, pres (world_ok false None) (finish tp cp)) (Hends : ∀ tp cp, ends (finish tp cp)).
Lemma l2tp_call_ends port lac lns : ends (l2tp_call finish port lac lns).
Proof using Hok Hends. unfold l2tp_call. ends. Qed.
Lemma lac_call_ends tid lac lns : ends (lac_call finish tid lac lns).
Proof using Hok Hends.
  unfold lac_call. apply search_ends. intros [tp|]; [|by ends]. intros w Hw. apply at_bind; [apply fueled_new_call|].
  eapply wlp_mono; [apply (new_call_wlp (sm := false)), Hw|]. intros [p|] w1 (Hw1 & _ & _ & Hp); [|done].
  apply at_bind; [apply fueled_get_t|]. apply wlp_get_t. intros t Ht. apply at_bind; [done|]. apply wlp_gets.
  apply at_bind; [apply fueled_mod_c|]. apply wlp_mod_c. intros c Hc. apply at_bind; [apply fueled_mod_t|].
  apply wlp_mod_t. intros t' Ht'. cbn in Ht'. assert (t' = t) as -> by congruence.
  match goal with |- _ ?w2 ≠ _ => assert (world_ok false None w2) as Hw2; [|rest] end.
  eapply wok_link_c; [done|by apply Hp|done..|]. exact (wk_seq false None w1 Hw1 tp t Ht).
Qed.
Lemma magic_lac_dial_ends lp : ends (magic_lac_dial finish lp).
Proof using Hok Hends.
  pose proof (wok_l2tp_call (sm := false) finish Hok). pose proof (wok_lac_call (sm := false) finish Hok).
  pose proof l2tp_call_ends. pose proof lac_call_ends. unfold magic_lac_dial, magic_lac_tunnel. ends.
Qed.
End Dial.

(** The two levels of the recursion. *)
Lemma dial_ends lp : ends (magic_lac_dial finish_none lp).
Proof. apply magic_lac_dial_ends; [apply wok_finish_none|apply finish_none_ends]. Qed.
Lemma control_finish_ends tp cp w : world_ok false None w → ranges_fit w → control_finish tp cp w ≠ NoFuel.
Proof.
  intros Hw Hr. unfold control_finish. rewrite (control_finish_depth 0). unfold finish_message.
  apply at_bind; [apply fueled_get_c|]. apply wlp_get_c. intros c Hc. cbv zeta.
  destruct (c_msgtype c =? ICRQ) eqn:Ei.
  { apply Z.eqb_eq in Ei. rewrite Ei. by apply finish_icrq_ends. }
  destruct (c_msgtype c =? ICCN) eqn:Ec.
  { apply Z.eqb_eq in Ec. rewrite Ec. by apply finish_iccn_ends. }
  pose proof dial_ends. pose proof (wok_magic_lac_dial (sm := false) finish_none wok_finish_none).
  assert (ends (finish_sccrp (magic_lac_dial finish_none) tp cp)) by (by apply finish_sccrp_ends). rest.
Qed.

(** ** Messages *)

(** What comes before [control_finish] leaves the configuration alone. *)
Definition setting (w : world) := (w_lnss w, w_env w).
Section Setting.
Context (x : gmap nat lns * env).
Implicit Types f : world → world.
Lemma fit_upd f : (∀ w, setting (f w) = setting w) → pres (λ w, setting w = x) (upd f).
Proof. intros Hf. apply pres_upd. intros w <-. apply Hf. Qed.
Lemma fit_ask {A} (f : env → nat → A) : pres (λ w, setting w = x) (ask f).
Proof. intros w a w' Hw. by intros [= _ <-]. Qed.
Lemma fit_alloc : pres (λ w, setting w = x) alloc.
Proof. intros w a w' Hw. by intros [= _ <-]. Qed.
Lemma fit_emit o : pres (λ w, setting w = x) (emit o).
Proof. by apply fit_upd. Qed.
Lemma fit_mod_t p g : pres (λ w, setting w = x) (mod_t p g).
Proof. apply pres_wlp. intros w Hw. by wlps. Qed.
Lemma fit_mod_c p g : pres (λ w, setting w = x) (mod_c p g).
Proof. apply pres_wlp. intros w Hw. by wlps. Qed.
#[local] Hint Resolve fit_ask fit_alloc fit_emit fit_mod_t fit_mod_c : pres.
#[local] Hint Extern 2 (pres _ (upd _)) => apply fit_upd; done : pres.
Lemma fit_check_control b tp cp : pres (λ w, setting w = x) (check_control b tp cp).
Proof. unfold check_control, control_zlb, Mnew_outgoing, Mmalloc, add_control_hdr, udp_xmit. pres. Qed.
Lemma fit_new_call tp : pres (λ w, setting w = x) (new_call tp).
Proof. unfold new_call, Mmalloc, random_id, get_entropy. pres. Qed.
Lemma fit_raw d i : pres (λ w, setting w = x) (raw d i).
Proof. unfold raw. pres. Qed.
#[local] Hint Resolve fit_new_call fit_raw : pres.
Lemma fit_nraw d i : pres (λ w, setting w = x) (nraw d i).
Proof. unfold nraw. pres. Qed.
Lemma fit_raw_string d i n : pres (λ w, setting w = x) (raw_string d i n).
Proof. unfold raw_string. pres. Qed.
#[local] Hint Resolve fit_nraw fit_raw_string : pres.
Lemma fit_appropriate tp cp l : pres (λ w, setting w = x) (appropriate tp cp l).
Proof. unfold appropriate, log_msgtype. pres. Qed.
#[local] Hint Resolve fit_appropriate : pres.
Lemma fit_checked tp cp l b s e n m body : pres (λ w, setting w = x) body → pres (λ w, setting w = x) (checked tp cp l b s e n m body).
Proof. intros Hb. unfold checked, wrong_length. pres. Qed.
Lemma fit_decrypt_avp p tp : pres (λ w, setting w = x) (decrypt_avp p tp).
Proof. unfold decrypt_avp. pres. Qed.
#[local] Hint Resolve fit_decrypt_avp : pres.
Definition entry_fit (e : option (nat → nat → Z → Z → M Z) * string) : Prop :=
  match e.1 with None => True | Some h => ∀ tp cp data n, pres (λ w, setting w = x) (h tp cp data n) end.
Lemma avps_fit : Forall entry_fit avps.
Proof.
  unfold avps. repeat (apply Forall_cons_2; [|]); try apply Forall_nil_2; try exact I; intros tp cp data n; cbn [fst].
  all: first
    [ apply pres_ret
    | apply fit_checked; unfold avp_string, nraw32, call_head, set_error; by pres
    | unfold message_type_avp, result_code_avp, protocol_version_avp, rand_vector_avp, seq_reqd_avp, wrong_length, set_error; by pres ].
Qed.
Lemma entry_fit_at attr : entry_fit (avp_entry attr).
Proof.
  unfold avp_entry. destruct (nth_in_or_default (Z.to_nat attr) avps (None, ""%string)) as [Hin| ->]; [|exact I].
  by eapply (proj1 (List.Forall_forall _ _)), Hin; apply avps_fit.
Qed.
Lemma fit_one_avp tp cp data len first : pres (λ w, setting w = x) (one_avp tp cp data len first).
Proof.
  assert (∀ d l hid, pres (λ w, setting w = x) (dispatch_avp tp cp d l hid)) as Hd.
  { intros dt l hid. unfold dispatch_avp. do 3 (apply pres_bind; [by pres|intro]).
    match goal with |- context [avp_entry ?a] => pose proof (entry_fit_at a) as H; destruct (avp_entry a) as [[h|] d] end;
      cbn in H; unfold set_error; pres. }
  unfold one_avp, refuse, set_error. pres.
Qed.
#[local] Hint Resolve fit_one_avp : pres.
Lemma fit_run_avps b tp cp : pres (λ w, setting w = x) (run_avps b tp cp).
Proof.
  assert (∀ fuel data len first, pres (λ w, setting w = x) (avp_loop fuel tp cp data len first)) as Hl.
  { induction fuel as [|fuel IH]; intros data len first; cbn [avp_loop]; pres. }
  unfold run_avps, handle_avps. pres.
Qed.
Lemma fit_get_call t c a p m h : pres (λ w, setting w = x) (get_call t c a p m h).
Proof.
  assert (∀ fuel test o, pres (λ w, setting w = x) (find_tunnel fuel test o)) as H1.
  { induction fuel as [|fuel IH]; intros test o; cbn [find_tunnel]; pres. }
  assert (∀ fuel test o, pres (λ w, setting w = x) (find_call fuel test o)) as H2.
  { induction fuel as [|fuel IH]; intros test o; cbn [find_call]; pres. }
  unfold get_call, tunnel_fuel, call_fuel, new_tunnel, Mmalloc, random_id, get_entropy. pres.
Qed.
Lemma fit_check_payload b tp o : pres (λ w, setting w = x) (check_payload b tp o).
Proof. unfold check_payload. pres. Qed.
End Setting.
Lemma ranges_fit_setting w w' : setting w' = setting w → ranges_fit w → ranges_fit w'.
Proof. intros [= E _]. by apply ranges_fit_lnss. Qed.

Lemma fueled_check_control b tp cp : fueled (check_control b tp cp).
Proof. unfold check_control. fueled. Qed.
Lemma fueled_run_avps b tp cp : fueled (run_avps b tp cp).
Proof.
  unfold run_avps. apply fueled_bind; [fueled|intros _]. apply fueled_bind; [|fueled].
  unfold handle_avps. apply avp_loop_fueled. lia.
Qed.
#[export] Hint Resolve fueled_check_control fueled_run_avps : fueled.
Lemma wok_run_avps b tp cp : pres (world_ok false None) (run_avps b tp cp).
Proof. unfold run_avps. pres. Qed.
#[export] Hint Resolve wok_run_avps : pres.
Lemma handle_control_ends b tp cp w : world_ok false None w → ranges_fit w → handle_control b tp cp w ≠ NoFuel.
Proof.
  intros Hw Hr. unfold handle_control. apply at_bind; [apply fueled_check_control|]. intros r w1 E1.
  pose proof (fit_check_control _ _ _ _ _ _ _ eq_refl E1) as Hs1. apply (wok_check_control (sm := false)) in E1; [|done]. case_match; [done|].
  apply at_bind; [apply fueled_mod_c|]. intros [] w2 E2. pose proof (fit_mod_c _ _ _ _ _ _ Hs1 E2) as Hs2.
  assert (world_ok false None w2) as Hw2 by (eapply wok_mod_c; [|exact E1|exact E2]; done). case_match.
  - noloop.
  - apply at_bind; [apply fueled_run_avps|]. intros rb w3 E3. pose proof (fit_run_avps _ _ _ _ _ _ _ Hs2 E3) as Hs3.
    apply wok_run_avps in E3; [|done]. case_match; [done|]. apply at_bind; [|by intros].
    apply control_finish_ends; [done|]. exact (ranges_fit_setting w w3 Hs3 Hr).
Qed.
Lemma run_job_ends j : ends (run_job j).
Proof.
  destruct j; cbn [run_job]; [by ends..|]. intros w Hw.
  rewrite (magic_lac_dial_agree _ finish_none); [by apply dial_ends|].
  intros tp cp w' c Hc Hm. by apply (control_finish_none 1 tp cp w' c).
Qed.

(** ** Packets *)

(** The tty takes a frame or fails. *)
Definition tty_ends (e : env) : Prop :=
  ∀ k data, blen data <= MAX_RECV_SIZE → write_loop (e_write e k) data ≠ Blocked.
Lemma wput_len wbuf e wbuf' : wput wbuf e = Some wbuf' → blen wbuf' <= MAX_RECV_SIZE.
Proof. unfold wput. destruct (Z.ltb_spec (blen wbuf) MAX_RECV_SIZE); [|done]. intros [= <-]. rewrite blen_app. unfold blen in *. cbn. lia. Qed.
Lemma write_packet_ends script b c : (∀ data, blen data <= MAX_RECV_SIZE → write_loop script data ≠ Blocked) →
  write_packet script b c SYNC_FRAMING ≠ Blocked.
Proof.
  intros Hs. unfold write_packet. destruct (_ <? _); [done|]. destruct (buf_ld16 b 12) as [off|]; [|done]. cbv zeta.
  change (negb (truthy SYNC_FRAMING)) with false. cbv iota.
  match goal with |- match ?o with _ => _ end ≠ _ => destruct o as [[b1 [wbuf|]]|] eqn:E; [|done..] end.
  assert (blen wbuf <= MAX_RECV_SIZE) as Hl.
  { revert E. intros (b2 & _ & (data & _ & (w1 & _ & (r & _ & E)%bind_Some)%bind_Some)%bind_Some)%bind_Some.
    destruct r as [w2|]; [|done]. apply bind_Some in E as (w3 & E3 & [= _ <-]). by apply wput_len in E3. }
  specialize (Hs wbuf Hl). by destruct (write_loop script wbuf) as [[[] ?]| |].
Qed.
Lemma Mwrite_packet_ends b cp w : tty_ends (w_env w) → Mwrite_packet b cp SYNC_FRAMING w ≠ NoFuel.
Proof.
  intros Ht. unfold Mwrite_packet. apply at_bind; [done|]. apply wlp_ask. apply at_bind; [apply fueled_get_c|].
  apply wlp_get_c. intros c Hc. pose proof (write_packet_ends (e_write (w_env w) (w_clk w)) b c (Ht (w_clk w))) as Hp.
  destruct (write_packet _ _ _ _) as [[[[r b'] c'] out]| |]; [|done..].
  noloop.
Qed.
Lemma handle_packet_ends b tp cp w : world_ok false None w → ranges_fit w → tty_ends (w_env w) → handle_packet b tp cp w ≠ NoFuel.
Proof.
  intros Hw Hr Ht. unfold handle_packet. apply at_bind; [apply fueled_need|]. wlp1. case_match; [by apply handle_control_ends|].
  apply at_bind; [unfold check_payload; noloop|].
  intros r w1 E1. pose proof (fit_check_payload _ _ _ _ _ _ _ eq_refl E1) as [= _ He]. case_match; [done|].
  apply at_bind; [apply fueled_get_c|]. wlp1. apply at_bind; [apply fueled_need|]. wlp1. destruct a0 as [[r2 b2] c2].
  apply at_bind; [apply fueled_mod_c|]. wlp1. case_match; [done|]. case_match.
  - apply Mwrite_packet_ends. cbn. by rewrite He.
  - noloop.
Qed.
Lemma receive_ends b d w : world_ok false None w → ranges_fit w → tty_ends (w_env w) → receive b d w ≠ NoFuel.
Proof.
  intros Hw Hr Ht. unfold receive. apply at_bind; [apply fueled_need|]. wlp1. case_match; [done|].
  apply at_bind; [apply fueled_need|]. wlp1. apply at_bind; [apply fueled_need|]. wlp1. destruct a1 as [tunnel call].
  apply at_bind; [by apply get_call_ends|]. intros [cp|] w1 E1; pose proof (wok_get_call None _ _ _ _ _ _ _ _ _ Hw E1) as Hw1.
  - pose proof (fit_get_call _ _ _ _ _ _ _ _ _ _ eq_refl E1) as Hs. unfold deliver.
    apply at_bind; [apply fueled_get_c|]. wlp1. apply at_bind; [apply fueled_need|]. wlp1.
    apply at_bind; [apply fueled_mod_t|]. intros [] w2 E2. pose proof (fit_mod_t _ _ _ _ _ _ Hs E2) as Hs2.
    assert (world_ok false None w2) as Hw2.
    { eapply wok_mod_t; [| |exact Hw1|exact E2]; [keeps_seq|done]. }
    apply at_bind; [apply handle_packet_ends; [done|exact (ranges_fit_setting w w2 Hs2 Hr)|]|].
    + injection Hs2 as _ ->. done.
    + intros rb w3 _. noloop.
  - unfold handle_special, Mnew_buf. rest.
Qed.

(** ** Signals *)

Lemma find_call_keeps w test n : ∀ o, wlp (find_call n test o) (λ _ w', w' = w) w.
Proof. induction n as [|n IH]; intros [p|]; cbn [find_call]; wlps; try done. case_match; [by wlps|apply IH]. Qed.
(** A search through the calls of all tunnels. *)
Lemma find_pppd_ends w pid n : world_ok false None w → ∀ o, within t_next n (w_tunnels w) o → find_pppd (S n) pid o w ≠ NoFuel.
Proof.
  intros Hw. induction n as [|n IH]; intros [p|] H; try done; cbn [find_pppd]; unfold call_fuel;
    (apply at_bind; [apply fueled_get_t|]); apply wlp_get_t; intros t Ht; cbn in H; rewrite Ht in H; [done|].
  apply at_bind; [done|]. apply wlp_gets. apply at_bind; [by eapply find_calls_ends|].
  eapply wlp_mono; [apply find_call_keeps|]. intros [cp|] w' ->; [done|by apply IH].
Qed.
Lemma hangup_loop_ends w cid n : world_ok false None w → ∀ o, within t_next n (w_tunnels w) o → hangup_loop (S n) cid o w ≠ NoFuel.
Proof.
  intros Hw. induction n as [|n IH]; intros [p|] H; try done; cbn [hangup_loop]; unfold call_fuel;
    (apply at_bind; [apply fueled_get_t|]); apply wlp_get_t; intros t Ht; cbn in H; rewrite Ht in H; [done|].
  apply at_bind; [done|]. apply wlp_gets. apply at_bind; [by eapply find_calls_ends|].
  eapply wlp_mono; [apply find_call_keeps|]. intros [cp|] w' ->; [done|by apply IH].
Qed.
Lemma lac_hangup_ends cid : ends (lac_hangup cid).
Proof.
  intros w Hw. unfold lac_hangup, tunnel_fuel. do 2 (apply at_bind; [done|]; apply wlp_gets).
  apply at_bind; [apply hangup_loop_ends; [done|by eapply within_tunnels]|]. intros o w1 _. noloop.
Qed.
Lemma lac_disconnect_ends tid : ends (lac_disconnect tid).
Proof. unfold lac_disconnect. apply search_ends. ends. Qed.
Lemma child_died_ends pid : ends (child_died pid).
Proof.
  intros w Hw. unfold child_died, tunnel_fuel. do 2 (apply at_bind; [done|]; apply wlp_gets).
  apply at_bind; [apply find_pppd_ends; [done|by eapply within_tunnels]|]. intros o w1 E. apply (wok_find_pppd (sm := false)) in E; [|done]. rest.
Qed.
Lemma wok_child_died pid : pres (world_ok false None) (child_died pid).
Proof. unfold child_died, tunnel_fuel. pres. Qed.
#[local] Hint Resolve child_died_ends : ends.
#[local] Hint Resolve wok_child_died : pres.
Lemma child_handler_ends pids : ends (child_handler pids).
Proof. induction pids as [|pid pids IH]; cbn [child_handler]; ends. Qed.

(** The tunnel in hand is freed on the way. *)
Lemma walk_then n o (m k : M unit) w : ends m → pres (world_ok false None) m → pres (walks 0 None n o) m →
  (∀ w, world_ok false None w → walks 0 None n o w → k w ≠ NoFuel) →
  world_ok false None w → walks 0 None n o w → (m;; k) w ≠ NoFuel.
Proof. intros H1 H2 H3 H4 Hw Hk. apply at_bind; [by apply H1|]. intros [] w2 E. apply H4; [by eapply H2|by eapply H3]. Qed.
Lemma close_tunnels_ends n : ∀ o w, world_ok false None w → within t_next n (w_tunnels w) o → close_tunnels (S n) o w ≠ NoFuel.
Proof.
  induction n as [|n IH]; intros [p|] w Hw H; try done; (apply at_bind; [apply fueled_get_t|]); apply wlp_get_t;
    intros t Ht; cbn in H; rewrite Ht in H; [done|].
  apply at_bind; [apply fueled_need|]. wlp1. apply at_bind; [apply fueled_get_c|]. wlp1.
  assert (walks 0 None n (t_next t) w) as Hk by done. clear H Ht H1. unfold Mcall_close.
  do 4 (apply (walk_then n (t_next t)); [by ends|by pres|by pres|clear w Hw Hk; intros w Hw Hk|done|done]).
  apply IH; [done|apply Hk].
Qed.
Lemma death_handler_ends s : ends (death_handler s).
Proof.
  intros w Hw. unfold death_handler, tunnel_fuel. apply at_bind; [done|]. apply wlp_gets. apply at_bind.
  - destruct (_ || _); [|done]. cbn [when]. do 2 (apply at_bind; [done|]; apply wlp_gets).
    apply close_tunnels_ends; [done|by eapply within_tunnels].
  - intros [] w1 _. noloop.
Qed.

(** ** The sweep

    The sweep of [build_fdset] starts over after every call or tunnel it
    closes.  It ends because closing either frees the call or marks it as
    closing, and nothing takes the mark away. *)

(** Calls and tunnels only go, and the mark stays. *)
Record fades (w w' : world) : Prop := {
  fa_calls : ∀ q c', w_calls w' !! q = Some c' → ∃ c, w_calls w !! q = Some c ∧
    (truthy (c_closing c) = true → truthy (c_closing c') = true);
  fa_tunnels : ∀ q t', w_tunnels w' !! q = Some t' → ∃ t, w_tunnels w !! q = Some t ∧ t_self t' = t_self t }.
Lemma fades_refl w : fades w w.
Proof. split; eauto. Qed.

Section Fades.
Context (w0 : world).
Lemma fades_upd f : (∀ w, w_calls (f w) = w_calls w) → (∀ w, w_tunnels (f w) = w_tunnels w) → pres (fades w0) (upd f).
Proof. intros H1 H2. apply pres_upd. intros w [Hc Ht]. split; [by rewrite H1|by rewrite H2]. Qed.
Lemma fades_ask {A} (f : env → nat → A) : pres (fades w0) (ask f).
Proof. intros w a w' [? ?]. by intros [= _ <-]. Qed.
Lemma fades_alloc : pres (fades w0) alloc.
Proof. intros w a w' [? ?]. by intros [= _ <-]. Qed.
Lemma fades_emit x : pres (fades w0) (emit x).
Proof. by apply fades_upd. Qed.
Lemma fades_mod_lac p f : pres (fades w0) (mod_lac p f).
Proof. apply pres_wlp. intros w [? ?]. by wlps. Qed.
Lemma fades_mod_lns p f : pres (fades w0) (mod_lns p f).
Proof. apply pres_wlp. intros w [? ?]. by wlps. Qed.
Lemma fades_mod_c p f : (∀ c, truthy (c_closing c) = true → truthy (c_closing (f c)) = true) → pres (fades w0) (mod_c p f).
Proof.
  intros Hf. apply pres_wlp. intros w [Hc Ht]. wlps. split; [|done]. cbn.
  intros q c' [[-> <-]|[_ Hq]]%lookup_insert_Some; [|by eauto]. destruct (Hc q c) as (c1 & Hc1 & Hcl); eauto.
Qed.
Lemma fades_mod_t p f : (∀ t, t_self (f t) = t_self t) → pres (fades w0) (mod_t p f).
Proof.
  intros Hf. apply pres_wlp. intros w [Hc Ht]. wlps. split; [done|]. cbn.
  intros q t' [[-> <-]|[_ Hq]]%lookup_insert_Some; [|by eauto]. destruct (Ht q t) as (t1 & Ht1 & Hs); [done|].
  exists t1. by rewrite Hf.
Qed.
Lemma fades_del_c p : pres (fades w0) (upd (λ w, { w with w_calls := delete p (w_calls w) })).
Proof. apply pres_upd. intros w [Hc Ht]. split; [|done]. cbn. intros q c' [_ Hq]%lookup_delete_Some. eauto. Qed.
Lemma fades_del_t p : pres (fades w0) (upd (λ w, { w with w_tunnels := delete p (w_tunnels w) })).
Proof. apply pres_upd. intros w [Hc Ht]. split; [done|]. cbn. intros q c' [_ Hq]%lookup_delete_Some. eauto. Qed.
#[local] Hint Resolve fades_ask fades_alloc fades_emit fades_mod_lac fades_mod_lns fades_del_c fades_del_t : pres.
#[local] Hint Extern 2 (pres _ (mod_t _ _)) => apply fades_mod_t; done : pres.
#[local] Hint Extern 2 (pres _ (mod_c _ _)) => apply fades_mod_c; done : pres.
#[local] Hint Extern 3 (pres _ (upd _)) => apply fades_upd; done : pres.

Lemma fades_redial lp : pres (fades w0) (redial lp).
Proof. unfold redial, Mschedule. pres. Qed.
Lemma fades_unlink_call fuel c next : ∀ p, pres (fades w0) (unlink_call fuel p c next).
Proof. induction fuel as [|fuel IH]; intros p; cbn [unlink_call]; pres. Qed.
Lemma fades_unlink_tunnel fuel t next : ∀ p, pres (fades w0) (unlink_tunnel fuel p t next).
Proof. induction fuel as [|fuel IH]; intros p; cbn [unlink_tunnel]; pres. Qed.
#[local] Hint Resolve fades_redial fades_unlink_call fades_unlink_tunnel : pres.
Lemma fades_destroy_call cp : pres (fades w0) (destroy_call cp).
Proof.
  unfold destroy_call, release_call, release_addrs, Munreserve, Mdeschedule, remove_from_container, call_fuel. pres.
Qed.
#[local] Hint Resolve fades_destroy_call : pres.
Lemma fades_destroy_calls fuel : ∀ c, pres (fades w0) (destroy_calls fuel c).
Proof. induction fuel as [|fuel IH]; intros c; cbn [destroy_calls]; pres. Qed.
#[local] Hint Resolve fades_destroy_calls : pres.
Lemma fades_destroy_tunnel tp : pres (fades w0) (destroy_tunnel tp).
Proof. unfold destroy_tunnel, remove_from_tunnels, call_fuel, tunnel_fuel. pres. Qed.
Lemma fades_close_notice tp cp b : pres (fades w0) (close_notice tp cp b).
Proof. unfold close_notice, Mnew_outgoing, Mmalloc, add_vector, mk_challenge, get_entropy, add_result, add_control_hdr. pres. Qed.
#[local] Hint Resolve fades_destroy_tunnel fades_close_notice : pres.
Lemma fades_xmit close b : (∀ c, pres (fades w0) (close c)) → pres (fades w0) (xmit close b).
Proof. intros Hc. unfold xmit, Mschedule, udp_xmit. pres. Qed.
Lemma fades_close_calls close fuel : (∀ c, pres (fades w0) (close c)) → ∀ c, pres (fades w0) (close_calls close fuel c).
Proof. intros Hc. induction fuel as [|fuel IH]; intros c; cbn [close_calls]; pres. Qed.
#[local] Hint Resolve fades_xmit fades_close_calls : pres.
Lemma fades_call_close fuel : ∀ c, pres (fades w0) (call_close fuel c).
Proof.
  induction fuel as [|fuel IH]; intros c; cbn [call_close]; unfold close_step, call_fuel, deschedule_tunnel, Mdeschedule; pres.
Qed.
End Fades.

(** The call or tunnel that is closed is gone, or marked. *)
Definition gone_or_marked (cp : nat) (c : call) (w' : world) : Prop :=
  w_calls w' !! cp = None ∨ truthy (c_closing c) = false ∧ ∃ c', w_calls w' !! cp = Some c' ∧ truthy (c_closing c') = true.
Lemma wlp_skip {A B} (m : M B) (k : B → M A) Q w : (∀ b w', wlp (k b) Q w') → wlp (m ≫= k) Q w.
Proof. intros H. wlp1. intros b w' _. apply H. Qed.
Lemma destroy_call_gone cp w : wlp (destroy_call cp) (λ _ w', w_calls w' !! cp = None) w.
Proof. unfold destroy_call. do 4 (apply wlp_skip; intros ? ?). wlps. apply lookup_delete_eq. Qed.
Lemma destroy_tunnel_gone tp t cp w : w_tunnels w !! tp = Some t → t_self t = Some cp →
  wlp (destroy_tunnel tp) (λ _ w', w_calls w' !! cp = None ∧ w_tunnels w' !! tp = None) w.
Proof.
  intros Ht Hs. unfold destroy_tunnel. wlp1. apply wlp_get_t. intros t' Ht'. assert (t' = t) as -> by congruence.
  cbv zeta. rewrite Hs. do 8 (apply wlp_skip; intros ? ?). wlp1. wlp1. injection H as <-. wlp1.
  eapply wlp_mono; [apply destroy_call_gone|]. intros [] w1 Hw1. wlps. split; [done|apply lookup_delete_eq].
Qed.
Lemma close_progress n cp c w : world_ok false None w → w_calls w !! cp = Some c →
  wlp (call_close (S n) (Some cp)) (λ _ w', gone_or_marked cp c w' ∧
    ∀ tp t, w_tunnels w !! tp = Some t → t_self t = Some cp → truthy (c_closing c) = true → w_tunnels w' !! tp = None) w.
Proof.
  intros Hw Hc. cbn [call_close]. unfold close_step. wlp1. apply wlp_get_c. intros c1 Hc1. assert (c1 = c) as -> by congruence.
  destruct (hp_cont _ _ _ _ (wk_heap _ _ _ Hw) cp c Hc) as [tp Htp]. rewrite Htp. wlp1. apply wlp_get_t. intros t Ht.
  assert (∀ tp' t', w_tunnels w !! tp' = Some t' → t_self t' = Some cp → tp' = tp) as Hown.
  { intros tp' t' Ht' Hs'. pose proof (hp_self _ _ _ _ (wk_heap _ _ _ Hw) tp' t' cp c Ht' Hs' Hc). congruence. }
  assert (truthy (c_closing c) = false → ∀ w', wlp (mod_c cp (λ c, { c with c_closing := -1 }))
    (λ _ w1, gone_or_marked cp c w1 ∧ ∀ tp t, w_tunnels w !! tp = Some t → t_self t = Some cp →
      truthy (c_closing c) = true → w_tunnels w1 !! tp = None) w') as Hmark.
  { intros Ecl w'. wlps. split; [|congruence]. right. split; [done|]. eexists. split; [apply set_c_eq|done]. }
  case_bool_decide as Hself; destruct (truthy (c_closing c)) eqn:Ecl.
  - wlp1. unfold deschedule_tunnel. wlp1. eapply wlp_mono; [by apply (destroy_tunnel_gone tp t cp)|].
    intros [] w1 [H1 H2]. split; [by left|]. intros tp' t' Ht' Hs' _. by rewrite (Hown _ _ Ht' Hs').
  - do 6 (apply wlp_skip; intros ? ?). by apply Hmark.
  - apply wlp_skip. intros _ w1. eapply wlp_mono; [apply destroy_call_gone|]. intros [] w2 H2. split; [by left|].
    intros tp' t' Ht' Hs' _. pose proof (Hown _ _ Ht' Hs'). congruence.
  - do 3 (apply wlp_skip; intros ? ?). by apply Hmark.
Qed.

(** The measures: what is left, and what is left without a mark. *)
Definition calls_open (w : world) : gset nat := dom (filter (λ kv, truthy (c_closing kv.2) = false) (w_calls w)).
Definition self_open (w : world) (t : tunnel) : bool :=
  match t_self t ≫= (w_calls w !!.) with Some s => negb (truthy (c_closing s)) | None => false end.
Definition tunnels_open (w : world) : gset nat := dom (filter (λ kv, self_open w kv.2 = true) (w_tunnels w)).
Definition calls_weight (w : world) : nat := (size (w_calls w) + size (calls_open w))%nat.
Definition tunnels_weight (w : world) : nat := (size (w_tunnels w) + size (tunnels_open w))%nat.

Lemma elem_calls_open w q : q ∈ calls_open w ↔ ∃ c, w_calls w !! q = Some c ∧ truthy (c_closing c) = false.
Proof. unfold calls_open. rewrite elem_of_dom. unfold is_Some. setoid_rewrite map_lookup_filter_Some. naive_solver. Qed.
Lemma elem_tunnels_open w q : q ∈ tunnels_open w ↔
  ∃ t s c, w_tunnels w !! q = Some t ∧ t_self t = Some s ∧ w_calls w !! s = Some c ∧ truthy (c_closing c) = false.
Proof.
  unfold tunnels_open. rewrite elem_of_dom. unfold is_Some. setoid_rewrite map_lookup_filter_Some. split.
  - intros (t & Ht & Ho). revert Ho. unfold self_open. cbn. destruct (t_self t) as [s|] eqn:Es; cbn; [|done].
    destruct (w_calls w !! s) as [c|] eqn:Ec; [|done]. intros Ho. exists t, s, c. by destruct (truthy _).
  - intros (t & s & c & Ht & Hs & Hc & Ho). exists t. split; [done|]. unfold self_open. cbn. rewrite Hs. cbn. by rewrite Hc, Ho.
Qed.
Section FadesSize.
Context (w w' : world) (Hf : fades w w').
Lemma fades_calls_sub : dom (w_calls w') ⊆ dom (w_calls w).
Proof. intros q [c' Hc']%elem_of_dom. apply elem_of_dom. destruct (fa_calls _ _ Hf q c' Hc') as (c & ? & _). eauto. Qed.
Lemma fades_open_sub : calls_open w' ⊆ calls_open w.
Proof.
  intros q (c' & Hc' & Ho)%elem_calls_open. apply elem_calls_open. destruct (fa_calls _ _ Hf q c' Hc') as (c & Hc & Hcl).
  exists c. split; [done|]. destruct (truthy (c_closing c)); [|done]. by rewrite Hcl in Ho.
Qed.
Lemma fades_tunnels_sub : dom (w_tunnels w') ⊆ dom (w_tunnels w).
Proof. intros q [c' Hc']%elem_of_dom. apply elem_of_dom. destruct (fa_tunnels _ _ Hf q c' Hc') as (c & ? & _). eauto. Qed.
Lemma fades_topen_sub : tunnels_open w' ⊆ tunnels_open w.
Proof.
  intros q (t' & s & c' & Ht' & Hs & Hc' & Ho)%elem_tunnels_open. apply elem_tunnels_open.
  destruct (fa_tunnels _ _ Hf q t' Ht') as (t & Ht & Est). destruct (fa_calls _ _ Hf s c' Hc') as (c & Hc & Hcl).
  exists t, s, c. split_and!; [done|congruence|done|]. destruct (truthy (c_closing c)); [|done]. by rewrite Hcl in Ho.
Qed.
Lemma fades_size : (size (w_calls w') <= size (w_calls w))%nat ∧ (size (w_tunnels w') <= size (w_tunnels w))%nat ∧
  (calls_weight w' <= calls_weight w)%nat ∧ (tunnels_weight w' <= tunnels_weight w)%nat.
Proof.
  unfold calls_weight, tunnels_weight. rewrite <-!(size_dom (D := gset nat)).
  pose proof (subseteq_size _ _ fades_calls_sub). pose proof (subseteq_size _ _ fades_open_sub).
  pose proof (subseteq_size _ _ fades_tunnels_sub). pose proof (subseteq_size _ _ fades_topen_sub). lia.
Qed.
(** One of them is strictly less. *)
Lemma fades_call_less cp c : w_calls w !! cp = Some c → gone_or_marked cp c w' → (calls_weight w' < calls_weight w)%nat.
Proof.
  intros Hc Hg. unfold calls_weight. rewrite <-!(size_dom (D := gset nat)).
  pose proof (subseteq_size _ _ fades_calls_sub). pose proof (subseteq_size _ _ fades_open_sub). destruct Hg as [Hn|(Ho & c' & Hc' & Hcl)].
  - enough (size (dom (w_calls w')) < size (dom (w_calls w)))%nat by lia. apply subset_size. split; [apply fades_calls_sub|].
    intros Hsub. assert (cp ∈ dom (w_calls w')) as Hin by (apply Hsub, elem_of_dom; eauto).
    apply elem_of_dom in Hin as [? ?]. congruence.
  - enough (size (calls_open w') < size (calls_open w))%nat by lia. apply subset_size. split; [apply fades_open_sub|].
    intros Hsub. assert (cp ∈ calls_open w') as Hin by (apply Hsub, elem_calls_open; eauto).
    apply elem_calls_open in Hin as (? & ? & ?). congruence.
Qed.
Lemma fades_tunnel_less tp t s c : w_tunnels w !! tp = Some t → t_self t = Some s → w_calls w !! s = Some c →
  gone_or_marked s c w' → (truthy (c_closing c) = true → w_tunnels w' !! tp = None) → (tunnels_weight w' < tunnels_weight w)%nat.
Proof.
  intros Ht Hs Hc Hg Hdead. unfold tunnels_weight. rewrite <-!(size_dom (D := gset nat)).
  pose proof (subseteq_size _ _ fades_tunnels_sub). pose proof (subseteq_size _ _ fades_topen_sub).
  destruct (truthy (c_closing c)) eqn:Ecl.
  - specialize (Hdead eq_refl). enough (size (dom (w_tunnels w')) < size (dom (w_tunnels w)))%nat by lia.
    apply subset_size. split; [apply fades_tunnels_sub|]. intros Hsub.
    assert (tp ∈ dom (w_tunnels w')) as Hin by (apply Hsub, elem_of_dom; eauto). apply elem_of_dom in Hin as [? ?]. congruence.
  - enough (size (tunnels_open w') < size (tunnels_open w))%nat by lia. apply subset_size. split; [apply fades_topen_sub|].
    intros Hsub. assert (tp ∈ tunnels_open w') as Hin by (apply Hsub, elem_tunnels_open; eauto 10).
    apply elem_tunnels_open in Hin as (t' & s' & c' & Ht' & Hs' & Hc' & Ho).
    destruct (fa_tunnels _ _ Hf tp t' Ht') as (t1 & Ht1 & Es). assert (s' = s) as -> by congruence.
    destruct Hg as [Hn|(_ & c1 & Hc1 & Hcl)]; congruence.
Qed.
End FadesSize.

(** Everything the sweep keeps, for a walk over the tunnels. *)
Lemma within_le {A} (next : A → option nat) n n' m o : (n <= n')%nat → within next n m o → within next n' m o.
Proof. intros Hn. induction Hn; [done|]. intros H. by apply within_S, IHHn. Qed.
Lemma sweep_calls_pres (I : world → Prop) fuel tp :
  (∀ c, pres I (Mcall_close c)) → ∀ c fds, pres I (sweep_calls fuel tp c fds).
Proof.
  intros HI. induction fuel as [|fuel IH]; intros [p|] fds; cbn [sweep_calls]; [apply pres_nofuel..| |apply pres_ret].
  apply pres_bind; [apply pres_get_c|]. intros c. destruct (marked c); [|apply IH].
  apply pres_bind; [apply HI|]. intros _. apply pres_bind; [apply pres_get_t|]. intros t. apply IH.
Qed.
(** The fuel: a walk of at most [N] for every closing. *)
Lemma sweep_calls_ends N fuel tp : ∀ n o fds w, world_ok false None w → (size (w_calls w) <= N)%nat → (n <= N)%nat →
  within c_next n (w_calls w) o → (calls_weight w * S N + n < fuel)%nat → sweep_calls fuel tp o fds w ≠ NoFuel.
Proof.
  induction fuel as [|fuel IH]; intros n o fds w Hw HN Hn Hin Hf; [lia|]. cbn [sweep_calls]. destruct o as [p|]; [|done].
  apply at_bind; [apply fueled_get_c|]. apply wlp_get_c. intros c Hc. destruct (marked c).
  - apply at_bind; [by apply Mcall_close_ends|]. intros [] w1 E.
    pose proof (fades_call_close w 8 _ _ _ _ (fades_refl w) E) as Hfa.
    destruct (close_progress 7 p c w Hw Hc _ _ E) as [Hg _].
    pose proof (fades_call_less w w1 Hfa p c Hc Hg). destruct (fades_size w w1 Hfa) as (Hs & _).
    apply (wok_Mcall_close (sm := false)) in E; [|done]. apply at_bind; [apply fueled_get_t|]. apply wlp_get_t. intros t Ht.
    eapply (IH N); [done|lia|lia| |nia]. eapply within_le; [|by eapply within_calls]. lia.
  - destruct n as [|n]; cbn in Hin; rewrite Hc in Hin; [done|]. apply (IH n); [done|done|lia|done|lia].
Qed.
Lemma calls_weight_le w : (calls_weight w <= 2 * size (w_calls w))%nat.
Proof.
  unfold calls_weight. rewrite <-!(size_dom (D := gset nat)).
  enough (size (calls_open w) <= size (dom (w_calls w) : gset nat))%nat by lia. apply subseteq_size.
  intros q (c & Hc & _)%elem_calls_open. apply elem_of_dom. eauto.
Qed.
Lemma tunnels_weight_le w : (tunnels_weight w <= 2 * size (w_tunnels w))%nat.
Proof.
  unfold tunnels_weight. rewrite <-!(size_dom (D := gset nat)).
  enough (size (tunnels_open w) <= size (dom (w_tunnels w) : gset nat))%nat by lia. apply subseteq_size.
  intros q (t & ? & ? & Ht & _)%elem_tunnels_open. apply elem_of_dom. eauto.
Qed.
Lemma sweep_tunnels_ends N NC fuel : ∀ n o fds w, world_ok false None w → (size (w_calls w) <= NC)%nat →
  (size (w_tunnels w) <= N)%nat → (n <= N)%nat → within t_next n (w_tunnels w) o →
  (tunnels_weight w * S N + n < fuel)%nat → sweep_tunnels fuel (sweep_fuel NC) o fds w ≠ NoFuel.
Proof.
  induction fuel as [|fuel IH]; intros n o fds w Hw HC HN Hn Hin Hf; [lia|]. cbn [sweep_tunnels]. destruct o as [tp|]; [|done].
  apply at_bind; [apply fueled_get_t|]. apply wlp_get_t. intros t0 Ht0. cbv zeta.
  apply at_bind.
  { eapply (sweep_calls_ends NC); [done|done|done| |].
    - eapply within_le; [|by eapply within_calls]. lia.
    - pose proof (calls_weight_le w). unfold sweep_fuel. nia. }
  intros fds' w1 E. pose proof (sweep_calls_pres (fades w) _ _ (fades_call_close w 8) _ _ _ _ _ (fades_refl w) E) as Hfa.
  assert (walks 0 None n (Some tp) w) as Hk by done. pose proof (sweep_calls_pres _ _ _ (walks_call_close 0 None n (Some tp) 8) _ _ _ _ _ Hk E) as Hk1.
  apply (wok_sweep_calls (sm := false)) in E; [|done]. destruct (fades_size w w1 Hfa) as (Hs1 & Hs2 & _ & Hs3).
  apply at_bind; [apply fueled_get_t|]. apply wlp_get_t. intros t Ht. apply at_bind; [apply fueled_need|]. apply wlp_need.
  intros self Hself. apply at_bind; [apply fueled_get_c|]. apply wlp_get_c. intros s Hc. destruct (marked s).
  - apply at_bind; [by apply Mcall_close_ends|]. intros [] w2 E2.
    pose proof (fades_call_close w1 8 _ _ _ _ (fades_refl w1) E2) as Hfa2.
    destruct (close_progress 7 self s w1 E Hc _ _ E2) as [Hg Hdead].
    pose proof (fades_tunnel_less w1 w2 Hfa2 tp t self s Ht Hself Hc Hg (Hdead tp t Ht Hself)).
    destruct (fades_size w1 w2 Hfa2) as (? & ? & _). apply (wok_Mcall_close (sm := false)) in E2; [|done].
    apply at_bind; [done|]. apply wlp_gets. eapply (IH N); [done|lia|lia|lia| |nia].
    eapply within_le; [|by eapply within_tunnels]. lia.
  - destruct Hk1 as [_ Hk1]. destruct n as [|n]; cbn in Hk1; rewrite Ht in Hk1; [done|].
    apply (IH n); [done|lia|lia|lia|done|]. nia.
Qed.
Lemma build_fdset_ends : ends build_fdset.
Proof.
  intros w Hw. unfold build_fdset. do 3 (apply at_bind; [done|]; apply wlp_gets).
  eapply (sweep_tunnels_ends (size (w_tunnels w))); [done|done|done|done|by eapply within_tunnels|].
  pose proof (tunnels_weight_le w). unfold sweep_fuel. nia.
Qed.

(** ** Timers

    A job schedules its successor a second later at least.  While the clock
    stays within a second, the entries that are due become fewer with every job
    that runs. *)

Definition clock_within (e : env) (deadline : timeval) : Prop :=
  tv_clock deadline ∧
  ∀ k, tv_clock (e_now e k) ∧ TVLESSEQ (e_now e k) deadline = true ∧ tv_us deadline < tv_us (e_now e k) + 1000000.
Lemma clock_later e T k s : clock_within e T → 1 <= s → TVLESSEQ (schedule_time (e_now e k) (Tv s 0)) T = false.
Proof.
  intros [[HT1 HT2] He] Hs. destruct (He k) as ([H1 H2] & _ & H3). unfold schedule_time, tv_us in *. cbn.
  rewrite TVLESSEQ_negb, negb_false_iff, TVLESS_spec. destruct (Z.gtb_spec (tv_usec (e_now e k) + 0) 1000000); cbn; lia.
Qed.

Section Due.
Context (e : env) (T : timeval) (HT : clock_within e T) (n : nat).
Definition few (w : world) : Prop := w_env w = e ∧ (due T (w_events w) <= n)%nat.

Lemma few_upd f : (∀ w, w_env (f w) = w_env w) → (∀ w, w_events (f w) = w_events w) → pres few (upd f).
Proof. intros H1 H2. apply pres_upd. intros w. unfold few. by rewrite H1, H2. Qed.
Lemma few_ask {A} (f : env → nat → A) : pres few (ask f).
Proof. intros w a w' Hw. by intros [= _ <-]. Qed.
Lemma few_alloc : pres few alloc.
Proof. intros w a w' Hw. by intros [= _ <-]. Qed.
Lemma few_emit x : pres few (emit x).
Proof. by apply few_upd. Qed.
Lemma few_mod_c p f : pres few (mod_c p f).
Proof. apply pres_wlp. intros w Hw. by wlps. Qed.
Lemma few_mod_t p f : pres few (mod_t p f).
Proof. apply pres_wlp. intros w Hw. by wlps. Qed.
Lemma few_mod_lac p f : pres few (mod_lac p f).
Proof. apply pres_wlp. intros w Hw. by wlps. Qed.
Lemma few_mod_lns p f : pres few (mod_lns p f).
Proof. apply pres_wlp. intros w Hw. by wlps. Qed.
Lemma few_sys s : pres few (sys s).
Proof. intros w a w' Hw. by intros [= _ <-]. Qed.
Lemma few_sys_ s : pres few (sys_ s).
Proof. intros w a w' Hw. by intros [= _ <-]. Qed.
#[local] Hint Resolve few_ask few_alloc few_emit few_mod_c few_mod_t few_mod_lac few_mod_lns few_sys few_sys_ : pres.
#[local] Hint Extern 3 (pres _ (upd _)) => apply few_upd; done : pres.

Lemma due_insert (x : schedule_entry job) es : is_due T x = false → due T (insert_entry x es) = due T es.
Proof.
  intros Hx. unfold due. induction es as [|y es IH]; cbn; [by rewrite Hx|]. destruct (TVLESS _ _); cbn; [by rewrite Hx|].
  destruct (is_due T y); cbn; [by f_equal|done].
Qed.
Lemma due_sublist (es es' : list (schedule_entry job)) : sublist es es' → (due T es <= due T es')%nat.
Proof. unfold due. induction 1; cbn; [done| |]; destruct (is_due T _); cbn; lia. Qed.
Lemma few_sublist f : (∀ w, w_env (f w) = w_env w) → (∀ w, sublist (w_events (f w)) (w_events w)) → pres few (upd f).
Proof. intros H1 H2. apply pres_upd. intros w [He Hd]. split; [by rewrite H1|]. pose proof (due_sublist _ _ (H2 w)). lia. Qed.
Lemma few_schedule s j : 1 <= s → pres few (Mschedule (Tv s 0) j).
Proof using HT.
  intros Hs. apply pres_wlp. intros w [He Hd]. unfold Mschedule. wlps. split; [done|].
  pose proof (due_insert (Entry (w_fresh w) (schedule_time (e_now (w_env w) (w_clk w)) (Tv s 0)) j) (w_events w)) as E.
  rewrite <-E in Hd; [exact Hd|]. unfold is_due. cbn [se_tv]. rewrite He. by apply clock_later.
Qed.
Lemma few_deschedule s : pres few (Mdeschedule s).
Proof. apply few_sublist; [done|]. intros w. destruct s; [apply remove_entry_sublist|reflexivity]. Qed.
Lemma few_deschedule_tunnel tp : pres few (deschedule_tunnel tp).
Proof. apply few_sublist; [done|]. intros w. apply filter_sublist. Qed.
#[local] Hint Resolve few_deschedule few_deschedule_tunnel : pres.
#[local] Hint Extern 2 (pres _ (Mschedule _ _)) => apply few_schedule; done : pres.

(** *** Closing *)

Lemma few_redial lp : pres few (redial lp).
Proof using HT.
  unfold redial. apply pres_bind; [pres|]. intros l. destruct (_ && _) eqn:E; cbn [when]; [|apply pres_ret].
  apply andb_true_iff in E as [[[_ E]%andb_true_iff _]%andb_true_iff _]. apply Z.ltb_lt in E.
  apply pres_bind; [apply few_schedule; lia|]. pres.
Qed.
Lemma few_unlink_call fuel c next : ∀ p, pres few (unlink_call fuel p c next).
Proof. induction fuel as [|fuel IH]; intros p; cbn [unlink_call]; pres. Qed.
Lemma few_unlink_tunnel fuel t next : ∀ p, pres few (unlink_tunnel fuel p t next).
Proof. induction fuel as [|fuel IH]; intros p; cbn [unlink_tunnel]; pres. Qed.
#[local] Hint Resolve few_redial few_unlink_call few_unlink_tunnel : pres.
Lemma few_destroy_call cp : pres few (destroy_call cp).
Proof using HT. unfold destroy_call, release_call, release_addrs, Munreserve, remove_from_container, call_fuel. pres. Qed.
#[local] Hint Resolve few_destroy_call : pres.
Lemma few_destroy_calls fuel : ∀ c, pres few (destroy_calls fuel c).
Proof using HT. induction fuel as [|fuel IH]; intros c; cbn [destroy_calls]; pres. Qed.
#[local] Hint Resolve few_destroy_calls : pres.
Lemma few_destroy_tunnel tp : pres few (destroy_tunnel tp).
Proof using HT. unfold destroy_tunnel, remove_from_tunnels, call_fuel, tunnel_fuel. pres. Qed.
Lemma few_new_outgoing tp : pres few (Mnew_outgoing tp).
Proof. unfold Mnew_outgoing, Mmalloc. pres. Qed.
Lemma few_add_control_hdr tp cp b : pres few (add_control_hdr tp cp b).
Proof. unfold add_control_hdr. pres. Qed.
Lemma few_add_vector tp b : pres few (add_vector tp b).
Proof. unfold add_vector, mk_challenge, get_entropy. pres. Qed.
Lemma few_udp_xmit b tp : pres few (udp_xmit b tp).
Proof. unfold udp_xmit. pres. Qed.
#[local] Hint Resolve few_destroy_tunnel few_new_outgoing few_add_control_hdr few_add_vector few_udp_xmit : pres.
Lemma few_close_notice tp cp b : pres few (close_notice tp cp b).
Proof. unfold close_notice, add_result. pres. Qed.
#[local] Hint Resolve few_close_notice : pres.
Lemma few_xmit close b : (∀ c, pres few (close c)) → pres few (xmit close b).
Proof using HT.
  intros Hc. assert (∀ k j, 0 <= k → pres few (Mschedule (Tv (2 ^ k) 0) j)) as Hs.
  { intros k j Hk. apply few_schedule. pose proof (Z.pow_pos_nonneg 2 k). lia. }
  unfold xmit. pres. apply Hs. match goal with |- context [u32 ?x] => destruct (u32_range x); destruct (31 <? u32 x); lia end.
Qed.
Lemma few_close_calls close fuel : (∀ c, pres few (close c)) → ∀ c, pres few (close_calls close fuel c).
Proof. intros Hc. induction fuel as [|fuel IH]; intros c; cbn [close_calls]; pres. Qed.
#[local] Hint Resolve few_xmit few_close_calls : pres.
Lemma few_call_close fuel : ∀ c, pres few (call_close fuel c).
Proof using HT. induction fuel as [|fuel IH]; intros c; cbn [call_close]; unfold close_step, call_fuel; pres. Qed.
Lemma few_control_xmit b : pres few (control_xmit b).
Proof using HT. apply few_xmit. apply few_call_close. Qed.
#[local] Hint Resolve few_control_xmit : pres.
Lemma few_send_control tp cp b : pres few (send_control tp cp b).
Proof using HT. unfold send_control. pres. Qed.
#[local] Hint Resolve few_send_control : pres.

(** *** Dialing *)

Lemma few_new_call tp : pres few (new_call tp).
Proof. unfold new_call, Mmalloc, random_id, get_entropy. pres. Qed.
#[local] Hint Resolve few_new_call : pres.
Lemma few_find_tunnel fuel test : ∀ o, pres few (find_tunnel fuel test o).
Proof. induction fuel as [|fuel IH]; intros o; cbn [find_tunnel]; pres. Qed.
Lemma few_find_call fuel test : ∀ o, pres few (find_call fuel test o).
Proof. induction fuel as [|fuel IH]; intros o; cbn [find_call]; pres. Qed.
#[local] Hint Resolve few_find_tunnel few_find_call : pres.
Lemma few_get_call t c a p m h : pres few (get_call t c a p m h).
Proof. unfold get_call, tunnel_fuel, call_fuel, new_tunnel, Mmalloc, random_id, get_entropy. pres. Qed.
#[local] Hint Resolve few_get_call : pres.
Lemma few_finish_none tp cp : pres few (finish_none tp cp).
Proof using HT.
  unfold finish_none, start_sccrq, start_icrq, start_ocrq, inherit_config, add_tunnel_avps, own_hostname, wants_challenge,
    new_challenge, add_our_challenge, mk_challenge, Mmalloc, get_entropy, add_serno. pres.
Qed.
#[local] Hint Resolve few_finish_none : pres.
Lemma few_dial lp : pres few (magic_lac_dial finish_none lp).
Proof using HT. unfold magic_lac_dial, magic_lac_tunnel, l2tp_call, lac_call, tunnel_fuel. pres. Qed.
Lemma few_run_job j : pres few (run_job j).
Proof using HT.
  destruct j as [b|tp|cp|lp]; cbn [run_job]; [pres| | |].
  - unfold hello. pres.
  - unfold send_zlb, add_payload_hdr, Mmalloc. pres.
  - intros w r w' Hw. rewrite (magic_lac_dial_agree _ finish_none); [by apply few_dial|].
    intros tp cp w1 c Hc Hm. by apply (control_finish_none 1 tp cp w1 c).
Qed.
End Due.

(** The loop of [process_schedule] on the daemon's state: it faults, or it
    returns when nothing is due. *)
Definition none_due (tv : option timeval) (w : world) : Prop :=
  let now := e_now (w_env w) (w_clk w) in
  match w_events w with
  | [] => tv = None
  | p :: _ => Forall (λ e, is_due now e = false) (w_events w) ∧
      ∃ d, tv = Some d ∧ 0 < tv_us d ∧ tv_us d = tv_us (se_tv p) - tv_us now
  end.
Lemma sorted_none_due now (p : schedule_entry job) rest : queue_ok (p :: rest) → is_due now p = false →
  Forall (λ e, is_due now e = false) (p :: rest).
Proof.
  intros [Hs _ _] Hp. constructor; [done|]. inversion_clear Hs as [|? ? _ Hall]. eapply Forall_impl; [exact Hall|].
  intros e He. revert Hp He. unfold is_due, before. rewrite !TVLESSEQ_negb, !negb_false_iff, !TVLESS_spec, TVLESS_false. lia.
Qed.
Lemma process_schedule_result T fuel w :
  world_ok false None w → clock_within (w_env w) T → (due T (w_events w) < fuel)%nat →
  Mprocess_schedule fuel w = UB ∨ ∃ tv w', Mprocess_schedule fuel w = Ret tv w' ∧ none_due tv w'.
Proof.
  intros Hw HT Hf. unfold Mprocess_schedule. cbv zeta.
  set (get := λ r : res unit, match r with Ret _ w => w_events w | _ => [] end).
  set (set := λ es (r : res unit), match r with Ret _ w => Ret tt { w with w_events := es } | r => r end).
  set (run := λ j (r : res unit), match r with Ret _ w => run_job j w | r => r end).
  set (clock := λ r : res unit, match r with Ret _ w => e_now (w_env w) (w_clk w) | _ => Tv 0 0 end).
  set (good := λ n (r : res unit), match r with Ret _ w' => world_ok false None w' ∧ few (w_env w) T n w' | UB => True | NoFuel => False end).
  set (rests := λ (r : res unit) (last : option timeval), match get r with
    | [] => True | p :: _ => last = Some (clock r) ∧ TVLESSEQ (se_tv p) (clock r) = false end).
  assert (∀ fuel n r last, good n r → (n < fuel)%nat →
    ∃ r' last', process_loop get set run clock fuel r last = Some (r', last') ∧ good n r' ∧ rests r' last') as Hloop.
  { clear fuel Hf. induction fuel as [|fuel IH]; intros n r last Hg Hn; [lia|]. cbn [process_loop].
    destruct r as [[] w1| |]; [|by exists UB, last|done]. cbn [get].
    destruct (w_events w1) as [|p rest] eqn:Ee; [eexists _, _; split; [done|]; split; [done|]; unfold rests, get; by rewrite Ee|].
    cbn [clock]. destruct (TVLESSEQ _ _) eqn:Ed;
      [|eexists _, _; split; [done|]; split; [done|]; unfold rests, get; by rewrite Ee]. destruct Hg as [Hw1 [He1 Hd1]].
    assert (is_due T p = true) as Hp by (unfold is_due; eapply TVLESSEQ_trans; [exact Ed|]; rewrite He1; apply HT).
    rewrite Ee in Hd1. unfold due in Hd1. cbn in Hd1. rewrite Hp in Hd1. cbn in Hd1. destruct n as [|n]; [lia|].
    assert (Hw2 : world_ok false None { w1 with w_events := rest }).
    { apply wok_sublist; [|done]. rewrite Ee. by constructor. }
    assert (Hf2 : few (w_env w) T n { w1 with w_events := rest }) by (split; [done|unfold due; cbn; lia]).
    destruct (IH n (run_job (se_job p) { w1 with w_events := rest }) (Some (e_now (w_env w1) (w_clk w1))))
      as (r' & last' & E & Hg' & Hr'); [|lia|].
    - pose proof (run_job_ends (se_job p) _ Hw2) as Hend.
      destruct (run_job (se_job p) { w1 with w_events := rest }) as [[] w3| |] eqn:Er; [|done..]. cbn. split.
      + by eapply wok_run_job.
      + by eapply (few_run_job (w_env w) T HT).
    - exists r', last'. split; [exact E|]. split; [|done]. destruct r' as [[] w3| |]; [|done..]. destruct Hg' as [? [? ?]].
      split; [done|]. split; [done|]. lia. }
  destruct (Hloop fuel (due T (w_events w)) (Ret tt w) None) as (r' & last' & E & Hg & Hr); [by split; [|split]|done|].
  unfold process_schedule. rewrite E. destruct r' as [[] w3| |]; [|by left|done]. right. clear E Hloop.
  destruct Hg as [Hw3 _]. unfold rests in Hr. unfold none_due. cbn [get clock] in *. pose proof (wk_queue _ _ _ Hw3) as Hq.
  destruct (w_events w3) as [|p rest] eqn:Ee; [exists None, w3; rewrite Ee; by destruct last'|].
  destruct Hr as [-> Hr]. eexists _, w3. split; [reflexivity|]. rewrite Ee. split; [by apply sorted_none_due|].
  eexists. split; [done|].
  destruct (next_timeout_us (e_now (w_env w3) (w_clk w3)) (se_tv p)) as [H1 H2]; [by apply (wk_clock _ _ _ Hw3)| |by rewrite TVLESSEQ_negb, negb_false_iff in Hr|].
  - destruct Hq as [_ Hq _]. by inversion_clear Hq.
  - lia.
Qed.
Lemma process_schedule_ends T fuel w :
  world_ok false None w → clock_within (w_env w) T → (due T (w_events w) < fuel)%nat → Mprocess_schedule fuel w ≠ NoFuel.
Proof. intros H1 H2 H3. by destruct (process_schedule_result T fuel w H1 H2 H3) as [->|(tv & w' & -> & _)]. Qed.

End Termination.
