(* ===== verification/Status.v ===== *)
(** * The status report ([show_status] in src/xl2tpd.c)

    The report that SIGUSR1 and the command [lac_status] write to the log.  Its
    text is not modelled, its reads are: it follows the pointers in the timer
    queue, the tunnels, the calls and the lists of LNS and LAC entries, and so
    goes wrong where one of them dangles.  It changes nothing. *)

From S2P Require Import Prelude.
From S2P Require Import Scheduler.
From S2P Require Import Buffer.
From S2P Require Import State.
From S2P Require Import Auth.
From S2P Require Import Logic.
From S2P Require Import Calls.

Module Status.
Import Scheduler Buffer State Auth Logic Calls.
Open Scope Z_scope.

(** A name in an array of [STRLEN] bytes, printed with a percent s: it has to
    be terminated. *)
Definition array_str (a : list Z) : option (list Z) :=
  if blen (cstr a) <? STRLEN then Some (cstr a) else None.
Definition show_name (a : list Z) : M unit := need (array_str a);; mret tt.

Definition show_event (e : schedule_entry job) : M unit :=
  match se_job e with
  | Jhello t => get_t t;; mret tt
  | Jmagic_lac_dial l => l ← get_lacp l; show_name (lac_entname l)
  | Jsend_zlb c => c ← get_c c; tp ← need (c_container c); get_t tp;; mret tt
  | Jcontrol_xmit b => tp ← need (b_tunnel b); get_t tp;; mret tt
  end.
Fixpoint show_events (es : list (schedule_entry job)) : M unit :=
  match es with [] => mret tt | e :: es => show_event e;; show_events es end.

(** [x->lac ? x->lac->entname : (x->lns ? x->lns->entname : "")] *)
Definition show_owner (lac lns : option nat) : M unit :=
  match lac, lns with
  | Some p, _ => l ← get_lacp p; show_name (lac_entname l)
  | None, Some p => l ← get_lnsp p; show_name (lns_entname l)
  | None, None => mret tt
  end.
Fixpoint show_calls (fuel : nat) (c : option nat) : M unit :=
  match fuel with
  | O => nofuel
  | S fuel =>
      match c with
      | None => mret tt
      | Some p => c ← get_c p; show_owner (c_lac c) (c_lns c);; show_calls fuel (c_next c)
      end
  end.
Fixpoint show_tunnels (fuel : nat) (t : option nat) : M unit :=
  match fuel with
  | O => nofuel
  | S fuel =>
      match t with
      | None => mret tt
      | Some p =>
          t ← get_t p;
          show_owner (t_lac t) (t_lns t);;
          cfuel ← call_fuel;
          show_calls cfuel (t_call_head t);;
          show_tunnels fuel (t_next t)
      end
  end.
Fixpoint show_lnss (l : list nat) : M unit :=
  match l with [] => mret tt | p :: l => n ← get_lnsp p; show_name (lns_entname n);; show_lnss l end.
Fixpoint show_hosts (l : list (list Z * Z)) : M unit :=
  match l with [] => mret tt | h :: l => show_name h.1;; show_hosts l end.
Fixpoint show_lacs (l : list nat) : M unit :=
  match l with
  | [] => mret tt
  | p :: l => c ← get_lacp p; show_name (lac_entname c);; show_hosts (lac_lns c);; show_lacs l
  end.
Definition show_status : M unit :=
  es ← gets w_events;
  show_events es;;
  head ← gets w_head;
  fuel ← tunnel_fuel;
  show_tunnels fuel head;;
  lnss ← gets w_lnslist;
  show_lnss lnss;;
  lacs ← gets w_laclist;
  show_lacs lacs.

(** ** It only reads *)

Lemma pres_show_name I a : pres I (show_name a).
Proof. unfold show_name. pres. Qed.
#[local] Hint Resolve pres_show_name : pres.
Lemma pres_show_owner I lac lns : pres I (show_owner lac lns).
Proof. unfold show_owner. pres. Qed.
Lemma pres_show_event I e : pres I (show_event e).
Proof. unfold show_event. pres. Qed.
#[local] Hint Resolve pres_show_owner pres_show_event : pres.
Lemma pres_show_events I es : pres I (show_events es).
Proof. induction es as [|e es IH]; cbn [show_events]; pres. Qed.
Lemma pres_show_calls I fuel : ∀ c, pres I (show_calls fuel c).
Proof. induction fuel as [|fuel IH]; intros c; cbn [show_calls]; pres. Qed.
#[local] Hint Resolve pres_show_events pres_show_calls : pres.
Lemma pres_show_tunnels I fuel : ∀ t, pres I (show_tunnels fuel t).
Proof. induction fuel as [|fuel IH]; intros t; cbn [show_tunnels]; unfold call_fuel; pres. Qed.
Lemma pres_show_lnss I l : pres I (show_lnss l).
Proof. induction l as [|p l IH]; cbn [show_lnss]; pres. Qed.
Lemma pres_show_hosts I l : pres I (show_hosts l).
Proof. induction l as [|p l IH]; cbn [show_hosts]; pres. Qed.
#[local] Hint Resolve pres_show_tunnels pres_show_lnss pres_show_hosts : pres.
Lemma pres_show_lacs I l : pres I (show_lacs l).
Proof. induction l as [|p l IH]; cbn [show_lacs]; pres. Qed.
#[local] Hint Resolve pres_show_lacs : pres.
Lemma pres_show_status I : pres I show_status.
Proof. unfold show_status, tunnel_fuel. pres. Qed.
#[export] Hint Resolve pres_show_status : pres.

(** The report leaves the state as it is. *)
Lemma show_status_reads w r w' : show_status w = Ret r w' → w' = w.
Proof. exact (pres_show_status (λ x, x = w) w r w' eq_refl). Qed.

End Status.
