(* ===== verification/Startup.v ===== *)
(** * Start-up and the operating system ([init_network] in src/network.c,
    [daemonize], [consider_pidfile], [open_controlfd] in src/xl2tpd.c)

    What the daemon does to the world around it before its main loop: the
    server socket, the fork into the background, the pid file and the control
    pipe.  A routine that may end the program says so with [Exit]. *)

From S2P Require Import Prelude.
From S2P Require Import Scheduler.
From S2P Require Import Buffer.
From S2P Require Import State.
From S2P Require Import Auth.
From S2P Require Import Config.
From S2P Require Import Logic.
From S2P Require Import Calls.
From S2P Require Import Pppd.
From S2P Require Import Invariant.

Module Startup.
Import Scheduler Buffer State Auth Config Logic Calls Pppd Invariant.
Open Scope Z_scope.

(** [exit (code)], or the program goes on. *)
Inductive outcome := Exit (code : Z) | Go.
Definition go (m k : M outcome) : M outcome :=
  o ← m; match o with Exit code => mret (Exit code) | Go => k end.
Notation "m ';;;' k" := (go m k) (at level 100, k at level 200, right associativity) : stdpp_scope.

(** ** The server socket *)

(** The search for IPsec SAref support. *)
Definition probe_saref (s : Z) : M unit :=
  g ← gets w_gconfig;
  when (truthy (g_ipsecsaref g))
    (r ← sys (Ssetsockopt s IPPROTO_IP (g_sarefnum g) 1);
     when (truthy r && negb (truthy (g_forceuserspace g)))
       (upd (λ w, { w with w_gconfig := { w_gconfig w with g_ipsecsaref := 0 } }));;
     sys_ (Ssetsockopt s IPPROTO_IP IP_PKTINFO 1)).
(** The search for kernel support. *)
Definition probe_kernel : M unit :=
  g ← gets w_gconfig;
  if truthy (g_forceuserspace g) then upd (λ w, { w with w_kernel_support := 0 })
  else
    kernel_fd ← sys (Ssocket AF_PPPOX);
    sys_ (Sclose kernel_fd);;
    upd (λ w, { w with w_kernel_support := if kernel_fd <? 0 then 0 else -1 }).
Definition init_network : M Z :=
  g ← gets w_gconfig;
  s ← sys (Ssocket PF_INET);
  upd (λ w, { w with w_server_socket := s });;
  if s <? 0 then mret (- EINVAL)
  else
    sys_ (Ssetsockopt s SOL_SOCKET SO_REUSEADDR 1);;
    sys_ (Ssetsockopt s SOL_SOCKET SO_NO_CHECK 1);;
    r ← sys (Sbind s (Sockaddr (g_listenaddr g) (htons (g_port g))));
    if truthy r then sys_ (Sclose s);; mret (- EINVAL)
    else
      name ← ask e_sockname;
      match name with
      | None => sys_ (Sclose s);; mret (- EINVAL)
      | Some sin_port =>
          probe_saref s;;
          probe_kernel;;
          arg ← sys (Sgetfl s);
          sys_ (Ssetfl s (Z.lor arg O_NONBLOCK));;
          upd (λ w, { w with w_gconfig := { w_gconfig w with g_port := ntohs sin_port } });;
          mret 0
      end.

(** ** The background *)

(** The process that goes on is the child: for it [fork] answers 0. *)
Definition daemonize : M outcome :=
  pid ← sys Sfork;
  server ← gets w_server_socket;
  if pid <? 0 then sys_ (Sclose server);; mret (Exit 1)
  else if truthy pid then sys_ (Sclose server);; mret (Exit 0)
  else
    sys_ (Sclose 0);;
    i ← sys (Sopen (str "/dev/null") O_RDWR);
    if i =? -1 then mret Go
    else sys_ (Sdup2 0 1);; sys_ (Sdup2 0 2);; sys_ (Sclose i);; mret Go.

(** Whether the pid file names a process, other than this one, that is
    alive; [read] takes [sizeof (buf) - 1] bytes. *)
Definition already_running (pidfile : list Z) : M bool :=
  i ← sys (Sopen pidfile O_RDONLY);
  if i <? 0 then mret false
  else
    data ← ask e_read;
    sys_ (Sclose i);;
    let pid := match data with Some d => atoi (cstr (take (Z.to_nat (STRLEN - 1)) d)) | None => 0 end in
    if negb (truthy pid) then mret false
    else
      me ← sys Sgetpid;
      if pid =? me then mret false
      else r ← sys (Skill0 pid); mret (r =? 0).
Definition consider_pidfile : M outcome :=
  g ← gets w_gconfig;
  server ← gets w_server_socket;
  running ← already_running (g_pidfile g);
  if (running : bool) then sys_ (Sclose server);; mret (Exit 1)
  else
    sys_ Ssetsid;;
    sys_ (Sunlink (g_pidfile g));;
    i ← sys (Sopen (g_pidfile g) (Z.lor O_WRONLY O_CREAT));
    if 0 <=? i then
      me ← sys Sgetpid;
      r ← sys (Swrite i (dec me ++ [10]));
      if r =? -1 then sys_ (Sclose i);; mret (Exit 1)
      else sys_ (Sclose i);; mret Go
    else mret Go.

Definition open_controlfd : M outcome :=
  g ← gets w_gconfig;
  fd ← sys (Sopen (g_controlfile g) (Z.lor O_RDONLY O_NONBLOCK));
  upd (λ w, { w with w_control_fd := fd });;
  if fd <? 0 then mret (Exit 1)
  else
    r ← sys (Ssetfl fd O_RDONLY);
    if r =? -1 then mret (Exit 1) else mret Go.

(** The part of [init] from the fork to the control pipe. *)
Definition background : M outcome :=
  g ← gets w_gconfig;
  (if truthy (g_daemon g) then daemonize else mret Go);;;
  consider_pidfile;;;
  (sys_ (Sunlink (g_controlfile g));;
   sys_ (Smkfifo (g_controlfile g));;
   open_controlfd).

(** ** The invariant *)

Section Keep.
Implicit Types f : world → world.
Lemma wok_go {sm} m k : pres (world_ok sm None) m → pres (world_ok sm None) k → pres (world_ok sm None) (go m k).
Proof. intros Hm Hk. unfold go. pres. Qed.
Lemma wok_upd_net {sm} f :
  (∀ w, w_env (f w) = w_env w ∧ w_events (f w) = w_events w ∧ w_fresh (f w) = w_fresh w ∧ w_uaddr (f w) = w_uaddr w ∧
        w_lnss (f w) = w_lnss w ∧ w_calls (f w) = w_calls w ∧ w_tunnels (f w) = w_tunnels w ∧
        w_head (f w) = w_head w) →
  pres (world_ok sm None) (upd f).
Proof.
  intros Hf. apply pres_upd. intros w [? ? ? ? ? ? ? ? ?].
  destruct (Hf w) as (E1 & E2 & E3 & E4 & E5 & E6 & E7 & E8). split; rewrite ?E1, ?E2, ?E3, ?E4, ?E5, ?E6, ?E7, ?E8; done.
Qed.
#[local] Hint Extern 2 (pres _ (upd _)) => apply wok_upd_net; done : pres.
#[local] Hint Resolve wok_go : pres.

Lemma wok_init_network {sm} : pres (world_ok sm None) init_network.
Proof. unfold init_network, probe_saref, probe_kernel. pres. Qed.
Lemma wok_daemonize {sm} : pres (world_ok sm None) daemonize.
Proof. unfold daemonize. pres. Qed.
Lemma wok_consider_pidfile {sm} : pres (world_ok sm None) consider_pidfile.
Proof. unfold consider_pidfile, already_running. pres. Qed.
Lemma wok_open_controlfd {sm} : pres (world_ok sm None) open_controlfd.
Proof. unfold open_controlfd. pres. Qed.
Lemma wok_background {sm} : pres (world_ok sm None) background.
Proof. unfold background, daemonize, consider_pidfile, already_running, open_controlfd, go. pres. Qed.
End Keep.
#[export] Hint Resolve wok_background wok_go wok_init_network wok_daemonize wok_consider_pidfile wok_open_controlfd : pres.

(** ** Standard input in the background *)

(** The open descriptors of a process, and what a call changes; the system
    gives out the lowest descriptor that is free. *)
Definition fds_step (fds : gset Z) (c : syscall * Z) : gset Z :=
  match c with
  | (Ssocket _, r) | (Sopen _ _, r) => if 0 <=? r then ({[r]} ∪ fds) else fds
  | (Sclose fd, _) => fds ∖ {[fd]}
  | (Sdup2 _ to, r) => if 0 <=? r then ({[to]} ∪ fds) else fds
  | _ => fds
  end.
Definition fds_after (fds : gset Z) (tr : list (syscall * Z)) : gset Z := foldl fds_step fds tr.
Definition lowest (fds : gset Z) (c : syscall * Z) : bool :=
  match c with
  | (Ssocket _, r) | (Sopen _ _, r) =>
      (r <? 0) || negb (bool_decide (r ∈ fds)) && forallb (λ n, bool_decide (Z.of_nat n ∈ fds)) (seq 0 (Z.to_nat r))
  | _ => true
  end.
Fixpoint posix (fds : gset Z) (tr : list (syscall * Z)) : bool :=
  match tr with [] => true | c :: tr => lowest fds c && posix (fds_step fds c) tr end.

Lemma posix_cons fds c tr : posix fds (c :: tr) = true → lowest fds c = true ∧ posix (fds_step fds c) tr = true.
Proof. apply andb_true_iff. Qed.
Lemma posix_app fds tr tr' : posix fds (tr ++ tr') = posix fds tr && posix (fds_after fds tr) tr'.
Proof.
  revert fds. induction tr as [|c tr IH]; intros fds; cbn; [done|]. rewrite IH. unfold fds_after. cbn. apply andb_assoc.
Qed.
Lemma fds_after_app fds tr tr' : fds_after fds (tr ++ tr') = fds_after (fds_after fds tr) tr'.
Proof. apply foldl_app. Qed.
(** With descriptor 0 free, it is the next one given out. *)
Lemma lowest_zero fds p f r : 0 ∉ fds → lowest fds (Sopen p f, r) = true → 0 <= r → r = 0.
Proof.
  intros Hz Hl Hr. destruct (decide (r = 0)); [done|]. destruct Hz. cbn in Hl.
  rewrite (proj2 (Z.ltb_ge r 0)) in Hl by done. apply andb_true_iff in Hl as [_ Hl].
  replace (Z.to_nat r) with (S (Z.to_nat (r - 1))) in Hl by lia. cbn in Hl. apply andb_true_iff in Hl as [Hl _].
  by apply bool_decide_eq_true in Hl.
Qed.

(** The calls [m] makes before it lets the program go on leave descriptor 0
    free, when it was free before ([from]) or anyway. *)
Definition leaves_zero (from : Prop) (m : M outcome) : Prop := ∀ w,
  wlp m (λ o w', ∃ tr, w_sys w' = w_sys w ++ tr ∧
    ∀ fds, (from → 0 ∉ fds) → posix fds tr = true → o = Go → 0 ∉ fds_after fds tr) w.

Lemma wlp_sys_trace s (Q : Z → world → Prop) w :
  (∀ r k, Q r (after_calls k (w_sys w ++ [(s, r)]) w)) → wlp (sys s) Q w.
Proof. intros HQ. apply wlp_sys. apply HQ. Qed.
Lemma wlp_sys__trace s (Q : unit → world → Prop) w :
  (∀ r k, Q tt (after_calls k (w_sys w ++ [(s, r)]) w)) → wlp (sys_ s) Q w.
Proof. intros HQ. apply wlp_sys_. apply (HQ (e_sys (w_env w) (w_clk w) s)). Qed.
Lemma wlp_ask_trace {A} (f : env → nat → A) (Q : A → world → Prop) w :
  (∀ r k, Q r (after_calls k (w_sys w) w)) → wlp (ask f) Q w.
Proof. intros HQ. apply wlp_ask. apply (HQ (f (w_env w) (w_clk w)) (S (w_clk w))). Qed.
Ltac wltrace :=
  repeat first
    [ match goal with
      | |- wlp (sys _) _ _ => apply wlp_sys_trace; intros ? ?; rewrite ?after_calls_sys
      | |- wlp (sys_ _) _ _ => apply wlp_sys__trace; intros ? ?; rewrite ?after_calls_sys
      | |- wlp (ask _) _ _ => apply wlp_ask_trace; intros ? ?; rewrite ?after_calls_sys
      end; cbv beta
    | wlp1
    | match goal with |- wlp (if ?b then _ else _) _ _ => destruct b eqn:? end
    | match goal with |- wlp (match ?b with Some _ => _ | None => _ end) _ _ => destruct b eqn:? end
    | progress rewrite ?after_calls_twice ].

(** Descriptor 0 through a concrete sequence of calls. *)
Lemma zero_closed (fds : gset Z) : 0 ∉ fds ∖ {[0]}.
Proof. set_solver. Qed.
Lemma zero_diff (fds fds' : gset Z) : 0 ∉ fds → 0 ∉ fds ∖ fds'.
Proof. set_solver. Qed.
Lemma zero_union (fds : gset Z) x : x ≠ 0 → 0 ∉ fds → 0 ∉ {[x]} ∪ fds.
Proof. set_solver. Qed.
Ltac zero_free :=
  repeat first [ assumption | apply zero_closed | apply zero_diff | apply zero_union; [discriminate|]
               | match goal with |- context [0 <=? ?r] => destruct (0 <=? r) end ].
Ltac zero_through :=
  unfold fds_after; cbn [foldl fds_step];
  repeat match goal with
  | H : posix ?fds ((Sopen ?p ?f, ?r) :: ?tr) = true |- _ =>
      apply posix_cons in H as [? H]; cbn [fds_step] in H; destruct (Z.leb_spec 0 r);
      [assert (r = 0) as -> by (eapply lowest_zero; [|eassumption|assumption]; zero_free)|]
  | H : posix ?fds (?c :: ?tr) = true |- _ => apply posix_cons in H as [_ H]; cbn [fds_step] in H
  end; zero_free.

Ltac leaves_zero :=
  wltrace; rewrite ?after_calls_sys, <-?app_assoc; cbn [app]; eexists; (split; [reflexivity|]);
  intros fds Hz Hp Hgo; try discriminate; try specialize (Hz I); zero_through.

Lemma daemonize_zero : leaves_zero False daemonize.
Proof. intros w. unfold daemonize. leaves_zero. Qed.
Lemma pidfile_zero : leaves_zero True consider_pidfile.
Proof. intros w. unfold consider_pidfile, already_running. leaves_zero. Qed.

(** Opening the pipe with descriptor 0 free. *)
Lemma open_zero w : wlp open_controlfd (λ o w', ∃ tr, w_sys w' = w_sys w ++ tr ∧
  ∀ fds, 0 ∉ fds → posix fds tr = true → o = Go → w_control_fd w' = 0) w.
Proof.
  unfold open_controlfd. wlp1. wlp1. wlp1. apply wlp_sys_trace. intros r k. cbv beta. wlp1. wlp1.
  destruct (r <? 0) eqn:E; [wlp1; eexists; split; [reflexivity|done]|].
  wlp1. apply wlp_sys_trace. intros r' k'. cbv beta.
  assert (∀ o, ∃ tr, (w_sys w ++ [(Sopen (g_controlfile (w_gconfig w)) (Z.lor O_RDONLY O_NONBLOCK), r)]) ++ [(Ssetfl r O_RDONLY, r')]
    = w_sys w ++ tr ∧ ∀ fds, 0 ∉ fds → posix fds tr = true → o = Go → r = 0) as H.
  { intros o. eexists. split; [by rewrite <-app_assoc|]. intros fds Hz [Hl _]%posix_cons _. eapply lowest_zero; [exact Hz|exact Hl|lia]. }
  destruct (r' =? -1); wlp1; apply H.
Qed.

Lemma background_pipe w : g_daemon (w_gconfig w) ≠ 0 → wlp background (λ o w', ∃ tr, w_sys w' = w_sys w ++ tr ∧
  ∀ fds, posix fds tr = true → o = Go → w_control_fd w' = 0) w.
Proof.
  intros Hd. unfold background, go. wlp1. wlp1. assert (truthy (g_daemon (w_gconfig w)) = true) as -> by (unfold truthy; lia).
  wlp1. eapply wlp_mono; [apply daemonize_zero|]. cbv beta. intros [code|] w1 (tr1 & E1 & H1); cbv iota; [wlp1; exists tr1; done|].
  wlp1. eapply wlp_mono; [apply pidfile_zero|]. cbv beta.
  intros [code|] w2 (tr2 & E2 & H2); cbv iota; [wlp1; exists (tr1 ++ tr2); split; [by rewrite E2, E1, app_assoc|done]|].
  wlp1. apply wlp_sys__trace. intros r3 k3. cbv beta. wlp1. apply wlp_sys__trace. intros r4 k4. cbv beta.
  eapply wlp_mono; [apply open_zero|]. cbv beta. intros o w3 (tr3 & E3 & H3).
  exists (tr1 ++ tr2 ++ [(Sunlink (g_controlfile (w_gconfig w)), r3); (Smkfifo (g_controlfile (w_gconfig w)), r4)] ++ tr3).
  split; [rewrite E3, !after_calls_sys, E2, E1, <-!app_assoc; done|]. intros fds Hp Hgo.
  rewrite !posix_app, !andb_true_iff in Hp. destruct Hp as (Hp1 & Hp2 & Hp3 & Hp4).
  eapply H3; [|exact Hp4|exact Hgo]. cbn.
  apply H2; [|done|done]. intros _. by apply H1.
Qed.

(** C33: in the background pppd gets no standard input.  [daemonize] closes
    descriptor 0, opens /dev/null, which becomes descriptor 0 as the lowest
    free one, copies it to 1 and 2 and closes it again; the control pipe then
    becomes descriptor 0, and the process that is to be pppd, having made the
    terminal its standard input, closes the control pipe. *)
Theorem background_stdin (w w' : world) (tr : list (syscall * Z)) (fds : gset Z) {A} (ts : list nat) (cs : nat → list nat)
    (fd2 : Z) (tbl : gmap Z A) :
  g_daemon (w_gconfig w) ≠ 0 → background w = Ret Go w' → w_sys w' = w_sys w ++ tr → posix fds tr = true →
  lists_ok w' ts cs →
  w_control_fd w' = 0 ∧ ∃ l, pppd_child false fd2 w' = Ret l w' ∧ run_child l tbl !! 0 = None.
Proof.
  intros Hd E Etr Hp Hl. destruct (background_pipe w Hd Go w' E) as (tr' & E' & H).
  rewrite E' in Etr. apply (inj (app (w_sys w))) in Etr as ->. specialize (H fds Hp eq_refl). split; [exact H|].
  eexists. split; [by apply pppd_child_eq|]. rewrite app_assoc, run_child_app, run_closes, bool_decide_eq_true_2; [done|].
  unfold closed_fds. rewrite H. apply elem_of_app. right. apply elem_of_app. right. apply list_elem_of_singleton. done.
Qed.
Definition daemon_env : env :=
  { zero_env with e_sys := λ _ s, match s with Sfork | Sopen _ _ => 0 | Swrite _ d => blen d | Sdup2 _ to => to | _ => 0 end }.
Definition daemon_world : world :=
  { demo_world with w_env := daemon_env; w_gconfig := { zero_global with g_daemon := 1 } }.
Definition background_world : world := match background daemon_world with Ret _ w => w | _ => zero_world end.
Lemma background_stdin_witness :
  w_control_fd background_world = 0 ∧
  ∃ l, pppd_child false 9 background_world = Ret l background_world ∧ run_child l {[ 0 := tt; 9 := tt ]} !! 0 = None.
Proof.
  refine (background_stdin daemon_world background_world (w_sys background_world) {[0; 1; 2; 6]} [1; 2]%nat demo_calls 9 _ _ _ _ _ _).
  - vm_compute. discriminate.
  - unfold background_world. destruct (background daemon_world) as [[code|] w'| |] eqn:E; [|reflexivity|..];
      exfalso; revert E; vm_compute; discriminate.
  - vm_compute. reflexivity.
  - vm_compute. reflexivity.
  - assert (w_calls background_world = w_calls demo_world) as Hc by (vm_compute; reflexivity).
    apply (lists_ok_ext demo_world); [vm_compute; reflexivity..| |apply demo_lists]. intros q. rewrite Hc. reflexivity.
Defined.

End Startup.
