(* ===== verification/Control.v ===== *)
(** * The control pipe (src/xl2tpd.c, [do_control] and [control_handle_*])

    Commands that are written to the named pipe: they change the lists of LNS
    and LAC entries, dial and hang up.

    - [m] is the memory from a pointer to the end of the command buffer; a
      string in it that has no terminator is undefined behaviour.  What the
      buffer holds behind a message is part of the input.
    - [resolve] is [gethostbyname] in the option handlers, [fopen_res] says
      whether the result file can be opened.
    - [lnslist] and [laclist] are [w_lnslist] and [w_laclist]; a new entry is
      put at the head.
    - [fmt_p] is how the C library prints an address. *)

From S2P Require Import Prelude.
From S2P Require Import Scheduler.
From S2P Require Import Buffer.
From S2P Require Import AvpSend.
From S2P Require Import State.
From S2P Require Import Ppp.
From S2P Require Import AddrPool.
From S2P Require Import Auth.
From S2P Require Import Config.
From S2P Require Import Logic.
From S2P Require Import Calls.
From S2P Require Import Messages.
From S2P Require Import Finish.
From S2P Require Import Packet.
From S2P Require Import Heap.
From S2P Require Import Invariant.
From S2P Require Import Status.
From S2P Require Import Pppd.
From S2P Require Import Startup.

Module Control.
Import Scheduler Buffer AvpSend State Ppp AddrPool Auth Config Logic Calls Messages Finish Packet Heap Invariant Status Pppd Startup.
Open Scope Z_scope.

(** ** Strings in the command buffer *)

Definition zstr (m : list Z) : option (list Z) :=
  if bool_decide (0 ∈ m) then Some (cstr m) else None.

(** [strtok]: the token, whether a delimiter ended it, and the memory behind
    its terminator. *)
Record tok := Tok { tk_text : list Z; tk_more : bool; tk_rest : list Z }.
Fixpoint token (d : Z) (m : list Z) : option tok :=
  match m with
  | [] => None
  | ch :: m =>
      if ch =? 0 then Some (Tok [] false m)
      else if ch =? d then Some (Tok [] true m)
      else t ← token d m; Some (Tok (ch :: tk_text t) (tk_more t) (tk_rest t))
  end.
Fixpoint skip_delim (d : Z) (m : list Z) : list Z :=
  match m with ch :: m' => if ch =? d then skip_delim d m' else m | [] => [] end.
(** [None] is undefined behaviour, [Some None] is [NULL]. *)
Definition strtok (d : Z) (m : list Z) : option (option tok) :=
  match skip_delim d m with
  | [] => None
  | ch :: m => if ch =? 0 then Some None else Some <$> token d (ch :: m)
  end.
(** [strtok (NULL, d)] after a token *)
Definition strtok_next (d : Z) (t : option tok) : option (option tok) :=
  match t with
  | Some t => if tk_more t then strtok d (tk_rest t) else Some None
  | None => Some None
  end.

(** [strchr (bufp, ' ') + 1] used as a string *)
Definition after_space (m : list Z) : M (list Z) :=
  s ← need (zstr m);
  match strchr 32 s with Some (_, r) => mret r | None => ub end.

(** ** Option lines *)

Section Commands.
Context (resolve : list Z → option Z).

(** [while (s != NULL) ...]: on a token with nothing in it, [continue] comes
    back with the same [s]. *)
Fixpoint line_loop (fuel : nat) (context : Z) (s : option tok) (it : item) : M (Z * item) :=
  match fuel with
  | O => nofuel
  | S fuel =>
      match s with
      | None => mret (0, it)
      | Some t =>
          let text := rstrip (lstrip (tk_text t)) in
          match text with
          | [] => line_loop fuel context (Some (Tok [] (tk_more t) (tk_rest t))) it
          | _ =>
              match strchr 61 text with
              | None => mret (-1, it)
              | Some (word, value) =>
                  stack ← ask e_stack;
                  r ← need (parse_one_option resolve stack (rstrip word) (lstrip value) context it);
                  if truthy r.1 then mret (-1, r.2)
                  else next ← need (strtok_next 59 s); line_loop fuel context next r.2
              end
          end
      end
  end.
(** Every token takes at least one byte of the buffer. *)
Definition parse_one_line (bufp : list Z) (context : Z) (it : item) : M (Z * item) :=
  s ← need (strtok 59 bufp);
  line_loop (S (length bufp)) context s it.

(** The item is changed where it is. *)
Definition on_lac (parse : item → M (Z * item)) (lp : nat) : M Z :=
  l ← get_lacp lp;
  r ← parse (Ilac l);
  match r.2 with Ilac l => mod_lac lp (λ _, l);; mret r.1 | _ => ub end.
Definition on_lns (parse : item → M (Z * item)) (np : nat) : M Z :=
  n ← get_lnsp np;
  r ← parse (Ilns n);
  match r.2 with Ilns n => mod_lns np (λ _, n);; mret r.1 | _ => ub end.
Definition parse_one_line_lac (bufp : list Z) (lp : nat) : M Z := on_lac (parse_one_line bufp CONTEXT_LAC) lp.
Definition parse_one_line_lns (bufp : list Z) (np : nat) : M Z := on_lns (parse_one_line bufp CONTEXT_LNS) np.

(** ** Entries *)

(** The first entry of a list whose name is [name], without regard to case. *)
Fixpoint find_lns (name : list Z) (l : list nat) : M (option nat) :=
  match l with
  | [] => mret None
  | np :: l =>
      n ← get_lnsp np;
      b ← need (casecmp_array name (lns_entname n));
      if (b : bool) then mret (Some np) else find_lns name l
  end.
Fixpoint find_lac (name : list Z) (l : list nat) : M (option nat) :=
  match l with
  | [] => mret None
  | lp :: l =>
      c ← get_lacp lp;
      b ← need (casecmp_array name (lac_entname c));
      if (b : bool) then mret (Some lp) else find_lac name l
  end.
Definition find_lns_by_name (name : list Z) : M (option nat) :=
  if bool_decide (name = str "default") then gets w_deflns
  else l ← gets w_lnslist; find_lns name l.
Definition find_lac_by_name (name : list Z) : M (option nat) := l ← gets w_laclist; find_lac name l.

Definition alloc_lns (n : lns) : M (option nat) :=
  mem ← Mmalloc 1;
  match mem with
  | None => mret None
  | Some _ => p ← alloc; upd (λ w, { w with w_lnss := <[p := n]> (w_lnss w) });; mret (Some p)
  end.
Definition alloc_lac (l : lac) : M (option nat) :=
  mem ← Mmalloc 1;
  match mem with
  | None => mret None
  | Some _ => p ← alloc; upd (λ w, { w with w_lacs := <[p := l]> (w_lacs w) });; mret (Some p)
  end.

(** ** Handlers *)

(** [resf]: there is a result file. *)
Definition write_res (resf : bool) (line : list Z) : M unit := when resf (emit (Ores (line ++ [10]))).
Definition no_such (resf : bool) (name : list Z) : M Z :=
  write_res resf (str "01 No such tunnel '" ++ name ++ str "'");; mret 0.

(** [control_finish], through which a dialing command goes. *)
Definition dial (lp : nat) : M unit := magic_lac_dial control_finish lp.

Definition control_handle_lns_add_modify (resf : bool) (bufp : list Z) : M Z :=
  t ← need (strtok 32 (drop 1 bufp));
  t ← need t;
  found ← find_lns_by_name (tk_text t);
  lns ← match found with
        | Some np => mret (Some np)
        | None =>
            p ← alloc_lns { new_lns with lns_entname := strncpy (tk_text t) };
            match p with
            | Some np => upd (λ w, { w with w_lnslist := np :: w_lnslist w });; mret (Some np)
            | None => mret None
            end
        end;
  match lns with
  | Some np =>
      z ← parse_one_line_lns (tk_rest t) np;
      write_res resf (if truthy z then str "03 Configuration parse error" else str "00 OK: Saved value");;
      mret 1
  | None => write_res resf (str "01 Error: Could not find lns and could not create it");; mret 1
  end.

(** [while (c) { call_close (c); c = c->next; }]: the call is read after it was
    closed. *)
Fixpoint close_list (fuel : nat) (c : option nat) : M unit :=
  match fuel with
  | O => nofuel
  | S fuel =>
      match c with
      | None => mret tt
      | Some cp => Mcall_close (Some cp);; c ← get_c cp; close_list fuel (c_next c)
      end
  end.
Fixpoint close_of_lns (fuel : nat) (np : nat) (t : option nat) : M unit :=
  match fuel with
  | O => nofuel
  | S fuel =>
      match t with
      | None => mret tt
      | Some tp =>
          t ← get_t tp;
          cfuel ← call_fuel;
          when (bool_decide (t_lns t = Some np)) (close_list cfuel (t_call_head t));;
          t ← get_t tp;
          close_of_lns fuel np (t_next t)
      end
  end.
Definition unlist (p : nat) (l : list nat) : list nat := filter (λ q, q ≠ p) l.

Definition control_handle_lns_remove (resf : bool) (bufp : list Z) : M Z :=
  tunstr ← after_space bufp;
  l ← gets w_lnslist;
  lns ← find_lns tunstr l;
  match lns with
  | None => no_such resf tunstr
  | Some np =>
      head ← gets w_head;
      fuel ← tunnel_fuel;
      close_of_lns fuel np head;;
      upd (λ w, { w with w_lnslist := unlist np (w_lnslist w); w_lnss := delete np (w_lnss w) });;
      write_res resf (str "00 OK");;
      mret 1
  end.

Definition control_handle_tunnel (resf : bool) (bufp : list Z) : M Z :=
  _ ← after_space bufp;
  t ← l2tp_call control_finish UDP_LISTEN_PORT None None;
  write_res resf (match t with Some _ => str "00 OK" | None => str "01 Error" end);;
  mret 1.

(** A session of a LAC that was found: dial unless it has a call. *)
Definition start_session (resf : bool) (lp : nat) : M Z :=
  l ← get_lacp lp;
  match lac_c l with
  | None => dial lp;; write_res resf (str "00 OK")
  | Some _ => write_res resf (str "01 Session '" ++ lac_entname l ++ str "' already active!")
  end;;
  mret 0.
(** No LAC of that name: a call on the tunnel with that number. *)
Definition call_by_number (resf : bool) (tunstr : list Z) : M Z :=
  let tunl := atoi tunstr in
  if tunl =? 0 then no_such resf tunstr
  else
    c ← lac_call control_finish tunl None None;
    write_res resf (match c with Some _ => str "00 OK" | None => str "01 Error" end);;
    mret 1.

Definition control_handle_lac_connect (resf : bool) (bufp : list Z) : M Z :=
  upd (λ w, { w with w_switch_io := 1 });;
  t ← need (strtok 32 (drop 1 bufp));
  authname ← need (strtok_next 32 t);
  password ← need (strtok_next 32 authname);
  t ← need t;
  lac ← find_lac_by_name (tk_text t);
  match lac with
  | Some lp =>
      mod_lac lp (λ l, { l with lac_active := -1; lac_rtries := 0 });;
      match authname with None => mret tt | Some a => mod_lac lp (λ l, { l with lac_authname := strncpy (tk_text a) }) end;;
      match password with None => mret tt | Some a => mod_lac lp (λ l, { l with lac_password := strncpy (tk_text a) }) end;;
      start_session resf lp
  | None => call_by_number resf (tk_text t)
  end.

(** [dial_no_tmp] has 128 bytes. *)
Definition control_handle_lac_outgoing_call (resf : bool) (bufp : list Z) : M Z :=
  upd (λ w, { w with w_switch_io := 0 });;
  s ← after_space bufp;
  t ← need (strtok 32 (s ++ [0]));
  number ← need (strtok_next 32 t);
  number ← need number;
  (if blen (tk_text number) <? 128 then upd (λ w, { w with w_dial_no_tmp := tk_text number }) else ub);;
  t ← need t;
  lac ← find_lac_by_name (tk_text t);
  match lac with
  | Some lp =>
      mod_lac lp (λ l, { l with lac_active := -1; lac_rtries := 0 });;
      start_session resf lp
  | None => call_by_number resf (tk_text t)
  end.

Definition control_handle_lac_hangup (resf : bool) (bufp : list Z) : M Z :=
  callstr ← after_space bufp;
  lac_hangup (atoi callstr);;
  write_res resf (str "00 OK");;
  mret 1.

Definition control_handle_lac_disconnect (resf : bool) (bufp : list Z) : M Z :=
  tunstr ← after_space bufp;
  lac ← find_lac_by_name tunstr;
  match lac with
  | Some lp =>
      mod_lac lp (λ l, { l with lac_active := 0; lac_rtries := 0 });;
      l ← get_lacp lp;
      match lac_t l with
      | Some tp => t ← get_t tp; lac_disconnect (t_ourtid t);; write_res resf (str "00 OK")
      | None => write_res resf (str "01 Session '" ++ lac_entname l ++ str "' not up")
      end;;
      mret 0
  | None =>
      let tunl := atoi tunstr in
      if tunl =? 0 then no_such resf tunstr
      else lac_disconnect tunl;; write_res resf (str "00 OK");; mret 1
  end.

(** A LAC of the name [name] with the options [parse] stores.  When the name
    exists already, the command ends with no answer. *)
Definition add_lac (resf : bool) (name : list Z) (parse : nat → M Z) : M Z :=
  found ← find_lac_by_name name;
  match found with
  | Some _ => mret 0
  | None =>
      lac ← alloc_lac { new_lac with lac_entname := strncpy name };
      match lac with
      | None => write_res resf (str "02 Could't create new lac: no memory");; mret 0
      | Some lp =>
          z ← parse lp;
          if truthy z then write_res resf (str "03 Configuration parse error");; mret 0
          else
            upd (λ w, { w with w_laclist := lp :: w_laclist w });;
            l ← get_lacp lp;
            (when (truthy (lac_autodial l))
               (mod_lac lp (λ l, { l with lac_active := -1 });;
                upd (λ w, { w with w_switch_io := 1 });;
                dial lp));;
            write_res resf (str "00 OK");;
            mret 1
      end
  end.
Definition control_handle_lac_add_modify (resf : bool) (bufp : list Z) : M Z :=
  t ← need (strtok 32 (drop 1 bufp));
  match t with
  | None => write_res resf (str "01 Configuration parse error: lac-name expected");; mret 0
  | Some t => add_lac resf (tk_text t) (parse_one_line_lac (tk_rest t))
  end.

(** [while (c) { c->lac = NULL; c = c->next; }] *)
Fixpoint forget_lac (fuel : nat) (c : option nat) : M unit :=
  match fuel with
  | O => nofuel
  | S fuel =>
      match c with
      | None => mret tt
      | Some cp => mod_c cp (λ c, { c with c_lac := None });; c ← get_c cp; forget_lac fuel (c_next c)
      end
  end.
Definition control_handle_lac_remove (resf : bool) (bufp : list Z) : M Z :=
  tunstr ← after_space bufp;
  lac ← find_lac_by_name tunstr;
  match lac with
  | None => no_such resf tunstr
  | Some lp =>
      mod_lac lp (λ l, { l with lac_active := 0; lac_rtries := 0 });;
      l ← get_lacp lp;
      match lac_t l with
      | None => mret tt
      | Some tp =>
          t ← get_t tp;
          lac_disconnect (t_ourtid t);;
          l ← get_lacp lp;
          match lac_t l with
          | None => mret tt
          | Some tp =>
              mod_t tp (λ t, { t with t_lac := None });;
              t ← get_t tp;
              match t_self t with None => mret tt | Some sp => mod_c sp (λ c, { c with c_lac := None }) end
          end
      end;;
      l ← get_lacp lp;
      fuel ← call_fuel;
      forget_lac fuel (lac_c l);;
      upd (λ w, { w with w_laclist := unlist lp (w_laclist w); w_lacs := delete lp (w_lacs w) });;
      write_res resf (str "00 OK");;
      mret 1
  end.

(** ** The pipe *)

(** [lns_status] writes a line for every tunnel and call of the LNS. *)
Definition status (key : list Z) (v : list Z) : list Z := str "00 STATUS tunnels." ++ key ++ [61] ++ v.
Fixpoint status_calls (fuel : nat) (resf : bool) (nt nc : Z) (c : option nat) : M Z :=
  match fuel with
  | O => nofuel
  | S fuel =>
      match c with
      | None => mret nc
      | Some cp =>
          c ← get_c cp;
          let key s := dec nt ++ str ".calls." ++ dec nc ++ str s in
          write_res resf (status (key ".id"%string) (dec (c_ourcid c)));;
          write_res resf (status (key ".tx_bytes"%string) (dec (c_tx_bytes c)));;
          write_res resf (status (key ".rx_bytes"%string) (dec (c_rx_bytes c)));;
          write_res resf (status (key ".tx_pkts"%string) (dec (c_tx_pkts c)));;
          write_res resf (status (key ".rx_pkts"%string) (dec (c_rx_pkts c)));;
          status_calls fuel resf nt (nc + 1) (c_next c)
      end
  end.
Fixpoint status_tunnels (fuel : nat) (resf : bool) (np : nat) (nt : Z) (t : option nat) : M Z :=
  match fuel with
  | O => nofuel
  | S fuel =>
      match t with
      | None => mret nt
      | Some tp =>
          t ← get_t tp;
          if bool_decide (t_lns t = Some np) then
            write_res resf (status (dec nt ++ str ".id") (dec (t_tid t)));;
            write_res resf (status (dec nt ++ str ".peer")
              (IPADDY (sin_addr (t_peer t)) ++ [58] ++ dec (ntohs (sin_port (t_peer t)))));;
            cfuel ← call_fuel;
            n ← status_calls cfuel resf nt 0 (t_call_head t);
            write_res resf (status (dec nt ++ str ".calls.count") (dec n));;
            status_tunnels fuel resf np (nt + 1) (t_next t)
          else status_tunnels fuel resf np nt (t_next t)
      end
  end.
Definition control_handle_lns_status (resf : bool) (bufp : list Z) : M Z :=
  t ← need (strtok 32 (drop 1 bufp));
  t ← need t;
  lns ← find_lns_by_name (tk_text t);
  match lns with
  | Some np =>
      write_res resf (str "00 OK");;
      head ← gets w_head;
      fuel ← tunnel_fuel;
      n ← status_tunnels fuel resf np 0 head;
      write_res resf (str "00 STATUS tunnels.count=" ++ dec n);;
      mret 1
  | None => write_res resf (str "01 Error: Could not find lns");; mret 1
  end.

(** [available]: the names of the entries and a line for every tunnel.
    [tunnels.calls] is never changed. *)
Context (fmt_p : option nat → list Z).
Definition avail (s : list Z) : list Z := str "00 AVAILABLE " ++ s.
Fixpoint available_names {A} (kind : list Z) (resf : bool) (get : nat → M A) (entname : A → list Z) (n : Z)
    (l : list nat) : M Z :=
  match l with
  | [] => mret n
  | p :: l =>
      e ← get p;
      name ← need (array_str (entname e));
      write_res resf (avail (kind ++ [46] ++ dec n ++ str ".name=" ++ name));;
      available_names kind resf get entname (n + 1) l
  end.
Fixpoint available_tunnels (fuel : nat) (resf : bool) (t : option nat) : M unit :=
  match fuel with
  | O => nofuel
  | S fuel =>
      match t with
      | None => mret tt
      | Some p =>
          st ← get_t p;
          write_res resf (avail (str "tunnel " ++ fmt_p t ++ str ", id " ++ dec (t_tid st) ++ str ", ourtid " ++
            dec (t_ourtid st) ++ str " has " ++ dec (t_count st) ++ str " calls and self " ++ fmt_p (t_self st)));;
          available_tunnels fuel resf (t_next st)
      end
  end.
Definition control_handle_available (resf : bool) (bufp : list Z) : M Z :=
  write_res resf (str "00 OK");;
  lnss ← gets (λ w, w_lnslist w ++ option_list (w_deflns w));
  n ← available_names (str "lns") resf get_lnsp lns_entname 0 lnss;
  write_res resf (avail (str "lns.count=" ++ dec n));;
  lacs ← gets (λ w, w_laclist w ++ option_list (w_deflac w));
  n ← available_names (str "lac") resf get_lacp lac_entname 0 lacs;
  write_res resf (avail (str "lac.count=" ++ dec n));;
  head ← gets w_head;
  fuel ← tunnel_fuel;
  available_tunnels fuel resf head;;
  count ← gets w_count;
  write_res resf (avail (str "tunnels count=" ++ dec count));;
  write_res resf (avail (str "calls count=0"));;
  mret 1.
Definition control_handle_lac_status (resf : bool) (bufp : list Z) : M Z := show_status;; mret 1.

Definition control_handlers : list (Z * (bool → list Z → M Z)) := [
  (120, control_handle_available);             (* 'x' *)
  (122, control_handle_lns_add_modify);        (* 'z' *)
  (121, control_handle_lns_status);            (* 'y' *)
  (116, control_handle_tunnel);                (* 't' *)
  (99, control_handle_lac_connect);            (* 'c' *)
  (111, control_handle_lac_outgoing_call);     (* 'o' *)
  (104, control_handle_lac_hangup);            (* 'h' *)
  (100, control_handle_lac_disconnect);        (* 'd' *)
  (97, control_handle_lac_add_modify);         (* 'a' *)
  (114, control_handle_lac_remove);            (* 'r' *)
  (115, control_handle_lac_status);            (* 's' *)
  (119, control_handle_lns_remove)].           (* 'w' *)
Fixpoint find_handler (hs : list (Z * (bool → list Z → M Z))) (type : Z) : option (bool → list Z → M Z) :=
  match hs with
  | [] => None
  | (ty, h) :: hs => if ty =? type then Some h else find_handler hs type
  end.

(** A command without the name of the result file. *)
Definition command (resf : bool) (bufp : list Z) (handler_found : bool) : M bool :=
  type ← need (head bufp);
  match find_handler control_handlers type with
  | Some h => h resf bufp;; mret true
  | None =>
      (if handler_found then mret tt else write_res resf (str "01 Unknown command " ++ [type]));;
      mret handler_found
  end.

Context (fopen_res : list Z → bool).

(** One message: the bytes that were read and what the buffer holds behind
    them.  [handler_found] is not reset between messages. *)
Record request := Request { rq_data : list Z; rq_behind : list Z }.
Definition request_buf (r : request) : list Z :=
  match last (rq_data r) with
  | Some 10 => take (length (rq_data r) - 1) (rq_data r) ++ 0 :: rq_behind r
  | _ => rq_data r ++ rq_behind r
  end.
Definition control_request (r : request) (handler_found : bool) : M bool :=
  let buf := request_buf r in
  match buf with
  | 64 :: m =>
      s ← need (zstr m);
      match strchr 32 s with
      | None => mret handler_found
      | Some (name, _) =>
          if (blen name =? 0) || negb (fopen_res name) then mret handler_found
          else command true (drop (length name + 1) m) handler_found
      end
  | _ => command false buf handler_found
  end.
Fixpoint control_loop (rs : list request) (handler_found : bool) : M unit :=
  match rs with
  | [] => mret tt
  | r :: rs => b ← control_request r handler_found; control_loop rs b
  end.
(** [rs] are the messages read until the pipe is empty; then it is opened
    again. *)
Definition reopen_control : M outcome :=
  fd ← gets w_control_fd;
  sys_ (Sclose fd);;
  open_controlfd.
Definition do_control (rs : list request) : M outcome := control_loop rs false;; reopen_control.
End Commands.

(** ** The invariant *)

Section Keep.
Context {sm : bool} (resolve : list Z → option Z) (fmt_p : option nat → list Z).

Lemma pres_line_loop (I : world → Prop) context fuel : (∀ A (f : env → nat → A), pres I (ask f)) →
  ∀ s it, pres I (line_loop resolve fuel context s it).
Proof.
  intros Ha. induction fuel as [|fuel IH]; intros s it; [apply pres_nofuel|]. cbn [line_loop].
  destruct s as [t|]; [|pres]. destruct (rstrip (lstrip (tk_text t))); [apply IH|].
  destruct (strchr 61 _) as [[word value]|]; pres.
Qed.
Lemma wok_parse_one_line m k it : pres (world_ok sm None) (parse_one_line resolve m k it).
Proof. unfold parse_one_line. pres. apply pres_line_loop. intros. apply wok_ask. Qed.
#[local] Hint Resolve wok_parse_one_line : pres.
Lemma wok_parse_one_line_lac m lp : pres (world_ok sm None) (parse_one_line_lac resolve m lp).
Proof. unfold parse_one_line_lac, on_lac. pres. Qed.
#[local] Hint Resolve wok_parse_one_line_lac : pres.
Lemma wok_find_lac name l : pres (world_ok sm None) (find_lac name l).
Proof. induction l as [|lp l IH]; cbn [find_lac]; pres. Qed.
Lemma wok_find_lns name l : pres (world_ok sm None) (find_lns name l).
Proof. induction l as [|lp l IH]; cbn [find_lns]; pres. Qed.
#[local] Hint Resolve wok_find_lac wok_find_lns : pres.
Lemma wok_after_space m : pres (world_ok sm None) (after_space m).
Proof. unfold after_space. pres. Qed.
Lemma wok_write_res b s : pres (world_ok sm None) (write_res b s).
Proof. unfold write_res. pres. Qed.
#[local] Hint Resolve wok_after_space wok_write_res : pres.
Lemma wok_no_such b s : pres (world_ok sm None) (no_such b s).
Proof. unfold no_such. pres. Qed.
#[local] Hint Resolve wok_no_such wok_dial : pres.
Lemma wok_start_session b lp : pres (world_ok sm None) (start_session b lp).
Proof. unfold start_session, dial. pres. Qed.
Lemma wok_call_by_number b s : pres (world_ok sm None) (call_by_number b s).
Proof.
  unfold call_by_number. pres. apply wok_lac_call. intros. apply wok_control_finish.
Qed.
#[local] Hint Resolve wok_start_session wok_call_by_number : pres.
Lemma wok_alloc_lac l : pres (world_ok sm None) (alloc_lac l).
Proof. unfold alloc_lac. pres. Qed.
#[local] Hint Resolve wok_alloc_lac : pres.
Lemma wok_close_list fuel : ∀ c, pres (world_ok sm None) (close_list fuel c).
Proof. induction fuel as [|fuel IH]; intros c; cbn [close_list]; pres. Qed.
#[local] Hint Resolve wok_close_list : pres.
Lemma wok_close_of_lns np fuel : ∀ t, pres (world_ok sm None) (close_of_lns fuel np t).
Proof. induction fuel as [|fuel IH]; intros t; cbn [close_of_lns]; unfold call_fuel; pres. Qed.
#[local] Hint Resolve wok_close_of_lns : pres.
Lemma wok_forget_lac fuel : ∀ c, pres (world_ok sm None) (forget_lac fuel c).
Proof. induction fuel as [|fuel IH]; intros t; cbn [forget_lac]; pres. Qed.
#[local] Hint Resolve wok_forget_lac : pres.

Lemma wok_status_calls resf nt fuel : ∀ nc c, pres (world_ok sm None) (status_calls fuel resf nt nc c).
Proof. induction fuel as [|fuel IH]; intros nc c; cbn [status_calls]; pres. Qed.
#[local] Hint Resolve wok_status_calls : pres.
Lemma wok_status_tunnels resf np fuel : ∀ nt t, pres (world_ok sm None) (status_tunnels fuel resf np nt t).
Proof. induction fuel as [|fuel IH]; intros nt t; cbn [status_tunnels]; unfold call_fuel; pres. Qed.
#[local] Hint Resolve wok_status_tunnels : pres.

(** An LNS that is freed has no range any more. *)
Lemma wok_free_lns np : pres (world_ok sm None)
  (upd (λ w, { w with w_lnslist := unlist np (w_lnslist w); w_lnss := delete np (w_lnss w) })).
Proof.
  apply pres_upd. intros w [? ? ? ? Hr ? ? ? ?]. split; try done. cbn.
  intros Hsm p l [_ Hp]%lookup_delete_Some. eauto.
Qed.
#[local] Hint Resolve wok_free_lns : pres.

Lemma wok_available_names {A} kind resf (get : nat → M A) entname l :
  (∀ p, pres (world_ok sm None) (get p)) → ∀ n, pres (world_ok sm None) (available_names kind resf get entname n l).
Proof. intros Hg. induction l as [|p l IH]; intros n; cbn [available_names]; pres. Qed.
Lemma wok_available_tunnels resf fuel : ∀ t, pres (world_ok sm None) (available_tunnels fmt_p fuel resf t).
Proof. induction fuel as [|fuel IH]; intros t; cbn [available_tunnels]; pres. Qed.
#[local] Hint Resolve wok_available_tunnels : pres.
#[local] Hint Extern 2 (pres _ (available_names _ _ _ _ _ _)) => apply wok_available_names; pres : pres.

(** Every handler but one keeps the invariant. *)
Definition keeps_ok (h : bool → list Z → M Z) : Prop := ∀ resf bufp, pres (world_ok sm None) (h resf bufp).
Lemma wok_handlers : Forall keeps_ok [control_handle_available fmt_p; control_handle_lac_status; control_handle_lns_status; control_handle_tunnel; control_handle_lac_connect;
  control_handle_lac_outgoing_call; control_handle_lac_hangup; control_handle_lac_disconnect;
  control_handle_lac_add_modify resolve; control_handle_lac_remove; control_handle_lns_remove].
Proof.
  repeat (apply Forall_cons; split); [..|apply Forall_nil_2]; intros resf bufp;
    unfold control_handle_available, control_handle_lac_status, control_handle_lns_status, control_handle_tunnel, control_handle_lac_connect,
      control_handle_lac_outgoing_call, control_handle_lac_hangup, control_handle_lac_disconnect,
      control_handle_lac_add_modify, control_handle_lac_remove, control_handle_lns_remove,
      add_lac, find_lns_by_name, find_lac_by_name, tunnel_fuel, call_fuel, dial; pres.
  apply wok_l2tp_call. intros. apply wok_control_finish.
Qed.

(** The command that changes an LNS may give it a range of local addresses;
    it keeps everything else. *)
Definition no_local_range (w : world) : Prop := ∀ p l, w_lnss w !! p = Some l → lns_localrange l = [].
Definition rest_ok (w : world) : Prop := world_ok sm None { w with w_lnss := ∅ }.
Lemma rest_ok_iff w : world_ok sm None w ↔ rest_ok w ∧ (sm = true → no_local_range w).
Proof.
  unfold rest_ok. split.
  - intros [? ? ? ? ? ? ? ? ?]. split; [|done]. by split.
  - intros [[? ? ? ? ? ? ? ? ?] Hr]. by split.
Qed.
Lemma rest_ask {A} (f : env → nat → A) : pres rest_ok (ask f).
Proof. intros w a w' Hw. unfold ask. intros [= _ <-]. revert Hw. unfold rest_ok. frame. Qed.
Lemma rest_alloc : pres rest_ok alloc.
Proof.
  intros w a w' [? ? Hf ? ? ? ? ? ?]. unfold alloc. intros [= _ <-]. split; try done; cbn; [|by apply heap_alloc].
  eapply Forall_impl; [exact Hf|]. cbn. lia.
Qed.
Lemma rest_mod_lns p f : pres rest_ok (mod_lns p f).
Proof.
  intros w a w' Hw. unfold mod_lns. destruct (w_lnss w !! p); [|done]. intros [= _ <-]. revert Hw.
  unfold rest_ok. frame.
Qed.
Lemma rest_emit o : pres rest_ok (emit o).
Proof. apply pres_upd. intros w. unfold rest_ok. frame. Qed.
#[local] Hint Resolve rest_ask rest_alloc rest_mod_lns rest_emit : pres.
Lemma rest_find_lns name l : pres rest_ok (find_lns name l).
Proof. induction l as [|lp l IH]; cbn [find_lns]; pres. Qed.
#[local] Hint Resolve rest_find_lns : pres.
Lemma rest_lns_add_modify resf bufp : pres rest_ok (control_handle_lns_add_modify resolve resf bufp).
Proof.
  unfold control_handle_lns_add_modify, find_lns_by_name, alloc_lns, parse_one_line_lns, on_lns, parse_one_line, write_res, Mmalloc.
  pres; try (apply pres_upd; intros w; unfold rest_ok; frame).
  all: apply pres_line_loop; intros; apply rest_ask.
Qed.

Lemma handler_kind type h : find_handler (control_handlers resolve fmt_p) type = Some h →
  keeps_ok h ∨ type = 122 ∧ h = control_handle_lns_add_modify resolve.
Proof.
  pose proof wok_handlers as Hk.
  repeat match goal with H : Forall _ (_ :: _) |- _ => apply Forall_cons in H as [? H] end.
  cbn [control_handlers find_handler].
  repeat (destruct (_ =? type) eqn:Et;
    [intros [= <-]; first [left; assumption|right; split; [by apply Z.eqb_eq in Et|reflexivity]]|clear Et]).
  done.
Qed.
Lemma wok_command resf bufp hf w b w' : command resolve fmt_p resf bufp hf w = Ret b w' →
  (sm = true → head bufp = Some 122 → no_local_range w') → world_ok sm None w → world_ok sm None w'.
Proof.
  intros E Hr Hw. destruct bufp as [|type bufp]; [done|].
  change (command resolve fmt_p resf (type :: bufp) hf w) with
    (match find_handler (control_handlers resolve fmt_p) type with
     | Some h => h resf (type :: bufp);; mret true
     | None => (if hf then mret tt else write_res resf (str "01 Unknown command " ++ [type]));; mret hf
     end w) in E.
  destruct (find_handler (control_handlers resolve fmt_p) type) as [h|] eqn:Eh.
  - destruct (handler_kind _ _ Eh) as [Hk|[-> ->]].
    + revert E. apply (pres_bind (world_ok sm None) (h resf (type :: bufp)) (λ _, mret true)); [apply Hk|pres|done].
    + apply rest_ok_iff. split; [|by intros Hsm; apply Hr]. apply rest_ok_iff in Hw as [Hw _]. revert E.
      apply (pres_bind rest_ok (control_handle_lns_add_modify resolve resf (122 :: bufp)) (λ _, mret true));
        [apply rest_lns_add_modify|pres|done].
  - revert E. apply (pres_bind (world_ok sm None) (if hf then mret tt else _) (λ _, mret hf)); [|pres|done].
    destruct hf; pres.
Qed.

(** The letter of the command in a message; 'z' adds or changes an LNS. *)
Definition request_type (r : request) : option Z :=
  match request_buf r with
  | [] => None
  | ch :: m => if ch =? 64 then s ← zstr m; x ← strchr 32 s; head (drop (length x.1 + 1) m) else Some ch
  end.

Lemma wok_control_request fopen_res r hf w b w' : control_request resolve fmt_p fopen_res r hf w = Ret b w' →
  (sm = true → request_type r = Some 122 → no_local_range w') → world_ok sm None w → world_ok sm None w'.
Proof.
  unfold control_request, request_type. intros E Hr Hw.
  destruct (request_buf r) as [|ch m]; [done|]. destruct (decide (ch = 64)) as [->|Hc].
  - destruct (zstr m) as [s|]; [|done]. rewrite (bind_eq _ _ _ s w) in E by done.
    destruct (strchr 32 s) as [[name ?]|] eqn:Es; [|change (Ret hf w = Ret b w') in E; by simplify_eq].
    destruct (_ || _); [change (Ret hf w = Ret b w') in E; by simplify_eq|].
    eapply wok_command; [exact E| |done]. intros Hsm Hh. apply Hr; [done|]. cbn. by rewrite Es.
  - assert (command resolve fmt_p false (ch :: m) hf w = Ret b w') as E'.
    { rewrite <-E. clear -Hc.
      repeat match goal with |- context [match ?p with _ => _ end] => is_var p; destruct p end; done. }
    eapply wok_command; [exact E'| |done]. by rewrite (proj2 (Z.eqb_neq ch 64) Hc) in Hr.
Qed.
End Keep.

(** ** Option lines *)

(** What the options [os] of a line do to an item. *)
Fixpoint options_meaning (resolve : list Z → option Z) (os : list (list Z * list Z)) (context : Z) (it : item)
    : M (Z * item) :=
  match os with
  | [] => mret (0, it)
  | (word, value) :: os =>
      stack ← ask e_stack;
      r ← need (parse_one_option resolve stack word value context it);
      if truthy r.1 then mret (-1, r.2) else options_meaning resolve os context r.2
  end.
(** Options written with a [;] behind each. *)
Definition option_text (word value : list Z) : list Z := word ++ 61 :: value.
Definition options_text (os : list (list Z * list Z)) : list Z :=
  concat (map (λ o, option_text o.1 o.2 ++ [59]) os).
Definition option_ok (o : list Z * list Z) : Prop := stmt_ok (Soption o.1 o.2).

Lemma token_app d t r : without 0 t → without d t → d ≠ 0 → token d (t ++ d :: r) = Some (Tok t true r).
Proof.
  intros H0 Hd Hn. induction H0 as [|x t Hx H0 IH]; cbn.
  - by rewrite (proj2 (Z.eqb_neq d 0) Hn), Z.eqb_refl.
  - inversion_clear Hd. rewrite (proj2 (Z.eqb_neq x 0) Hx), (proj2 (Z.eqb_neq x d)), IH by done. done.
Qed.
Lemma token_end d t r : without 0 t → without d t → token d (t ++ 0 :: r) = Some (Tok t false r).
Proof.
  intros H0 Hd. induction H0 as [|x t Hx H0 IH]; cbn; [done|].
  inversion_clear Hd. rewrite (proj2 (Z.eqb_neq x 0) Hx), (proj2 (Z.eqb_neq x d)), IH by done. done.
Qed.
Lemma strtok_app d t r : t ≠ [] → without 0 t → without d t → d ≠ 0 →
  strtok d (t ++ d :: r) = Some (Some (Tok t true r)).
Proof.
  intros Ht H0 Hd Hn. destruct t as [|x t]; [done|]. unfold strtok. cbn [app skip_delim].
  assert (x ≠ 0 ∧ x ≠ d) as [Hx0 Hxd] by (inversion_clear H0; by inversion_clear Hd).
  rewrite (proj2 (Z.eqb_neq x d) Hxd), (proj2 (Z.eqb_neq x 0) Hx0).
  change (x :: t ++ d :: r) with ((x :: t) ++ d :: r). by rewrite token_app.
Qed.
Lemma strtok_end d t r : t ≠ [] → without 0 t → without d t → strtok d (t ++ 0 :: r) = Some (Some (Tok t false r)).
Proof.
  intros Ht H0 Hd. destruct t as [|x t]; [done|]. unfold strtok. cbn [app skip_delim].
  assert (x ≠ 0 ∧ x ≠ d) as [Hx0 Hxd] by (inversion_clear H0; by inversion_clear Hd).
  rewrite (proj2 (Z.eqb_neq x d) Hxd), (proj2 (Z.eqb_neq x 0) Hx0).
  change (x :: t ++ 0 :: r) with ((x :: t) ++ 0 :: r). by rewrite token_end.
Qed.

Lemma option_text_ok o : option_ok o → option_text o.1 o.2 ≠ [] ∧ plain (option_text o.1 o.2).
Proof.
  intros Ho. split.
  - unfold option_text. by destruct o.1.
  - apply (stmt_plain [] [] (Soption o.1 o.2)); [by apply Forall_nil_2..|done].
Qed.
Lemma strtok_options os junk : Forall option_ok os →
  strtok 59 (options_text os ++ 0 :: junk) =
  Some match os with [] => None | o :: os => Some (Tok (option_text o.1 o.2) true (options_text os ++ 0 :: junk)) end.
Proof.
  intros Hos. destruct Hos as [|o os Ho Hos]; [done|]. destruct (option_text_ok o Ho) as [Hn Hp].
  unfold options_text. cbn [map concat]. rewrite <-!app_assoc. cbn [app].
  apply strtok_app; [done|by apply plain_without; auto..|done].
Qed.

Lemma line_loop_options resolve context junk os : Forall option_ok os → ∀ fuel it w, (length os < fuel)%nat →
  (s ← need (strtok 59 (options_text os ++ 0 :: junk)); line_loop resolve fuel context s it) w =
  options_meaning resolve os context it w.
Proof.
  induction 1 as [|o os Ho Hos IH]; intros fuel it w Hf; rewrite strtok_options by auto;
    (destruct fuel as [|fuel]; [cbn in Hf; lia|]); [done|].
  rewrite (bind_eq _ _ _ (Some (Tok (option_text o.1 o.2) true (options_text os ++ 0 :: junk))) w) by done.
  destruct o as [word value]. cbn [line_loop tk_text fst snd] in *.
  destruct (split_option [] [] word value) as (ch & t & x & y & Et & _ & Ec & Ex & Ey); [by apply Forall_nil_2..|done|].
  destruct (stmt_head [] [] (Soption word value) Ho) as (ch' & t' & Eh & Hb).
  cbn [print_stmt app] in Et, Eh. fold (option_text word value) in Et, Eh.
  assert (lstrip (option_text word value) = option_text word value) as -> by (rewrite Eh; by apply lstrip_id).
  rewrite Et. cbn [options_meaning]. rewrite Ec, Ex, Ey. apply bind_agree. wlp1.
  apply bind_agree. intros r w1 _. destruct (truthy r.1); [done|]. cbn [strtok_next tk_more tk_rest].
  apply IH. cbn in Hf. lia.
Qed.

(** ** Properties *)

Lemma options_text_length os : (length os <= length (options_text os))%nat.
Proof.
  induction os as [|o os IH]; [done|]. unfold options_text in *. cbn [map concat length].
  rewrite length_app, length_app. cbn [length]. lia.
Qed.

(** An option line does what its options do.  A line of options, each
    ended by a semicolon, is applied option by option from left to right, up to the
    first that is refused; the parser returns whatever the options are. *)
Theorem option_line_meaning (resolve : list Z → option Z) (os : list (list Z * list Z)) (junk : list Z) (context : Z)
    (it : item) (w : world) :
  Forall option_ok os →
  parse_one_line resolve (options_text os ++ 0 :: junk) context it w = options_meaning resolve os context it w.
Proof.
  intros Hos. unfold parse_one_line. apply line_loop_options; [done|].
  rewrite length_app. pose proof (options_text_length os). lia.
Qed.
Definition two_options : list (list Z * list Z) :=
  [(str "lns", str "10.0.0.1"); (str "redial timeout", str "15")].
Lemma two_options_ok : Forall option_ok two_options.
Proof.
  repeat (apply Forall_cons_2; [vm_compute; repeat split; repeat (constructor; [intuition discriminate|]);
    try constructor; discriminate|]). apply Forall_nil_2.
Qed.
Lemma option_line_meaning_witness :
  options_text two_options = str "lns=10.0.0.1;redial timeout=15;" ∧
  match parse_one_line dotted (options_text two_options ++ 0 :: [59; 32]) CONTEXT_LAC (Ilac new_lac) zero_world with
  | Ret (z, Ilac l) _ => (z, lac_lns l, lac_rtimeout l) = (0, [(str "10.0.0.1", 1701)], 15)
  | _ => False
  end.
Proof.
  split; [reflexivity|].
  rewrite (option_line_meaning dotted two_options [59; 32] CONTEXT_LAC (Ilac new_lac) zero_world two_options_ok).
  vm_compute. reflexivity.
Defined.

(** C39: an option that is only white space hangs the daemon.  The loop comes
    back to the same token for ever: no number of iterations is enough. *)
Theorem blank_option_hangs (resolve : list Z → option Z) (fuel n : nat) (context : Z) (more : bool) (rest : list Z)
    (it : item) (w : world) :
  line_loop resolve fuel context (Some (Tok (replicate n 32) more rest)) it w = NoFuel.
Proof.
  revert n. induction fuel as [|fuel IH]; intros n; [done|]. cbn [line_loop tk_text tk_more tk_rest].
  assert (lstrip (replicate n 32) = []) as -> by (induction n as [|n IHn]; [done|]; cbn; done).
  cbn [rstrip]. apply (IH 0%nat).
Qed.

(** [strchr (bufp, ' ') + 1] *)
Lemma after_space_name letter name junk w : without 0 name → letter ≠ 0 → letter ≠ 32 →
  after_space (letter :: 32 :: name ++ 0 :: junk) w = Ret name w.
Proof.
  intros H0 H1 H2. assert (zstr (letter :: 32 :: name ++ 0 :: junk) = Some (letter :: 32 :: name)) as E.
  { unfold zstr. rewrite bool_decide_eq_true_2 by set_solver. f_equal. change (letter :: 32 :: name ++ 0 :: junk) with ((letter :: 32 :: name) ++ 0 :: junk).
    apply cstr_app. by repeat constructor. }
  unfold after_space. rewrite E. change ((need (Some (letter :: 32 :: name)) ≫= ?k) w) with (k (letter :: 32 :: name) w).
  cbn [strchr]. rewrite (proj2 (Z.eqb_neq letter 32)) by done. done.
Qed.

Lemma dial_freed lp w : w_lacs w !! lp = None → magic_lac_dial control_finish lp w = UB.
Proof. intros H. unfold magic_lac_dial, mbind, M_bind, get_lacp. by rewrite H. Qed.

(** C40: a LAC that is removed while it waits to redial is used after it was
    freed.  For any LAC that has no tunnel and no call and whose redial is the
    first entry on the timer queue: the command to remove it frees it and answers
    "00 OK", but the entry stays on the queue, and when [process_schedule] is
    called after it is due, the freed LAC is read. *)
Theorem removed_lac_redials (w : world) (lp p : nat) (l : lac) (name junk : list Z) (due : timeval) (es : list (schedule_entry job)) :
  find_lac_by_name name w = Ret (Some lp) w → without 0 name →
  w_lacs w !! lp = Some l → lac_t l = None → lac_c l = None →
  w_events w = Scheduler.Entry p due (Jmagic_lac_dial lp) :: es →
  ∃ w', control_handle_lac_remove true (114 :: 32 :: name ++ 0 :: junk) w = Ret 1 w' ∧
    w_lacs w' !! lp = None ∧ w_out w' = w_out w ++ [Ores (str "00 OK" ++ [10])] ∧ w_events w' = w_events w ∧
    ∀ now fuel, TVLESSEQ due now = true → Mprocess_schedule (S fuel) (at_time now w') = UB.
Proof.
  intros Hfind Hname Hl Ht Hc Hq.
  exists { w with w_laclist := unlist lp (w_laclist w); w_lacs := delete lp (w_lacs w); w_out := w_out w ++ [Ores (str "00 OK" ++ [10])] }.
  split.
  - apply wp_run. unfold control_handle_lac_remove. wstep. eapply wp_eq; [by apply after_space_name|].
    wstep. eapply wp_eq; [exact Hfind|]. cbv beta iota. wstep. eapply wp_eq; [unfold mod_lac; rewrite Hl; reflexivity|].
    wstep. eapply wp_get_lacp; [apply lookup_insert_eq|]. cbv beta. change (lac_t { l with lac_active := 0; lac_rtries := 0 }) with (lac_t l). rewrite Ht. wstep. wstep.
    wstep. eapply wp_get_lacp; [apply lookup_insert_eq|]. cbv beta.
    change (lac_c { l with lac_active := 0; lac_rtries := 0 }) with (lac_c l). rewrite Hc. unfold call_fuel, write_res, when. wsteps.
    cbn [forget_lac]. wsteps. split; [done|]. cbn. by rewrite delete_insert_eq.
  - split; [apply lookup_delete_eq|]. split; [done|]. split; [done|]. intros now fuel Hdue.
    unfold Mprocess_schedule, process_schedule. cbn [process_loop].
    match goal with |- context [w_events (at_time now ?w1)] => change (w_events (at_time now w1)) with (w_events w) end.
    rewrite Hq. cbn [se_tv se_job].
    match goal with |- context [e_now ?e ?k] => change (e_now e k) with now end. rewrite Hdue. cbn [run_job].
    rewrite dial_freed by apply lookup_delete_eq. by destruct fuel.
Qed.

(** The LAC "office" has lost its tunnel and [redial] has put it on the queue. *)
Definition lost_world : world :=
  { zero_world with w_lacs := {[ 8%nat := { new_lac with lac_entname := str "office"; lac_redial := 1; lac_active := -1 } ]};
      w_laclist := [8%nat] }.
Definition waiting_world : world := match redial 8 lost_world with Ret _ w => w | _ => zero_world end.
Lemma removed_lac_redials_witness :
  ∃ w', control_handle_lac_remove true (str "r office" ++ [0]) waiting_world = Ret 1 w' ∧
    Mprocess_schedule 10 (at_time (Tv 9999 0) w') = UB.
Proof.
  destruct (removed_lac_redials waiting_world 8
    (match w_events waiting_world with e :: _ => se_ptr e | [] => 0%nat end) (default zero_lac (w_lacs waiting_world !! 8%nat)) (str "office") []
    (match w_events waiting_world with e :: _ => se_tv e | [] => Tv 0 0 end) []) as (w' & E & _ & _ & _ & H).
  - vm_compute. reflexivity.
  - by repeat constructor.
  - vm_compute. reflexivity.
  - vm_compute. reflexivity.
  - vm_compute. reflexivity.
  - vm_compute. reflexivity.
  - exists w'. split; [exact E|]. apply (H (Tv 9999 0) 9%nat). vm_compute. reflexivity.
Defined.

End Control.
