(* ===== verification/Client.v ===== *)
(** * The control utility (src/xl2tpd-control.c)

    The request [xl2tpd-control] sends to the daemon for a command line, the
    result code it reads back, and what the daemon makes of the request.

    Arguments are C strings.  What the program writes to its memory stream is
    the string that is built; writing more than [CONTROL_PIPE_MESSAGE_SIZE]
    bytes to it is an error.  Opening the pipes is left out. *)

From S2P Require Import Prelude.
From S2P Require Import Buffer.
From S2P Require Import State.
From S2P Require Import Auth.
From S2P Require Import Config.
From S2P Require Import Logic.
From S2P Require Import Calls.
From S2P Require Import Finish.
From S2P Require Import Packet.
From S2P Require Import Invariant.
From S2P Require Import Control.

Module Client.
Import Buffer State Auth Config Logic Calls Finish Packet Invariant Control.
Open Scope Z_scope.

Definition CONTROL_PIPE_MESSAGE_SIZE : Z := 1024.

(** ** Commands *)

(** [fprintf (mesf, "%s", s)] of a pointer that may be NULL *)
Definition fmt_s (s : option (list Z)) : list Z := default (str "(null)") s.

(** The loop over the arguments of [command_add]. *)
Fixpoint add_args (wait_key : bool) (optv : list (list Z)) : list Z :=
  match optv with
  | [] => []
  | o :: optv =>
      if wait_key then
        match strchr 61 o with
        | Some (_, []) => o ++ add_args false optv
        | Some (_, _) => o ++ [59] ++ add_args true optv
        | None => o ++ [32] ++ add_args true optv
        end
      else o ++ [59] ++ add_args true optv
  end.
(** The text written; [None] when the command is refused. *)
Definition command_add (reqopt : Z) (tunnel : option (list Z)) (optv : list (list Z)) : option (list Z) :=
  match optv with
  | [] => None
  | _ => Some ([reqopt; 32] ++ fmt_s tunnel ++ [32] ++ add_args true optv)
  end.
Definition command_add_lac := command_add 97.
Definition command_add_lns := command_add 122.
Definition command_connect_lac (tunnel : option (list Z)) (optv : list (list Z)) : option (list Z) :=
  Some ([99; 32] ++ fmt_s tunnel ++
        match optv with [] => [] | [a] => 32 :: a | a :: b :: _ => 32 :: a ++ 32 :: b end).
(** The commands that take no option. *)
Definition command_plain (reqopt : Z) (tunnel : option (list Z)) (optv : list (list Z)) : option (list Z) :=
  Some ([reqopt; 32] ++ fmt_s tunnel).
Definition command_disconnect_lac := command_plain 100.
Definition command_remove_lac := command_plain 114.
Definition command_status_lns := command_plain 121.
Definition command_status_lac := command_plain 115.
Definition command_available := command_plain 120.
Definition command_remove_lns := command_plain 119.

Definition commands : list (string * (option (list Z) → list (list Z) → option (list Z)) * bool) := [
  ("add-lac"%string, command_add_lac, true);
  ("connect-lac"%string, command_connect_lac, true);
  ("disconnect-lac"%string, command_disconnect_lac, true);
  ("status-lac"%string, command_status_lac, true);
  ("remove-lac"%string, command_remove_lac, true);
  ("available"%string, command_available, false);
  ("add-lns"%string, command_add_lns, true);
  ("status-lns"%string, command_status_lns, true);
  ("remove-lns"%string, command_remove_lns, true)].
Fixpoint find_command (l : list (string * (option (list Z) → list (list Z) → option (list Z)) * bool)) (name : list Z)
    : option ((option (list Z) → list (list Z) → option (list Z)) * bool) :=
  match l with
  | [] => None
  | (s, h, r) :: l => if casecmp name (str s) then Some (h, r) else find_command l name
  end.

(** ** The command line *)

(** [-c] and [-d]: the name after [-c] ([None] when it was not given), and
    the arguments that are left. *)
Fixpoint global_options (control_filename : option (list Z)) (argv : list (list Z))
    : option (list Z) * list (list Z) :=
  match argv with
  | [] => (control_filename, [])
  | a :: rest =>
      if starts a "-c" then
        match rest with
        | f :: rest => global_options (Some f) rest
        | [] => (None, [])
        end
      else if starts a "-d" then global_options control_filename rest
      else (control_filename, argv)
  end.

(** What the program does: it exits with a code, or it sends a message to a
    pipe.  [Undefined]: the table of commands has no last entry, so that a
    command that is not in it is looked for behind the table; and
    [control_filename] is freed although it may point to an argument. *)
Inductive action := Exit (code : Z) | Send (pipe : option (list Z)) (message : list Z) | Undefined.
Definition refuse (control_filename : option (list Z)) : action :=
  match control_filename with Some _ => Undefined | None => Exit (-1) end.

Definition main (result_filename : list Z) (argv : list (list Z)) : action :=
  match argv with
  | [] => Exit (-1)
  | a1 :: _ =>
      if starts a1 "--help" || starts a1 "--version" then Exit 0
      else
        let '(control_filename, argv) := global_options None argv in
        match argv with
        | [] => Exit (-1)
        | name :: argv =>
            match find_command commands name with
            | None => Undefined
            | Some (handler, requires_tunnel) =>
                let send (tunnel : option (list Z)) (optv : list (list Z)) :=
                  match handler tunnel optv with
                  | None => Exit (-1)
                  | Some text =>
                      let message := 64 :: result_filename ++ [32] ++ text in
                      if CONTROL_PIPE_MESSAGE_SIZE <? blen message then Exit (-1)
                      else Send control_filename message
                  end in
                if requires_tunnel then
                  match argv with
                  | [] => refuse control_filename
                  | tunnel :: argv =>
                      if bool_decide (32 ∈ tunnel) then refuse control_filename else send (Some tunnel) argv
                  end
                else send None argv
            end
        end
  end.

(** ** The result *)

(** What [read] returns; [Rempty late]: no byte, and whether a second has
    passed since the start. *)
Inductive rd := Rdata (bs : list Z) | Rintr | Rerr | Rempty (late : bool).

(** [sscanf (buf, "%i", ...)]: -3 when there is no number. *)
Definition digit (base ch : Z) : option Z :=
  let d := if (48 <=? ch) && (ch <=? 57) then ch - 48
           else if (97 <=? ch) && (ch <=? 102) then ch - 87
           else if (65 <=? ch) && (ch <=? 70) then ch - 55 else base in
  if d <? base then Some d else None.
Fixpoint number (base : Z) (s : list Z) (acc : option Z) : option Z :=
  match s with
  | [] => acc
  | ch :: s =>
      match digit base ch with
      | Some d => number base s (Some (default 0 acc * base + d))
      | None => acc
      end
  end.
Definition scan_unsigned (s : list Z) : option Z :=
  match s with
  | 48 :: 120 :: s | 48 :: 88 :: s => number 16 s None
  | 48 :: _ => number 8 s None
  | _ => number 10 s None
  end.
Definition scan_code (s : list Z) : Z :=
  default (-3)
    match skip_space s with
    | 45 :: s => Z.opp <$> scan_unsigned s
    | 43 :: s => scan_unsigned s
    | s => scan_unsigned s
    end.

(** The bytes collected; [None]: the script of reads ended before the loop
    did.  A read takes no more than the room that is left. *)
Fixpoint read_all (script : list rd) (size : Z) (buf : list Z) : option (list Z) :=
  match script with
  | [] => None
  | Rintr :: script => read_all script size buf
  | Rerr :: _ => Some buf
  | Rempty late :: script =>
      match buf with
      | [] => if late then Some buf else read_all script size buf
      | _ => Some buf
      end
  | Rdata bs :: script =>
      let bs := take (Z.to_nat (size - blen buf)) bs in
      if size - (blen buf + blen bs) <=? 0 then Some (buf ++ bs) else read_all script size (buf ++ bs)
  end.
(** [buf[readed] = 0] is outside the array when it is full. *)
Definition read_result (script : list rd) (size : Z) : option Z :=
  buf ← read_all script size [];
  if blen buf <? size then Some (scan_code (cstr buf)) else None.

(** ** Properties *)

(** An option on the command line: the words of the key before the last, the
    last one, and the value. *)
Record copt := Copt { co_keys : list (list Z); co_last : list Z; co_value : list Z }.
Definition co_args (o : copt) : list (list Z) := co_keys o ++ [option_text (co_last o) (co_value o)].
Definition co_word (o : copt) : list Z := concat (map (λ k, k ++ [32]) (co_keys o)) ++ co_last o.
Definition co_option (o : copt) : list Z * list Z := (co_word o, co_value o).
Record copt_ok (o : copt) : Prop := {
  ck_keys : Forall (without 61) (co_keys o); ck_last : without 61 (co_last o);
  ck_value : co_value o ≠ []; ck_option : option_ok (co_option o) }.

Lemma add_args_option o rest : copt_ok o →
  add_args true (co_args o ++ rest) = option_text (co_word o) (co_value o) ++ [59] ++ add_args true rest.
Proof.
  intros [Hk Hl Hv _]. destruct o as [keys la value]. unfold co_args, co_word in *. cbn [co_keys co_last co_value] in *.
  induction Hk as [|k keys Hk Hks IH].
  - cbn [map concat app add_args]. unfold option_text at 1. rewrite strchr_app by done. by destruct value.
  - cbn [map concat app add_args]. rewrite strchr_none by done. rewrite IH. unfold option_text.
    rewrite <-!app_assoc. done.
Qed.
Lemma add_args_options os : Forall copt_ok os →
  add_args true (concat (map co_args os)) = options_text (map co_option os).
Proof.
  induction 1 as [|o os Ho Hos IH]; [done|]. cbn [map concat]. rewrite add_args_option by done. rewrite IH.
  unfold options_text. cbn [map concat]. by rewrite <-!app_assoc.
Qed.

Definition name_ok (s : list Z) : Prop := s ≠ [] ∧ without 0 s ∧ without 32 s.

Lemma options_text_plain os : Forall option_ok os → without 0 (options_text os).
Proof.
  induction 1 as [|o os Ho Hos IH]; [constructor|]. unfold options_text. cbn [map concat].
  apply Forall_app. split; [|done]. apply Forall_app. split; [|by repeat constructor].
  apply plain_without; [|auto]. by apply option_text_ok.
Qed.
Lemma options_text_last os : os ≠ [] → last (options_text os) = Some 59.
Proof.
  intros Hn. destruct (exists_last Hn) as (l & o & ->). unfold options_text.
  rewrite map_app, concat_app. cbn [map concat]. rewrite app_nil_r, app_assoc. apply last_snoc.
Qed.

(** What the daemon sees of a request with a result file. *)
Lemma request_with_file resolve fmt_p fopen_res file text junk hf w ch t :
  name_ok file → fopen_res file = true → without 0 text → last text ≠ Some 10 → text = ch :: t →
  control_request resolve fmt_p fopen_res (Request (64 :: file ++ [32] ++ text) (0 :: junk)) hf w =
  command resolve fmt_p true (text ++ 0 :: junk) hf w.
Proof.
  intros (Hn & H0 & H32) Hf Ht Hlast Etext. unfold control_request.
  assert (request_buf (Request (64 :: file ++ [32] ++ text) (0 :: junk)) = 64 :: file ++ 32 :: text ++ 0 :: junk) as ->.
  { unfold request_buf. cbn [rq_data rq_behind].
    assert (last (64 :: file ++ [32] ++ text) = last text) as El.
    { change (64 :: file ++ [32] ++ text) with ((64 :: file) ++ [32] ++ text).
      rewrite app_assoc, last_app. subst text. by destruct (last (ch :: t)) eqn:E; [|by apply last_None in E]. }
    assert ((64 :: file ++ [32] ++ text) ++ 0 :: junk = 64 :: file ++ 32 :: text ++ 0 :: junk) as Ea
      by (cbn; rewrite <-!app_assoc; done).
    rewrite El. clear -Hlast Ea. destruct (last text) as [x|]; [|done].
    repeat match goal with |- context [match ?p with _ => _ end] => is_var p; destruct p end; done. }
  assert (zstr (file ++ 32 :: text ++ 0 :: junk) = Some (file ++ 32 :: text)) as Ez.
  { unfold zstr. rewrite bool_decide_eq_true_2 by set_solver. f_equal.
    change (file ++ 32 :: text ++ 0 :: junk) with (file ++ (32 :: text) ++ 0 :: junk). rewrite app_assoc.
    rewrite cstr_app; [done|]. apply Forall_app. split; [done|]. by constructor. }
  rewrite Ez. rewrite (bind_eq _ _ _ (file ++ 32 :: text) w) by done.
  rewrite strchr_app by done. rewrite Hf.
  replace (blen file =? 0) with false by (symmetry; apply Z.eqb_neq; unfold blen; destruct file; [done|cbn; lia]).
  cbn [orb negb]. f_equal. replace (length file + 1)%nat with (length (file ++ [32])) by (rewrite length_app; cbn; lia).
  change (file ++ 32 :: text ++ 0 :: junk) with (file ++ [32] ++ (text ++ 0 :: junk)).
  by rewrite app_assoc, drop_app_length.
Qed.

Lemma add_lac_cong resf name f g w : (∀ lp w, f lp w = g lp w) → add_lac resf name f w = add_lac resf name g w.
Proof.
  intros Hfg. unfold add_lac. apply bind_agree. intros [lp|] w1 _; [done|].
  apply bind_agree. intros [lp|] w2 _; [|done]. apply bind_cong, Hfg.
Qed.
Lemma on_lac_cong f g lp w : (∀ it w, f it w = g it w) → on_lac f lp w = on_lac g lp w.
Proof. intros Hfg. unfold on_lac. apply bind_agree. intros l w1 _. apply bind_cong, Hfg. Qed.

Definition add_text (name : list Z) (os : list copt) : list Z :=
  [97; 32] ++ name ++ [32] ++ options_text (map co_option os).
Lemma main_add_lac file name os : name_ok name → Forall copt_ok os → os ≠ [] →
  main file (str "add-lac" :: name :: concat (map co_args os)) =
  let message := 64 :: file ++ [32] ++ add_text name os in
  if CONTROL_PIPE_MESSAGE_SIZE <? blen message then Exit (-1) else Send None message.
Proof.
  intros (Hn & H0 & H32) Hos Hne. unfold main.
  change (starts (str "add-lac") "--help" || starts (str "add-lac") "--version") with false. cbn [orb].
  change (global_options None (str "add-lac" :: ?r)) with (None (A := list Z), str "add-lac" :: r).
  cbv beta iota zeta. change (find_command commands (str "add-lac")) with (Some (command_add_lac, true)). cbv beta iota.
  rewrite bool_decide_eq_false_2.
  2: { intros Hi. eapply Forall_forall in H32; [|exact Hi]. done. }
  unfold command_add_lac, command_add.
  destruct (concat (map co_args os)) as [|a r] eqn:E.
  { destruct os as [|o os]; [done|]. cbn in E. unfold co_args in E. by destruct (co_keys o). }
  rewrite <-E, add_args_options by done. cbn [fmt_s default]. reflexivity.
Qed.

(** What the daemon makes of the message of the client. *)
Lemma client_request (resolve : list Z → option Z) (fmt_p : option nat → list Z) (fopen_res : list Z → bool) (file name : list Z)
    (os : list copt) (message junk : list Z) (hf : bool) (w : world) :
  name_ok file → fopen_res file = true → name_ok name → Forall copt_ok os → os ≠ [] →
  main file (str "add-lac" :: name :: concat (map co_args os)) = Send None message →
  control_request resolve fmt_p fopen_res (Request message (0 :: junk)) hf w =
  (add_lac true name (on_lac (options_meaning resolve (map co_option os) CONTEXT_LAC));; mret true) w.
Proof.
  intros Hfile Hf Hname Hos Hne. rewrite main_add_lac by done. cbv zeta.
  destruct (_ <? _); [done|]. intros E. assert (message = 64 :: file ++ [32] ++ add_text name os) as -> by congruence.
  assert (Forall option_ok (map co_option os)) as Ho.
  { apply Forall_fmap. eapply Forall_impl; [exact Hos|]. intros o Hco. apply Hco. }
  assert (without 0 (add_text name os)) as Hz.
  { unfold add_text. destruct Hname as (_ & H0 & _). repeat apply Forall_app_2; [by repeat constructor|done|by repeat constructor|].
    by apply options_text_plain. }
  rewrite (request_with_file _ _ _ _ _ _ _ _ 97 (32 :: name ++ [32] ++ options_text (map co_option os))); try done.
  2: { unfold add_text. rewrite !app_assoc, last_app, options_text_last; [done|]. by destruct os. }
  unfold command, add_text. rewrite <-!app_assoc. cbn [app head].
  rewrite (bind_eq _ _ _ 97 w) by done.
  change (find_handler (control_handlers resolve fmt_p) 97) with (Some (control_handle_lac_add_modify resolve)). cbv iota.
  apply bind_cong. unfold control_handle_lac_add_modify. cbn [drop].
  assert (strtok 32 (32 :: name ++ 32 :: options_text (map co_option os) ++ 0 :: junk) =
    strtok 32 (name ++ 32 :: options_text (map co_option os) ++ 0 :: junk)) as -> by done.
  destruct Hname as (Hn & H0 & H32). rewrite strtok_app by done.
  rewrite (bind_eq _ _ _ (Some (Tok name true (options_text (map co_option os) ++ 0 :: junk))) w) by done.
  cbn [tk_text tk_rest]. apply add_lac_cong. intros lp w1. apply on_lac_cong. intros it w2.
  unfold parse_one_line. apply line_loop_options; [done|].
  rewrite length_app. pose proof (options_text_length (map co_option os)). lia.
Qed.
(** The options of a LAC, one after the other; every one is known and its value
    is good.  [stack] is what [k] and later calls of [parse_one_option] find on
    the stack. *)
Fixpoint lac_with (resolve : list Z → option Z) (stack : nat → list Z) (k : nat) (os : list (list Z * list Z)) (l : lac) : option lac :=
  match os with
  | [] => Some l
  | (word, value) :: os =>
      match parse_one_option resolve (stack k) word value CONTEXT_LAC (Ilac l) with
      | Some (0, Ilac l) => lac_with resolve stack (S k) os l
      | _ => None
      end
  end.
Lemma lac_with_meaning resolve os : ∀ l l' w, lac_with resolve (e_stack (w_env w)) (w_clk w) os l = Some l' →
  options_meaning resolve os CONTEXT_LAC (Ilac l) w = Ret (0, Ilac l') { w with w_clk := w_clk w + length os }%nat.
Proof.
  induction os as [|[word value] os IH]; intros l l' w; cbn [lac_with options_meaning].
  { intros [= <-]. rewrite Nat.add_0_r. by destruct w. }
  destruct (parse_one_option _ _ _ _ _ _) as [[z it]|] eqn:E; [|done].
  destruct (decide (z = 0)) as [->|Hz]; [|by destruct z]. destruct it as [| |l1]; [done|done|]. intros H.
  specialize (IH l1 l' { w with w_clk := S (w_clk w) } H). unfold mbind, M_bind, ask. rewrite E. cbn [need fst snd]. cbn.
  rewrite IH. cbn. by rewrite Nat.add_succ_r.
Qed.

(** The entries of the list of LACs exist and their names end. *)
Definition laclist_ok (w : world) : Prop :=
  Forall (λ p, ∃ l, w_lacs w !! p = Some l ∧ blen (lac_entname l) < STRLEN) (w_laclist w).
(** A LAC of the list has this name, without regard to case. *)
Definition has_lac (w : world) (name : list Z) : Prop :=
  Exists (λ p, ∃ l, w_lacs w !! p = Some l ∧ map lower (cstr (lac_entname l)) = map lower (cstr name)) (w_laclist w).
Lemma find_lac_spec name w ps : Forall (λ p, ∃ l, w_lacs w !! p = Some l ∧ blen (lac_entname l) < STRLEN) ps →
  ∃ o, find_lac name ps w = Ret o w ∧
    (is_Some o ↔ Exists (λ p, ∃ l, w_lacs w !! p = Some l ∧ map lower (cstr (lac_entname l)) = map lower (cstr name)) ps).
Proof.
  induction 1 as [|p ps (l & Hl & Hlen) Hps IH]; cbn [find_lac].
  { exists None. split; [done|]. split; [by intros []|by intros ?%Exists_nil]. }
  rewrite (bind_eq _ _ _ l w) by (unfold get_lacp; by rewrite Hl).
  unfold casecmp_array. rewrite (proj2 (Z.ltb_lt _ _) Hlen), (bind_eq _ _ _ (casecmp name (lac_entname l)) w) by done.
  unfold casecmp. case_bool_decide as E.
  - exists (Some p). split; [done|]. split; [|by eauto]. intros _. left. by exists l.
  - destruct IH as (o & Ho & Hiff). exists o. split; [done|]. rewrite Hiff. split; [by right|].
    intros [(l1 & H1 & H2)|H]%Exists_cons; [|done]. simplify_eq.
Qed.

(** C5: the daemon understands the client.  The message [xl2tpd-control
    add-lac] sends for any options, however their keys are split over the
    arguments:
    - when no LAC has that name, and the options are good ones (and do not ask
      to dial at once) and there is memory, the daemon's list begins with a new
      LAC that has that name and exactly those options, all else is as before,
      and the answer is "00 OK";
    - when a LAC has that name already, nothing happens at all: it is not
      changed, and there is no answer. *)
Theorem client_adds_lac (resolve : list Z → option Z) (fmt_p : option nat → list Z) (fopen_res : list Z → bool) (file name : list Z)
    (os : list copt) (message junk : list Z) (hf : bool) (w : world) (l : lac) :
  name_ok file → fopen_res file = true → name_ok name → Forall copt_ok os → os ≠ [] →
  main file (str "add-lac" :: name :: concat (map co_args os)) = Send None message →
  laclist_ok w → is_Some (e_malloc (w_env w) (w_clk w) 1) →
  lac_with resolve (e_stack (w_env w)) (S (w_clk w)) (map co_option os) { new_lac with lac_entname := strncpy name } = Some l →
  lac_autodial l = 0 →
  (has_lac w name → control_request resolve fmt_p fopen_res (Request message (0 :: junk)) hf w = Ret true w) ∧
  (¬ has_lac w name → control_request resolve fmt_p fopen_res (Request message (0 :: junk)) hf w =
     Ret true { w with w_laclist := w_fresh w :: w_laclist w; w_lacs := <[w_fresh w := l]> (w_lacs w);
                       w_fresh := S (w_fresh w); w_clk := (S (w_clk w) + length os)%nat;
                       w_out := w_out w ++ [Ores (str "00 OK" ++ [10])] }).
Proof.
  intros H1 H2 H3 H4 H5 H6 Hlist [m Hm] Hl Hauto. rewrite (client_request resolve fmt_p fopen_res file name os message junk hf w) by done.
  destruct (find_lac_spec name w _ Hlist) as (o & Ho & Hiff). fold (has_lac w name) in Hiff.
  assert (find_lac_by_name name w = Ret o w) as Hfind by (unfold find_lac_by_name; by rewrite (bind_eq _ _ _ (w_laclist w) w)).
  split.
  - intros [p ->]%Hiff. rewrite (bind_eq _ _ _ 0 w); [done|]. unfold add_lac. by rewrite (bind_eq _ _ _ _ _ Hfind).
  - intros Hno. destruct o as [p|]; [by destruct Hno; apply Hiff|].
    set (w1 := { w with w_clk := S (w_clk w); w_fresh := S (w_fresh w);
                        w_lacs := <[w_fresh w := { new_lac with lac_entname := strncpy name }]> (w_lacs w) }).
    assert (alloc_lac { new_lac with lac_entname := strncpy name } w = Ret (Some (w_fresh w)) w1) as Ha.
    { unfold alloc_lac, Mmalloc, mbind, M_bind, ask. by rewrite Hm. }
    pose proof (lac_with_meaning resolve (map co_option os) _ l w1 Hl) as Hopt. rewrite length_map in Hopt.
    rewrite (bind_eq _ _ _ 1 { w1 with w_laclist := w_fresh w :: w_laclist w; w_lacs := <[w_fresh w := l]> (w_lacs w);
      w_clk := (S (w_clk w) + length os)%nat; w_out := w_out w ++ [Ores (str "00 OK" ++ [10])] }); [done|].
    unfold add_lac. rewrite (bind_eq _ _ _ _ _ Hfind), (bind_eq _ _ _ _ _ Ha).
    apply wp_run. wstep. unfold on_lac. wstep.
    apply wp_get_lacp with (l := { new_lac with lac_entname := strncpy name }); [apply lookup_insert_eq|].
    wstep. eapply wp_eq; [exact Hopt|]. cbn [fst snd].
    wstep. eapply wp_eq; [unfold mod_lac; cbn; rewrite lookup_insert_eq, insert_insert_eq; reflexivity|].
    wstep. cbn [truthy negb Z.eqb]. wstep. wstep. wstep. apply wp_get_lacp with (l := l); [apply lookup_insert_eq|].
    rewrite Hauto. cbn [truthy negb Z.eqb]. unfold write_res, when. by wsteps.
Qed.
Definition office_options : list copt :=
  [Copt [] (str "lns") (str "10.0.0.1"); Copt [str "redial"] (str "timeout") (str "15")].
Lemma office_options_ok : Forall copt_ok office_options.
Proof.
  repeat (apply Forall_cons_2; [split; [repeat constructor; by repeat constructor|by repeat constructor|discriminate|
    vm_compute; repeat split; repeat (constructor; [intuition discriminate|]); try constructor; discriminate]|]).
  apply Forall_nil_2.
Qed.
Definition result_file : list Z := str "/var/run/xl2tpd/xl2tpd-control-77.out".
Definition office : lac :=
  { new_lac with lac_entname := str "office"; lac_lns := [(str "10.0.0.1", 1701)]; lac_rtimeout := 15 }.
Definition with_office : world :=
  { zero_world with w_laclist := [w_fresh zero_world]; w_lacs := {[w_fresh zero_world := office]}; w_fresh := S (w_fresh zero_world) }.
Lemma client_adds_lac_witness :
  match main result_file (map str ["add-lac"; "office"; "lns=10.0.0.1"; "redial"; "timeout=15"]%string) with
  | Send None message =>
      control_request dotted (λ _, []) (λ _, true) (Request message (0 :: [])) false zero_world =
        Ret true { with_office with w_clk := (w_clk zero_world + 3)%nat; w_out := [Ores (str "00 OK" ++ [10])] } ∧
      control_request dotted (λ _, []) (λ _, true) (Request message (0 :: [])) false with_office = Ret true with_office
  | _ => False
  end.
Proof.
  change (map str ["add-lac"; "office"; "lns=10.0.0.1"; "redial"; "timeout=15"]%string)
    with (str "add-lac" :: str "office" :: concat (map co_args office_options)).
  destruct (main result_file (str "add-lac" :: str "office" :: concat (map co_args office_options)))
    as [?|[?|] message|] eqn:E; try (exfalso; revert E; vm_compute; discriminate).
  split.
  - refine (proj2 (client_adds_lac dotted (λ _, []) (λ _, true) result_file (str "office") office_options message [] false zero_world
      office _ eq_refl _ office_options_ok _ E _ _ _ _) _); try (split_and!; [discriminate|by repeat constructor..]).
    + discriminate.
    + constructor.
    + vm_compute. by eexists.
    + vm_compute. reflexivity.
    + reflexivity.
    + by intros ?%Exists_nil.
  - refine (proj1 (client_adds_lac dotted (λ _, []) (λ _, true) result_file (str "office") office_options message [] false with_office
      office _ eq_refl _ office_options_ok _ E _ _ _ _) _); try (split_and!; [discriminate|by repeat constructor..]).
    + discriminate.
    + apply Forall_singleton. exists office. by split.
    + vm_compute. by eexists.
    + vm_compute. reflexivity.
    + reflexivity.
    + constructor. exists office. by split.
Defined.

End Client.
