(* ===== verification/Main.v ===== *)
(** * The program ([init] and [main] in src/xl2tpd.c, [network_thread] in
    src/network.c)

    [init] parses the command line, reads the configuration, opens the server
    socket, goes into the background, writes the pid file, opens the control
    pipe and dials the LACs that ask for it.  [network_thread] then repeats one
    round: signals, the sweep for calls to close, the timers, [select], the
    control pipe, the sockets and the data from pppd.  What the system delivers
    in a round is its input. *)

From S2P Require Import Prelude.
From S2P Require Import Scheduler.
From S2P Require Import Buffer.
From S2P Require Import AvpSend.
From S2P Require Import State.
From S2P Require Import Ppp.
From S2P Require Import AddrPool.
From S2P Require Import Auth.
From S2P Require Import Config.
From S2P Require Import Logic.
From S2P Require Import Calls.
From S2P Require Import Pppd.
From S2P Require Import Finish.
From S2P Require Import Packet.
From S2P Require Import Status.
From S2P Require Import Startup.
From S2P Require Import Control.

Module Main.
Import Scheduler Buffer AvpSend State Ppp AddrPool Auth Config Logic Calls Pppd Finish Packet Status Startup Control.
Open Scope Z_scope.

(** The functions of the C library the daemon relies on: [strerror],
    [gethostbyname] for the options, how addresses are printed, and whether
    [fopen] of a result file succeeds. *)
Record host := Host {
  h_strerror : Z → list Z; h_resolve : list Z → option Z; h_fmt_p : option nat → list Z; h_fopen : list Z → bool }.

(** ** Start-up *)

(** What [init] finds: the environment, the name of the host, the contents of
    the files that can be opened, what the stack array of [set_range] holds,
    and the command line. *)
Record inputs := Inputs {
  i_env : env; i_hostname : list Z; i_files : list Z → option (list Z); i_stack : nat → list Z;
  i_argv : list (list Z) }.

(** The state before [main]: everything is zero. *)
Definition blank_world (i : inputs) : world :=
  mkWorld (i_env i) 0 1 ∅ ∅ ∅ ∅ None 0 [] None None [] (mkGlobal 0 0 [] 0 0 0 0 0 0 0 0 0 0 0 [] [] [] 0) 0 0 1
    (i_hostname i) [] init_scheduler init_addr None [] [] 0 0 [].

(** [gconfig] after [init_args] *)
Definition args_global (a : cmdline) : global :=
  mkGlobal 0 0 (a_authfile a) 0 0 0 0 0 0 0 0 0 0 0 (a_controltos a) (a_controlfile a) (a_pidfile a) (a_daemon a).

Definition read_config (h : host) (i : inputs) (a : cmdline) : option (Z * config) :=
  init_config (h_resolve h) (i_stack i) (i_files i (a_configfile a)) (i_files i (a_altconfigfile a)) (a_altauthfile a)
    (mkConfig (args_global a) 0 [] None [] None).

(** The objects [init_config] made, at the addresses from 1 on. *)
Definition all_lns (cf : config) : list lns := cf_lnslist cf ++ option_list (cf_deflns cf).
Definition all_lac (cf : config) : list lac := cf_laclist cf ++ option_list (cf_deflac cf).
Definition load_config (i : inputs) (cf : config) (w : world) : world :=
  let nlns := length (cf_lnslist cf) in
  let nlac := length (cf_laclist cf) in
  { w with w_fresh := S (length (all_lns cf) + length (all_lac cf));
           w_lnss := map_seq 1 (all_lns cf); w_lacs := map_seq 1 (all_lac cf);
           w_lnslist := seq 1 nlns; w_deflns := (λ _, S nlns) <$> cf_deflns cf;
           w_laclist := seq 1 nlac; w_deflac := (λ _, S nlac) <$> cf_deflac cf;
           w_gconfig := cf_global cf; w_secrets := i_files i (cstr (g_authfile (cf_global cf))) }.

Fixpoint autodial_loop (l : list nat) : M unit :=
  match l with
  | [] => mret tt
  | lp :: l =>
      c ← get_lacp lp;
      (when (truthy (lac_autodial c))
         (mod_lac lp (λ c, { c with lac_active := -1 });;
          upd (λ w, { w with w_switch_io := 1 });;
          dial lp));;
      autodial_loop l
  end.

(** [init] after the configuration was read *)
Definition init_rest : M outcome :=
  r ← sys Suname;
  if r <? 0 then mret (Exit 1)
  else
    r ← init_network;
    if truthy r then mret (Exit 1)
    else
      background;;;
      (lacs ← gets w_laclist;
       autodial_loop lacs;;
       mret Go).
Definition init (h : host) (i : inputs) : M outcome :=
  match init_args (i_argv i) with
  | Quit code => mret (Exit code)
  | Run a =>
      cf ← need (read_config h i a);
      if truthy cf.1 then mret (Exit 1)
      else upd (load_config i cf.2);; init_rest
  end.

(** ** One round of the main loop *)

(** The signals that came in; [sg_chld] has the processes [waitpid] reports. *)
Record signals := Signals { sg_term : bool; sg_int : bool; sg_chld : option (list Z); sg_usr1 : bool; sg_hup : bool }.
Definition SIGINT : Z := 2.
Definition process_signal (s : signals) : M outcome :=
  if sg_term s then death_handler SIGTERM;; mret (Exit 1)
  else if sg_int s then death_handler SIGINT;; mret (Exit 1)
  else
    match sg_chld s with Some pids => child_handler pids | None => mret tt end;;
    when (sg_usr1 s) show_status;;
    mret Go.

(** The set of descriptors to watch: [FD_SET] takes 0 to [FD_SETSIZE - 1]. *)
Definition FD_SETSIZE : Z := 1024.
Definition watch : M (list Z) :=
  fds ← build_fdset;
  server ← gets w_server_socket;
  control ← gets w_control_fd;
  let fds := fds ++ [server; control] in
  if forallb (λ fd, (0 <=? fd) && (fd <? FD_SETSIZE)) fds then mret fds else ub.
(** [FD_ISSET] *)
Definition ready (fds : list Z) (fd : Z) : M bool :=
  if (fd <? 0) || (FD_SETSIZE <=? fd) then ub else mret (existsb (Z.eqb fd) fds).

(** What [recvmsg] answers: a datagram, or an error with [errno]. *)
Inductive recv := Rdata (d : datagram) | Rerror (errno : Z).
Definition ECONNREFUSED : Z := 111.
Definition EBADF : Z := 9.

(** One socket: that of tunnel [st], or the server's. *)
Definition set_socket (st : option nat) (fd : Z) : M unit :=
  match st with
  | Some tp => mod_t tp (λ t, { t with t_udp_fd := fd })
  | None => upd (λ w, { w with w_server_socket := fd })
  end.
Definition recv_error (st : option nat) (fd errno : Z) : M unit :=
  when (errno =? ECONNREFUSED) (sys_ (Sclose fd));;
  when ((errno =? ECONNREFUSED) || (errno =? EBADF)) (set_socket st (-1)).
Definition from_socket (fds : list Z) (st : option nat) (fd : Z) (rs : list recv) (buf : buffer)
    : M (list recv * buffer) :=
  b ← ready fds fd;
  if (b : bool) then
    match rs with
    | [] => nofuel
    | Rerror errno :: rs => recv_error st fd errno;; mret (rs, buf)
    | Rdata d :: rs => buf ← receive buf d; mret (rs, buf)
    end
  else mret (rs, buf).
(** [while (st || !server_socket_processed)]: the sockets of the tunnels, then
    the server's. *)
Fixpoint sockets (fuel : nat) (fds : list Z) (st : option nat) (rs : list recv) (buf : buffer) : M buffer :=
  match fuel with
  | O => nofuel
  | S fuel =>
      match st with
      | None =>
          server ← gets w_server_socket;
          r ← from_socket fds None server rs buf;
          mret r.2
      | Some tp =>
          t ← get_t tp;
          if t_udp_fd t =? -1 then sockets fuel fds (t_next t) rs buf
          else
            r ← from_socket fds st (t_udp_fd t) rs buf;
            t ← get_t tp;
            sockets fuel fds (t_next t) r.1 r.2
      end
  end.

Section Round.
Context (h : host).

(** The data from pppd: what the reads of a call's terminal deliver. *)
Fixpoint ppp_calls (fuel rfuel : nat) (fds : list Z) (script : nat → list rd) (tp : nat) (sc : option nat) : M unit :=
  match fuel with
  | O => nofuel
  | S fuel =>
      match sc with
      | None => mret tt
      | Some cp =>
          c ← get_c cp;
          b ← (if c_fd c <? 0 then mret false else ready fds (c_fd c));
          when b (ppp_loop (h_strerror h) rfuel (script cp) tp cp);;
          c ← get_c cp;
          ppp_calls fuel rfuel fds script tp (c_next c)
      end
  end.
Fixpoint ppp_tunnels (fuel rfuel : nat) (fds : list Z) (script : nat → list rd) (st : option nat) : M unit :=
  match fuel with
  | O => nofuel
  | S fuel =>
      match st with
      | None => mret tt
      | Some tp =>
          t ← get_t tp;
          cfuel ← call_fuel;
          ppp_calls cfuel rfuel fds script tp (t_call_head t);;
          t ← get_t tp;
          ppp_tunnels fuel rfuel fds script (t_next t)
      end
  end.

(** What [select] answers: the descriptors that are ready, or a time-out, or an
    error.  With [debug network] a time-out is logged with the number of the
    first tunnel. *)
Inductive selected := Ready (fds : list Z) | Timeout | Failed.
Definition select_timeout : M unit :=
  g ← gets w_gconfig;
  when (truthy (g_debug_network g)) (head ← gets w_head; tp ← need head; get_t tp;; mret tt).

(** What a round is given: the signals, the number of steps its loops may take,
    the answer of [select], the messages in the control pipe, the answers of
    [recvmsg] and the data of the terminals. *)
Record input := Input {
  in_signals : signals; in_fuel : nat; in_select : selected; in_control : list request;
  in_recv : list recv; in_ppp : nat → list rd }.

Definition round (i : input) (buf : buffer) : M (outcome * buffer) :=
  o ← process_signal (in_signals i);
  match o with
  | Exit code => mret (Exit code, buf)
  | Go =>
      watch;;
      Mprocess_schedule (in_fuel i);;
      match in_select i with
      | Timeout => select_timeout;; mret (Go, buf)
      | Failed => mret (Go, buf)
      | Ready rfds =>
          control ← gets w_control_fd;
          b ← ready rfds control;
          o ← (if (b : bool) then do_control (h_resolve h) (h_fmt_p h) (h_fopen h) (in_control i) else mret Go);
          match o with
          | Exit code => mret (Exit code, buf)
          | Go =>
              head ← gets w_head;
              buf ← sockets (in_fuel i) rfds head (in_recv i) buf;
              head ← gets w_head;
              ppp_tunnels (in_fuel i) (in_fuel i) rfds (in_ppp i) head;;
              mret (Go, buf)
          end
      end
  end.

(** Rounds until the program ends. *)
Fixpoint rounds (ins : list input) (buf : buffer) : M (outcome * buffer) :=
  match ins with
  | [] => mret (Go, buf)
  | i :: ins => r ← round i buf; match r.1 with Go => rounds ins r.2 | Exit _ => mret r end
  end.
Definition network_thread (ins : list input) : M (outcome * buffer) := buf ← Mnew_buf; rounds ins buf.

(** [main] as far as the inputs go. *)
Definition main (i : inputs) (ins : list input) : M outcome :=
  init h i;;;
  (upd (λ w, { w with w_dial_no_tmp := [] });; r ← network_thread ins; mret r.1).
End Round.

End Main.
