(* ===== verification/System.v ===== *)
(** * Properties of the whole program

    What the main loop does with the daemon's state (a datagram, data from
    pppd, the timers, the sweep for calls to close, the signals, a command, an
    error of a socket) keeps the invariant of Invariant.v, so that it holds in
    every state a run of [main] ends in: [main_ok].  The part of the invariant
    about the addresses of the calls ([sm = true]) asks for a configuration and
    commands that give no LNS a range of local addresses; the rest holds for
    every configuration and every command. *)

From S2P Require Import Prelude.
From S2P Require Import Scheduler.
From S2P Require Import Buffer.
From S2P Require Import AvpSend.
From S2P Require Import State.
From S2P Require Import Ppp.
From S2P Require Import AddrPool.
From S2P Require Import Auth.
From S2P Require Import Config.
From S2P Require Import Logic.
From S2P Require Import Calls.
From S2P Require Import Messages.
From S2P Require Import Finish.
From S2P Require Import Closing.
From S2P Require Import Packet.
From S2P Require Import Heap.
From S2P Require Import Invariant.
From S2P Require Import Termination.
From S2P Require Import Status.
From S2P Require Import Startup.
From S2P Require Import Control.
From S2P Require Import Main.

Module System.
Import Scheduler Buffer AvpSend State Ppp AddrPool Auth Config Logic Calls Messages Closing Finish Packet Heap Invariant Termination Status
  Startup Control Main.
Open Scope Z_scope.

(** ** The main loop *)

Section Loop.
Context (h : host).

(** What the invariant with the addresses of the calls needs of a command: one
    that adds or changes an LNS gives none a range of local addresses. *)
Definition gives_no_range (r : request) : Prop :=
  request_type r = Some 122 → ∀ found w, no_local_range w →
  wlp (control_request (h_resolve h) (h_fmt_p h) (h_fopen h) r found) (λ _, no_local_range) w.
Definition no_range_input (i : input) : Prop := Forall gives_no_range (in_control i).

Section Rounds.
Context {sm : bool}.

Lemma wok_recv_error st fd errno : pres (world_ok sm None) (recv_error st fd errno).
Proof. unfold recv_error, set_socket. pres. Qed.
Lemma wok_reopen : pres (world_ok sm None) reopen_control.
Proof. unfold reopen_control. pres. Qed.
#[local] Hint Resolve wok_recv_error wok_reopen : pres.
Lemma wok_signal s : pres (world_ok sm None) (process_signal s).
Proof. unfold process_signal. pres. Qed.
Lemma wok_watch : pres (world_ok sm None) watch.
Proof. unfold watch. pres. Qed.
Lemma wok_ready fds fd : pres (world_ok sm None) (ready fds fd).
Proof. unfold ready. pres. Qed.
Lemma wok_control_loop rs : ∀ found, (sm = true → Forall gives_no_range rs) →
  pres (world_ok sm None) (control_loop (h_resolve h) (h_fmt_p h) (h_fopen h) rs found).
Proof.
  induction rs as [|r rs IH]; intros found Hr; cbn [control_loop]; [pres|].
  apply pres_bind; [|intros found'; apply IH; intros Hsm; by apply Forall_cons in Hr as [_ ?]].
  intros w a w' Hw E. eapply wok_control_request; [exact E| |done]. intros Hsm Ht.
  apply Forall_cons in Hr as [Hk _]; [|done]. eapply (Hk Ht); [|exact E]. exact (wk_ranges _ _ _ Hw Hsm).
Qed.
Lemma wok_do_control rs : (sm = true → Forall gives_no_range rs) →
  pres (world_ok sm None) (do_control (h_resolve h) (h_fmt_p h) (h_fopen h) rs).
Proof. intros Hr. unfold do_control. apply pres_bind; [by apply wok_control_loop|]. pres. Qed.
#[local] Hint Resolve wok_signal wok_watch wok_ready : pres.
Lemma wok_ppp_calls fuel rfuel fds script tp : ∀ sc, pres (world_ok sm None) (ppp_calls h fuel rfuel fds script tp sc).
Proof. induction fuel as [|fuel IH]; intros sc; cbn [ppp_calls]; pres. Qed.
#[local] Hint Resolve wok_ppp_calls : pres.
Lemma wok_ppp_tunnels fuel rfuel fds script : ∀ st, pres (world_ok sm None) (ppp_tunnels h fuel rfuel fds script st).
Proof. induction fuel as [|fuel IH]; intros st; cbn [ppp_tunnels]; unfold call_fuel; pres. Qed.
Lemma wok_from_socket b fds st fd rs : pres (world_ok sm None) (from_socket fds st fd rs b).
Proof. unfold from_socket. pres. Qed.
#[local] Hint Resolve wok_ppp_tunnels wok_from_socket : pres.
Lemma wok_sockets fds : ∀ fuel st rs b, pres (world_ok sm None) (sockets fuel fds st rs b).
Proof. induction fuel as [|fuel IH]; intros st rs b; cbn [sockets]; pres. Qed.
#[local] Hint Resolve wok_sockets : pres.
Lemma wok_round i b : (sm = true → no_range_input i) → pres (world_ok sm None) (round h i b).
Proof. intros Hi. pose proof (wok_do_control (in_control i) Hi). unfold round, select_timeout. pres. Qed.
Lemma wok_rounds ins : (sm = true → Forall no_range_input ins) → ∀ b, pres (world_ok sm None) (rounds h ins b).
Proof.
  induction ins as [|i ins IH]; intros Hi b; cbn [rounds]; [pres|].
  pose proof (wok_round i b (λ Hsm, Forall_inv (Hi Hsm))) as Hround. specialize (IH (λ Hsm, Forall_inv_tail (Hi Hsm))). pres.
Qed.
End Rounds.

(** ** Start-up *)

(** [gettimeofday] gives normalised times. *)
Definition clock_ok (i : inputs) : Prop := ∀ k, tv_clock (e_now (i_env i) k).
(** No LNS of the configuration assigns local addresses from a range. *)
Definition no_range_configured (i : inputs) : Prop :=
  ∀ a cf, init_args (i_argv i) = Run a → read_config h i a = Some (0, cf) → Forall (λ n, lns_localrange n = []) (all_lns cf).

Section Start.
Context {sm : bool} (i : inputs) (Hclock : clock_ok i) (Hranges : sm = true → no_range_configured i).

Lemma blank_ok : world_ok sm None (blank_world i).
Proof.
  split; cbn; try done.
  - split; [constructor|constructor|apply NoDup_nil_2].
  - apply init_addr_ok.
  - apply heap_empty.
Qed.
Lemma load_ok a cf : init_args (i_argv i) = Run a → read_config h i a = Some (0, cf) →
  world_ok sm None (load_config i cf (blank_world i)).
Proof.
  intros Ha Hc. destruct blank_ok as [? ? ? ? ? ? ? ? ?]. split; cbn; try done; [|apply heap_empty].
  intros Hsm p l [_ Hp]%lookup_map_seq_Some. exact (Forall_lookup_1 _ _ _ _ (Hranges Hsm a cf Ha Hc) Hp).
Qed.
Lemma wok_autodial_loop l : pres (world_ok sm None) (autodial_loop l).
Proof. induction l as [|lp l IH]; cbn [autodial_loop]; [pres|]. unfold dial. pres. Qed.
Lemma wok_init_rest : pres (world_ok sm None) init_rest.
Proof. unfold init_rest, go. pose proof wok_autodial_loop as Hd. pres. Qed.
Lemma init_ok o w : init h i (blank_world i) = Ret o w → world_ok sm None w.
Proof.
  pose proof blank_ok as Hb. unfold init.
  destruct (init_args (i_argv i)) as [a|code] eqn:Ea; [|by intros [= _ <-]].
  destruct (read_config h i a) as [[z cf]|] eqn:E; [|done]. cbn [need].
  rewrite (bind_eq _ _ _ (z, cf) (blank_world i)) by done. cbn [fst snd]. destruct (truthy z) eqn:Ez; [by intros [= _ <-]|].
  assert (z = 0) as -> by (unfold truthy in Ez; destruct (Z.eqb_spec z 0); done).
  rewrite (bind_eq _ _ _ tt (load_config i cf (blank_world i))) by done.
  apply wok_init_rest. by eapply load_ok.
Qed.

(** The invariant holds wherever a run of the program ends. *)
Lemma main_ok ins o w : (sm = true → Forall no_range_input ins) → main h i ins (blank_world i) = Ret o w → world_ok sm None w.
Proof.
  intros Hins. unfold main, go, mbind at 1, M_bind. destruct (init h i (blank_world i)) as [o0 w0| |] eqn:E0; try done.
  pose proof (init_ok o0 w0 E0) as Hw0. destruct o0 as [code|]; [by intros [= _ <-]|]. revert Hw0.
  match goal with |- _ → ?m w0 = _ → _ => assert (pres (world_ok sm None) m) as Hm; [|apply Hm] end.
  pose proof (wok_rounds ins Hins). unfold network_thread, Mnew_buf. pres.
Qed.
End Start.
Lemma main_any i ins o w : clock_ok i → main h i ins (blank_world i) = Ret o w → world_ok false None w.
Proof. intros Hi. by apply main_ok. Qed.
End Loop.

(** ** Runs *)

(** A peer's control message, and the round that receives it on the server's
    socket. *)
Definition ctl (tid cid ns nr : Z) (l : list avp) : list Z :=
  concat (map be16 [0xC802; 12 + blen (enc_avps l); tid; cid; ns; nr]) ++ enc_avps l.
Definition quiet : signals := Signals false false None false false.
Definition from_peer (tid cid ns nr : Z) (l : list avp) : input :=
  Input quiet 20 (Ready [6]) []
    [Rdata (Datagram (ctl tid cid ns nr l) (Sockaddr 0x0200007f 0xa506) 0x0100007f 0 0)] (λ _, []).

(** A host that knows dotted addresses, and a configuration with three
    addresses for the peers. *)
Definition demo_host : host := Host (λ _, []) dotted (λ _, []) (λ _, true).
Definition conf_text : list Z :=
  str "[global]" ++ [10] ++ str "force userspace = yes" ++ [10] ++
  str "[lns default]" ++ [10] ++ str "ip range = 10.0.0.1 - 3" ++ [10] ++ str "assign ip = yes" ++ [10].
Definition demo_inputs (text : list Z) : inputs :=
  Inputs zero_env [104] (λ name, if bool_decide (name = str "/etc/xl2tpd/xl2tpd.conf") then Some text else None)
    clean_stack [str "-D"].
Definition demo_run (text : list Z) (ins : list input) : res outcome :=
  main demo_host (demo_inputs text) ins (blank_world (demo_inputs text)).
Definition final (text : list Z) (ins : list input) : world :=
  match demo_run text ins with Ret _ w => w | _ => zero_world end.
Definition call_at (w : world) (p : nat) : call := default zero_call (w_calls w !! p).

(** A peer sets up a tunnel (our number is 5911) and asks for two calls (our
    numbers are 8481 and 10023). *)
Definition two_calls : list input :=
  [from_peer 0 0 0 0 [MessageType SCCRQ; ProtocolVersion; FramingCaps 3; HostName [108; 97; 99]; AssignedTunnel 5];
   from_peer 5911 0 1 1 [MessageType SCCCN];
   from_peer 5911 0 2 1 [MessageType ICRQ; AssignedCall 6; CallSerial 1];
   from_peer 5911 0 3 2 [MessageType ICRQ; AssignedCall 7; CallSerial 2]].
Lemma two_calls_run :
  main demo_host (demo_inputs conf_text) two_calls (blank_world (demo_inputs conf_text)) = Ret Go (final conf_text two_calls).
Proof.
  unfold final, demo_run.
  destruct (main demo_host (demo_inputs conf_text) two_calls (blank_world (demo_inputs conf_text))) as [[code|] w| |] eqn:E; [|done|..]; exfalso; revert E; vm_compute; discriminate.
Qed.
Lemma two_calls_ok : Forall (no_range_input demo_host) two_calls.
Proof. repeat (apply Forall_cons_2; [apply Forall_nil_2|]). apply Forall_nil_2. Qed.
Lemma demo_clock text : clock_ok (demo_inputs text).
Proof. intros k. by split. Qed.
Lemma demo_no_range : no_range_configured demo_host (demo_inputs conf_text).
Proof.
  intros a cf Ha.
  assert (match init_args [str "-D"] with
          | Run a => match read_config demo_host (demo_inputs conf_text) a with
                     | Some (0, cf) => map lns_localrange (all_lns cf) = [[]] | _ => False end
          | _ => False end) as H by (vm_compute; reflexivity).
  change (i_argv (demo_inputs conf_text)) with [str "-D"] in Ha. rewrite Ha in H.
  intros E. rewrite E in H. destruct (all_lns cf) as [|n [|? ?]]; [done| |done]. cbn in H. by repeat constructor; simplify_eq.
Qed.

(** ** Properties *)

(** C1: no two calls ever have the same peer address.  Whenever the program,
    run from its start on any command line, signals, timers, packets, PPP data
    and commands, has completed a number of rounds of its main loop, two calls
    that both have an address from the pool have different ones, and the
    addresses of the calls are reserved in the table, as long as neither the
    configuration nor a command gives an LNS a range of local addresses (with
    one, see [local_address_shared]) and the clock gives normalised times. *)
Theorem no_shared_address (h : host) (i : inputs) (ins : list input) (o : outcome) (w : world) (p q : nat) (c d : call) :
  clock_ok i → no_range_configured h i → Forall (no_range_input h) ins → main h i ins (blank_world i) = Ret o w →
  w_calls w !! p = Some c → w_calls w !! q = Some d → p ≠ q → c_addr c ≠ 0 → c_addr d ≠ 0 →
  c_addr c ≠ c_addr d ∧ in_use (w_uaddr w) (ntohl (c_addr c)) ∧ in_use (w_uaddr w) (ntohl (c_addr d)).
Proof.
  intros Hk Hi Hins Hm Hp Hq Hpq Hc Hd.
  pose proof (main_ok h (sm := true) i Hk (λ _, Hi) ins o w (λ _, Hins) Hm) as Hok. split_and!.
  - intros E. apply (wk_apart _ _ _ Hok eq_refl p q c d); try done. by rewrite E.
  - by eapply (wk_held _ _ _ Hok).
  - by eapply (wk_held _ _ _ Hok).
Qed.

Example no_shared_address_witness :
  c_addr (call_at (final conf_text two_calls) 7) = htonl 0x0a000001 ∧
  c_addr (call_at (final conf_text two_calls) 7) ≠ c_addr (call_at (final conf_text two_calls) 9).
Proof.
  split; [vm_compute; reflexivity|].
  refine (proj1 (no_shared_address demo_host (demo_inputs conf_text) two_calls Go (final conf_text two_calls) 7 9
    (call_at (final conf_text two_calls) 7) (call_at (final conf_text two_calls) 9)
    (demo_clock _) demo_no_range two_calls_ok two_calls_run _ _ _ _ _)).
  - vm_compute. reflexivity.
  - vm_compute. reflexivity.
  - discriminate.
  - vm_compute. discriminate.
  - vm_compute. discriminate.
Defined.

(** C18: after any number of rounds, with any configuration, packets and
    commands, the timers are in order of time and distinct, and the sequence
    numbers of every control connection are 16-bit numbers (the clock gives
    normalised times). *)
Theorem timers_and_sequence_numbers (h : host) (i : inputs) (ins : list input) (o : outcome) (w : world) :
  clock_ok i → main h i ins (blank_world i) = Ret o w →
  queue_ok (w_events w) ∧ Forall (λ e, (se_ptr e < w_fresh w)%nat) (w_events w) ∧
  ∀ p t, w_tunnels w !! p = Some t → is_u16 (t_control_seq_num t) ∧ is_u16 (t_control_rec_seq_num t).
Proof.
  intros Hi Hm. pose proof (main_any h i ins o w Hi Hm) as Hok.
  split; [apply (wk_queue _ _ _ Hok)|]. split; [apply (wk_fresh _ _ _ Hok)|apply (wk_seq _ _ _ Hok)].
Qed.

Example timers_and_sequence_numbers_witness :
  length (w_events (final conf_text two_calls)) = 4%nat ∧ queue_ok (w_events (final conf_text two_calls)).
Proof.
  split; [vm_compute; reflexivity|].
  exact (proj1 (timers_and_sequence_numbers demo_host (demo_inputs conf_text) two_calls Go (final conf_text two_calls)
    (demo_clock _) two_calls_run)).
Defined.

(** C11: the linked lists stay well formed.  After any number of rounds, with
    any configuration, packets and commands (and a clock that gives normalised
    times), the list of tunnels and the list of calls of every tunnel end, without a cycle and
    without a freed node; a call is on the list of its own tunnel only, so that
    the lists of two tunnels have no call in common; and the control call of a
    tunnel belongs to it. *)
Theorem lists_well_formed (h : host) (i : inputs) (ins : list input) (o : outcome) (w : world) :
  clock_ok i → main h i ins (blank_world i) = Ret o w →
  lists_ok w (tunnel_list w) (call_list w) ∧ NoDup (tunnel_list w) ∧ (∀ p, NoDup (call_list w p)) ∧
  (∀ p q, q ∈ call_list w p → ∃ c, w_calls w !! q = Some c ∧ c_container c = Some p) ∧
  (∀ p p', p ≠ p' → call_list w p ## call_list w p') ∧ selfs_ok w.
Proof.
  intros Hi Hm. pose proof (wk_heap _ _ _ (main_any h i ins o w Hi Hm)) as Hok.
  pose proof (call_list_container w Hok) as Hc. split_and!.
  - by apply heap_lists_ok.
  - eapply path_nodup. by apply tunnel_list_path.
  - by apply call_list_nodup.
  - exact Hc.
  - intros p p' Hp q Hq Hq'. destruct (Hc p q Hq) as (c & ? & ?). destruct (Hc p' q Hq') as (c' & ? & ?). congruence.
  - exact (hp_self _ _ _ _ Hok).
Qed.

Example lists_well_formed_witness :
  call_list (final conf_text two_calls) 3 = [9; 7]%nat ∧
  lists_ok (final conf_text two_calls) (tunnel_list (final conf_text two_calls)) (call_list (final conf_text two_calls)).
Proof.
  split; [vm_compute; reflexivity|].
  exact (proj1 (lists_well_formed demo_host (demo_inputs conf_text) two_calls Go (final conf_text two_calls)
    (demo_clock _) two_calls_run)).
Defined.

(** C12: whatever happens next is handled: from any state a run of the program
    can be in, the handling of a datagram, the timers that are due, the sweep that
    closes calls and tunnels, the signal handlers, closing a call or a tunnel and
    the hang-up commands come to an end; every loop over the lists ends even though
    calls and tunnels are freed during the walk, and the mutual recursion of
    [call_close] and [control_xmit] and of [control_finish] and
    [magic_lac_dial] is bounded; the timers take one turn for each entry that is
    due by a deadline, when the clock passes neither it nor a second meanwhile.
    The hypotheses: the clock gives normalised times, no address range ends at
    255.255.255.255 ([get_addr] would not end) and a tty takes a frame or
    fails. *)
Theorem handling_terminates (h : host) (i : inputs) (ins : list input) (o : outcome) (w : world) :
  clock_ok i → main h i ins (blank_world i) = Ret o w → ranges_fit w → tty_ends (w_env w) →
  (∀ b d, receive b d w ≠ NoFuel) ∧
  (∀ deadline fuel, clock_within (w_env w) deadline → (due deadline (w_events w) < fuel)%nat →
     Mprocess_schedule fuel w ≠ NoFuel) ∧
  build_fdset w ≠ NoFuel ∧
  (∀ pids, child_handler pids w ≠ NoFuel) ∧ (∀ sig, death_handler sig w ≠ NoFuel) ∧
  (∀ c, Mcall_close c w ≠ NoFuel) ∧ (∀ cid, lac_hangup cid w ≠ NoFuel) ∧ (∀ tid, lac_disconnect tid w ≠ NoFuel).
Proof.
  intros Hi Hm Hr Ht. pose proof (main_any h i ins o w Hi Hm) as Hok. split_and!.
  - intros b d. by apply receive_ends.
  - intros deadline fuel Hc Hf. by eapply process_schedule_ends.
  - by apply build_fdset_ends.
  - intros pids. by apply child_handler_ends.
  - intros sig. by apply death_handler_ends.
  - intros c. by apply Mcall_close_ends.
  - intros cid. by apply lac_hangup_ends.
  - intros tid. by apply lac_disconnect_ends.
Qed.

Lemma ranges_fit_check (w : world) :
  forallb (λ kv : nat * lns, forallb (λ r, ntohl (r_end r) <? 2 ^ 32 - 1) (lns_range kv.2 ++ lns_localrange kv.2))
    (map_to_list (w_lnss w)) = true →
  ranges_fit w.
Proof.
  intros H p l Hl. apply Forall_app, Forall_forall. intros r Hr. rewrite forallb_forall in H. specialize (H (p, l)).
  cbn [snd] in H. rewrite forallb_forall in H. apply Z.ltb_lt, H; [|by apply list_elem_of_In].
  by apply list_elem_of_In, elem_of_map_to_list.
Qed.
Lemma two_calls_ranges : ranges_fit (final conf_text two_calls).
Proof. apply ranges_fit_check. vm_compute. reflexivity. Qed.
Lemma two_calls_tty : tty_ends (w_env (final conf_text two_calls)).
Proof.
  assert (w_env (final conf_text two_calls) = zero_env) as -> by (vm_compute; reflexivity).
  intros k data Hd. cbn. destruct data as [|x data]; [done|]. rewrite drop_ge; [done|].
  unfold MAX_RECV_SIZE, blen in Hd. lia.
Qed.
Lemma two_calls_clock : clock_within (w_env (final conf_text two_calls)) (Tv 100 5).
Proof.
  assert (w_env (final conf_text two_calls) = zero_env) as -> by (vm_compute; reflexivity).
  split; [by split|]. intros k. by split.
Qed.
Example handling_terminates_witness :
  build_fdset (final conf_text two_calls) ≠ NoFuel ∧ Mprocess_schedule 20 (final conf_text two_calls) ≠ NoFuel ∧
  (∀ pids, child_handler pids (final conf_text two_calls) ≠ NoFuel).
Proof.
  destruct (handling_terminates demo_host (demo_inputs conf_text) two_calls Go (final conf_text two_calls)
    (demo_clock _) two_calls_run two_calls_ranges two_calls_tty) as (_ & Hp & Hs & Hc & _).
  refine (conj Hs (conj (Hp (Tv 100 5) 20%nat two_calls_clock _) Hc)).
  vm_compute. repeat constructor.
Defined.

(** C29: the timers.  From any state a run of the program can be in, a call of
    [process_schedule] that takes less than a second (the clock passes neither a
    deadline nor a second before it meanwhile) runs every timer that is due,
    whatever the jobs do to the queue: it needs at most one turn for each entry
    due by the deadline; unless a job faults, it returns with no entry of the
    queue due, and its result is exactly the time left until the first entry
    (none when the queue is empty). *)
Theorem timers_run (h : host) (i : inputs) (ins : list input) (o : outcome) (w : world) (deadline : timeval) (fuel : nat) :
  clock_ok i → main h i ins (blank_world i) = Ret o w →
  clock_within (w_env w) deadline → (due deadline (w_events w) < fuel)%nat →
  Mprocess_schedule fuel w = UB ∨
  ∃ tv w', Mprocess_schedule fuel w = Ret tv w' ∧
    let now := e_now (w_env w') (w_clk w') in
    match w_events w' with
    | [] => tv = None
    | p :: _ => Forall (λ e, is_due now e = false) (w_events w') ∧
        ∃ d, tv = Some d ∧ 0 < tv_us d ∧ tv_us d = tv_us (se_tv p) - tv_us now
    end.
Proof. intros Hi Hm Hc Hf. pose proof (main_any h i ins o w Hi Hm) as Hok. by eapply process_schedule_result. Qed.

(** Nothing is due yet: the first timer of the two calls is a second away. *)
Example timers_run_witness :
  ∃ d w', Mprocess_schedule 20 (final conf_text two_calls) = Ret (Some d) w' ∧ tv_us d = 1000000 ∧
    Forall (λ e, is_due (e_now (w_env w') (w_clk w')) e = false) (w_events w').
Proof.
  destruct (timers_run demo_host (demo_inputs conf_text) two_calls Go (final conf_text two_calls) (Tv 100 5) 20
    (demo_clock _) two_calls_run two_calls_clock) as [H|(tv & w' & E & H)].
  - vm_compute. repeat constructor.
  - exfalso. revert H. vm_compute. discriminate.
  - assert (match Mprocess_schedule 20 (final conf_text two_calls) with
            | Ret (Some d) w => tv_us d = 1000000 ∧ length (w_events w) = 4%nat | _ => False end) as Hv by (vm_compute; split; reflexivity).
    rewrite E in Hv. cbv zeta in H. destruct (w_events w') as [|p rest] eqn:Ew; [by destruct tv; destruct Hv|].
    destruct H as (Hall & d & -> & _). exists d, w'. split; [exact E|]. split; [apply Hv|]. rewrite Ew. exact Hall.
Defined.

(** ** Local addresses *)

(** The same daemon with two local addresses, and a peer that brings up two
    calls, ends the first, and brings up a third (our number is 16191). *)
Definition local_text : list Z := conf_text ++ str "local ip range = 10.0.1.1 - 2" ++ [10].
Definition iccn (cid ns nr : Z) : input := from_peer 5911 cid ns nr [MessageType ICCN; TxSpeed 1; FramingType 1].
Definition three_calls : list input :=
  two_calls ++
  [iccn 8481 4 3; iccn 10023 5 3;
   from_peer 5911 8481 6 3 [MessageType CDN; ResultCode 1 0 []; AssignedCall 6];
   from_peer 5911 0 7 3 [MessageType ICRQ; AssignedCall 8; CallSerial 3]; iccn 16191 8 4].

(** The addresses pppd was started with for a call, local:remote. *)
Definition pppd_addrs (w : world) (p : nat) : list (list Z) :=
  omap (λ o, match o with Opppd c argv _ _ => if Nat.eqb c p then argv !! 4%nat else None | _ => None end) (w_out w).

(** The run: the second call and the third, both up, got the same address. *)
Lemma three_calls_run :
  ∃ w, main demo_host (demo_inputs local_text) three_calls (blank_world (demo_inputs local_text)) = Ret Go w ∧
  is_Some (w_calls w !! 9%nat) ∧ is_Some (w_calls w !! 11%nat) ∧
  pppd_addrs w 9 = [str "10.0.1.2:10.0.0.2"] ∧ pppd_addrs w 11 = [str "10.0.1.2:10.0.0.1"].
Proof.
  exists (final local_text three_calls). split; [|split; [|split; [|split]]].
  - unfold final, demo_run.
    destruct (main demo_host (demo_inputs local_text) three_calls (blank_world (demo_inputs local_text))) as [[code|] w| |] eqn:E; [|done|..]; exfalso; revert E; vm_compute; discriminate.
  - eexists. vm_compute. reflexivity.
  - eexists. vm_compute. reflexivity.
  - vm_compute. reflexivity.
  - vm_compute. reflexivity.
Qed.

(** What [get_local_addr] does when it succeeds. *)
Lemma get_local_addr_gives tp t dp d lp l w :
  w_tunnels w !! tp = Some t → t_lns t = Some lp → w_lnss w !! lp = Some l → lns_localrange l ≠ [] →
  w_calls w !! dp = Some d → c_lns d = Some lp →
  wlp (get_local_addr tp dp) (λ r w1, r = 0 → w_calls w1 = w_calls w ∧ ∃ l1, w_lnss w1 !! lp = Some l1 ∧
    lns_localrange l1 = lns_localrange l ∧ in_use (w_uaddr w1) (ntohl (lns_localaddr l1))) w.
Proof.
  intros Ht Htl Hl Hr Hd Hdl. unfold get_local_addr. wlps. simplify_eq. rewrite bool_decide_eq_false_2 by done.
  unfold Mget_addr. wlps. destruct (get_addr _ _) as [x|]; [|apply wlp_nofuel]. wlps. simplify_eq.
  destruct (x =? 0) eqn:Ea.
  - wlp1. intros _ w1 _. wlp1. intros _ w2 _. by wlp1.
  - unfold Mreserve, Mmalloc. wlps. intros _. split; [done|]. eexists. split; [apply lookup_insert_eq|]. split; [done|].
    cbn. rewrite reserve_addr_use. by right.
Qed.

(** What follows [release_addrs] in [destroy_call] leaves the table alone, and
    the other calls stay. *)
Definition others (u : table) (dp : nat) (w : world) : Prop := w_uaddr w = u ∧ is_Some (w_calls w !! dp).
Lemma others_upd u dp f : (∀ w, w_uaddr (f w) = w_uaddr w ∧ w_calls (f w) = w_calls w) → pres (others u dp) (upd f).
Proof. intros Hf. apply pres_upd. intros w [H1 H2]. destruct (Hf w) as [E1 E2]. split; [by rewrite E1|by rewrite E2]. Qed.
Lemma others_mod_c u dp p f : pres (others u dp) (mod_c p f).
Proof.
  apply pres_wlp. intros w [H1 H2]. wlps. split; [done|]. cbn. destruct (decide (p = dp)) as [->|].
  - rewrite lookup_insert_eq. eauto.
  - by rewrite lookup_insert_ne.
Qed.
Lemma others_mod_t u dp p f : pres (others u dp) (mod_t p f).
Proof. apply pres_wlp. intros w [H1 H2]. by wlps. Qed.
Lemma others_forget u dp (o : option nat) f : pres (others u dp)
  (match o with None => mret tt | Some lp => mod_lac lp f;; redial lp end).
Proof.
  unfold redial, Mschedule. pres; try (by apply others_upd); intros w r w' Hw.
  all: unfold ask, alloc, mod_lac; try case_match; try done; by intros [= _ <-].
Qed.
Lemma others_remove u dp cp c : pres (others u dp) (remove_from_container cp c).
Proof.
  assert (∀ fuel p c next, pres (others u dp) (unlink_call fuel p c next)) as Hunlink.
  { induction fuel as [|fuel IH]; intros p c1 next; cbn [unlink_call]; pres; apply others_mod_c. }
  unfold remove_from_container, call_fuel. pres; first [apply others_mod_t|apply Hunlink].
Qed.
Lemma destroy_call_frees cp c lp l dp w :
  w_calls w !! cp = Some c → c_lns c = Some lp → w_lnss w !! lp = Some l → lns_localrange l ≠ [] →
  is_Some (w_calls w !! dp) → dp ≠ cp →
  wlp (destroy_call cp) (λ _ w2, is_Some (w_calls w2 !! dp) ∧ ¬ in_use (w_uaddr w2) (ntohl (lns_localaddr l))) w.
Proof.
  intros Hc Hcl Hl Hr Hd Hne. unfold destroy_call. wlp1. apply wlp_get_c. intros c0 Hc0. simplify_eq. wlp1.
  apply wlp_mono with (Q := λ _ w1, ∃ u, ¬ in_use u (ntohl (lns_localaddr l)) ∧ others u dp w1).
  { unfold release_call. wlp1. apply wlp_mono with (Q := λ _ w1, w_lnss w1 = w_lnss w ∧ is_Some (w_calls w1 !! dp)).
    { wlps. destruct (0 <? c_fd c); [|done]. wlps. split; [done|]. cbn. by rewrite lookup_insert_ne. }
    intros _ w1 [L1 D1]. wlp1. apply wlp_mono with (Q := λ _ w1, w_lnss w1 = w_lnss w ∧ is_Some (w_calls w1 !! dp)).
    { wlps. destruct (negb _); [|done]. unfold Mdeschedule. by wlps. }
    intros _ w2 [L2 D2]. wlp1. wlps.
    apply wlp_mono with (Q := λ _ w3, ∃ u, ¬ in_use u (ntohl (lns_localaddr l)) ∧ others u dp w3).
    { unfold release_addrs, Munreserve. rewrite Hcl. wlps.
      destruct (truthy _); wlps; match goal with H : _ !! lp = Some ?x |- _ => cbn in H; assert (x = l) as -> by congruence end;
        rewrite bool_decide_eq_false_2 by done; cbn [negb]; wlps; (eexists; split; [|by split]); cbn;
        rewrite unreserve_addr_use; by intros [_ ?]. }
    intros _ w3 (u & Hu & Ho). apply wlp_mono with (Q := λ _, others u dp); [|by eauto].
    apply wlp_pres, Ho. pres; [apply others_mod_c|by apply others_upd]. }
  intros _ w1 (u & Hu & Ho). wlp1. eapply wlp_mono; [apply (wlp_pres (others u dp)), Ho; apply others_remove|]. cbv beta. intros _ w2 Ho2. wlp1.
  eapply wlp_mono; [apply (wlp_pres (others u dp)), Ho2; apply others_forget|]. cbv beta. intros _ w3 [U3 D3]. wlps. cbn.
  split; [by rewrite lookup_delete_ne|]. by rewrite U3.
Qed.

(** C32: with a range of local addresses, the end of one call frees the local
    address of another.  The address is kept in the LNS, not in the call: a call
    [dp] is given a local address, which is reserved ([get_local_addr]); when any
    other call [cp] of the same LNS is destroyed, that address is not reserved
    any more while [dp] is still there, so the next call can get it too. *)
Theorem local_address_shared (w w1 w2 : world) (tp cp dp lp : nat) (t : tunnel) (c d : call) (l : lns) :
  w_tunnels w !! tp = Some t → t_lns t = Some lp → w_lnss w !! lp = Some l → lns_localrange l ≠ [] →
  w_calls w !! dp = Some d → c_lns d = Some lp → w_calls w !! cp = Some c → c_lns c = Some lp → dp ≠ cp →
  get_local_addr tp dp w = Ret 0 w1 → destroy_call cp w1 = Ret tt w2 →
  ∃ l1, w_lnss w1 !! lp = Some l1 ∧ in_use (w_uaddr w1) (ntohl (lns_localaddr l1)) ∧
    is_Some (w_calls w2 !! dp) ∧ ¬ in_use (w_uaddr w2) (ntohl (lns_localaddr l1)).
Proof.
  intros Ht Htl Hl Hr Hd Hdl Hc Hcl Hne E1 E2.
  destruct (get_local_addr_gives tp t dp d lp l w Ht Htl Hl Hr Hd Hdl 0 w1 E1 eq_refl) as (C1 & l1 & Hl1 & Hr1 & Hu1).
  exists l1. split; [done|]. split; [done|]. apply (destroy_call_frees cp c lp l1 dp w1) in E2; [done|by rewrite C1|done|done|congruence|rewrite C1; eauto|done].
Qed.

(** The state of the run after the calls were set up: the peer's second call
    gets its local address and then the first call ends. *)
Definition given (m : M Z) (w : world) : world := match m w with Ret _ w1 => w1 | _ => zero_world end.
Definition gone (m : M unit) (w : world) : world := match m w with Ret _ w1 => w1 | _ => zero_world end.
Example local_address_shared_witness :
  (∃ w, main demo_host (demo_inputs local_text) three_calls (blank_world (demo_inputs local_text)) = Ret Go w ∧
    is_Some (w_calls w !! 9%nat) ∧ is_Some (w_calls w !! 11%nat) ∧
    pppd_addrs w 9 = [str "10.0.1.2:10.0.0.2"] ∧ pppd_addrs w 11 = [str "10.0.1.2:10.0.0.1"]) ∧
  let w := final local_text two_calls in
  ∃ l1, w_lnss (given (get_local_addr 3 9) w) !! 1%nat = Some l1 ∧
    in_use (w_uaddr (given (get_local_addr 3 9) w)) (ntohl (lns_localaddr l1)) ∧
    is_Some (w_calls (gone (destroy_call 7) (given (get_local_addr 3 9) w)) !! 9%nat) ∧
    ¬ in_use (w_uaddr (gone (destroy_call 7) (given (get_local_addr 3 9) w))) (ntohl (lns_localaddr l1)).
Proof.
  split; [exact three_calls_run|]. cbv zeta.
  refine (local_address_shared (final local_text two_calls) _ _ 3 7 9 1
    (default zero_tunnel (w_tunnels (final local_text two_calls) !! 3%nat))
    (call_at (final local_text two_calls) 7) (call_at (final local_text two_calls) 9)
    (default zero_lns (w_lnss (final local_text two_calls) !! 1%nat)) _ _ _ _ _ _ _ _ _ _ _).
  all: vm_compute; first [reflexivity|discriminate].
Defined.

End System.
